(* ===== verification/_CoqProject ===== *)
-Q . S2P
Prelude.v
Text.v
Json.v
Errors.v
Env.v
Secrets.v
Config.v
Security.v
Models.v
RateLimit.v
Media.v
EventBus.v
Codec.v
Jid.v
Records.v
Tables.v
Database.v
Relational.v
DatabaseSpec.v
Snapshot.v
Whatsapp.v
WhatsappClient.v
Store.v
Contacts.v
Groups.v
Conversations.v
Messages.v
Inbox.v
MessageLog.v
Restart.v
Demo.v
MessageSpec.v
SnapshotSpec.v
Channels.v
Bytes.v
Transcripts.v
MediaOps.v
RetentionSpec.v
SpeechToText.v
Dirty.v
DirtySpec.v
Net.v
Callbacks.v
CallbackSpec.v
Sending.v
SendingSpec.v
Uploads.v
UploadSpec.v
InboundMedia.v
WhatsappEvents.v
EventSpec.v
Outbox.v
Workers.v
Startup.v
ChannelSpec.v
OutboxSpec.v
RelationalSpec.v
CopySpec.v
ConsumerSpec.v
Privacy.v
Keeps.v
Wire.v
TenantSpec.v
PrivacySpec.v
Paging.v
Queries.v
Routes.v
Router.v
RouterSpec.v
Openapi.v
OpenapiSpec.v
Websocket.v
Operator.v
WebsocketSpec.v
QuerySpec.v
RoutesSpec.v
System.v
Deployment.v
OperatorSpec.v
StartupSpec.v
