(* ===== verification/Prelude.v ===== *)
(** * RustZap: a verification development

    RustZap (src/src) is a multi-tenant gateway between REST clients and
    WhatsApp.  A process owns one store behind a mutex (state.rs), a manager of
    WhatsApp clients (whatsapp.rs), a byte store for media (storage.rs) and an
    event bus (eventbus.rs); HTTP handlers, background workers and the client
    library call the methods of [AppState].  This library models these methods
    and proves what makes them correct.

    ** How the program is modelled

    A method of [AppState] is a computation in a state monad over the record
    [Store.AppState].  Most methods hold the lock of the store once, and are one
    atomic transition.  Methods that give it up in the middle and wait are
    programs of blocks ([Async] below): the dispatch of a message, the retention
    pass and the clean-up of temporary media, the reading of stored bytes, the
    publisher of the outbox; the upload pipeline is given as the phases of a
    request ([Uploads.advance]).  Their blocks are transitions of their own in
    [System.reachable], [StartupSpec.deployed] and [OutboxSpec.outbox_step], so
    that the invariants and the refinement of the outbox speak of every
    interleaving; [run_async] is the run nothing interrupts, of which the
    functional theorems speak ([SendingSpec.dispatch_outcome], those of
    RetentionSpec).  The handlers of requests, the consumer, the drainer, the
    transcription worker, the delivery of webhooks and the profile look-ups,
    which wait for the outside too, are one transition each, with the answers of
    the outside as arguments.  A function on [StoreInner] is a pure function;
    [Result] is [result] below; a [HashMap] is a [gmap] iterated in an order that is a parameter
    ([HashOrder]: any permutation); integers are [Z] with their width written
    out ([wrap_u64], [sat_add_u32], ...); text is the bytes of its UTF-8
    encoding. What is not part of the repository is a parameter: the clock and
    the UUID generator ([Env.Env], with SHA-256 and the text of JSON values),
    AES-GCM, Base64 and HMAC ([Secrets.Crypto]), the URL parser, the HTTP
    client, the speech-to-text service, the WhatsApp client library
    ([WhatsappClient.WaClient]), the broker, the failures of the database
    server ([Database.Postgres]), of the file system or of the S3 service
    ([Bytes.ByteIo], [Uploads.StagingIo]). Laws of these parameters are classes
    ([Env.EnvLaws], [Env.TimeLaws], [Secrets.CryptoLaws], ...) with concrete
    instances.

    ** The files

    - Prelude, Text, Json, Env, Net: record update, results, computations and
      those that wait, lists, integers, strings and numerals, [serde_json] values, the environment, IP addresses.
    - Errors (error.rs), Config (config.rs), Models (models.rs), RateLimit
      (rate_limit.rs), Media (media.rs), EventBus (the pure part of
      eventbus.rs), Codec (the JSON of events), Secrets (secrets.rs), Security
      (security.rs), Bytes (storage.rs), Whatsapp and WhatsappClient
      (whatsapp.rs): one module of the program each.
    - Database (db.rs): the tables of the outbox, the inbox, the dead letters
      and the snapshots; a statement is a step of the server, which may refuse
      it or lose its answer, and a transaction takes effect when it commits.
      Tables (the schema under src/migrations, with its keys and references)
      and Relational (persist_store and its upserts): the copy of the records.
    - state.rs is split by subject: Jid, Records, Snapshot, Store, Contacts,
      Groups, Conversations, Messages, Inbox, Channels, Transcripts and
      SpeechToText (with transcription.rs), MediaOps, Dirty, Callbacks, Sending, Uploads,
      InboundMedia, WhatsappEvents (process_whatsapp_event and the tasks it
      spawns), Privacy, Paging (with the cursor of routes.rs), Queries (lists,
      searches, inspections).
    - routes.rs: Wire (the JSON of the records and the bodies of requests),
      Routes (one handler per endpoint: the handler's query, body and path are
      its arguments), Router (the table of build_router, and the handler of
      each endpoint), Websocket (websocket_session, turn by turn), Openapi (the
      OpenAPI and AsyncAPI documents), Operator (health, readiness, metrics,
      /debug, media previews, with the methods of state.rs they call; and the
      server: the identifier of a request, the router, the answer).
    - Outbox (eventbus.rs, and the workers of state.rs that use it): the store,
      the database and the broker together; publishers, drainer, consumer.
      Workers (workers.rs): the three Kafka workers.
    - Startup (from_config and the sessions found on disk, state.rs; main.rs):
      how a process starts, over the store, the database and the broker.
    - MessageLog: the invariant of the message log and the rules by which an
      operation keeps it ([keeps], with its hint database), which also says
      that media and transcripts are filed under their identifiers; Keeps: the
      operations of the other components keep it; Restart: so does the passage
      through a snapshot (with the decidable equality of the records).
      MessageSpec (recording, and the patch of a conversation), SnapshotSpec,
      ChannelSpec (with the sessions found on disk), RetentionSpec, DirtySpec,
      CallbackSpec, SendingSpec, UploadSpec, EventSpec, DatabaseSpec, OutboxSpec
      (with the demonstration deployment), RelationalSpec, CopySpec,
      ConsumerSpec (with the Kafka workers), TenantSpec, PrivacySpec (with the
      transcripts that must not be kept), QuerySpec, RouterSpec, RoutesSpec,
      OpenapiSpec, WebsocketSpec, OperatorSpec, StartupSpec: what each component
      promises.  Demo: a concrete state for the witnesses.
    - System: the operations (the HTTP requests and the turns of a WebSocket
      connection among them) as transitions, the reachable states, across
      restarts from any snapshot given to the sink ([Store.app_snapshots] is
      the history of them), and the invariant in all of them.  Deployment: the
      requests, the publishers, the drainer and the workers keep it too, over
      the database and the broker ([tends], with its hint database).

    ** What is shown

    - The log (System, MessageSpec): every reachable state has a well-formed
      message log; recording appends one message; a WhatsApp delivery is
      recorded once.
    - Restarts (StartupSpec, ChannelSpec): in any run of a deployment, its
      server, publishers, drainer and workers included (dispatches, retention
      and publishers block by block), the log is well formed
      in the process and in the snapshot of the database; a process reads back
      what the one before it persisted; every session on disk has its channel.
    - The records (System): in every reachable state they are filed as the
      copy to the database needs them.
    - The REST interface (RouterSpec, RoutesSpec, QuerySpec): an endpoint is
      answered at its address and nowhere else; an object of another company in
      the path of a request is refused without effect, and so is a simulated
      event outside development, a send without a key and a request over one of
      its budgets; a request to send, sent again in any later state that holds
      its key, is the same message; a search read page by
      page is the list of the matches.
    - The server and its operator (OperatorSpec): every answer names its request
      and no two requests are given one name; a process that reports ready has
      what it needs; the endpoints of the operator only look, but for the replay
      of a dead letter, which succeeds once.
    - The documents (OpenapiSpec): the OpenAPI document lists the routes, the
      JSON the program sends conforms to its schemas, the AsyncAPI document
      names the topics of the events (the last as a lemma).
    - The event stream (WebsocketSpec): a connection is sent events of the
      tenant it subscribed to only, and all of them once it has caught up,
      unless it fell behind the capacity of the channel.
    - Sending (SendingSpec): idempotency keys, the outcome of a dispatch, work
      events handled once.
    - Events of the client library (EventSpec): a redelivered message leaves
      the log alone, a pairing code never reaches the event bus.
    - Uploads (UploadSpec): requests with one key, interleaved block by block,
      write at most one object, and each is answered; the method run alone is
      the composition of its blocks; what it stores and what it answers.
    - Durable events (DatabaseSpec, OutboxSpec, ConsumerSpec): the outbox, its
      publisher, claims, replays and snapshots refine a ledger of accepted,
      sent, completed and buried events, in any interleaving of statements and
      under any failure; what is marked published is in the broker's log; a claimed row
      is not claimed again while its lease lasts; an event the broker refuses
      is tried as often as configured (once at least), with growing delays, and
      dead-lettered, while the database answers; a dead letter is replayed once;
      a committed message is not handled again, which holds for the replay of a
      dead letter too; the drainer handles a batch as the application
      would.
    - The Kafka workers (ConsumerSpec): a committed message had been handled
      before, or its operation succeeded and its effects stand, or its dead
      letter is in the database.
    - Speech to text (SpeechToText): the client refines the step of the worker;
      the conversion leaves no file behind; a .wav file is never converted.
    - The relational copy (RelationalSpec, CopySpec): a copy that answers
      success holds every record of the snapshot; a snapshot that refers to
      what it names, and does not collide with older rows, can be copied again
      and again; a message recorded twice stops every copy, and so does the row
      of a message that retention removed and WhatsApp delivered again.
    - Polling (DirtySpec): leases, positions and dirty marks.
    - Tenants and privacy (TenantSpec, PrivacySpec): isolation
      of reads and exports, anonymization, transcripts that must not be kept.
    - Webhooks (CallbackSpec): bounded attempts, private fields, URLs.
    - Snapshots and retention (SnapshotSpec, RetentionSpec): round trip,
      sanitizing, what retention removes and keeps, bytes before records (but for
      an R2 without credentials).
    - Channels and inbox (ChannelSpec, MessageSpec), paging (Paging), rate
      limiting (RateLimit), storage paths (Bytes), secrets (Secrets), topics,
      codec and dead letters (EventBus).

    ** Bounds and fuel

    Sequence numbers are [i64]: the invariant speaks of runs that draw fewer
    than 2^63 UUIDs, each recorded message drawing one.  [Paging.read_pages]
    and [Paging.read_list] iterate a client; their fuel exceeds the number of
    items, which is enough since every page but the last is not empty.  The
    wait of an upload for another under the same key is the loop of the code,
    of at most [Uploads.MAX_WAIT_ATTEMPTS] turns; [WebsocketSpec.drain] takes
    as many turns as events wait.  No other definition has fuel.

    ** What is not modelled

    The reading of a request by axum and serde: a handler is given the values
    the extractors hand it, and what axum answers by itself is a parameter
    ([Operator.Axum]); the text of JSON and of multipart bodies; the signing of
    requests to the S3 service (storage.rs), whose answers are [Bytes.R2Service];
    the creation of the Kafka clients, of which the source only sets options;
    the session store and the pairing of the client library (whatsapp.rs);
    logging, the listener and the signals of main.rs; tests.  Each is input or
    output of the process, or a library the source calls. *)

From Stdlib Require Export Ascii.
From stdpp Require Export base gmap sets sorting numbers strings list pretty.


#[export] Set Warnings "-postfix-notation-not-level-1,-clear-no-such-hyp".

Declare Scope rz_scope.
Delimit Scope rz_scope with rz.
Open Scope rz_scope.
Open Scope Z_scope.

Create HintDb rz.
Create Rewrite HintDb rz.

(** ** Record update

    [x <| field := v |>] is the Rust assignment [x.field = v] on an owned
    record.  Each record declares its eta expansion once ([Eta]); the setter of
    a projection is computed from it by type-class resolution. *)
Class Eta (R : Type) := eta_expand : R → R.
Class Setter {R T : Type} (proj : R → T) := set_field : (T → T) → R → R.
Arguments set_field {R T} proj {_} _ _ /.

Ltac build_setter p :=
  lazymatch type of p with
  | ?R → ?T =>
    exact (λ (f : T → T) (r : R),
      ltac:(let inst := constr:(_ : Eta R) in
            let h := lazymatch inst with ?c => c end in
            let b := eval unfold h, eta_expand in (eta_expand (Eta:=inst) r) in
            let g := eval pattern (p r) in b in
            lazymatch g with
            | ?k _ => let res := eval cbv beta in (k (f (p r))) in exact res
            end))
  end.
#[export] Hint Extern 1 (Setter ?p) => build_setter p : typeclass_instances.

Notation "x <| p := v |>" := (set_field p (λ _, v) x)
  (at level 12, left associativity, p at next level, v at level 99) : rz_scope.
Notation "x <| p ::= f |>" := (set_field p f x)
  (at level 12, left associativity, p at next level, f at level 99) : rz_scope.

(** ** Fallible code: [Result<T, E>] *)
Inductive result (A E : Type) : Type :=
| Ok (a : A)
| Err (e : E).
Arguments Ok {A E} a.
Arguments Err {A E} e.

#[export] Instance result_eq_dec {A E} `{EqDecision A} `{EqDecision E} :
  EqDecision (result A E).
Proof. solve_decision. Defined.

Definition is_ok {A E} (r : result A E) : bool :=
  match r with Ok _ => true | Err _ => false end.

(** [opt.ok_or_else(|| e)] *)
Definition ok_or {A E} (o : option A) (e : E) : result A E :=
  match o with Some a => Ok a | None => Err e end.

Definition map_result {A B E} (f : A → B) (r : result A E) : result B E :=
  match r with Ok a => Ok (f a) | Err e => Err e end.

Notation "'let?' x ':=' m 'in' k" :=
  (match m with Ok x => k | Err e => Err e end)
  (at level 10, x binder, m at level 100, k at level 200) : rz_scope.

(** ** Stateful code: a state monad

    [let! x := m in k] sequences two stateful computations;
    [try! x := m in k] does the same for a computation that returns a
    [result], and returns early on [Err], as the [?] operator does.  The state
    reached before the early return is kept. *)
Definition ST (S A : Type) : Type := S → A * S.
Definition ret {S A} (a : A) : ST S A := λ s, (a, s).
Definition bind {S A B} (m : ST S A) (k : A → ST S B) : ST S B :=
  λ s, let '(a, s') := m s in k a s'.
Definition bindR {S A B E} (m : ST S (result A E)) (k : A → ST S (result B E))
  : ST S (result B E) :=
  bind m (λ r, match r with Ok a => k a | Err e => ret (Err e) end).
Definition gets {S A} (f : S → A) : ST S A := λ s, (f s, s).
Definition modify {S} (f : S → S) : ST S unit := λ s, (tt, f s).
Definition state_of {S A} (m : ST S A) (s : S) : S := (m s).2.
Definition value_of {S A} (m : ST S A) (s : S) : A := (m s).1.

Notation "'let!' x ':=' m 'in' k" := (bind m (λ x, k))
  (at level 10, x binder, m at level 100, k at level 200) : rz_scope.
Notation "'try!' x ':=' m 'in' k" := (bindR m (λ x, k))
  (at level 10, x binder, m at level 100, k at level 200) : rz_scope.
Notation "m ;;; k" := (bind m (λ _ : unit, k))
  (at level 100, k at level 200, right associativity) : rz_scope.

(** [for x in l { f(x) }] *)
Fixpoint for_each {S A} (f : A → ST S unit) (l : list A) : ST S unit :=
  match l with
  | [] => ret tt
  | x :: l => f x;;; for_each f l
  end.
(** [for x in l { f(x)?; }] *)
Fixpoint try_each {S A E} (f : A → ST S (result unit E)) (l : list A) : ST S (result unit E) :=
  match l with
  | [] => ret (Ok tt)
  | x :: l => bindR (f x) (λ _, try_each f l)
  end.

Lemma try_each_cons {S A E} (f : A → ST S (result unit E)) x l :
  try_each f (x :: l) = bindR (f x) (λ _, try_each f l).
Proof. done. Qed.

(** ** Preservation of a state predicate by a computation *)
Definition preserves {S A} (I : S → Prop) (m : ST S A) : Prop :=
  ∀ s, I s → I (state_of m s).

Lemma preserves_ret {S A} (I : S → Prop) (a : A) : preserves I (ret a).
Proof. by intros s ?. Qed.

Lemma preserves_gets {S A} (I : S → Prop) (f : S → A) : preserves I (gets f).
Proof. by intros s ?. Qed.

Lemma preserves_modify {S} (I : S → Prop) (f : S → S) :
  (∀ s, I s → I (f s)) → preserves I (modify f).
Proof. intros Hf s Hs. by apply Hf. Qed.

Lemma preserves_bind {S A B} (I : S → Prop) (m : ST S A) (k : A → ST S B) :
  preserves I m → (∀ a, preserves I (k a)) → preserves I (bind m k).
Proof.
  intros Hm Hk s Hs. unfold preserves, state_of, bind in *.
  specialize (Hm s Hs). destruct (m s) as [a s'] eqn:E. by apply Hk.
Qed.

Lemma preserves_bindR {S A B E} (I : S → Prop)
    (m : ST S (result A E)) (k : A → ST S (result B E)) :
  preserves I m → (∀ a, preserves I (k a)) → preserves I (bindR m k).
Proof.
  intros Hm Hk. apply preserves_bind; [done|].
  intros [a|e]; [apply Hk | apply preserves_ret].
Qed.

Lemma preserves_for_each {S A} (I : S → Prop) (f : A → ST S unit) l :
  (∀ a, preserves I (f a)) → preserves I (for_each f l).
Proof.
  intros Hf. induction l as [|x l IH]; simpl; [apply preserves_ret|].
  by apply preserves_bind.
Qed.

#[export] Hint Resolve preserves_ret preserves_gets preserves_modify
  preserves_bind preserves_bindR preserves_for_each : rz.

(** Running a bind: the equations the functional proofs rewrite with. *)
Lemma bind_run {S A B} (m : ST S A) (k : A → ST S B) s :
  bind m k s = k (value_of m s) (state_of m s).
Proof. unfold bind, value_of, state_of. by destruct (m s). Qed.

Lemma state_of_bind {S A B} (m : ST S A) (k : A → ST S B) s :
  state_of (bind m k) s = state_of (k (value_of m s)) (state_of m s).
Proof. unfold state_of at 1. by rewrite bind_run. Qed.

Lemma value_of_bind {S A B} (m : ST S A) (k : A → ST S B) s :
  value_of (bind m k) s = value_of (k (value_of m s)) (state_of m s).
Proof. unfold value_of at 1. by rewrite bind_run. Qed.

Lemma bindR_ret {S A B E} (r : result A E) (k : A → ST S (result B E)) s :
  bindR (ret r) k s = match r with Ok a => k a s | Err e => (Err e, s) end.
Proof. by destruct r. Qed.

(** ** Computations that wait

    An [async] method gives the state up at every [await], and a method that
    takes a lock several times gives it up in between: [Await block resume] runs
    [block] while it has the state, and goes on with [resume] of what the block
    answered.  [run_async] is the run that nobody interrupts; [block_of] are the
    blocks that a run, whatever the blocks before it answered, can come to. *)
Inductive Async (S A : Type) : Type :=
| Finish (a : A)
| Await {X : Type} (block : ST S X) (resume : X → Async S A).
Arguments Finish {S A} _.
Arguments Await {S A X} _ _.

Notation "'do!' x ':=' m 'in' k" := (Await m (λ x, k))
  (at level 10, x binder, m at level 100, k at level 200) : rz_scope.

(** A method that waits calls another one. *)
Fixpoint call {S A B} (p : Async S A) (k : A → Async S B) : Async S B :=
  match p with
  | Finish a => k a
  | Await block resume => Await block (λ x, call (resume x) k)
  end.
Notation "'call!' x ':=' p 'in' k" := (call p (λ x, k))
  (at level 10, x binder, p at level 100, k at level 200) : rz_scope.

Fixpoint run_async {S A} (p : Async S A) : ST S A :=
  match p with
  | Finish a => ret a
  | Await block resume => bind block (λ x, run_async (resume x))
  end.

(** [for x in l { f(x).await }] *)
Fixpoint call_each {S A} (f : A → Async S unit) (l : list A) : Async S unit :=
  match l with
  | [] => Finish tt
  | x :: l => call! _ := f x in call_each f l
  end.

Inductive block_of {S A} : Async S A → ST S unit → Prop :=
| block_first {X} (block : ST S X) resume :
    block_of (Await block resume) (bind block (λ _, ret tt))
| block_next {X} (block : ST S X) resume x m :
    block_of (resume x) m → block_of (Await block resume) m.

(** Every block satisfies [P]. *)
Fixpoint every {S A} (P : ∀ X, ST S X → Prop) (p : Async S A) : Prop :=
  match p with
  | Finish _ => True
  | Await block resume => P _ block ∧ ∀ x, every P (resume x)
  end.

Lemma every_call {S A B} P (p : Async S A) (k : A → Async S B) :
  every P p → (∀ a, every P (k a)) → every P (call p k).
Proof. intros Hp Hk. induction p as [a|X block resume IH]; simpl; [done|]. destruct Hp. auto. Qed.
Lemma every_call_each {S A} P (f : A → Async S unit) l :
  (∀ a, every P (f a)) → every P (call_each f l).
Proof. intros Hf. induction l as [|x l IH]; simpl; [done|]. by apply every_call. Qed.
Lemma every_block {S A} P (Q : ST S unit → Prop) (p : Async S A) m :
  (∀ X (block : ST S X), P X block → Q (bind block (λ _, ret tt))) →
  every P p → block_of p m → Q m.
Proof.
  intros HQ Hp Hm. induction Hm as [X block resume|X block resume x m Hm IH]; destruct Hp; auto.
Qed.
Lemma preserves_run {S A} (I : S → Prop) (p : Async S A) :
  every (λ _, preserves I) p → preserves I (run_async p).
Proof.
  intros Hp. induction p as [a|Y block resume IH]; simpl; [apply preserves_ret|].
  destruct Hp. apply preserves_bind; auto.
Qed.
(** Running a call runs the two one after the other. *)
Lemma run_call {S A B} (p : Async S A) (k : A → Async S B) s :
  run_async (call p k) s = bind (run_async p) (λ a, run_async (k a)) s.
Proof.
  revert s. induction p as [a|X block resume IH]; intros s; simpl; [done|].
  by rewrite !bind_run, IH, bind_run, value_of_bind, state_of_bind.
Qed.

Lemma state_of_each_app {S A} (f : A → ST S unit) l l' s :
  state_of (for_each f (l ++ l')) s = state_of (for_each f l') (state_of (for_each f l) s).
Proof.
  revert s. induction l as [|x l IH]; intros s; simpl; [done|]. by rewrite !state_of_bind, IH.
Qed.
Lemma run_call_each {S A} (f : A → Async S unit) l s :
  run_async (call_each f l) s = for_each (λ a, run_async (f a)) l s.
Proof.
  revert s. induction l as [|x l IH]; intros s; simpl; [done|].
  rewrite run_call, !bind_run. apply IH.
Qed.

(** ** Triples: what a computation returns and leaves

    [triple P m Q]: from a state in [P], the value and the state [m] leaves
    are in [Q].  [frame π m]: [m] does not change the part [π] of the state. *)
Definition triple {S A} (P : S → Prop) (m : ST S A) (Q : A → S → Prop) : Prop :=
  ∀ s, P s → Q (value_of m s) (state_of m s).
Definition frame {S A X} (π : S → X) (m : ST S A) : Prop := ∀ s, π (state_of m s) = π s.

Lemma triple_ret {S A} (P : S → Prop) (a : A) Q : (∀ s, P s → Q a s) → triple P (ret a) Q.
Proof. intros HQ s Hs. by apply HQ. Qed.

Lemma triple_ret_bind {S A B} (P : S → Prop) (a : A) (k : A → ST S B) Q :
  triple P (k a) Q → triple P (bind (ret a) k) Q.
Proof. done. Qed.

Lemma triple_bind {S A B} (P : S → Prop) (R : A → S → Prop) (Q : B → S → Prop)
    (m : ST S A) (k : A → ST S B) :
  triple P m R → (∀ a, triple (R a) (k a) Q) → triple P (bind m k) Q.
Proof. intros Hm Hk s Hs. rewrite value_of_bind, state_of_bind. apply Hk, Hm, Hs. Qed.

Lemma triple_call {S A B} (P : S → Prop) (R : A → S → Prop) (Q : B → S → Prop)
    (p : Async S A) (k : A → Async S B) :
  triple P (run_async p) R → (∀ a, triple (R a) (run_async (k a)) Q) →
  triple P (run_async (call p k)) Q.
Proof.
  intros Hp Hk s Hs. unfold value_of, state_of. rewrite run_call.
  by apply (triple_bind P R Q (run_async p) (λ a, run_async (k a))).
Qed.

Lemma triple_run {S A} (P : S → Prop) (m : ST S A) Q s :
  triple P m Q → P s → let '(a, s') := m s in Q a s'.
Proof. intros Hm Hs. specialize (Hm s Hs). unfold value_of, state_of in Hm. by destruct (m s). Qed.

Lemma triple_gets {S A B} (P : S → Prop) (f : S → A) (k : A → ST S B) Q :
  (∀ s, P s → Q (value_of (k (f s)) s) (state_of (k (f s)) s)) →
  triple P (bind (gets f) k) Q.
Proof. intros Hk s Hs. rewrite value_of_bind, state_of_bind. by apply Hk. Qed.

Lemma triple_frame {S A X} (π : S → X) (P : X → Prop) (m : ST S A) :
  frame π m → triple (λ s, P (π s)) m (λ _ s, P (π s)).
Proof. intros Hf s Hs. by rewrite Hf. Qed.

Lemma frame_ret {S A X} (π : S → X) (a : A) : frame π (ret a).
Proof. by intros s. Qed.

Lemma frame_gets {S A X} (π : S → X) (f : S → A) : frame π (gets f).
Proof. by intros s. Qed.

Lemma frame_modify {S X} (π : S → X) f : (∀ s, π (f s) = π s) → frame π (modify f).
Proof. intros Hf s. apply Hf. Qed.

Lemma frame_bind {S A B X} (π : S → X) (m : ST S A) (k : A → ST S B) :
  frame π m → (∀ a, frame π (k a)) → frame π (bind m k).
Proof. intros Hm Hk s. rewrite state_of_bind, Hk. apply Hm. Qed.

Lemma frame_bindR {S A B E X} (π : S → X) (m : ST S (result A E))
    (k : A → ST S (result B E)) :
  frame π m → (∀ a, frame π (k a)) → frame π (bindR m k).
Proof. intros Hm Hk. apply frame_bind; [done|]. intros [a|e]; [apply Hk|apply frame_ret]. Qed.

Lemma frame_for_each {S A X} (π : S → X) (f : A → ST S unit) l :
  (∀ a, frame π (f a)) → frame π (for_each f l).
Proof.
  intros Hf. induction l as [|x l IH]; simpl; [apply frame_ret|]. by apply frame_bind.
Qed.

Lemma frame_try_each {S A E X} (π : S → X) (f : A → ST S (result unit E)) l :
  (∀ a, frame π (f a)) → frame π (try_each f l).
Proof.
  intros Hf. induction l as [|x l IH]; simpl; [apply frame_ret|]. by apply frame_bindR.
Qed.

(** A program no block of which changes it. *)
Definition all_frame {S A X} (π : S → X) (p : Async S A) : Prop := every (λ Y, frame (A:=Y) π) p.
Lemma frame_run {S A X} (π : S → X) (p : Async S A) : all_frame π p → frame π (run_async p).
Proof.
  unfold all_frame. induction p as [a|Y block resume IH]; simpl; intros Hp; [apply frame_ret|].
  destruct Hp. apply frame_bind; auto.
Qed.
Lemma all_frame_finish {S A X} (π : S → X) (a : A) : all_frame π (Finish a).
Proof. done. Qed.
Lemma all_frame_await {S A B X} (π : S → X) (m : ST S B) (k : B → Async S A) :
  frame π m → (∀ b, all_frame π (k b)) → all_frame π (Await m k).
Proof. by split. Qed.
Lemma all_frame_call {S A B X} (π : S → X) (p : Async S A) (k : A → Async S B) :
  all_frame π p → (∀ a, all_frame π (k a)) → all_frame π (call p k).
Proof. apply every_call. Qed.

Create HintDb frame discriminated.
#[export] Hint Constants Opaque : frame.
#[export] Hint Resolve frame_ret frame_gets : frame.

(** One rule of the frame calculus, by the shape of the computation. *)
Ltac frame_step :=
  cbv beta;
  lazymatch goal with
  | |- ∀ _, _ => intros ?
  | |- frame _ (match ?x with _ => _ end) => destruct x eqn:?
  | |- frame _ (bind _ _) => apply frame_bind; [|intros ?]
  | |- frame _ (bindR _ _) => apply frame_bindR; [|intros ?]
  | |- frame _ (for_each _ _) => apply frame_for_each; intros ?
  | |- frame _ (try_each _ _) => apply frame_try_each; intros ?
  | |- frame _ (modify _) => apply frame_modify; intros ?; try reflexivity
  | |- frame _ (run_async _) => apply frame_run
  | |- all_frame _ (Finish _) => apply all_frame_finish
  | |- all_frame _ (Await _ _) => apply all_frame_await; [|intros ?]
  | |- all_frame _ (call _ _) => apply all_frame_call; [|intros ?]
  | |- all_frame _ (match ?x with _ => _ end) => destruct x eqn:?
  | |- all_frame _ _ => solve [eauto with frame]
  | |- frame _ _ => first [solve [eauto with frame] | intros ?; reflexivity]
  end.
Ltac frame_tac := repeat frame_step.

(** ** Machine integers

    The crate has no [profile] section that turns overflow checks on, so a
    release build wraps.  [wrap_i64], [wrap_u64] are the two's complement
    results; the [sat_*] functions are Rust's [saturating_*] methods. *)
Definition u32_max : Z := 2 ^ 32 - 1.
Definition u64_max : Z := 2 ^ 64 - 1.
Definition i64_max : Z := 2 ^ 63 - 1.
Definition i64_min : Z := - 2 ^ 63.
Definition wrap_u64 (z : Z) : Z := z `mod` 2 ^ 64.
Definition wrap_i64 (z : Z) : Z := (z + 2 ^ 63) `mod` 2 ^ 64 - 2 ^ 63.
Definition wrap_i32 (z : Z) : Z := (z + 2 ^ 31) `mod` 2 ^ 32 - 2 ^ 31.
Definition wrap_u32 (z : Z) : Z := z `mod` 2 ^ 32.
Definition sat_add_u32 (a b : Z) : Z := Z.min (a + b) u32_max.
Definition sat_sub_u32 (a b : Z) : Z := Z.max (a - b) 0.
Definition sat_mul_u64 (a b : Z) : Z := Z.min (a * b) u64_max.
Definition sat_add_usize (a b : nat) : nat := (a + b)%nat.
Definition sat_mul_i64 (a b : Z) : Z := Z.max i64_min (Z.min (a * b) i64_max).
Definition sat_add_i32 (a b : Z) : Z := Z.max (- 2 ^ 31) (Z.min (a + b) (2 ^ 31 - 1)).

Lemma wrap_i64_small z : i64_min ≤ z ≤ i64_max → wrap_i64 z = z.
Proof.
  unfold wrap_i64, i64_min, i64_max. intros H.
  rewrite Z.mod_small; lia.
Qed.

Lemma wrap_u64_small z : 0 ≤ z ≤ u64_max → wrap_u64 z = z.
Proof. unfold wrap_u64, u64_max. intros H. apply Z.mod_small. lia. Qed.

Lemma wrap_i64_range z : i64_min ≤ wrap_i64 z ≤ i64_max.
Proof.
  unfold wrap_i64, i64_min, i64_max.
  pose proof (Z.mod_pos_bound (z + 2 ^ 63) (2 ^ 64) ltac:(lia)). lia.
Qed.

(** ** Iteration order of [HashMap]

    [std::collections::HashMap] iterates in an unspecified order.  The order
    is a parameter: any enumeration of the entries is allowed. *)
Class HashOrder := {
  hm_iter : ∀ {K V} `{Countable K}, gmap K V → list (K * V);
  hm_iter_perm : ∀ {K V} `{Countable K} (m : gmap K V),
    hm_iter m ≡ₚ map_to_list m
}.

(** One admissible order, for evaluating concrete runs. *)
Definition canonical_order : HashOrder.
Proof.
  refine {| hm_iter := λ K V _ _, map_to_list |}.
  done.
Defined.

Section hash_order.
Context `{HO : HashOrder} {K V : Type} `{Countable K}.

Definition hm_values (m : gmap K V) : list V := (hm_iter m).*2.
Definition hm_keys (m : gmap K V) : list K := (hm_iter m).*1.

Lemma elem_of_hm_iter (m : gmap K V) k v : (k, v) ∈ hm_iter m ↔ m !! k = Some v.
Proof. rewrite hm_iter_perm. apply elem_of_map_to_list. Qed.

Lemma elem_of_hm_values (m : gmap K V) v : v ∈ hm_values m ↔ ∃ k, m !! k = Some v.
Proof.
  unfold hm_values. rewrite list_elem_of_fmap. split.
  - intros ([k v'] & -> & Hk%elem_of_hm_iter). eauto.
  - intros [k Hk%elem_of_hm_iter]. by exists (k, v).
Qed.

Lemma hm_iter_NoDup (m : gmap K V) : NoDup ((hm_iter m).*1).
Proof. rewrite hm_iter_perm. apply NoDup_fst_map_to_list. Qed.

Lemma hm_iter_length (m : gmap K V) : length (hm_iter m) = size m.
Proof. rewrite hm_iter_perm. apply length_map_to_list. Qed.
End hash_order.

(** ** Lists *)

(** [iter().find(p)] *)
Fixpoint find {A} (p : A → bool) (l : list A) : option A :=
  match l with
  | [] => None
  | x :: l => if p x then Some x else find p l
  end.

(** [iter().find_map(f)] *)
Fixpoint find_map {A B} (f : A → option B) (l : list A) : option B :=
  match l with
  | [] => None
  | x :: l => match f x with Some y => Some y | None => find_map f l end
  end.

(** [iter_mut().find(p)] followed by an assignment through the reference. *)
Fixpoint replace_first {A} (p : A → bool) (y : A) (l : list A) : list A :=
  match l with
  | [] => []
  | x :: l => if p x then y :: l else x :: replace_first p y l
  end.

Lemma find_Some {A} (p : A → bool) l x : find p l = Some x → x ∈ l ∧ p x = true.
Proof.
  induction l as [|y l IH]; simpl; [done|].
  destruct (p y) eqn:Hy; intros H; [simplify_eq; set_solver|].
  apply IH in H. set_solver.
Qed.

Lemma find_None {A} (p : A → bool) l : find p l = None ↔ ∀ x, x ∈ l → p x = false.
Proof.
  induction l as [|y l IH]; simpl; [set_solver|].
  destruct (p y) eqn:Hy; split.
  - done.
  - intros H. specialize (H y). rewrite Hy in H. set_solver.
  - intros H x [->|Hx]%elem_of_cons; [done|]. by apply IH.
  - intros H. apply IH. set_solver.
Qed.

Lemma find_map_Some {A B} (f : A → option B) l y :
  find_map f l = Some y → ∃ x, x ∈ l ∧ f x = Some y.
Proof.
  induction l as [|x l IH]; simpl; [done|].
  destruct (f x) eqn:Hx; intros H; [simplify_eq; exists x; set_solver|].
  destruct (IH H) as (z & ? & ?). exists z. set_solver.
Qed.

Lemma find_map_None {A B} (f : A → option B) l :
  find_map f l = None ↔ ∀ x, x ∈ l → f x = None.
Proof.
  induction l as [|y l IH]; simpl; [set_solver|].
  destruct (f y) eqn:Hy; split; intros H.
  - done.
  - specialize (H y). rewrite Hy in H. set_solver.
  - intros x [->|Hx]%elem_of_cons; [done|]. by apply IH.
  - apply IH. set_solver.
Qed.

Lemma length_replace_first {A} (p : A → bool) y l :
  length (replace_first p y l) = length l.
Proof. induction l as [|x l IH]; simpl; [done|]. destruct (p x); simpl; lia. Qed.

Lemma fmap_replace_first {A B} (f : A → B) (p : A → bool) y l :
  (∀ x, x ∈ l → p x = true → f x = f y) → f <$> replace_first p y l = f <$> l.
Proof.
  induction l as [|x l IH]; simpl; intros H; [done|].
  destruct (p x) eqn:Hx; simpl.
  - f_equal. symmetry. apply H; [set_solver|done].
  - f_equal. apply IH. set_solver.
Qed.

Lemma elem_of_replace_first {A} (p : A → bool) y l x :
  x ∈ replace_first p y l → x = y ∨ x ∈ l.
Proof.
  induction l as [|z l IH]; simpl; [set_solver|].
  destruct (p z); set_solver.
Qed.

(** [truncate] and [sort_by] (a stable sort; insertion keeps equal elements in
    their original order). *)
Fixpoint sort_insert {A} (le : A → A → bool) (x : A) (l : list A) : list A :=
  match l with
  | [] => [x]
  | y :: l' => if le x y then x :: l else y :: sort_insert le x l'
  end.
Definition sort_by {A} (le : A → A → bool) (l : list A) : list A :=
  foldr (sort_insert le) [] l.

Lemma sort_insert_perm {A} (le : A → A → bool) x l : sort_insert le x l ≡ₚ x :: l.
Proof.
  induction l as [|y l IH]; simpl; [done|].
  destruct (le x y); [done|]. rewrite IH. constructor.
Qed.

Lemma sort_by_perm {A} (le : A → A → bool) l : sort_by le l ≡ₚ l.
Proof. induction l as [|x l IH]; simpl; [done|]. by rewrite sort_insert_perm, IH. Qed.

Lemma elem_of_sort_by {A} (le : A → A → bool) l x : x ∈ sort_by le l ↔ x ∈ l.
Proof. by rewrite sort_by_perm. Qed.

Section sorting.
Context {A : Type} (le : A → A → bool).
Hypothesis le_total : ∀ x y, le x y = false → le y x = true.
Hypothesis le_trans : ∀ x y z, le x y = true → le y z = true → le x z = true.

Lemma sort_insert_sorted x l :
  StronglySorted (λ a b, le a b = true) l →
  StronglySorted (λ a b, le a b = true) (sort_insert le x l).
Proof.
  induction 1 as [|y l Hs IH Hall]; simpl; [repeat constructor|].
  destruct (le x y) eqn:Hxy.
  - constructor; [by constructor|]. constructor; [done|].
    eapply Forall_impl; [exact Hall|]. simpl. eauto.
  - constructor; [done|]. rewrite sort_insert_perm. constructor; auto.
Qed.

Lemma sort_by_sorted l : StronglySorted (λ a b, le a b = true) (sort_by le l).
Proof. induction l; simpl; [constructor|]. by apply sort_insert_sorted. Qed.
End sorting.

Lemma sort_by_id {A} (le : A → A → bool) l :
  StronglySorted (λ a b, le a b = true) l → sort_by le l = l.
Proof.
  induction 1 as [|x l Hs IH Hall]; simpl; [done|]. rewrite IH.
  destruct l as [|y l]; [done|]. simpl. inversion Hall as [|?? Hxy]; subst.
  by rewrite Hxy.
Qed.

(** [sort(); dedup()] on a list that is already sorted. *)
Fixpoint dedup {A} `{EqDecision A} (l : list A) : list A :=
  match l with
  | [] => []
  | x :: l' =>
    match dedup l' with
    | (y :: _) as r => if decide (x = y) then r else x :: r
    | [] => [x]
    end
  end.

Lemma elem_of_dedup {A} `{EqDecision A} (l : list A) x : x ∈ dedup l ↔ x ∈ l.
Proof.
  induction l as [|y l IH]; simpl; [done|].
  destruct (dedup l) as [|z r] eqn:E.
  - rewrite (elem_of_cons l), <- IH, list_elem_of_singleton, elem_of_nil. tauto.
  - rewrite (elem_of_cons l), <- IH.
    case_decide; subst; rewrite !elem_of_cons; tauto.
Qed.

(** [retain] on a map: keep the entries that satisfy the predicate. *)
Definition retain {K V} `{Countable K} (p : K → V → bool) (m : gmap K V) : gmap K V :=
  filter (λ kv, p kv.1 kv.2 = true) m.

Lemma lookup_retain_Some {K V} `{Countable K} (p : K → V → bool) (m : gmap K V) k v :
  retain p m !! k = Some v ↔ m !! k = Some v ∧ p k v = true.
Proof. unfold retain. by rewrite map_lookup_filter_Some. Qed.

Lemma lookup_retain_None {K V} `{Countable K} (p : K → V → bool) (m : gmap K V) k :
  retain p m !! k = None ↔ m !! k = None ∨ ∃ v, m !! k = Some v ∧ p k v = false.
Proof.
  unfold retain. rewrite map_lookup_filter_None. split.
  - intros [?|H']; [by left|]. destruct (m !! k) eqn:E; [right|by left].
    eexists; split; [done|]. apply not_true_is_false. by apply H'.
  - intros [?|(v & Hv & Hp)]; [by left|]. right. intros v' Hv' Hp'. simplify_eq/=. congruence.
Qed.

Definition retain_list {A} (p : A → bool) (l : list A) : list A := filter (λ x, p x = true) l.

Lemma elem_of_retain_list {A} (p : A → bool) l x :
  x ∈ retain_list p l ↔ x ∈ l ∧ p x = true.
Proof. unfold retain_list. rewrite list_elem_of_filter. naive_solver. Qed.

Lemma retain_list_cons {A} (p : A → bool) x l :
  retain_list p (x :: l) = if p x then x :: retain_list p l else retain_list p l.
Proof. unfold retain_list. rewrite filter_cons. by destruct (p x). Qed.

#[export] Instance retain_list_perm {A} (p : A → bool) :
  Proper ((≡ₚ) ==> (≡ₚ)) (retain_list p).
Proof. intros l k Hlk. unfold retain_list. by rewrite Hlk. Qed.

Lemma retain_list_app {A} (p : A → bool) l k :
  retain_list p (l ++ k) = retain_list p l ++ retain_list p k.
Proof. apply filter_app. Qed.

Lemma retain_list_all {A} (p : A → bool) l :
  (∀ x, x ∈ l → p x = true) → retain_list p l = l.
Proof.
  unfold retain_list. induction l as [|x l IH]; intros Hp; [done|].
  rewrite filter_cons, decide_True by (apply Hp; left). f_equal.
  apply IH. intros y Hy. apply Hp. by right.
Qed.

Lemma retain_list_none {A} (p : A → bool) l :
  (∀ x, x ∈ l → p x = false) → retain_list p l = [].
Proof.
  unfold retain_list. induction l as [|x l IH]; intros Hp; [done|].
  rewrite filter_cons, decide_False by (rewrite Hp; [done|left]).
  apply IH. intros y Hy. apply Hp. by right.
Qed.

(** Options *)
Definition is_some_and {A} (o : option A) (p : A → bool) : bool :=
  match o with Some a => p a | None => false end.
Definition is_none_or {A} (o : option A) (p : A → bool) : bool :=
  match o with Some a => p a | None => true end.
Definition opt_filter {A} (p : A → bool) (o : option A) : option A :=
  match o with Some a => if p a then Some a else None | None => None end.
Definition opt_or {A} (o o' : option A) : option A :=
  match o with Some _ => o | None => o' end.
Definition unwrap_or {A} (o : option A) (d : A) : A := default d o.
(** [b.then(|| v)] *)
Definition bool_then {A} (b : bool) (v : A) : option A := if b then Some v else None.

Lemma opt_filter_Some {A} (p : A → bool) o a :
  opt_filter p o = Some a ↔ o = Some a ∧ p a = true.
Proof.
  destruct o as [b|]; simpl; [|by split; [|intros [??]]].
  destruct (p b) eqn:?; split; [intros [= ->]|intros [??]|done|intros [[= ->] ?]];
    congruence || auto.
Qed.

(** ** Tactics of the development *)
Ltac split_bools :=
  repeat match goal with
  | H : (_ && _) = true |- _ => apply andb_true_iff in H; destruct H
  | H : (_ || _) = false |- _ => apply orb_false_iff in H; destruct H
  | H : negb _ = true |- _ => apply negb_true_iff in H
  | H : negb _ = false |- _ => apply negb_false_iff in H
  | H : bool_decide _ = true |- _ => apply bool_decide_eq_true in H
  | H : bool_decide _ = false |- _ => apply bool_decide_eq_false in H
  | |- (_ && _) = true => apply andb_true_iff; split
  | |- negb _ = true => apply negb_true_iff
  end.

(** Case analysis on the scrutinee of the first [match] of the goal. *)
Ltac case_step :=
  match goal with
  | |- context [match ?x with _ => _ end] =>
    lazymatch x with
    | context [match _ with _ => _ end] => fail
    | _ => destruct x eqn:?
    end
  end.
