(* ===== verification/Text.v ===== *)
(** * Strings

    The [str] methods the program uses, on the UTF-8 bytes of a string (a
    [string] is a list of bytes here).  [trim] removes Unicode white space, so
    it recognises the UTF-8 encodings of the [White_Space] code points. *)
From S2P Require Import Prelude.

(** [s.len()]: the number of bytes. *)
Abbreviation str_len s := (Z.of_nat (String.length s)).

(** [s.ends_with(suf)], [s.starts_with(pre)], [s.strip_prefix(pre)]. *)
Fixpoint ends_with (s suf : string) : bool :=
  bool_decide (s = suf) ||
  match s with EmptyString => false | String _ s' => ends_with s' suf end.

Fixpoint strip_prefix (s pre : string) {struct pre} : option string :=
  match pre, s with
  | EmptyString, _ => Some s
  | String p pre', String a s' => if decide (a = p) then strip_prefix s' pre' else None
  | String _ _, EmptyString => None
  end.
Definition starts_with (s pre : string) : bool := bool_decide (is_Some (strip_prefix s pre)).

(** [s.contains(c)] for a character. *)
Fixpoint contains_char (c : ascii) (s : string) : bool :=
  match s with
  | EmptyString => false
  | String a s' => bool_decide (a = c) || contains_char c s'
  end.

(** [s.contains(t)] for a string. *)
Fixpoint contains_str (s t : string) : bool :=
  starts_with s t || match s with EmptyString => false | String _ s' => contains_str s' t end.

(** [s.split(c)]: never empty. *)
Fixpoint split (c : ascii) (s : string) : list string :=
  match s with
  | EmptyString => [""%string]
  | String a s' =>
    if decide (a = c) then ""%string :: split c s'
    else match split c s' with
         | w :: ws => String a w :: ws
         | [] => [String a ""]
         end
  end.

(** [s.split(c).next().unwrap_or(s)] *)
Definition split_next (c : ascii) (s : string) : string :=
  match split c s with w :: _ => w | [] => s end.

(** [s.split_once(c)] and [s.rsplit_once(c)]. *)
Fixpoint split_once (c : ascii) (s : string) : option (string * string) :=
  match s with
  | EmptyString => None
  | String a s' =>
    if decide (a = c) then Some (""%string, s')
    else match split_once c s' with
         | Some (l, r) => Some (String a l, r)
         | None => None
         end
  end.
Fixpoint rsplit_once (c : ascii) (s : string) : option (string * string) :=
  match s with
  | EmptyString => None
  | String a s' =>
    match rsplit_once c s' with
    | Some (l, r) => Some (String a l, r)
    | None => if decide (a = c) then Some (""%string, s') else None
    end
  end.

(** [s.chars().filter(p).collect()] and [s.chars().all(p)], for predicates that
    hold of ASCII characters only. *)
Fixpoint filter_str (p : ascii → bool) (s : string) : string :=
  match s with
  | EmptyString => ""
  | String a s' => if p a then String a (filter_str p s') else filter_str p s'
  end.
Fixpoint all_str (p : ascii → bool) (s : string) : bool :=
  match s with
  | EmptyString => true
  | String a s' => p a && all_str p s'
  end.

Definition in_range (lo hi : nat) (a : ascii) : bool :=
  (lo <=? nat_of_ascii a)%nat && (nat_of_ascii a <=? hi)%nat.
Definition is_ascii_digit (a : ascii) : bool := in_range 48 57 a.
Definition is_ascii_hexdigit (a : ascii) : bool :=
  is_ascii_digit a || in_range 65 70 a || in_range 97 102 a.

Definition ascii_lower (a : ascii) : ascii :=
  if in_range 65 90 a then ascii_of_nat (nat_of_ascii a + 32) else a.
Fixpoint to_ascii_lowercase (s : string) : string :=
  match s with
  | EmptyString => ""
  | String a s' => String (ascii_lower a) (to_ascii_lowercase s')
  end.

(** [s.replace(c, t)] *)
Fixpoint replace_char (c : ascii) (t s : string) : string :=
  match s with
  | EmptyString => ""
  | String a s' =>
    if decide (a = c) then t +:+ replace_char c t s' else String a (replace_char c t s')
  end.

(** [trim]: the white-space code points are U+0009 to U+000D, U+0020, U+0085,
    U+00A0, U+1680, U+2000 to U+200A, U+2028, U+2029, U+202F, U+205F, U+3000. *)
Definition b (n : nat) : ascii := ascii_of_nat n.
Definition ws1 (a : ascii) : bool := in_range 9 13 a || in_range 32 32 a.
Definition ws2 (a1 a2 : ascii) : bool :=
  in_range 194 194 a1 && (in_range 133 133 a2 || in_range 160 160 a2).
Definition ws3 (a1 a2 a3 : ascii) : bool :=
  (in_range 225 225 a1 && in_range 154 154 a2 && in_range 128 128 a3) ||
  (in_range 226 226 a1 && in_range 128 128 a2 &&
     (in_range 128 138 a3 || in_range 168 169 a3 || in_range 175 175 a3)) ||
  (in_range 226 226 a1 && in_range 129 129 a2 && in_range 159 159 a3) ||
  (in_range 227 227 a1 && in_range 128 128 a2 && in_range 128 128 a3).

Fixpoint trim_start (s : string) : string :=
  match s with
  | EmptyString => ""
  | String a1 s1 =>
    if ws1 a1 then trim_start s1
    else match s1 with
         | EmptyString => s
         | String a2 s2 =>
           if ws2 a1 a2 then trim_start s2
           else match s2 with
                | EmptyString => s
                | String a3 s3 => if ws3 a1 a2 a3 then trim_start s3 else s
                end
         end
  end.
(** The same on a reversed string: the bytes of a code point come last first. *)
Fixpoint trim_start_rev (s : string) : string :=
  match s with
  | EmptyString => ""
  | String a1 s1 =>
    if ws1 a1 then trim_start_rev s1
    else match s1 with
         | EmptyString => s
         | String a2 s2 =>
           if ws2 a2 a1 then trim_start_rev s2
           else match s2 with
                | EmptyString => s
                | String a3 s3 => if ws3 a3 a2 a1 then trim_start_rev s3 else s
                end
         end
  end.
Definition trim_end (s : string) : string := String.rev (trim_start_rev (String.rev s)).
Definition trim (s : string) : string := trim_end (trim_start s).
Definition is_blank (s : string) : bool := bool_decide (trim s = "").

(** [trim_start_matches(c)], [trim_end_matches(c)], [trim_matches(c)]. *)
Fixpoint trim_start_matches (c : ascii) (s : string) : string :=
  match s with
  | EmptyString => ""
  | String a s' => if decide (a = c) then trim_start_matches c s' else s
  end.
Definition trim_end_matches (c : ascii) (s : string) : string :=
  String.rev (trim_start_matches c (String.rev s)).
Definition trim_matches (c : ascii) (s : string) : string :=
  trim_end_matches c (trim_start_matches c s).

(** [Vec<String>::sort()]: byte-wise lexicographic order. *)
Definition str_le (s t : string) : bool := String.leb s t.
Definition sort_strings (l : list string) : list string := sort_by str_le l.

(** ** Lemmas *)
Lemma ends_with_spec s suf : ends_with s suf = true ↔ ∃ p, s = p +:+ suf.
Proof.
  induction s as [|a s IH]; simpl.
  - rewrite orb_false_r, bool_decide_eq_true. split.
    + intros <-. by exists "".
    + by intros [[|] ?].
  - rewrite orb_true_iff, bool_decide_eq_true, IH. split.
    + intros [<-|[p ->]]; [by exists ""|]. by exists (String a p).
    + intros [[|a' p] Hp]; simpl in Hp; [by left|]. injection Hp as -> ->. eauto.
Qed.

Lemma ends_with_app p suf : ends_with (p +:+ suf) suf = true.
Proof. apply ends_with_spec. eauto. Qed.

Lemma strip_prefix_spec s pre r : strip_prefix s pre = Some r ↔ s = pre +:+ r.
Proof.
  revert s. induction pre as [|p pre IH]; intros s; simpl.
  - split; [by intros [= ->] | by intros ->].
  - destruct s as [|a s]; simpl; [by split|]. case_decide; subst.
    + rewrite IH. split; [by intros ->|by intros [= ->]].
    + split; [done|]. intros [= ? ?]. congruence.
Qed.

Lemma strip_prefix_app pre r : strip_prefix (pre +:+ r) pre = Some r.
Proof. by apply strip_prefix_spec. Qed.

Lemma starts_with_spec s pre : starts_with s pre = true ↔ ∃ r, s = pre +:+ r.
Proof.
  unfold starts_with. rewrite bool_decide_eq_true. split.
  - intros [r Hr%strip_prefix_spec]. eauto.
  - intros [r ->]. exists r. by apply strip_prefix_app.
Qed.

Lemma starts_with_app pre r : starts_with (pre +:+ r) pre = true.
Proof. apply starts_with_spec. eauto. Qed.

Lemma str_app_nil_r s : s +:+ "" = s.
Proof. induction s as [|a s IH]; [done|]. exact (f_equal (String a) IH). Qed.

Lemma str_app_assoc r s t : (r +:+ s) +:+ t = r +:+ (s +:+ t).
Proof. induction r as [|a r IH]; [done|]. exact (f_equal (String a) IH). Qed.

Lemma str_app_inj_l pre s t : pre +:+ s = pre +:+ t → s = t.
Proof. induction pre as [|a pre IH]; simpl; [done|]. intros [= ?]. auto. Qed.

Lemma split_not_nil c s : split c s ≠ [].
Proof. destruct s as [|a s]; simpl; [done|]. case_decide; [done|]. by destruct (split c s). Qed.

Lemma split_next_no c s : contains_char c s = false → split_next c s = s.
Proof.
  unfold split_next. induction s as [|a s IH]; simpl; [done|].
  intros [Ha Hs]%orb_false_iff. apply bool_decide_eq_false in Ha.
  rewrite decide_False by done. pose proof (split_not_nil c s).
  destruct (split c s) as [|w ws]; [done|]. f_equal. by apply IH.
Qed.

Lemma split_next_app c p r :
  contains_char c p = false → split_next c (p +:+ String c r) = p.
Proof.
  unfold split_next. induction p as [|a p IH]; simpl.
  - intros _. by rewrite decide_True.
  - intros [Ha Hs]%orb_false_iff. apply bool_decide_eq_false in Ha.
    rewrite decide_False by done. specialize (IH Hs).
    pose proof (split_not_nil c (p +:+ String c r)).
    destruct (split c (p +:+ String c r)) as [|w ws]; [done|]. by f_equal.
Qed.

Lemma all_str_filter p s : all_str p (filter_str p s) = true.
Proof.
  induction s as [|a s IH]; simpl; [done|].
  destruct (p a) eqn:Ha; simpl; [by rewrite Ha|done].
Qed.

Lemma filter_str_all p s : all_str p s = true → filter_str p s = s.
Proof.
  induction s as [|a s IH]; simpl; [done|]. intros [Ha Hs]%andb_true_iff.
  rewrite Ha. f_equal. auto.
Qed.

Lemma filter_str_app p s t : filter_str p (s +:+ t) = filter_str p s +:+ filter_str p t.
Proof. induction s as [|a s IH]; simpl; [done|]. rewrite IH. by destruct (p a). Qed.

Lemma all_str_contains p c s :
  all_str p s = true → p c = false → contains_char c s = false.
Proof.
  intros Hs Hc. induction s as [|a s IH]; simpl in *; [done|].
  split_bools. rewrite IH by done. rewrite orb_false_r.
  apply bool_decide_eq_false. intros ->. congruence.
Qed.

Lemma digits_no_at s : all_str is_ascii_digit s = true → contains_char "@" s = false.
Proof. intros H. by apply (all_str_contains _ _ _ H). Qed.

Lemma contains_char_app c s t :
  contains_char c (s +:+ t) = contains_char c s || contains_char c t.
Proof.
  induction s as [|a s IH]; [done|]. cbn [contains_char String.app].
  rewrite <- orb_assoc, <- IH. reflexivity.
Qed.

Lemma contains_char_replace c t s :
  contains_char c t = false → contains_char c (replace_char c t s) = false.
Proof.
  intros Ht. induction s as [|a s IH]; simpl; [done|]. case_decide.
  - by rewrite contains_char_app, Ht, IH.
  - simpl. by rewrite bool_decide_eq_false_2, IH.
Qed.

Lemma replace_char_id c t s : contains_char c s = false → replace_char c t s = s.
Proof.
  induction s as [|a s IH]; simpl; [done|].
  intros [Ha Hs]%orb_false_iff. apply bool_decide_eq_false in Ha.
  rewrite decide_False by done. f_equal. auto.
Qed.

Lemma to_ascii_lowercase_idemp s :
  to_ascii_lowercase (to_ascii_lowercase s) = to_ascii_lowercase s.
Proof.
  induction s as [|a s IH]; simpl; [done|]. rewrite IH. f_equal.
  destruct a as [[] [] [] [] [] [] [] []]; reflexivity.
Qed.

Definition head_is_ws (s : string) : bool :=
  match s with
  | EmptyString => false
  | String a1 s1 =>
    ws1 a1 || match s1 with
              | EmptyString => false
              | String a2 s2 =>
                ws2 a1 a2 || match s2 with
                             | EmptyString => false
                             | String a3 s3 => ws3 a1 a2 a3
                             end
              end
  end.

(** [trim_start] leaves no leading white space. *)
Lemma trim_start_head s : head_is_ws (trim_start s) = false.
Proof.
  remember (String.length s) as n eqn:Hn. revert s Hn.
  induction (lt_wf n) as [n _ IH]. intros s ->.
  destruct s as [|a1 s1]; [done|]. simpl.
  destruct (ws1 a1) eqn:E1; [eapply IH; [|done]; simpl; lia|].
  destruct s1 as [|a2 s2]; [simpl; by rewrite E1|].
  destruct (ws2 a1 a2) eqn:E2; [eapply IH; [|done]; simpl; lia|].
  destruct s2 as [|a3 s3]; [simpl; by rewrite E1, E2|].
  destruct (ws3 a1 a2 a3) eqn:E3; [eapply IH; [|done]; simpl; lia|].
  simpl. by rewrite E1, E2, E3.
Qed.

Lemma trim_start_id s : head_is_ws s = false → trim_start s = s.
Proof.
  destruct s as [|a1 s1]; [done|]. simpl.
  intros [-> H]%orb_false_iff. destruct s1 as [|a2 s2]; [done|].
  apply orb_false_iff in H as [-> H]. destruct s2 as [|a3 s3]; [done|]. by rewrite H.
Qed.

(** *** Decimal numerals survive [trim] *)
Lemma all_str_rev_app p s t : all_str p (String.rev_app s t) = all_str p s && all_str p t.
Proof.
  revert t. induction s as [|a s IH]; intros t; simpl; [done|]. rewrite IH. simpl.
  destruct (p a), (all_str p s), (all_str p t); reflexivity.
Qed.

Lemma rev_app_rev_app s t u : String.rev_app (String.rev_app s t) u = String.rev_app t (s +:+ u).
Proof. revert t u. induction s as [|a s IH]; intros t u; simpl; [done|]. by rewrite IH. Qed.

Lemma rev_rev s : String.rev (String.rev s) = s.
Proof. unfold String.rev. rewrite rev_app_rev_app. simpl. apply str_app_nil_r. Qed.

Lemma digit_not_ws a b c : is_ascii_digit a = true →
  ws1 a = false ∧ ws2 a b = false ∧ ws3 a b c = false ∧ ws2 b a = false ∧ ws3 c b a = false.
Proof.
  destruct a as [[] [] [] [] [] [] [] []]; intros Ha; try discriminate Ha;
    repeat split; try reflexivity; unfold ws2, ws3; cbn; rewrite ?andb_false_r; reflexivity.
Qed.

Lemma trim_digits s : all_str is_ascii_digit s = true → trim s = s.
Proof.
  intros Hs. unfold trim. rewrite trim_start_id.
  - unfold trim_end. rewrite <- (rev_rev s) at 2. f_equal.
    assert (Hr : all_str is_ascii_digit (String.rev s) = true)
      by (unfold String.rev; rewrite all_str_rev_app, Hs; done).
    destruct (String.rev s) as [|a r]; [done|]. simpl in *. apply andb_true_iff in Hr as [Ha _].
    destruct (digit_not_ws a a a Ha) as (-> & _). destruct r as [|b r]; [done|].
    destruct (digit_not_ws a b b Ha) as (_ & _ & _ & -> & _). destruct r as [|c r]; [done|].
    by destruct (digit_not_ws a b c Ha) as (_ & _ & _ & _ & ->).
  - destruct s as [|a s]; [done|]. simpl in *. apply andb_true_iff in Hs as [Ha _].
    destruct (digit_not_ws a a a Ha) as (-> & _). destruct s as [|b s]; [done|].
    destruct (digit_not_ws a b b Ha) as (_ & -> & _). destruct s as [|c s]; [done|].
    by destruct (digit_not_ws a b c Ha) as (_ & _ & -> & _).
Qed.

(** ** Numerals: [str::parse] for the integer types (std) *)
Definition digit_val (a : ascii) : Z := Z.of_nat (nat_of_ascii a) - 48.
Fixpoint parse_digits (acc : Z) (s : string) : option Z :=
  match s with
  | EmptyString => Some acc
  | String a s' =>
    if is_ascii_digit a then parse_digits (10 * acc + digit_val a) s' else None
  end.
Definition parse_nonempty (s : string) : option Z :=
  if decide (s = "") then None else parse_digits 0 s.
Definition parse_magnitude (s : string) : option Z :=
  match s with
  | String a s' => if decide (a = "+"%char) then parse_nonempty s' else parse_nonempty s
  | EmptyString => None
  end.
Definition parse_unsigned (max : Z) (s : string) : option Z :=
  opt_filter (λ n, bool_decide (n ≤ max)) (parse_magnitude s).
Definition parse_signed (bound : Z) (s : string) : option Z :=
  match s with
  | String a s' =>
    if decide (a = "-"%char)
    then opt_filter (λ n, bool_decide (- bound ≤ n)) (Z.opp <$> parse_nonempty s')
    else opt_filter (λ n, bool_decide (n < bound)) (parse_magnitude s)
  | EmptyString => None
  end.
(** [format!("{n}")] of an integer. *)
Definition fmt_Z (z : Z) : string := pretty z.
Definition fmt_nat (n : nat) : string := pretty n.

(** A signed decimal, without bounds. *)
Definition parse_Z (s : string) : option Z :=
  match s with
  | String a s' => if decide (a = "-"%char) then Z.opp <$> parse_nonempty s' else parse_nonempty s
  | EmptyString => None
  end.

(** What [to_string] writes, [parse] reads *)
Lemma pretty_N_char_digit x : (x < 10)%N →
  is_ascii_digit (pretty_N_char x) = true ∧ digit_val (pretty_N_char x) = Z.of_N x.
Proof.
  intros Hx.
  assert (x = 0 ∨ x = 1 ∨ x = 2 ∨ x = 3 ∨ x = 4 ∨ x = 5 ∨ x = 6 ∨ x = 7 ∨ x = 8 ∨ x = 9)%N
    as H by lia.
  repeat (destruct H as [->|H]; [done|]). by subst x.
Qed.

Lemma parse_digits_pretty x s :
  parse_digits 0 (pretty_N_go x s) = parse_digits (Z.of_N x) s.
Proof.
  revert s. induction (N.lt_wf_0 x) as [x _ IH]. intros s.
  destruct (decide (x = 0)%N) as [->|]; [done|].
  rewrite pretty_N_go_step by lia. rewrite IH by (apply N.div_lt; lia). cbn [parse_digits].
  destruct (pretty_N_char_digit (x `mod` 10)%N) as [-> ->]; [by apply N.mod_lt|].
  f_equal. rewrite N2Z.inj_div, N2Z.inj_mod by done.
  pose proof (Z.div_mod (Z.of_N x) 10). lia.
Qed.

Lemma all_digits_pretty x s :
  all_str is_ascii_digit s = true → all_str is_ascii_digit (pretty_N_go x s) = true.
Proof.
  revert s. induction (N.lt_wf_0 x) as [x _ IH]. intros s Hs.
  destruct (decide (x = 0)%N) as [->|]; [done|].
  rewrite pretty_N_go_step by lia. apply IH; [apply N.div_lt; lia|]. simpl.
  destruct (pretty_N_char_digit (x `mod` 10)%N) as [-> _]; [by apply N.mod_lt|]. done.
Qed.

Lemma pretty_go_nonempty x s : s ≠ "" → pretty_N_go x s ≠ "".
Proof.
  revert s. induction (N.lt_wf_0 x) as [x _ IH]. intros s Hs.
  destruct (decide (x = 0)%N) as [->|]; [done|].
  rewrite pretty_N_go_step by lia. apply IH; [apply N.div_lt; lia|done].
Qed.

Lemma fmt_nat_digits n :
  all_str is_ascii_digit (fmt_nat n) = true ∧ fmt_nat n ≠ "".
Proof.
  unfold fmt_nat, pretty, pretty_nat, pretty, pretty_N. case_decide as Hn; [done|].
  split; [by apply all_digits_pretty|]. rewrite pretty_N_go_step by lia.
  by apply pretty_go_nonempty.
Qed.

Lemma parse_fmt_nat max n : Z.of_nat n ≤ max → parse_unsigned max (fmt_nat n) = Some (Z.of_nat n).
Proof.
  intros Hn. destruct (fmt_nat_digits n) as [Hd Hne].
  assert (Hp : parse_digits 0 (fmt_nat n) = Some (Z.of_nat n)).
  { unfold fmt_nat, pretty, pretty_nat, pretty, pretty_N. case_decide as H0.
    - by destruct n.
    - rewrite parse_digits_pretty. simpl. f_equal. apply nat_N_Z. }
  unfold parse_unsigned, parse_magnitude. destruct (fmt_nat n) as [|a s] eqn:E; [done|].
  rewrite decide_False.
  - unfold parse_nonempty. rewrite decide_False by done. rewrite Hp. simpl.
    by rewrite bool_decide_eq_true_2.
  - intros ->. by simpl in Hd.
Qed.

Lemma parse_nonempty_pretty (x : N) : parse_nonempty (pretty x) = Some (Z.of_N x).
Proof.
  unfold parse_nonempty. rewrite decide_False.
  - unfold pretty, pretty_N. case_decide; [by subst|]. by rewrite parse_digits_pretty.
  - unfold pretty, pretty_N. case_decide; [done|].
    rewrite pretty_N_go_step by lia. by apply pretty_go_nonempty.
Qed.

Lemma parse_Z_nonneg (x : N) : parse_Z (pretty x) = Some (Z.of_N x).
Proof.
  rewrite <- parse_nonempty_pretty. unfold parse_Z.
  destruct (pretty x) as [|a s] eqn:E; [done|]. rewrite decide_False; [done|]. intros ->.
  pose proof (parse_nonempty_pretty x) as Hx. rewrite E in Hx. done.
Qed.

Lemma parse_Z_pretty (z : Z) : parse_Z (pretty z) = Some z.
Proof.
  destruct z as [|p|p]; [done| |].
  - exact (parse_Z_nonneg (Npos p)).
  - change (pretty (Z.neg p)) with (String "-" (pretty (Npos p))).
    cbn [parse_Z]. rewrite decide_True by done. by rewrite parse_nonempty_pretty.
Qed.

#[export] Hint Rewrite ends_with_app strip_prefix_app starts_with_app str_app_nil_r
  all_str_filter filter_str_app : rz.
