(* ===== verification/Json.v ===== *)
(** * JSON values

    [serde_json::Value], a documented sum type.  Objects are ordered by key:
    the crate is built without [preserve_order], so [Map] is a [BTreeMap]. *)
From S2P Require Import Prelude Text.
#[local] Set Warnings "-register-all".

Inductive JNumber : Type :=
| PosInt (n : Z)    (* u64 *)
| NegInt (n : Z)    (* negative i64 *)
| Float (bits : Z). (* f64, by its bit pattern *)

Inductive Value : Type :=
| VNull
| VBool (v : bool)
| VNumber (n : JNumber)
| VString (s : string)
| VArray (l : list Value)
| VObject (o : list (string * Value)).

(** Induction over values, through arrays and objects. *)
Section value_ind.
Variable P : Value → Prop.
Hypothesis Hnull : P VNull.
Hypothesis Hbool : ∀ v, P (VBool v).
Hypothesis Hnum : ∀ n, P (VNumber n).
Hypothesis Hstr : ∀ s, P (VString s).
Hypothesis Harr : ∀ l, Forall P l → P (VArray l).
Hypothesis Hobj : ∀ o, Forall (λ kv, P kv.2) o → P (VObject o).

Fixpoint value_ind' (v : Value) : P v :=
  match v with
  | VNull => Hnull
  | VBool v => Hbool v
  | VNumber n => Hnum n
  | VString s => Hstr s
  | VArray l => Harr l
      ((fix go (l : list Value) : Forall P l :=
          match l with
          | [] => Forall_nil_2 P
          | v :: l => Forall_cons_2 P v l (value_ind' v) (go l)
          end) l)
  | VObject o => Hobj o
      ((fix go (o : list (string * Value)) : Forall (λ kv, P kv.2) o :=
          match o with
          | [] => Forall_nil_2 _
          | kv :: o => Forall_cons_2 _ kv o (value_ind' kv.2) (go o)
          end) o)
  end.
End value_ind.

(** ** The map of an object: sorted by key, one entry per key *)
Fixpoint obj_get (k : string) (o : list (string * Value)) : option Value :=
  match o with
  | [] => None
  | (k', v) :: o => if decide (k = k') then Some v else obj_get k o
  end.

Fixpoint obj_insert (k : string) (v : Value) (o : list (string * Value))
  : list (string * Value) :=
  match o with
  | [] => [(k, v)]
  | (k', v') :: o' =>
    if decide (k = k') then (k, v) :: o'
    else if String.ltb k k' then (k, v) :: o
    else (k', v') :: obj_insert k v o'
  end.

Definition obj_remove (k : string) (o : list (string * Value)) : list (string * Value) :=
  retain_list (λ kv, negb (bool_decide (kv.1 = k))) o.

Definition obj_of (l : list (string * Value)) : Value :=
  VObject (foldl (λ o kv, obj_insert kv.1 kv.2 o) [] l).

(** ** Accessors *)
(** [value.get(key)]; indexing [value[key]] reads [Null] when absent. *)
Definition get (v : Value) (k : string) : option Value :=
  match v with VObject o => obj_get k o | _ => None end.
Definition index (v : Value) (k : string) : Value := default VNull (get v k).
(** [value[key] = x]: indexing mutably inserts; [Null] becomes an object; it
    panics on the other kinds, which are left unchanged here. *)
Definition index_set (v : Value) (k : string) (x : Value) : Value :=
  match v with
  | VObject o => VObject (obj_insert k x o)
  | VNull => VObject [(k, x)]
  | _ => v
  end.
Definition as_str (v : Value) : option string :=
  match v with VString s => Some s | _ => None end.
Definition as_bool (v : Value) : option bool :=
  match v with VBool x => Some x | _ => None end.
Definition as_u64 (v : Value) : option Z :=
  match v with VNumber (PosInt n) => Some n | _ => None end.
Definition as_array (v : Value) : option (list Value) :=
  match v with VArray l => Some l | _ => None end.
Definition as_object (v : Value) : option (list (string * Value)) :=
  match v with VObject o => Some o | _ => None end.
Definition is_null (v : Value) : bool := match v with VNull => true | _ => false end.
Definition get_str (v : Value) (k : string) : option string := get v k ≫= as_str.

(** ** [json!] literals and [Serialize] for the base types *)
Class ToJson (A : Type) := json : A → Value.
#[export] Instance json_value : ToJson Value := λ v, v.
#[export] Instance json_string : ToJson string := VString.
#[export] Instance json_bool : ToJson bool := VBool.
#[export] Instance json_Z : ToJson Z := λ z,
  VNumber (if bool_decide (0 ≤ z) then PosInt z else NegInt z).
#[export] Instance json_nat : ToJson nat := λ n, VNumber (PosInt (Z.of_nat n)).
#[export] Instance json_option {A} `{ToJson A} : ToJson (option A) := λ o,
  match o with Some a => json a | None => VNull end.
#[export] Instance json_list {A} `{ToJson A} : ToJson (list A) := λ l, VArray (json <$> l).

Declare Scope json_scope.
Delimit Scope json_scope with json.
Notation "k ~> v" := (k%string, json v) (at level 90, no associativity) : json_scope.
Notation "'json!' '{' x , .. , y '}'" :=
  (obj_of (cons x%json .. (cons y%json nil) ..)) (at level 0) : rz_scope.
Notation "'json!' '{' '}'" := (VObject []) (at level 0) : rz_scope.

(** ** Lemmas *)
Lemma obj_get_insert k v o k' :
  obj_get k' (obj_insert k v o) = if decide (k' = k) then Some v else obj_get k' o.
Proof.
  induction o as [|[k'' v''] o IH]; simpl; [done|].
  destruct (decide (k = k'')) as [->|Hne]; simpl.
  - by destruct (decide (k' = k'')).
  - destruct (String.ltb k k''); simpl; [done|]. rewrite IH.
    destruct (decide (k' = k'')), (decide (k' = k)); congruence.
Qed.

Lemma obj_get_remove k o k' :
  obj_get k' (obj_remove k o) = if decide (k' = k) then None else obj_get k' o.
Proof.
  unfold obj_remove, retain_list. induction o as [|[k'' v''] o IH]; simpl.
  { by case_decide. }
  rewrite filter_cons. simpl.
  destruct (decide (k'' = k)) as [->|Hne].
  - rewrite bool_decide_eq_true_2 by done. rewrite decide_False by done. rewrite IH.
    by repeat case_decide.
  - rewrite bool_decide_eq_false_2 by done. rewrite decide_True by done. simpl.
    rewrite IH. repeat case_decide; congruence.
Qed.

Lemma get_index_set o k v k' :
  get (index_set (VObject o) k v) k' =
    if decide (k' = k) then Some v else obj_get k' o.
Proof. apply obj_get_insert. Qed.

Lemma obj_insert_elem k v o kv :
  kv ∈ obj_insert k v o → kv = (k, v) ∨ kv ∈ o.
Proof.
  induction o as [|[k' v'] o IH]; simpl; [set_solver|].
  case_decide; [set_solver|]. destruct (String.ltb k k'); set_solver.
Qed.

#[export] Hint Rewrite obj_get_insert obj_get_remove get_index_set : rz.
