(* ===== verification/Errors.v ===== *)
(** * API errors (src/error.rs)

    The error type every handler returns, with the status and the stable code
    of its envelope. *)
From S2P Require Import Prelude Text Json.

Inductive ApiError : Type :=
| BadRequest (message : string)
| Unauthorized (message : string)
| Forbidden (message : string)
| NotFound (message : string)
| Conflict (message : string)
| IdempotencyConflict (message : string)
| NotSupported (message : string)
| RateLimited (message : string)
| PayloadTooLarge (message : string)
| ProviderError (message : string)
| Internal (message : string).
#[export] Instance api_error_eq_dec : EqDecision ApiError.
Proof. solve_decision. Defined.

Abbreviation ApiResult A := (result A ApiError).

(** [StatusCode] by its number. *)
Definition status_code (e : ApiError) : Z :=
  match e with
  | BadRequest _ => 400
  | Unauthorized _ => 401
  | Forbidden _ => 403
  | NotFound _ => 404
  | Conflict _ | IdempotencyConflict _ => 409
  | NotSupported _ => 501
  | RateLimited _ => 429
  | PayloadTooLarge _ => 413
  | ProviderError _ => 502
  | Internal _ => 500
  end.

Definition code (e : ApiError) : string :=
  match e with
  | BadRequest _ => "bad_request"
  | Unauthorized _ => "unauthorized"
  | Forbidden _ => "forbidden"
  | NotFound _ => "not_found"
  | Conflict _ => "conflict"
  | IdempotencyConflict _ => "idempotency_conflict"
  | NotSupported _ => "not_supported"
  | RateLimited _ => "rate_limited"
  | PayloadTooLarge _ => "payload_too_large"
  | ProviderError _ => "provider_error"
  | Internal _ => "internal_error"
  end.

(** [to_string()]: every variant displays its message. *)
Definition error_message (e : ApiError) : string :=
  match e with
  | BadRequest m | Unauthorized m | Forbidden m | NotFound m | Conflict m
  | IdempotencyConflict m | NotSupported m | RateLimited m | PayloadTooLarge m
  | ProviderError m | Internal m => m
  end.

(** The response: status and JSON envelope. *)
Definition into_response (request_id : string) (e : ApiError) : Z * Value :=
  (status_code e,
   json! { "error" ~> json! {
     "code" ~> code e,
     "message" ~> error_message e,
     "details" ~> json! {},
     "request_id" ~> request_id } }).
