(* ===== verification/Env.v ===== *)
(** * The environment

    What the program takes from other crates and from the operating system, as
    parameters: fresh UUIDs, the clock, time formatting, digests.  A value of
    [time] is an [OffsetDateTime] in UTC, as nanoseconds since the epoch. *)
From S2P Require Import Prelude Text Json.

Definition time : Type := Z.
Definition seconds (n : Z) : Z := n * 10 ^ 9.
Definition minutes (n : Z) : Z := seconds (60 * n).
Definition hours (n : Z) : Z := minutes (60 * n).
Definition days (n : Z) : Z := hours (24 * n).

(** - [uuid_simple n], [uuid_hyphenated n]: the [n]-th [Uuid::now_v7()], as
      [simple()] and as [to_string()] write it;
    - [now_utc_at n]: the [n]-th [OffsetDateTime::now_utc()] (not assumed monotone);
    - [rfc3339], [parse_rfc3339], [date_ymd]: formatting of the [time] crate;
    - [sha256], [hex_encode]: the [sha2] and [hex] crates, on byte strings;
    - [json_to_vec]: [serde_json::to_vec] of a value. *)
Class Env := {
  env_order :: HashOrder;
  uuid_simple : nat → string;
  uuid_hyphenated : nat → string;
  now_utc_at : nat → time;
  rfc3339 : time → string;
  parse_rfc3339 : string → option time;
  date_ymd : time → string;
  sha256 : string → string;
  hex_encode : string → string;
  json_to_vec : Value → result string string
}.

(** What the code relies on: [now_v7] does not repeat a UUID. *)
Class EnvLaws `{Env} := {
  uuid_simple_inj :: Inj (=) (=) uuid_simple
}.

(** [parse_rfc3339] reads back what [rfc3339] writes (the [time] crate). *)
Class TimeLaws `{Env} := {
  parse_rfc3339_format t : parse_rfc3339 (rfc3339 t) = Some t
}.

(** [ts(value)] in src/state.rs *)
Definition ts `{Env} (value : time) : string := rfc3339 value.

(** ** A concrete environment, for evaluating runs *)
Definition demo_env : Env := {|
  env_order := canonical_order;
  uuid_simple := λ n, pretty n;
  uuid_hyphenated := λ n, pretty n;
  now_utc_at := λ n, seconds (1000 + Z.of_nat n);
  rfc3339 := λ t, pretty t;
  parse_rfc3339 := parse_Z;
  date_ymd := λ _, "2026-04-26"%string;
  sha256 := λ s, s;
  hex_encode := λ s, s;
  json_to_vec := λ _, Ok "{}"%string
|}.

Lemma demo_env_laws : @EnvLaws demo_env.
Proof. constructor. intros n m. simpl. apply (inj pretty). Qed.

Lemma demo_time_laws : @TimeLaws demo_env.
Proof. constructor. exact parse_Z_pretty. Qed.
