(* ===== verification/Secrets.v ===== *)
(** * Secrets (src/secrets.rs)

    The envelope a webhook secret is stored in and the key it is sealed with.
    AES-GCM, Base64, HMAC and the random nonce are parameters. *)
From S2P Require Import Prelude Text Json Errors Env.

(** [SecretMasterKey]: 32 raw bytes. *)
Definition SecretMasterKey : Type := string.

Definition ENVELOPE_PREFIX : string := "rzsec:v1".
Definition NONCE_LEN : nat := 12.
Definition KEY_LEN : nat := 32.

Inductive SecretError :=
| InvalidMasterKey | NonceGeneration | Encrypt | InvalidEnvelope | Decrypt | Utf8.

Definition secret_error (e : SecretError) : string :=
  match e with
  | InvalidMasterKey => "RUSTZAP_SECRET_MASTER_KEY must decode to exactly 32 bytes"
  | NonceGeneration => "failed to generate secret nonce"
  | Encrypt => "secret encryption failed"
  | InvalidEnvelope => "secret envelope is invalid"
  | Decrypt => "secret decryption failed"
  | Utf8 => "decrypted secret is not valid UTF-8"
  end.

(** [seal key nonce plaintext] and [open key nonce ciphertext]: AES-256-GCM;
    [b64], [unb64]: standard Base64; [unhex]: the [hex] crate; [utf8] accepts
    valid UTF-8; [hmac_sha256 key message]: the [hmac] and [sha2] crates. *)
Class Crypto := {
  seal : string → string → string → option string;
  unseal : string → string → string → option string;
  b64 : string → string;
  unb64 : string → option string;
  unhex : string → option string;
  utf8 : string → bool;
  hmac_sha256 : string → string → string
}.

Section secrets.
Context `{Crypto}.

Definition from_bytes (bytes : string) : result SecretMasterKey SecretError :=
  if decide (String.length bytes = KEY_LEN) then Ok bytes else Err InvalidMasterKey.

Definition from_env_value (value : string) : result SecretMasterKey SecretError :=
  let trimmed := trim value in
  if decide (trimmed = "") then Err InvalidMasterKey
  else if bool_decide (String.length trimmed = KEY_LEN * 2)%nat
          && all_str is_ascii_hexdigit trimmed
  then match unhex trimmed with
       | Some decoded => from_bytes decoded
       | None => Err InvalidMasterKey
       end
  else match opt_filter (λ d, bool_decide (String.length d = KEY_LEN)) (unb64 trimmed) with
       | Some decoded => from_bytes decoded
       | None => from_bytes trimmed
       end.

(** [nonce] is what the random source gives: nothing when it fails. *)
Definition encrypt_secret (nonce : option string) (key : SecretMasterKey) (plaintext : string)
  : result string SecretError :=
  let? nonce := ok_or nonce NonceGeneration in
  let? ciphertext := ok_or (seal key nonce plaintext) Encrypt in
  Ok (ENVELOPE_PREFIX +:+ ":" +:+ b64 nonce +:+ ":" +:+ b64 ciphertext).

Definition decrypt_secret (key : SecretMasterKey) (envelope : string)
  : result string SecretError :=
  match split ":" envelope with
  | [p0; p1; p2; p3] =>
    if negb (bool_decide (p0 = "rzsec") && bool_decide (p1 = "v1")) then Err InvalidEnvelope
    else
      let? nonce := ok_or (unb64 p2) InvalidEnvelope in
      if decide (String.length nonce ≠ NONCE_LEN) then Err InvalidEnvelope
      else
        let? ciphertext := ok_or (unb64 p3) InvalidEnvelope in
        let? plaintext := ok_or (unseal key nonce ciphertext) Decrypt in
        if utf8 plaintext then Ok plaintext else Err Utf8
  | _ => Err InvalidEnvelope
  end.

(** What the code relies on of the crates. *)
Class CryptoLaws := {
  unseal_seal key nonce plaintext ciphertext :
    seal key nonce plaintext = Some ciphertext →
    unseal key nonce ciphertext = Some plaintext;
  unb64_b64 s : unb64 (b64 s) = Some s;
  b64_no_colon s : contains_char ":" (b64 s) = false
}.

Lemma split_no_char c s : contains_char c s = false → split c s = [s].
Proof.
  induction s as [|a s IH]; simpl; [done|]. intros [Ha Hs]%orb_false_iff.
  apply bool_decide_eq_false in Ha. rewrite decide_False by done. by rewrite IH.
Qed.

Lemma split_app c s t :
  contains_char c s = false → split c (s +:+ String c t) = s :: split c t.
Proof.
  induction s as [|a s IH]; simpl; intros Hs.
  - by rewrite decide_True.
  - apply orb_false_iff in Hs as [Ha Hs]. apply bool_decide_eq_false in Ha.
    rewrite decide_False by done. by rewrite IH.
Qed.

(** A secret sealed with a key is read back with the same key, for a cipher
    and a text encoding that satisfy their laws. *)
Theorem secret_roundtrip `{!CryptoLaws} nonce key plaintext envelope :
  String.length nonce = NONCE_LEN → utf8 plaintext = true →
  encrypt_secret (Some nonce) key plaintext = Ok envelope →
  decrypt_secret key envelope = Ok plaintext.
Proof.
  intros Hn Hu. unfold encrypt_secret. simpl.
  destruct (seal key nonce plaintext) as [c|] eqn:Hs; simpl; [|done]. intros [= <-].
  unfold decrypt_secret.
  change (split ":" _) with ("rzsec"%string :: "v1"%string :: split ":" (b64 nonce +:+ String ":" (b64 c))).
  rewrite split_app by apply b64_no_colon. rewrite split_no_char by apply b64_no_colon.
  simpl. rewrite !unb64_b64. simpl. rewrite decide_False by (intros Hne; by apply Hne).
  rewrite (unseal_seal _ _ _ _ Hs). simpl. by rewrite Hu.
Qed.
End secrets.

(** An instance that has the laws: a toy cipher, and hexadecimal in the place
    of Base64. *)
Definition hex_digit (n : nat) : ascii :=
  ascii_of_nat (if decide (n < 10)%nat then 48 + n else 87 + n).
Fixpoint toy_encode (s : string) : string :=
  match s with
  | EmptyString => ""
  | String a s =>
    String (hex_digit (nat_of_ascii a / 16)) (String (hex_digit (nat_of_ascii a mod 16))
      (toy_encode s))
  end.
Definition hex_value (a : ascii) : nat :=
  if in_range 48 57 a then nat_of_ascii a - 48 else nat_of_ascii a - 87.
Fixpoint toy_decode (s : string) : option string :=
  match s with
  | EmptyString => Some ""
  | String a (String b s) =>
    String (ascii_of_nat (hex_value a * 16 + hex_value b)) <$> toy_decode s
  | _ => None
  end.

#[local] Instance toy_crypto : Crypto := {|
  seal := λ key nonce plaintext, Some (nonce +:+ plaintext);
  unseal := λ key nonce c, strip_prefix c nonce;
  b64 := toy_encode;
  unb64 := toy_decode;
  unhex := toy_decode;
  utf8 := λ _, true;
  hmac_sha256 := λ key message, key +:+ message
|}.

Lemma toy_decode_encode s : toy_decode (toy_encode s) = Some s.
Proof.
  induction s as [|a s IH]; [done|]. cbn [toy_encode toy_decode]. rewrite IH. cbn [fmap option_fmap option_map].
  do 2 f_equal. by destruct a as [[] [] [] [] [] [] [] []].
Qed.

Lemma toy_encode_no_colon s : contains_char ":" (toy_encode s) = false.
Proof.
  induction s as [|a s IH]; [done|]. cbn [toy_encode contains_char]. rewrite IH.
  by destruct a as [[] [] [] [] [] [] [] []].
Qed.

#[local] Instance toy_laws : CryptoLaws.
Proof.
  constructor.
  - intros key nonce p c [= <-]. apply strip_prefix_app.
  - apply toy_decode_encode.
  - apply toy_encode_no_colon.
Qed.

Lemma secret_roundtrip_witness :
  decrypt_secret "k"
    ("rzsec:v1:" +:+ toy_encode "nonce-twelve" +:+ ":" +:+ toy_encode "nonce-twelvewhsec_1")
  = Ok "whsec_1"%string.
Proof.
  apply (secret_roundtrip "nonce-twelve"); [reflexivity|reflexivity|by vm_compute].
Defined.
