(* ===== verification/Config.v ===== *)
(** * Configuration (src/config.rs)

    The configuration record and its reading from environment variables; the
    environment is a lookup function. *)
From S2P Require Import Prelude Text Json Env Secrets.

Inductive EventBusMode := BusInMemory | BusPostgres | BusKafka.
Inductive MetadataDbMode := DbInMemory | DbPostgres.
Inductive ConsumerSignalMode :=
| SigPolling | SigWebsocket | SigWebhook | SigKafka
| SigWebsocketAndPolling | SigWebhookAndPolling.
Inductive StorageProvider := LocalFs | R2.

#[export] Instance EventBusMode_eq_dec : EqDecision EventBusMode.
Proof. solve_decision. Defined.
#[export] Instance MetadataDbMode_eq_dec : EqDecision MetadataDbMode.
Proof. solve_decision. Defined.
#[export] Instance ConsumerSignalMode_eq_dec : EqDecision ConsumerSignalMode.
Proof. solve_decision. Defined.
#[export] Instance StorageProvider_eq_dec : EqDecision StorageProvider.
Proof. solve_decision. Defined.

Record R2Config : Type := mkR2Config {
  r2_endpoint : option string;
  r2_access_key_id : option string;
  r2_secret_access_key : option string;
  r2_bucket : string;
  r2_public_url : option string;
  r2_region : string;
  r2_base_prefix : string
}.
#[export] Instance eta_R2Config : Eta R2Config := λ r,
  mkR2Config (r2_endpoint r) (r2_access_key_id r) (r2_secret_access_key r) (r2_bucket
    r) (r2_public_url r) (r2_region r) (r2_base_prefix r).

Record KafkaConfig : Type := mkKafkaConfig {
  kafka_brokers : option string;
  kafka_client_id : string;
  kafka_topic_prefix : string;
  kafka_consumer_group : string;
  kafka_retry_topic_suffix : string;
  kafka_deadletter_topic_suffix : string;
  kafka_message_max_bytes : Z;
  kafka_enable_auto_create_topics : bool;
  kafka_default_partitions : Z;
  kafka_default_replication_factor : Z;
  kafka_message_retention_hours : Z;
  kafka_deadletter_retention_hours : Z;
  kafka_compression_type : string;
  kafka_producer_linger_ms : Z;
  kafka_producer_batch_size_bytes : Z;
  kafka_consumer_max_poll_records : Z;
  kafka_retry_max_attempts : Z;
  kafka_request_timeout_ms : Z
}.
#[export] Instance eta_KafkaConfig : Eta KafkaConfig := λ r,
  mkKafkaConfig (kafka_brokers r) (kafka_client_id r) (kafka_topic_prefix r)
    (kafka_consumer_group r) (kafka_retry_topic_suffix r)
    (kafka_deadletter_topic_suffix r) (kafka_message_max_bytes r)
    (kafka_enable_auto_create_topics r) (kafka_default_partitions r)
    (kafka_default_replication_factor r) (kafka_message_retention_hours r)
    (kafka_deadletter_retention_hours r) (kafka_compression_type r)
    (kafka_producer_linger_ms r) (kafka_producer_batch_size_bytes r)
    (kafka_consumer_max_poll_records r) (kafka_retry_max_attempts r)
    (kafka_request_timeout_ms r).

Record WebhookConfig : Type := mkWebhookConfig {
  webhook_delivery_enabled : bool;
  webhook_timeout_seconds : Z;
  webhook_max_batch_size : Z;
  webhook_max_retries : Z;
  webhook_retry_base_seconds : Z;
  webhook_retry_max_seconds : Z;
  webhook_signing_header : string;
  webhook_timestamp_header : string;
  webhook_event_id_header : string
}.
#[export] Instance eta_WebhookConfig : Eta WebhookConfig := λ r,
  mkWebhookConfig (webhook_delivery_enabled r) (webhook_timeout_seconds r)
    (webhook_max_batch_size r) (webhook_max_retries r) (webhook_retry_base_seconds r)
    (webhook_retry_max_seconds r) (webhook_signing_header r) (webhook_timestamp_header
    r) (webhook_event_id_header r).

Record GroqConfig : Type := mkGroqConfig {
  groq_api_key : option string;
  groq_stt_model : string;
  groq_stt_language : string;
  groq_stt_response_format : string;
  groq_stt_timeout_seconds : Z;
  groq_stt_max_audio_mb : Z;
  groq_stt_enable_preprocessing : bool;
  groq_ffmpeg_path : string
}.
#[export] Instance eta_GroqConfig : Eta GroqConfig := λ r,
  mkGroqConfig (groq_api_key r) (groq_stt_model r) (groq_stt_language r)
    (groq_stt_response_format r) (groq_stt_timeout_seconds r) (groq_stt_max_audio_mb
    r) (groq_stt_enable_preprocessing r) (groq_ffmpeg_path r).

Record RateLimitConfig : Type := mkRateLimitConfig {
  rl_requests_per_minute_per_project : Z;
  rl_send_message_per_minute_per_channel : Z;
  rl_send_message_per_minute_per_conversation : Z;
  rl_media_downloads_per_minute_per_channel : Z;
  rl_stt_per_minute_per_project : Z;
  rl_admin_requests_per_minute : Z;
  rl_ws_subscriptions_per_connection : Z
}.
#[export] Instance eta_RateLimitConfig : Eta RateLimitConfig := λ r,
  mkRateLimitConfig (rl_requests_per_minute_per_project r)
    (rl_send_message_per_minute_per_channel r)
    (rl_send_message_per_minute_per_conversation r)
    (rl_media_downloads_per_minute_per_channel r) (rl_stt_per_minute_per_project r)
    (rl_admin_requests_per_minute r) (rl_ws_subscriptions_per_connection r).

Record AppConfig : Type := mkAppConfig {
  cfg_env : string;
  cfg_bind_addr : string;
  cfg_public_base_url : string;
  cfg_log_level : string;
  cfg_dev_mode : bool;
  cfg_dev_simulation_enabled : bool;
  cfg_admin_api_key : string;
  cfg_project_api_key : string;
  cfg_metadata_db : MetadataDbMode;
  cfg_database_url : option string;
  cfg_database_max_connections : Z;
  cfg_database_min_connections : Z;
  cfg_wa_session_sqlite_dir : string;
  cfg_event_bus : EventBusMode;
  cfg_consumer_signal_mode : ConsumerSignalMode;
  cfg_storage_provider : StorageProvider;
  cfg_local_storage_dir : string;
  cfg_r2_ready_write_check : bool;
  cfg_r2 : R2Config;
  cfg_kafka : KafkaConfig;
  cfg_webhook : WebhookConfig;
  cfg_groq : GroqConfig;
  cfg_rate_limits : RateLimitConfig;
  cfg_media_local_temp_dir : string;
  cfg_media_local_temp_max_gb : Z;
  cfg_media_sniff_magic_bytes : bool;
  cfg_r2_presigned_url_ttl_seconds : Z;
  cfg_media_temp_retention_days : Z;
  cfg_media_quick_delete_threshold_mb : Z;
  cfg_media_reject_threshold_mb : Z;
  cfg_webhook_signing_header : string;
  cfg_secret_master_key : option SecretMasterKey;
  cfg_secret_master_key_error : option string;
  cfg_log_redact_message_text : bool;
  cfg_log_redact_phone : bool
}.
#[export] Instance eta_AppConfig : Eta AppConfig := λ r,
  mkAppConfig (cfg_env r) (cfg_bind_addr r) (cfg_public_base_url r) (cfg_log_level r)
    (cfg_dev_mode r) (cfg_dev_simulation_enabled r) (cfg_admin_api_key r)
    (cfg_project_api_key r) (cfg_metadata_db r) (cfg_database_url r)
    (cfg_database_max_connections r) (cfg_database_min_connections r)
    (cfg_wa_session_sqlite_dir r) (cfg_event_bus r) (cfg_consumer_signal_mode r)
    (cfg_storage_provider r) (cfg_local_storage_dir r) (cfg_r2_ready_write_check r)
    (cfg_r2 r) (cfg_kafka r) (cfg_webhook r) (cfg_groq r) (cfg_rate_limits r)
    (cfg_media_local_temp_dir r) (cfg_media_local_temp_max_gb r)
    (cfg_media_sniff_magic_bytes r) (cfg_r2_presigned_url_ttl_seconds r)
    (cfg_media_temp_retention_days r) (cfg_media_quick_delete_threshold_mb r)
    (cfg_media_reject_threshold_mb r) (cfg_webhook_signing_header r)
    (cfg_secret_master_key r) (cfg_secret_master_key_error r)
    (cfg_log_redact_message_text r) (cfg_log_redact_phone r).

(** ** URLs *)
Definition r2_public_object_url (r2 : R2Config) (object_key : string) : option string :=
  (λ base, trim_end_matches "/" base +:+ "/" +:+ trim_start_matches "/" object_key)
    <$> r2_public_url r2.

Definition can_upload (r2 : R2Config) : bool :=
  is_some_and (r2_endpoint r2) (λ v, negb (bool_decide (v = ""))) &&
  is_some_and (r2_access_key_id r2) (λ v, negb (bool_decide (v = ""))) &&
  is_some_and (r2_secret_access_key r2) (λ v, negb (bool_decide (v = ""))) &&
  negb (bool_decide (r2_bucket r2 = "")).

Definition public_object_url (config : AppConfig) (object_key : string) : option string :=
  if decide (cfg_storage_provider config ≠ R2) then None
  else r2_public_object_url (cfg_r2 config) object_key.

Definition dev_media_url (config : AppConfig) (media_id : string) : string :=
  trim_end_matches "/" (cfg_public_base_url config) +:+ "/dev-media/" +:+ media_id.

(** ** Reading the environment *)

(** [str::parse] for [bool] (std); for integers, see Text.v. *)
Definition parse_bool (s : string) : option bool :=
  if decide (s = "true") then Some true
  else if decide (s = "false") then Some false else None.

Section from_env.
(** [env::var(key).ok()] *)
Context `{Crypto} (var : string → option string).

Definition env_or (key default_ : string) : string := unwrap_or (var key) default_.
Definition env_first (keys : list string) : option string :=
  find_map (λ key, opt_filter (λ v, negb (is_blank v)) (var key)) keys.
Definition env_bool (key : string) (d : bool) : bool := unwrap_or (var key ≫= parse_bool) d.
Definition env_u32 (key : string) (d : Z) : Z :=
  unwrap_or (var key ≫= parse_unsigned u32_max) d.
Definition env_u64 (key : string) (d : Z) : Z :=
  unwrap_or (var key ≫= parse_unsigned u64_max) d.
Definition env_usize (key : string) (d : Z) : Z :=
  unwrap_or (var key ≫= parse_unsigned u64_max) d.

Definition lookup_or (key d : string) : string :=
  unwrap_or (opt_filter (λ v, negb (is_blank v)) (var key)) d.
Definition lookup_bool (key : string) (d : bool) : bool :=
  unwrap_or (var key ≫= parse_bool) d.
Definition lookup_i32 (key : string) (d : Z) : Z :=
  unwrap_or (var key ≫= parse_signed (2 ^ 31)) d.
Definition lookup_i64 (key : string) (d : Z) : Z :=
  unwrap_or (var key ≫= parse_signed (2 ^ 63)) d.
Definition lookup_u32 (key : string) (d : Z) : Z :=
  unwrap_or (var key ≫= parse_unsigned u32_max) d.
Definition lookup_u64 (key : string) (d : Z) : Z :=
  unwrap_or (var key ≫= parse_unsigned u64_max) d.
Definition lookup_usize (key : string) (d : Z) : Z :=
  unwrap_or (var key ≫= parse_unsigned u64_max) d.

Definition event_bus_mode_from_env : EventBusMode :=
  let v := env_or "EVENT_BUS" "in_memory" in
  if decide (v = "kafka") then BusKafka
  else if decide (v = "postgres") then BusPostgres else BusInMemory.
Definition metadata_db_mode_from_env : MetadataDbMode :=
  let v := env_or "RUSTZAP_METADATA_DB" "in_memory" in
  if decide (v = "postgres") then DbPostgres else DbInMemory.
Definition consumer_signal_mode_from_env : ConsumerSignalMode :=
  let v := env_or "CONSUMER_SIGNAL_MODE" "polling" in
  if decide (v = "websocket") then SigWebsocket
  else if decide (v = "webhook") then SigWebhook
  else if decide (v = "kafka") then SigKafka
  else if decide (v = "websocket_and_polling") then SigWebsocketAndPolling
  else if decide (v = "webhook_and_polling") then SigWebhookAndPolling
  else SigPolling.
Definition storage_provider_from_env : StorageProvider :=
  if decide (env_or "STORAGE_PROVIDER" "local_fs" = "r2") then R2 else LocalFs.

Definition r2_config_from_env : R2Config := {|
  r2_endpoint := env_first ["R2_DEV_ENDPOINT"; "R2_ENDPOINT"]%string;
  r2_access_key_id := env_first ["R2_DEV_ACCESS_KEY_ID"; "R2_ACCESS_KEY_ID"]%string;
  r2_secret_access_key :=
    env_first ["R2_DEV_SECRET_ACCESS_KEY"; "R2_SECRET_ACCESS_KEY"]%string;
  r2_bucket := unwrap_or (env_first ["R2_DEV_BUCKET"; "R2_BUCKET"]%string) "devbucket"%string;
  r2_public_url := env_first ["R2_DEV_PUBLIC_URL"; "R2_PUBLIC_URL"]%string;
  r2_region := unwrap_or (env_first ["R2_DEV_REGION"; "R2_REGION"]%string) "auto"%string;
  r2_base_prefix :=
    unwrap_or (env_first ["R2_DEV_BASE_PREFIX"; "R2_BASE_PREFIX"]%string) "rustyzap"%string
|}.

Definition kafka_config_from_lookup : KafkaConfig := {|
  kafka_brokers := opt_filter (λ v, negb (is_blank v)) (var "KAFKA_BROKERS");
  kafka_client_id := lookup_or "KAFKA_CLIENT_ID" "rustzap";
  kafka_topic_prefix := lookup_or "KAFKA_TOPIC_PREFIX" "rustzap";
  kafka_consumer_group := lookup_or "KAFKA_CONSUMER_GROUP" "rustzap-main";
  kafka_retry_topic_suffix := lookup_or "KAFKA_RETRY_TOPIC_SUFFIX" "retry";
  kafka_deadletter_topic_suffix := lookup_or "KAFKA_DEADLETTER_TOPIC_SUFFIX" "deadletter";
  kafka_message_max_bytes := lookup_usize "KAFKA_MESSAGE_MAX_BYTES" 1048576;
  kafka_enable_auto_create_topics := lookup_bool "KAFKA_ENABLE_AUTO_CREATE_TOPICS" true;
  kafka_default_partitions := lookup_i32 "KAFKA_DEFAULT_PARTITIONS" 24;
  kafka_default_replication_factor := lookup_i32 "KAFKA_DEFAULT_REPLICATION_FACTOR" 1;
  kafka_message_retention_hours := lookup_i64 "KAFKA_MESSAGE_RETENTION_HOURS" 168;
  kafka_deadletter_retention_hours := lookup_i64 "KAFKA_DEADLETTER_RETENTION_HOURS" 168;
  kafka_compression_type := lookup_or "KAFKA_COMPRESSION_TYPE" "none";
  kafka_producer_linger_ms := lookup_u64 "KAFKA_PRODUCER_LINGER_MS" 5;
  kafka_producer_batch_size_bytes := lookup_usize "KAFKA_PRODUCER_BATCH_SIZE_BYTES" 65536;
  kafka_consumer_max_poll_records := lookup_usize "KAFKA_CONSUMER_MAX_POLL_RECORDS" 500;
  kafka_retry_max_attempts := lookup_u32 "KAFKA_RETRY_MAX_ATTEMPTS" 8;
  kafka_request_timeout_ms := lookup_u64 "KAFKA_REQUEST_TIMEOUT_MS" 5000
|}.

Definition webhook_config_from_env : WebhookConfig := {|
  webhook_delivery_enabled := env_bool "WEBHOOK_DELIVERY_ENABLED" false;
  webhook_timeout_seconds := env_u64 "WEBHOOK_TIMEOUT_SECONDS" 10;
  webhook_max_batch_size := env_usize "WEBHOOK_MAX_BATCH_SIZE" 100;
  webhook_max_retries := env_u32 "WEBHOOK_MAX_RETRIES" 8;
  webhook_retry_base_seconds := env_u64 "WEBHOOK_RETRY_BASE_SECONDS" 5;
  webhook_retry_max_seconds := env_u64 "WEBHOOK_RETRY_MAX_SECONDS" 3600;
  webhook_signing_header := env_or "WEBHOOK_SIGNING_HEADER" "X-RustZap-Signature";
  webhook_timestamp_header := env_or "WEBHOOK_TIMESTAMP_HEADER" "X-RustZap-Timestamp";
  webhook_event_id_header := env_or "WEBHOOK_EVENT_ID_HEADER" "X-RustZap-Event-Id"
|}.

Definition groq_config_from_env : GroqConfig := {|
  groq_api_key := opt_filter (λ v, negb (is_blank v)) (var "GROQ_API_KEY");
  groq_stt_model := env_or "GROQ_STT_MODEL" "whisper-large-v3-turbo";
  groq_stt_language := env_or "GROQ_STT_LANGUAGE" "pt";
  groq_stt_response_format := env_or "GROQ_STT_RESPONSE_FORMAT" "verbose_json";
  groq_stt_timeout_seconds := env_u64 "GROQ_STT_TIMEOUT_SECONDS" 60;
  groq_stt_max_audio_mb := env_u64 "GROQ_STT_MAX_AUDIO_MB" 25;
  groq_stt_enable_preprocessing := env_bool "GROQ_STT_ENABLE_PREPROCESSING" true;
  groq_ffmpeg_path := env_or "FFMPEG_PATH" "/usr/bin/ffmpeg"
|}.

Definition rate_limit_config_from_env : RateLimitConfig := {|
  rl_requests_per_minute_per_project :=
    env_u32 "RATE_LIMIT_REQUESTS_PER_MINUTE_PER_PROJECT" 6000;
  rl_send_message_per_minute_per_channel :=
    env_u32 "RATE_LIMIT_SEND_MESSAGE_PER_MINUTE_PER_CHANNEL" 120;
  rl_send_message_per_minute_per_conversation :=
    env_u32 "RATE_LIMIT_SEND_MESSAGE_PER_MINUTE_PER_CONVERSATION" 20;
  rl_media_downloads_per_minute_per_channel :=
    env_u32 "RATE_LIMIT_MEDIA_DOWNLOADS_PER_MINUTE_PER_CHANNEL" 300;
  rl_stt_per_minute_per_project := env_u32 "RATE_LIMIT_STT_PER_MINUTE_PER_PROJECT" 120;
  rl_admin_requests_per_minute := env_u32 "RATE_LIMIT_ADMIN_REQUESTS_PER_MINUTE" 300;
  rl_ws_subscriptions_per_connection :=
    env_u32 "RATE_LIMIT_WS_SUBSCRIPTIONS_PER_CONNECTION" 1000
|}.

Definition secret_master_key_from_env : result (option SecretMasterKey) SecretError :=
  match env_first ["RUSTZAP_SECRET_MASTER_KEY"; "RUSTZAP_SECRETS_MASTER_KEY"]%string with
  | None => Ok None
  | Some value => map_result Some (from_env_value value)
  end.

Definition from_env : AppConfig := {|
  cfg_env := env_or "RUSTZAP_ENV" "development";
  cfg_bind_addr := env_or "RUSTZAP_BIND_ADDR" "0.0.0.0:8167";
  cfg_public_base_url := env_or "RUSTZAP_PUBLIC_BASE_URL" "http://localhost:8167";
  cfg_log_level := env_or "RUSTZAP_LOG_LEVEL" "info";
  cfg_dev_mode := env_bool "RUSTZAP_DEV_MODE" true;
  cfg_dev_simulation_enabled := env_bool "DEV_SIMULATION_ENABLED" false;
  cfg_admin_api_key := env_or "RUSTZAP_ADMIN_API_KEY" "dev_admin_key";
  cfg_project_api_key := env_or "RUSTZAP_PROJECT_API_KEY" "dev_project_key";
  cfg_metadata_db := metadata_db_mode_from_env;
  cfg_database_url := var "DATABASE_URL";
  cfg_database_max_connections := env_u32 "DATABASE_MAX_CONNECTIONS" 50;
  cfg_database_min_connections := env_u32 "DATABASE_MIN_CONNECTIONS" 5;
  cfg_wa_session_sqlite_dir := env_or "WA_SESSION_SQLITE_DIR" "/data/rustzap/wa-sessions";
  cfg_event_bus := event_bus_mode_from_env;
  cfg_consumer_signal_mode := consumer_signal_mode_from_env;
  cfg_storage_provider := storage_provider_from_env;
  cfg_local_storage_dir := env_or "LOCAL_STORAGE_DIR" "/tmp/rustzap/media";
  cfg_r2_ready_write_check := env_bool "R2_READY_WRITE_CHECK" false;
  cfg_r2 := r2_config_from_env;
  cfg_kafka := kafka_config_from_lookup;
  cfg_webhook := webhook_config_from_env;
  cfg_groq := groq_config_from_env;
  cfg_rate_limits := rate_limit_config_from_env;
  cfg_media_local_temp_dir := env_or "MEDIA_LOCAL_TEMP_DIR" "/data/rustzap/tmp-media";
  cfg_media_local_temp_max_gb := env_u64 "MEDIA_LOCAL_TEMP_MAX_GB" 20;
  cfg_media_sniff_magic_bytes := env_bool "MEDIA_SNIFF_MAGIC_BYTES" true;
  cfg_r2_presigned_url_ttl_seconds := env_u64 "R2_PRESIGNED_URL_TTL_SECONDS" 900;
  cfg_media_temp_retention_days := env_u32 "MEDIA_TEMP_RETENTION_DAYS" 30;
  cfg_media_quick_delete_threshold_mb := env_u64 "MEDIA_QUICK_DELETE_THRESHOLD_MB" 25;
  cfg_media_reject_threshold_mb := env_u64 "MEDIA_REJECT_THRESHOLD_MB" 100;
  cfg_webhook_signing_header := env_or "WEBHOOK_SIGNING_HEADER" "X-RustZap-Signature";
  cfg_secret_master_key :=
    match secret_master_key_from_env with Ok k => k | Err _ => None end;
  cfg_secret_master_key_error :=
    match secret_master_key_from_env with Ok _ => None | Err e => Some (secret_error e) end;
  cfg_log_redact_message_text := env_bool "RUSTZAP_LOG_REDACT_MESSAGE_TEXT" true;
  cfg_log_redact_phone := env_bool "RUSTZAP_LOG_REDACT_PHONE" true
|}.
End from_env.

(** The configuration of an empty environment: all defaults. *)
Definition default_config : AppConfig := @from_env toy_crypto (λ _, None).

