(* ===== verification/Security.v ===== *)
(** * Request identity and digests (src/security.rs)

    The principal a request acts as, the hash of a request body, and the
    signature of a webhook. *)
From S2P Require Import Prelude Text Json Errors Env Secrets.

Record Principal : Type := mkPrincipal {
  prin_api_key_id : string;
  prin_scopes : list string;
  prin_project_id : option string;
  prin_company_id : option string
}.
#[export] Instance eta_Principal : Eta Principal := λ r,
  mkPrincipal (prin_api_key_id r) (prin_scopes r) (prin_project_id r) (prin_company_id
    r).

Record ApiKeyPrincipal : Type := mkApiKeyPrincipal {
  akp_api_key_id : string;
  akp_project_id : string;
  akp_company_id : option string;
  akp_scopes : list string;
  akp_revoked : bool
}.

Definition INTERNAL_M2M_API_KEY_ID : string := "m2m_internal".
Definition ACTOR_ID_HEADER : string := "X-RustZap-Actor-Id".

Section security.
Context `{Env}.

Definition stable_key_id (token : string) : string :=
  "key_" +:+ hex_encode (String.substring 0 8 (sha256 token)).

Definition actor_id (headers : string → option string) : option string :=
  opt_filter (λ v, negb (bool_decide (v = ""))) (trim <$> headers ACTOR_ID_HEADER).

Definition trusted_internal_principal_with_key (api_key_id : string) : Principal :=
  mkPrincipal api_key_id ["admin:*"%string] None None.

Definition trusted_internal_principal (headers : string → option string) : Principal :=
  trusted_internal_principal_with_key
    match actor_id headers with
    | Some actor => "actor_" +:+ stable_key_id actor
    | None => INTERNAL_M2M_API_KEY_ID
    end.

Definition trusted_internal_principal_for_token (token : string) : Principal :=
  trusted_internal_principal_with_key
    (if is_blank token then INTERNAL_M2M_API_KEY_ID else stable_key_id token).

(** Every request is trusted: the scope and the tenant are not looked at. *)
Definition authorize (headers : string → option string) (required_scope : string)
  : result Principal ApiError := Ok (trusted_internal_principal headers).
Definition authorize_project (headers : string → option string)
    (required_scope project_id : string) : result Principal ApiError :=
  authorize headers required_scope.
Definition authorize_company (headers : string → option string)
    (required_scope project_id company_id : string) : result Principal ApiError :=
  authorize headers required_scope.
Definition authorize_token (token required_scope : string) : result Principal ApiError :=
  Ok (trusted_internal_principal_for_token token).

(** [enforce_project_tenant]: it does not look at its arguments. *)
Definition enforce_project_tenant (principal : Principal) (project_id : string)
    (allow_company_scoped : bool) : result unit ApiError := Ok tt.

Definition has_scope (scopes : list string) (required_scope : string) : bool :=
  bool_decide ("admin:*"%string ∈ scopes) || bool_decide (required_scope ∈ scopes).

Definition bearer_token (headers : string → option string) : option string :=
  headers "authorization"%string ≫= λ v, strip_prefix v "Bearer ".

Definition idempotency_key (headers : string → option string) : result string ApiError :=
  ok_or (opt_filter (λ v, negb (is_blank v)) (headers "Idempotency-Key"%string))
    (BadRequest "missing Idempotency-Key").

Definition sha256_hex (value : string) : string := hex_encode (sha256 value).

(** *** API keys *)
(** [API_KEYS], by the hash of the key. *)
Abbreviation ApiKeys := (gmap string ApiKeyPrincipal).
(** The plain text, its hash and its identifier, from a fresh UUID. *)
Definition generate_api_key (uuid : string) : string * string * string :=
  let plaintext := "rzp_" +:+ uuid in
  (plaintext, sha256_hex plaintext, stable_key_id plaintext).
Definition register_project_api_key (key_hash api_key_id project_id : string)
    (company_id : option string) (scopes : list string) (revoked : bool) (keys : ApiKeys) : ApiKeys :=
  <[key_hash := mkApiKeyPrincipal api_key_id project_id company_id scopes revoked]> keys.

(** The digest of the serialized value. *)
Definition sha256_json {T} `{ToJson T} (value : T) : result string ApiError :=
  match json_to_vec (json value) with
  | Ok bytes => Ok (hex_encode (sha256 bytes))
  | Err err => Err (BadRequest ("invalid JSON body: " +:+ err))
  end.

Definition webhook_signature `{Crypto} (secret timestamp raw_body : string) : string :=
  hex_encode (hmac_sha256 secret (timestamp +:+ "." +:+ raw_body)).
End security.
