(* ===== verification/Models.v ===== *)
(** * Data model (src/models.rs)

    The records of the REST contract and of the store. *)
From S2P Require Import Prelude Text Json Env.

Definition INTERNAL_PROJECT_ID : string := "rustzap_internal".

(** ** Paging *)
Record PageQuery : Type := mkPageQuery {
  pq_limit : option Z;
  pq_cursor : option string;
  pq_q : option string;
  pq_direction : option string;
  pq_before_seq : option Z;
  pq_after_seq : option Z;
  pq_order : option string;
  pq_consumer_id : option string;
  pq_mode : option string
}.
#[export] Instance eta_PageQuery : Eta PageQuery := λ r,
  mkPageQuery (pq_limit r) (pq_cursor r) (pq_q r) (pq_direction r) (pq_before_seq r)
    (pq_after_seq r) (pq_order r) (pq_consumer_id r) (pq_mode r).

(** [limit.unwrap_or(50).clamp(1, 500)] *)
Definition page_limit (query : PageQuery) : Z :=
  Z.min 500 (Z.max 1 (unwrap_or (pq_limit query) 50)).

(** ** Conversations and messages *)
Record Conversation : Type := mkConversation {
  conv_id : string;
  conv_project_id : string;
  conv_company_id : string;
  conv_channel_account_id : string;
  conv_conversation_type : string;
  conv_contact_id : option string;
  conv_group_id : option string;
  conv_display_name : option string;
  conv_display_phone : option string;
  conv_phone_number : option string;
  conv_profile_picture_media_id : option string;
  conv_avatar_url : option string;
  conv_profile_picture_url : option string;
  conv_last_seq : Z;
  conv_last_message_at : option time;
  conv_unread_count : Z;
  conv_is_archived : bool;
  conv_is_muted : bool;
  conv_is_pinned : bool;
  conv_control_mode : string;
  conv_created_at : time;
  conv_updated_at : time
}.
#[export] Instance eta_Conversation : Eta Conversation := λ r,
  mkConversation (conv_id r) (conv_project_id r) (conv_company_id r)
    (conv_channel_account_id r) (conv_conversation_type r) (conv_contact_id r)
    (conv_group_id r) (conv_display_name r) (conv_display_phone r) (conv_phone_number
    r) (conv_profile_picture_media_id r) (conv_avatar_url r) (conv_profile_picture_url
    r) (conv_last_seq r) (conv_last_message_at r) (conv_unread_count r)
    (conv_is_archived r) (conv_is_muted r) (conv_is_pinned r) (conv_control_mode r)
    (conv_created_at r) (conv_updated_at r).

Inductive DeliveryState :=
| DsNotApplicable | DsPending | DsSent | DsDelivered | DsRead | DsFailed.

#[export] Instance DeliveryState_eq_dec : EqDecision DeliveryState.
Proof. solve_decision. Defined.

Definition delivery_state_for_message (direction message_type status : string)
  : DeliveryState :=
  if negb (bool_decide (direction = "outbound") || bool_decide (direction = "out"))
     || bool_decide (message_type = "system")
  then DsNotApplicable
  else if decide (status = "queued") then DsPending
  else if decide (status = "sent_to_whatsapp" ∨ status = "server_ack") then DsSent
  else if decide (status = "delivered") then DsDelivered
  else if decide (status = "read" ∨ status = "played") then DsRead
  else if decide (status = "failed") then DsFailed
  else DsNotApplicable.

(** [#[serde(rename_all = "snake_case")]] *)
#[export] Instance json_DeliveryState : ToJson DeliveryState := λ d,
  VString match d with
  | DsNotApplicable => "not_applicable" | DsPending => "pending" | DsSent => "sent"
  | DsDelivered => "delivered" | DsRead => "read" | DsFailed => "failed"
  end.

Record Message : Type := mkMessage {
  msg_id : string;
  msg_project_id : string;
  msg_company_id : string;
  msg_conversation_id : string;
  msg_channel_account_id : string;
  msg_conversation_seq : Z;
  msg_wa_message_id : option string;
  msg_direction : string;
  msg_sender_contact_id : option string;
  msg_sender_display_name : option string;
  msg_message_type : string;
  msg_text : option string;
  msg_media_id : option string;
  msg_media_url : option string;
  msg_thumbnail_url : option string;
  msg_mime_type : option string;
  msg_file_name : option string;
  msg_quoted_message_id : option string;
  msg_status : string;
  msg_error_message : option string;
  msg_is_starred : bool;
  msg_is_pinned : bool;
  msg_reaction : option string;
  msg_sent_by_source : option string;
  msg_sent_by_external_user_id : option string;
  msg_created_at_wa : time;
  msg_created_at : time;
  msg_updated_at : time
}.
#[export] Instance eta_Message : Eta Message := λ r,
  mkMessage (msg_id r) (msg_project_id r) (msg_company_id r) (msg_conversation_id r)
    (msg_channel_account_id r) (msg_conversation_seq r) (msg_wa_message_id r)
    (msg_direction r) (msg_sender_contact_id r) (msg_sender_display_name r)
    (msg_message_type r) (msg_text r) (msg_media_id r) (msg_media_url r)
    (msg_thumbnail_url r) (msg_mime_type r) (msg_file_name r) (msg_quoted_message_id
    r) (msg_status r) (msg_error_message r) (msg_is_starred r) (msg_is_pinned r)
    (msg_reaction r) (msg_sent_by_source r) (msg_sent_by_external_user_id r)
    (msg_created_at_wa r) (msg_created_at r) (msg_updated_at r).

Definition delivery_state (m : Message) : DeliveryState :=
  delivery_state_for_message (msg_direction m) (msg_message_type m) (msg_status m).

(** [impl Serialize for Message]: the stored fields and the computed
    [delivery_state]. *)
#[export] Instance json_Message `{Env} : ToJson Message := λ m,
  json! {
    "id" ~> msg_id m,
    "project_id" ~> msg_project_id m,
    "company_id" ~> msg_company_id m,
    "conversation_id" ~> msg_conversation_id m,
    "channel_account_id" ~> msg_channel_account_id m,
    "conversation_seq" ~> msg_conversation_seq m,
    "wa_message_id" ~> msg_wa_message_id m,
    "direction" ~> msg_direction m,
    "sender_contact_id" ~> msg_sender_contact_id m,
    "sender_display_name" ~> msg_sender_display_name m,
    "message_type" ~> msg_message_type m,
    "text" ~> msg_text m,
    "media_id" ~> msg_media_id m,
    "media_url" ~> msg_media_url m,
    "thumbnail_url" ~> msg_thumbnail_url m,
    "mime_type" ~> msg_mime_type m,
    "file_name" ~> msg_file_name m,
    "quoted_message_id" ~> msg_quoted_message_id m,
    "status" ~> msg_status m,
    "delivery_state" ~> delivery_state m,
    "error_message" ~> msg_error_message m,
    "is_starred" ~> msg_is_starred m,
    "is_pinned" ~> msg_is_pinned m,
    "reaction" ~> msg_reaction m,
    "sent_by_source" ~> msg_sent_by_source m,
    "sent_by_external_user_id" ~> msg_sent_by_external_user_id m,
    "created_at_wa" ~> ts (msg_created_at_wa m),
    "created_at" ~> ts (msg_created_at m),
    "updated_at" ~> ts (msg_updated_at m)
  }.

Record SendMessageRequest : Type := mkSendMessageRequest {
  sreq_message_type : string;
  sreq_text : option string;
  sreq_media_id : option string;
  sreq_caption : option string;
  sreq_filename : option string;
  sreq_quoted_message_id : option string;
  sreq_metadata : option Value
}.
#[export] Instance eta_SendMessageRequest : Eta SendMessageRequest := λ r,
  mkSendMessageRequest (sreq_message_type r) (sreq_text r) (sreq_media_id r)
    (sreq_caption r) (sreq_filename r) (sreq_quoted_message_id r) (sreq_metadata r).
(** The derived [Serialize]: the fields in the order they are declared in. *)
#[export] Instance json_SendMessageRequest : ToJson SendMessageRequest := λ r,
  VObject [("type", json (sreq_message_type r)); ("text", json (sreq_text r));
           ("media_id", json (sreq_media_id r)); ("caption", json (sreq_caption r));
           ("filename", json (sreq_filename r));
           ("quoted_message_id", json (sreq_quoted_message_id r));
           ("metadata", json (sreq_metadata r))]%string.

Record SimulateInboundTextRequest : Type := mkSimulateInboundTextRequest {
  itreq_conversation_id : option string;
  itreq_channel_id : option string;
  itreq_from_phone_e164 : option string;
  itreq_sender_name : option string;
  itreq_profile_picture_url : option string;
  itreq_text : string
}.
#[export] Instance eta_SimulateInboundTextRequest : Eta SimulateInboundTextRequest := λ r,
  mkSimulateInboundTextRequest (itreq_conversation_id r) (itreq_channel_id r)
    (itreq_from_phone_e164 r) (itreq_sender_name r) (itreq_profile_picture_url r)
    (itreq_text r).

Record SimulateInboundMediaRequest : Type := mkSimulateInboundMediaRequest {
  imreq_conversation_id : option string;
  imreq_channel_id : option string;
  imreq_from_phone_e164 : option string;
  imreq_sender_name : option string;
  imreq_media_type : option string;
  imreq_mime_type : option string;
  imreq_size_bytes : option Z;
  imreq_filename : option string;
  imreq_caption : option string;
  imreq_profile_picture_url : option string
}.
#[export] Instance eta_SimulateInboundMediaRequest : Eta SimulateInboundMediaRequest := λ r,
  mkSimulateInboundMediaRequest (imreq_conversation_id r) (imreq_channel_id r)
    (imreq_from_phone_e164 r) (imreq_sender_name r) (imreq_media_type r)
    (imreq_mime_type r) (imreq_size_bytes r) (imreq_filename r) (imreq_caption r)
    (imreq_profile_picture_url r).

Record MessagesPage : Type := mkMessagesPage {
  page_conversation_id : string;
  page_from_seq : option Z;
  page_to_seq : option Z;
  page_has_more : bool;
  page_messages : list Message
}.
#[export] Instance eta_MessagesPage : Eta MessagesPage := λ r,
  mkMessagesPage (page_conversation_id r) (page_from_seq r) (page_to_seq r)
    (page_has_more r) (page_messages r).

Record QrState : Type := mkQrState {
  qr_channel_id : string;
  qr_status : string;
  qr_qr_code_text : option string;
  qr_expires_at : time
}.
#[export] Instance eta_QrState : Eta QrState := λ r,
  mkQrState (qr_channel_id r) (qr_status r) (qr_qr_code_text r) (qr_expires_at r).

(** ** Media and transcripts *)
Record MediaObject : Type := mkMediaObject {
  media_id : string;
  media_project_id : string;
  media_company_id : string;
  media_conversation_id : string;
  media_message_id : option string;
  media_media_type : string;
  media_mime_type : string;
  media_original_filename : option string;
  media_size_bytes : Z;
  media_sha256 : string;
  media_storage_status : string;
  media_bucket : option string;
  media_object_key : option string;
  media_permanent_object_key : option string;
  media_public_url : option string;
  media_thumbnail_url : option string;
  media_width : option Z;
  media_height : option Z;
  media_duration_seconds : option Z;
  media_expires_at : option time;
  media_saved_at : option time;
  media_created_at : time;
  media_updated_at : time
}.
#[export] Instance eta_MediaObject : Eta MediaObject := λ r,
  mkMediaObject (media_id r) (media_project_id r) (media_company_id r)
    (media_conversation_id r) (media_message_id r) (media_media_type r)
    (media_mime_type r) (media_original_filename r) (media_size_bytes r) (media_sha256
    r) (media_storage_status r) (media_bucket r) (media_object_key r)
    (media_permanent_object_key r) (media_public_url r) (media_thumbnail_url r)
    (media_width r) (media_height r) (media_duration_seconds r) (media_expires_at r)
    (media_saved_at r) (media_created_at r) (media_updated_at r).

Record Transcript : Type := mkTranscript {
  tr_id : string;
  tr_project_id : string;
  tr_company_id : string;
  tr_message_id : string;
  tr_media_id : option string;
  tr_provider : string;
  tr_model : string;
  tr_language : string;
  tr_text : option string;
  tr_raw_response_json : Value;
  tr_status : string;
  tr_error_message : option string;
  tr_created_at : time;
  tr_updated_at : time
}.
#[export] Instance eta_Transcript : Eta Transcript := λ r,
  mkTranscript (tr_id r) (tr_project_id r) (tr_company_id r) (tr_message_id r)
    (tr_media_id r) (tr_provider r) (tr_model r) (tr_language r) (tr_text r)
    (tr_raw_response_json r) (tr_status r) (tr_error_message r) (tr_created_at r)
    (tr_updated_at r).

(** ** Dirty tracking *)
Record DirtyConversationItem : Type := mkDirtyConversationItem {
  ditem_conversation_id : string;
  ditem_max_seq : Z;
  ditem_reason : string;
  ditem_priority : Z;
  ditem_available_at : time;
  ditem_lease_token : string;
  ditem_locked_until : time
}.
#[export] Instance eta_DirtyConversationItem : Eta DirtyConversationItem := λ r,
  mkDirtyConversationItem (ditem_conversation_id r) (ditem_max_seq r) (ditem_reason r)
    (ditem_priority r) (ditem_available_at r) (ditem_lease_token r)
    (ditem_locked_until r).

Record DirtyAckRequest : Type := mkDirtyAckRequest {
  ack_consumer_id : string;
  ack_processed_until_seq : Z;
  ack_lease_token : string
}.
#[export] Instance eta_DirtyAckRequest : Eta DirtyAckRequest := λ r,
  mkDirtyAckRequest (ack_consumer_id r) (ack_processed_until_seq r) (ack_lease_token
    r).

(** ** Events and webhooks *)
Record CommonEvent : Type := mkCommonEvent {
  ev_event_id : string;
  ev_event_type : string;
  ev_project_id : string;
  ev_company_id : string;
  ev_channel_id : option string;
  ev_conversation_id : option string;
  ev_message_id : option string;
  ev_conversation_seq : option Z;
  ev_trace_id : string;
  ev_causation_id : option string;
  ev_correlation_id : string;
  ev_occurred_at : time;
  ev_produced_at : time;
  ev_payload : Value
}.
#[export] Instance eta_CommonEvent : Eta CommonEvent := λ r,
  mkCommonEvent (ev_event_id r) (ev_event_type r) (ev_project_id r) (ev_company_id r)
    (ev_channel_id r) (ev_conversation_id r) (ev_message_id r) (ev_conversation_seq r)
    (ev_trace_id r) (ev_causation_id r) (ev_correlation_id r) (ev_occurred_at r)
    (ev_produced_at r) (ev_payload r).

Record WebhookDeliveryAttempt : Type := mkWebhookDeliveryAttempt {
  att_id : string;
  att_project_id : string;
  att_company_id : string;
  att_callback_id : string;
  att_event_id : string;
  att_attempt : Z;
  att_status : string;
  att_http_status : option Z;
  att_error_message : option string;
  att_first_failed_at : option time;
  att_last_failed_at : option time;
  att_next_retry_at : option time;
  att_created_at : time
}.
#[export] Instance eta_WebhookDeliveryAttempt : Eta WebhookDeliveryAttempt := λ r,
  mkWebhookDeliveryAttempt (att_id r) (att_project_id r) (att_company_id r)
    (att_callback_id r) (att_event_id r) (att_attempt r) (att_status r)
    (att_http_status r) (att_error_message r) (att_first_failed_at r)
    (att_last_failed_at r) (att_next_retry_at r) (att_created_at r).

(** ** Properties *)

(** [limit()] is always a usable page size. *)
Lemma page_limit_range query : 1 ≤ page_limit query ≤ 500.
Proof. unfold page_limit. lia. Qed.
