(* ===== verification/RateLimit.v ===== *)
(** * Rate limiting (src/rate_limit.rs)

    Fixed one-minute windows.  A request names several keys; it is admitted
    when none of them has used up its budget, and then counts against all. *)
From S2P Require Import Prelude Text.

Record RateLimitBucket : Type := mkRateLimitBucket {
  rb_window_minute : Z;
  rb_count : Z
}.
#[export] Instance eta_RateLimitBucket : Eta RateLimitBucket := λ r,
  mkRateLimitBucket (rb_window_minute r) (rb_count r).

Record RateLimitDecision : Type := mkRateLimitDecision {
  rd_key : string;
  rd_retry_after_seconds : Z
}.
#[export] Instance eta_RateLimitDecision : Eta RateLimitDecision := λ r,
  mkRateLimitDecision (rd_key r) (rd_retry_after_seconds r).

(** The mutex-protected map of the limiter. *)
Abbreviation RateLimiter := (gmap string RateLimitBucket).

Definition current_window_minute (unix_seconds : Z) : Z := unix_seconds `div` 60.
Definition seconds_until_next_minute (unix_seconds : Z) : Z := 60 - unix_seconds `mod` 60.

(** First pass: roll the window of every known key, and stop at the first key
    that is over budget. *)
Fixpoint check_keys (window_minute max_per_minute : Z) (keys : list string)
    (buckets : RateLimiter) : option string * RateLimiter :=
  match keys with
  | [] => (None, buckets)
  | key :: keys =>
    match buckets !! key with
    | Some bucket =>
      let bucket :=
        if decide (rb_window_minute bucket ≠ window_minute)
        then bucket <| rb_window_minute := window_minute |> <| rb_count := 0 |>
        else bucket in
      let buckets := <[key := bucket]> buckets in
      if decide (max_per_minute ≤ rb_count bucket) then (Some key, buckets)
      else check_keys window_minute max_per_minute keys buckets
    | None => check_keys window_minute max_per_minute keys buckets
    end
  end.

(** Second pass: count the request against every key. *)
Definition count_key (window_minute : Z) (buckets : RateLimiter) (key : string)
  : RateLimiter :=
  let bucket := default (mkRateLimitBucket window_minute 0) (buckets !! key) in
  <[key := bucket <| rb_count := sat_add_u32 (rb_count bucket) 1 |>]> buckets.
Definition count_keys (window_minute : Z) (keys : list string) (buckets : RateLimiter)
  : RateLimiter := foldl (count_key window_minute) buckets keys.

Definition check (unix_seconds : Z) (keys : list string) (max_per_minute : Z)
    (buckets : RateLimiter) : result unit RateLimitDecision * RateLimiter :=
  if decide (max_per_minute = 0)
  then (Err {| rd_key := unwrap_or (head keys) "global"%string;
               rd_retry_after_seconds := seconds_until_next_minute unix_seconds |}, buckets)
  else
    let window_minute := current_window_minute unix_seconds in
    match check_keys window_minute max_per_minute keys buckets with
    | (Some key, buckets) =>
      (Err {| rd_key := key;
              rd_retry_after_seconds := seconds_until_next_minute unix_seconds |}, buckets)
    | (None, buckets) => (Ok tt, count_keys window_minute keys buckets)
    end.

(** ** Properties *)

(** The number of requests counted for [key] in window [w]. *)
Definition used (w : Z) (key : string) (buckets : RateLimiter) : Z :=
  match buckets !! key with
  | Some bucket => if decide (rb_window_minute bucket = w) then rb_count bucket else 0
  | None => 0
  end.

Lemma check_keys_used w max keys buckets :
  ∀ key, used w key (check_keys w max keys buckets).2 = used w key buckets.
Proof.
  intros key. revert buckets. induction keys as [|k keys IH]; intros bs; simpl; [done|].
  destruct (bs !! k) as [bucket|] eqn:Hk; [|by apply IH].
  assert (Hroll : used w key
      (<[k := if decide (rb_window_minute bucket ≠ w)
              then bucket <| rb_window_minute := w |> <| rb_count := 0 |>
              else bucket]> bs) = used w key bs).
  { unfold used. destruct (decide (key = k)) as [->|Hne].
    - rewrite lookup_insert_eq, Hk. repeat case_decide; simpl in *; try done; congruence.
    - rewrite lookup_insert_ne by done. lia. }
  simpl in *. repeat case_decide; simpl; rewrite ?IH; done.
Qed.

(** The bucket of a checked key, when there is one, is in the current window. *)
Lemma check_keys_none w max keys buckets buckets' :
  check_keys w max keys buckets = (None, buckets') →
  ∀ key, key ∈ keys →
    used w key buckets < max ∨ buckets !! key = None.
Proof.
  intros Hc key Hkey. revert buckets Hc. induction keys as [|k keys IH]; intros bs Hc.
  { by apply not_elem_of_nil in Hkey. }
  simpl in Hc. destruct (bs !! k) as [bucket|] eqn:Hk.
  - set (bk := if decide (rb_window_minute bucket ≠ w) then _ else bucket) in *.
    case_decide as Hmax; [by simplify_eq|].
    assert (Hroll : used w key (<[k:=bk]> bs) = used w key bs).
    { pose proof (check_keys_used w 0 [k] bs key) as Hu. simpl in Hu. rewrite Hk in Hu.
      fold bk in Hu. by case_decide. }
    apply elem_of_cons in Hkey as [->|Hkey].
    + left. unfold used. rewrite Hk. subst bk. repeat case_decide; simpl in *; try lia; congruence.
    + destruct (IH Hkey _ Hc) as [H|H]; [left; by rewrite <- Hroll|].
      destruct (decide (key = k)) as [->|]; [by rewrite lookup_insert_eq in H|].
      right. by rewrite lookup_insert_ne in H.
  - apply elem_of_cons in Hkey as [->|Hkey]; [by right|]. by apply (IH Hkey).
Qed.

Lemma check_keys_windows w max keys buckets buckets' :
  check_keys w max keys buckets = (None, buckets') →
  ∀ key bucket, key ∈ keys → buckets' !! key = Some bucket → rb_window_minute bucket = w.
Proof.
  assert (Hmono : ∀ keys bs key bucket,
    (∀ b, bs !! key = Some b → rb_window_minute b = w) →
    (check_keys w max keys bs).2 !! key = Some bucket → rb_window_minute bucket = w).
  { clear. intros keys. induction keys as [|k keys IH]; intros bs key bucket Hb; simpl; [eauto|].
    destruct (bs !! k) as [b|] eqn:Hk; [|by apply IH].
    assert (Hroll : ∀ b', (<[k := if decide (rb_window_minute b ≠ w)
              then b <| rb_window_minute := w |> <| rb_count := 0 |>
              else b]> bs) !! key = Some b' → rb_window_minute b' = w).
    { intros b'. destruct (decide (key = k)) as [->|].
      - rewrite lookup_insert_eq. intros [= <-]. case_decide; simpl; [done|].
        done.
      - rewrite lookup_insert_ne by done. apply Hb. }
    simpl in *. case_decide as Hw; simpl in *; case_decide; simpl; eauto. }
  intros Hc key bucket Hkey. revert buckets Hc.
  induction keys as [|k keys IH]; intros bs Hc Hb'; [by apply not_elem_of_nil in Hkey|].
  simpl in Hc. destruct (bs !! k) as [b|] eqn:Hk.
  - case_decide as Hmax; [by simplify_eq|].
    apply elem_of_cons in Hkey as [->|Hkey]; [|by eapply IH].
    eapply (Hmono keys _ k bucket); [|by rewrite Hc].
    intros b'. rewrite lookup_insert_eq. intros [= <-]. case_decide; simpl; [done|].
    done.
  - apply elem_of_cons in Hkey as [->|Hkey]; [|by eapply IH].
    eapply (Hmono keys bs k bucket); [|by rewrite Hc]. congruence.
Qed.

Lemma count_keys_used w keys buckets :
  (∀ key bucket, key ∈ keys → buckets !! key = Some bucket → rb_window_minute bucket = w) →
  NoDup keys → ∀ key,
  used w key (count_keys w keys buckets) =
    if decide (key ∈ keys) then sat_add_u32 (used w key buckets) 1 else used w key buckets.
Proof.
  unfold count_keys. revert buckets.
  induction keys as [|k keys IH]; intros bs Hw Hnd key; simpl.
  { done. }
  apply NoDup_cons in Hnd as [Hk Hnd].
  assert (Hother : ∀ key', key' ≠ k → count_key w bs k !! key' = bs !! key').
  { intros key' ?. unfold count_key. by rewrite lookup_insert_ne. }
  rewrite IH; [|intros key' b Hkey' Hb; rewrite Hother in Hb by set_solver; set_solver|done].
  destruct (decide (key = k)) as [->|Hne].
  - rewrite decide_False by done. rewrite decide_True by set_solver.
    unfold used, count_key. rewrite lookup_insert_eq.
    destruct (bs !! k) as [b|] eqn:Hb; simpl.
    + rewrite (Hw k b) by set_solver. by rewrite !decide_True.
    + by rewrite decide_True.
  - unfold used. rewrite Hother by done.
    destruct (decide (key ∈ keys)), (decide (key ∈ k :: keys)); set_solver.
Qed.

(** A refused request names a key that is out of budget. *)
Lemma check_keys_refused w max keys buckets key buckets' :
  check_keys w max keys buckets = (Some key, buckets') →
  key ∈ keys ∧ max ≤ used w key buckets.
Proof.
  revert buckets. induction keys as [|k keys IH]; intros bs; simpl; [done|].
  destruct (bs !! k) as [b|] eqn:Hk.
  - set (bk := if decide (rb_window_minute b ≠ w) then _ else b). case_decide as Hmax.
    + intros [= <- _]. split; [set_solver|].
      unfold used. rewrite Hk. subst bk.
      repeat case_decide; simpl in *; lia || congruence.
    + intros Hc. destruct (IH _ Hc) as [Hin Hle]. split; [set_solver|].
      pose proof (check_keys_used w 0 [k] bs key) as Hu. simpl in Hu. rewrite Hk in Hu.
      fold bk in Hu. replace (used w key bs) with (used w key (<[k:=bk]> bs)); [done|].
      by case_decide.
  - intros Hc. destruct (IH _ Hc). set_solver.
Qed.

Lemma count_keys_monotone w keys buckets key :
  0 ≤ used w key buckets ≤ u32_max →
  used w key buckets ≤ used w key (count_keys w keys buckets) ≤ u32_max.
Proof.
  unfold count_keys. revert buckets. induction keys as [|k keys IH]; intros bs Hb; simpl; [lia|].
  assert (Hstep : used w key bs ≤ used w key (count_key w bs k) ≤ u32_max).
  { unfold used, count_key in *. destruct (decide (key = k)) as [->|Hne].
    - rewrite lookup_insert_eq. destruct (bs !! k) as [b|]; simpl.
      + destruct (decide (rb_window_minute b = w)); unfold sat_add_u32, u32_max in *; simpl; lia.
      + rewrite decide_True by done. unfold sat_add_u32, u32_max in *. lia.
    - rewrite lookup_insert_ne by done. lia. }
  specialize (IH (count_key w bs k) ltac:(lia)). lia.
Qed.

(** The outcome of one [check] in terms of the units its keys have used. *)
Lemma check_used now keys max buckets :
  NoDup keys → 0 < max ≤ u32_max →
  let w := current_window_minute now in
  match check now keys max buckets with
  | (Ok tt, buckets') =>
    ∀ key, used w key buckets' =
      if decide (key ∈ keys) then used w key buckets + 1 else used w key buckets
  | (Err d, buckets') =>
    rd_key d ∈ keys ∧ max ≤ used w (rd_key d) buckets
    ∧ 1 ≤ rd_retry_after_seconds d ≤ 60
    ∧ ∀ key, used w key buckets' = used w key buckets
  end.
Proof.
  intros Hnd Hmax w. unfold check. rewrite decide_False by lia.
  fold w. pose proof (check_keys_used w max keys buckets) as Hsame.
  destruct (check_keys w max keys buckets) as [[k|] bs'] eqn:Hc; simpl in *.
  - apply check_keys_refused in Hc as [? ?]. repeat split; try done.
    all: unfold seconds_until_next_minute; pose proof (Z.mod_pos_bound now 60); lia.
  - intros key. rewrite count_keys_used; [|eapply check_keys_windows; eauto|done].
    rewrite Hsame. case_decide as Hin; [|done].
    destruct (check_keys_none _ _ _ _ _ Hc key Hin) as [Hlt|Hnone].
    + unfold sat_add_u32. lia.
    + unfold used. rewrite Hnone. unfold sat_add_u32, u32_max. lia.
Qed.

(** A key over budget is refused. *)
Lemma check_exhausted now keys max buckets key buckets' :
  key ∈ keys → 0 ≤ max → max ≤ used (current_window_minute now) key buckets →
  check now keys max buckets ≠ (Ok tt, buckets').
Proof.
  intros Hkey H0 Hused. unfold check. case_decide as Hmax; [done|].
  destruct (check_keys _ _ _ _) as [[k|] bs] eqn:Hc; [done|].
  destruct (check_keys_none _ _ _ _ _ Hc key Hkey) as [Hlt|Hnone]; [lia|].
  unfold used in Hused. rewrite Hnone in Hused. lia.
Qed.

(** A run of the limiter: the requests of one window, in order. *)
Fixpoint run_checks (now max : Z) (reqs : list (list string)) (buckets : RateLimiter)
  : list bool * RateLimiter :=
  match reqs with
  | [] => ([], buckets)
  | keys :: reqs =>
    let '(r, buckets) := check now keys max buckets in
    let '(rs, buckets) := run_checks now max reqs buckets in
    (is_ok r :: rs, buckets)
  end.

(** The number of admitted requests that name [key]. *)
Fixpoint admitted (key : string) (reqs : list (list string)) (rs : list bool) : Z :=
  match reqs, rs with
  | keys :: reqs, r :: rs =>
    (if decide (key ∈ keys ∧ r = true) then 1 else 0) + admitted key reqs rs
  | _, _ => 0
  end.

(** A request is admitted when every key it names has budget left in the
    current minute, and then counts once against each of them and no other; a
    refused request names a key that is out of budget and a delay of 1 to 60
    seconds, and counts against none. *)
Theorem check_spec now keys max buckets :
  NoDup keys → 0 < max ≤ u32_max →
  let w := current_window_minute now in
  match check now keys max buckets with
  | (Ok tt, buckets') =>
    ∀ key, used w key buckets' =
      if decide (key ∈ keys) then used w key buckets + 1 else used w key buckets
  | (Err d, buckets') =>
    rd_key d ∈ keys ∧ max ≤ used w (rd_key d) buckets
    ∧ 1 ≤ rd_retry_after_seconds d ≤ 60
    ∧ ∀ key, used w key buckets' = used w key buckets
  end.
Proof. apply check_used. Qed.

(** Within a minute no key is admitted beyond its budget, whatever the
    requests and their order. *)
Theorem admitted_within_budget now max reqs buckets key :
  Forall NoDup reqs → 0 < max ≤ u32_max →
  0 ≤ used (current_window_minute now) key buckets ≤ max →
  used (current_window_minute now) key buckets
    + admitted key reqs (run_checks now max reqs buckets).1 ≤ max.
Proof.
  intros Hnd Hmax. revert buckets. induction Hnd as [|keys reqs Hk Hnd IH]; intros bs Hb.
  { simpl. lia. }
  simpl. pose proof (check_used now keys max bs Hk Hmax) as Hspec.
  destruct (check now keys max bs) as [r bs'] eqn:Hc.
  specialize (IH bs'). destruct (run_checks now max reqs bs') as [rs bs''] eqn:Hrun.
  simpl in *. destruct r as [[]|d]; simpl.
  - specialize (Hspec key). rewrite Hspec in IH.
    destruct (decide (key ∈ keys)) as [Hin|Hout].
    + rewrite decide_True by done.
      assert (used (current_window_minute now) key bs < max); [|lia].
      unfold check in Hc. rewrite decide_False in Hc by lia.
      destruct (check_keys _ _ _ _) as [[k|] bs0] eqn:Hck; [done|].
      destruct (check_keys_none _ _ _ _ _ Hck key Hin) as [?|Hnone]; [done|].
      unfold used. rewrite Hnone. lia.
    + rewrite decide_False by tauto. lia.
  - destruct Hspec as (_ & _ & _ & Hsame). rewrite Hsame in IH.
    rewrite decide_False by (by intros [_ ?]). lia.
Qed.

Definition demo_reqs : list (list string) := replicate 5 ["project:p"; "api_key:k"]%string.
Lemma check_spec_witness :
  let keys := ["project:p"; "api_key:k"]%string in
  NoDup keys ∧
  match check 125 keys 3 ∅ with
  | (Ok tt, buckets) =>
    ∀ key, used 2 key buckets =
      if decide (key ∈ keys) then used 2 key ∅ + 1 else used 2 key ∅
  | _ => False
  end.
Proof.
  assert (Hnd : NoDup ["project:p"; "api_key:k"]%string) by (by apply (bool_decide_unpack _)).
  split; [exact Hnd|].
  exact (check_spec 125 ["project:p"; "api_key:k"]%string 3 ∅ Hnd ltac:(by vm_compute)).
Defined.

Lemma admitted_within_budget_witness :
  admitted "api_key:k" demo_reqs (run_checks 125 3 demo_reqs ∅).1 = 3
  ∧ 0 + admitted "api_key:k" demo_reqs (run_checks 125 3 demo_reqs ∅).1 ≤ 3.
Proof.
  split; [by vm_compute|].
  refine (admitted_within_budget 125 3 demo_reqs ∅ "api_key:k" _ _ _).
  - repeat constructor; by apply (bool_decide_unpack _).
  - by vm_compute.
  - by vm_compute.
Defined.
