(* ===== verification/Media.v ===== *)
(** * Media policy and object keys (src/media.rs)

    Size classification, content sniffing, and the keys under which media bytes
    are stored.  Byte strings are [string]s. *)
From S2P Require Import Prelude Text Json Env Models.

Inductive MediaDecision := MdTemp | MdQuarantine | MdRejected.
#[export] Instance MediaDecision_eq_dec : EqDecision MediaDecision.
Proof. solve_decision. Defined.

Record MediaLimits : Type := mkMediaLimits {
  ml_quick_delete_threshold_mb : Z;
  ml_reject_threshold_mb : Z
}.
#[export] Instance eta_MediaLimits : Eta MediaLimits := λ r,
  mkMediaLimits (ml_quick_delete_threshold_mb r) (ml_reject_threshold_mb r).

(** The [u64] products wrap around. *)
Definition mb_to_bytes (mb : Z) : Z := wrap_u64 (wrap_u64 (mb * 1024) * 1024).

Definition classify (limits : MediaLimits) (size_bytes : Z) : MediaDecision :=
  let quick := mb_to_bytes (ml_quick_delete_threshold_mb limits) in
  let reject := mb_to_bytes (ml_reject_threshold_mb limits) in
  if decide (reject < size_bytes) then MdRejected
  else if decide (quick < size_bytes) then MdQuarantine
  else MdTemp.

(** ** Magic bytes *)
Fixpoint bytes (l : list nat) : string :=
  match l with [] => ""%string | n :: l => String (ascii_of_nat n) (bytes l) end.
(** [bytes.get(lo..hi)] *)
Definition get_range (s : string) (lo hi : nat) : option string :=
  if decide (hi ≤ String.length s)%nat then Some (String.substring lo (hi - lo) s) else None.

Definition sniff_mime_from_magic (bs : string) : option string :=
  if starts_with bs (bytes [137; 80; 78; 71; 13; 10; 26; 10])%nat then Some "image/png"%string
  else if starts_with bs (bytes [255; 216; 255])%nat then Some "image/jpeg"%string
  else if bool_decide (12 ≤ String.length bs)%nat
          && bool_decide (get_range bs 0 4 = Some "RIFF"%string)
          && bool_decide (get_range bs 8 12 = Some "WEBP"%string) then Some "image/webp"%string
  else if starts_with bs "GIF87a" || starts_with bs "GIF89a" then Some "image/gif"%string
  else if starts_with bs "%PDF-" then Some "application/pdf"%string
  else if starts_with bs "OggS" then Some "audio/ogg"%string
  else if starts_with bs "RIFF" && bool_decide (get_range bs 8 12 = Some "WAVE"%string)
  then Some "audio/wav"%string
  else if starts_with bs "ID3" || starts_with bs (bytes [255; 251])%nat
  then Some "audio/mpeg"%string
  else if bool_decide (12 ≤ String.length bs)%nat
          && bool_decide (get_range bs 4 8 = Some "ftyp"%string) then Some "video/mp4"%string
  else None.

Definition magic_matches_mime (declared_mime : option string) (bs : string) : bool :=
  match sniff_mime_from_magic bs with
  | None => true
  | Some sniffed =>
    match declared_mime with
    | None => true
    | Some declared =>
      let declared := to_ascii_lowercase (trim (split_next ";" declared)) in
      bool_decide (declared = sniffed)
      || (bool_decide (declared = "audio/mp4") && bool_decide (sniffed = "video/mp4"))
      || (bool_decide (declared = "video/quicktime") && bool_decide (sniffed = "video/mp4"))
    end
  end.

(** ** Object keys *)
Record R2ObjectKeyInput : Type := mkR2ObjectKeyInput {
  ki_base_prefix : string;
  ki_class : string;
  ki_project_id : string;
  ki_company_id : string;
  ki_channel_id : string;
  ki_conversation_id : option string;
  ki_entity_type : option string;
  ki_entity_id : option string;
  ki_date : time;
  ki_media_id : string;
  ki_ext : string
}.
#[export] Instance eta_R2ObjectKeyInput : Eta R2ObjectKeyInput := λ r,
  mkR2ObjectKeyInput (ki_base_prefix r) (ki_class r) (ki_project_id r) (ki_company_id
    r) (ki_channel_id r) (ki_conversation_id r) (ki_entity_type r) (ki_entity_id r)
    (ki_date r) (ki_media_id r) (ki_ext r).

Section keys.
Context `{Env}.

Definition opaque_id_hash (value : string) : string :=
  hex_encode (String.substring 0 12 (sha256 value)).
Definition conversation_hash (conversation_id : string) : string :=
  opaque_id_hash conversation_id.

Definition r2_object_key (input : R2ObjectKeyInput) : string :=
  let date := date_ymd (ki_date input) in
  let ext := trim_start_matches "." (ki_ext input) in
  let channel_hash := opaque_id_hash (ki_channel_id input) in
  if decide (ki_class input = "permanent") then
    ki_base_prefix input +:+ "/permanent/project=" +:+ ki_project_id input
      +:+ "/company=" +:+ ki_company_id input
      +:+ "/entity=" +:+ unwrap_or (ki_entity_type input) "unknown"
      +:+ "/entity_id_hash="
      +:+ unwrap_or (opaque_id_hash <$> ki_entity_id input) "unknown"
      +:+ "/date=" +:+ date +:+ "/media=" +:+ ki_media_id input +:+ "." +:+ ext
  else if decide (ki_class input = "outbound-temp") then
    ki_base_prefix input +:+ "/outbound-temp/project=" +:+ ki_project_id input
      +:+ "/company=" +:+ ki_company_id input
      +:+ "/channel_hash=" +:+ channel_hash
      +:+ "/date=" +:+ date +:+ "/upload=" +:+ ki_media_id input +:+ "." +:+ ext
  else
    let conversation_hash :=
      unwrap_or (conversation_hash <$> ki_conversation_id input) "unknown" in
    ki_base_prefix input +:+ "/" +:+ ki_class input
      +:+ "/project=" +:+ ki_project_id input
      +:+ "/company=" +:+ ki_company_id input
      +:+ "/channel_hash=" +:+ channel_hash
      +:+ "/conversation_hash=" +:+ conversation_hash
      +:+ "/date=" +:+ date +:+ "/media=" +:+ ki_media_id input +:+ "." +:+ ext.
End keys.

(** ** Properties *)

(** Thresholds small enough that the byte limit does not overflow [u64]. *)
Definition limits_ok (limits : MediaLimits) : Prop :=
  0 ≤ ml_quick_delete_threshold_mb limits ≤ ml_reject_threshold_mb limits
  ∧ ml_reject_threshold_mb limits < 2 ^ 44.

Lemma mb_to_bytes_exact mb : 0 ≤ mb < 2 ^ 44 → mb_to_bytes mb = mb * 1024 * 1024.
Proof.
  intros H. unfold mb_to_bytes. rewrite (wrap_u64_small (mb * 1024)) by (unfold u64_max; lia).
  apply wrap_u64_small. unfold u64_max. lia.
Qed.

(** A media object is rejected above the reject threshold, put in quarantine
    between the two thresholds, and kept as temporary up to the quick-delete
    threshold. *)
Theorem classify_spec limits size :
  limits_ok limits →
  match classify limits size with
  | MdRejected => ml_reject_threshold_mb limits * 1024 * 1024 < size
  | MdQuarantine =>
    ml_quick_delete_threshold_mb limits * 1024 * 1024 < size
      ≤ ml_reject_threshold_mb limits * 1024 * 1024
  | MdTemp => size ≤ ml_quick_delete_threshold_mb limits * 1024 * 1024
  end.
Proof.
  intros [? ?]. unfold classify. rewrite !mb_to_bytes_exact by lia.
  repeat case_decide; lia.
Qed.

Lemma classify_spec_witness :
  let size := 26 * 1024 * 1024 in
  limits_ok (mkMediaLimits 25 100) ∧ classify (mkMediaLimits 25 100) size = MdQuarantine
  ∧ 25 * 1024 * 1024 < size ≤ 100 * 1024 * 1024.
Proof.
  assert (Hl : limits_ok (mkMediaLimits 25 100)) by (by vm_compute).
  split; [exact Hl|]. split; [by vm_compute|].
  exact (classify_spec (mkMediaLimits 25 100) (26 * 1024 * 1024) Hl).
Defined.
