(* ===== verification/EventBus.v ===== *)
(** * Event bus (src/eventbus.rs)

    Events, their topics and partition keys, the codec's guards, retry and
    dead-letter envelopes, and the publisher of the durable outbox. *)
From S2P Require Import Prelude Text Json Env Config Models.

(** ** Events *)
Section new_event.
Context `{Env}.

(** [new_event]: the clock reading and the three UUIDs it draws are arguments;
    the store's state supplies them (see Store.v). *)
Definition new_event (now : time) (event_uuid trace_uuid corr_uuid : string)
    (event_type project_id company_id : string)
    (channel_id conversation_id message_id : option string)
    (conversation_seq : option Z) (payload : Value) : CommonEvent := {|
  ev_event_id := "evt_" +:+ event_uuid;
  ev_event_type := event_type;
  ev_project_id := project_id;
  ev_company_id := company_id;
  ev_channel_id := channel_id;
  ev_conversation_id := conversation_id;
  ev_message_id := message_id;
  ev_conversation_seq := conversation_seq;
  ev_trace_id := "trace_" +:+ trace_uuid;
  ev_causation_id := None;
  ev_correlation_id := "corr_" +:+ corr_uuid;
  ev_occurred_at := now;
  ev_produced_at := now;
  ev_payload := payload
|}.
End new_event.

(** ** Topics *)
Definition EVENT_TOPIC_SUFFIXES : list string := [
  "raw.inbound"; "outbound.send.requested"; "message.persisted";
  "media.download.requested"; "media.stored"; "audio.transcription.requested";
  "audio.transcribed"; "conversation.dirty"; "conversation.event";
  "delivery.receipt"; "channel.status"; "contact.updated"; "group.event";
  "websocket.event"; "system.event" ]%string.

(** [match event_type { "a" | "b" => .. }] *)
Definition is_any (s : string) (l : list string) : bool := bool_decide (s ∈ l).

Definition topic_suffix (event_type : string) : string :=
  if is_any event_type ["whatsapp.raw.inbound"]%string then "raw.inbound"
  else if is_any event_type ["outbound.send.requested"]%string
  then "outbound.send.requested"
  else if is_any event_type ["message.queued"; "message.received"; "message.sent";
    "message.failed"; "message.updated"; "message.persisted"; "message.reaction"]%string
  then "message.persisted"
  else if is_any event_type ["media.download.requested"]%string
  then "media.download.requested"
  else if is_any event_type ["media.stored"]%string then "media.stored"
  else if is_any event_type ["audio.transcription.requested"]%string
  then "audio.transcription.requested"
  else if is_any event_type ["audio.transcribed"; "transcript.completed"]%string
  then "audio.transcribed"
  else if is_any event_type ["conversation.dirty"]%string then "conversation.dirty"
  else if is_any event_type ["conversation.read"; "conversation.updated"]%string
  then "conversation.event"
  else if is_any event_type ["message.receipt"]%string then "delivery.receipt"
  else if is_any event_type ["channel.connected"; "channel.disconnected"; "channel.qr";
    "channel.logged_out"]%string then "channel.status"
  else if is_any event_type ["contact.updated"]%string then "contact.updated"
  else if starts_with event_type "group." then "group.event"
  else if starts_with event_type "websocket." then "websocket.event"
  else if ends_with event_type ".ignored" || starts_with event_type "whatsapp_updates."
          || starts_with event_type "history_sync."
          || bool_decide (event_type = "ignored_old_message") then "system.event"
  else "raw.inbound".

Definition topic_for_event (kafka : KafkaConfig) (event_type : string) : string :=
  kafka_topic_prefix kafka +:+ "." +:+ topic_suffix event_type.

Record TopicSpec : Type := mkTopicSpec {
  spec_name : string;
  spec_partitions : Z;
  spec_replication_factor : Z;
  spec_retention_ms : Z
}.
#[export] Instance eta_TopicSpec : Eta TopicSpec := λ r,
  mkTopicSpec (spec_name r) (spec_partitions r) (spec_replication_factor r)
    (spec_retention_ms r).

Definition retention_ms (hours : Z) : Z :=
  sat_mul_i64 (sat_mul_i64 (sat_mul_i64 hours 60) 60) 1000.

(** The [BTreeSet] of suffixes, in order. *)
Definition topic_suffixes (kafka : KafkaConfig) : list string :=
  dedup (sort_strings (EVENT_TOPIC_SUFFIXES
    ++ [kafka_retry_topic_suffix kafka; kafka_deadletter_topic_suffix kafka])).

Definition required_topic_specs (kafka : KafkaConfig) : list TopicSpec :=
  (λ suffix,
    let is_deadletter := bool_decide (suffix = kafka_deadletter_topic_suffix kafka) in
    {| spec_name := kafka_topic_prefix kafka +:+ "." +:+ suffix;
       spec_partitions := kafka_default_partitions kafka;
       spec_replication_factor := kafka_default_replication_factor kafka;
       spec_retention_ms := retention_ms
         (if is_deadletter then kafka_deadletter_retention_hours kafka
          else kafka_message_retention_hours kafka) |}) <$> topic_suffixes kafka.

Definition retry_topic (kafka : KafkaConfig) : string :=
  kafka_topic_prefix kafka +:+ "." +:+ kafka_retry_topic_suffix kafka.
Definition deadletter_topic (kafka : KafkaConfig) : string :=
  kafka_topic_prefix kafka +:+ "." +:+ kafka_deadletter_topic_suffix kafka.

Definition partition_key (event : CommonEvent) : string :=
  match ev_conversation_id event with
  | Some conversation_id =>
    ev_project_id event +:+ ":" +:+ ev_company_id event +:+ ":" +:+ conversation_id
  | None =>
    match ev_channel_id event with
    | Some channel_id =>
      ev_project_id event +:+ ":" +:+ ev_company_id event +:+ ":" +:+ channel_id
    | None => ev_project_id event +:+ ":" +:+ ev_company_id event
    end
  end.

(** ** No raw media in events *)
Definition raw_media_key (key : string) : bool :=
  is_any key ["bytes"; "file_bytes"; "raw_media"; "body"]%string.

Fixpoint contains_bytes (value : Value) : bool :=
  match value with
  | VObject map => existsb (λ kv, raw_media_key kv.1 || contains_bytes kv.2) map
  | VArray items => existsb contains_bytes items
  | _ => false
  end.
Definition event_has_raw_media_bytes (event : CommonEvent) : bool :=
  contains_bytes (ev_payload event).

(** [find(value, path)]: the path of the first offending field. *)
Fixpoint find_raw_media (value : Value) (path : string) : option string :=
  match value with
  | VObject map =>
    (fix go (map : list (string * Value)) : option string :=
       match map with
       | [] => None
       | (key, value) :: map =>
         let child_path := if decide (path = "") then key else path +:+ "." +:+ key in
         if raw_media_key key then Some child_path
         else match find_raw_media value child_path with
              | Some found => Some found
              | None => go map
              end
       end) map
  | VArray items =>
    (fix go (index : nat) (items : list Value) : option string :=
       match items with
       | [] => None
       | value :: items =>
         match find_raw_media value (path +:+ "[" +:+ fmt_nat index +:+ "]") with
         | Some found => Some found
         | None => go (S index) items
         end
       end) 0%nat items
  | _ => None
  end.
Definition raw_media_field (value : Value) : option string := find_raw_media value "".

Inductive RdkafkaErrorCodeView := TopicAlreadyExists | OtherCode (code : Z).
Inductive EventBusError :=
| MissingBrokers
| RawMediaBytes (event_id field : string)
| MessageTooLarge (event_id : string) (actual limit : Z)
| Codec (err : string)
| KafkaFeatureDisabled
| MissingTopics (topics : string)
| KafkaTopicCreate (topic : string) (code : RdkafkaErrorCodeView)
| Kafka (err : string).

(** [{code:?}] and [to_string()], of the [#[error(..)]] attributes. *)
Definition error_code_debug (code : RdkafkaErrorCodeView) : string :=
  match code with
  | TopicAlreadyExists => "TopicAlreadyExists"
  | OtherCode code => "Other(" +:+ fmt_Z code +:+ ")"
  end.
Definition bus_error_message (e : EventBusError) : string :=
  match e with
  | MissingBrokers => "KAFKA_BROKERS missing"
  | RawMediaBytes event_id field =>
    "event " +:+ event_id +:+ " contains raw media bytes in payload field " +:+ field
  | MessageTooLarge event_id actual limit =>
    "event " +:+ event_id +:+ " encoded payload is " +:+ fmt_Z actual
    +:+ " bytes, above limit " +:+ fmt_Z limit
  | Codec err => "event codec failed: " +:+ err
  | KafkaFeatureDisabled =>
    "Kafka support is disabled; rebuild with --features external-integrations"
  | MissingTopics topics => "Kafka missing required topics: " +:+ topics
  | KafkaTopicCreate topic code =>
    "Kafka topic create failed for " +:+ topic +:+ ": " +:+ error_code_debug code
  | Kafka err => "Kafka error: " +:+ err
  end.

(** What the broker acknowledged. *)
Record PublishAck : Type := mkPublishAck {
  ack_topic : string;
  ack_partition : Z;
  ack_offset : Z;
  ack_key : string
}.

(** ** Dead letters and retries *)
Record DeadLetterEnvelope : Type := mkDeadLetterEnvelope {
  dl_event : CommonEvent;
  dl_retry_count : Z;
  dl_first_failed_at : string;
  dl_last_failed_at : string;
  dl_error_code : string
}.
#[export] Instance eta_DeadLetterEnvelope : Eta DeadLetterEnvelope := λ r,
  mkDeadLetterEnvelope (dl_event r) (dl_retry_count r) (dl_first_failed_at r)
    (dl_last_failed_at r) (dl_error_code r).

Record EventSourceOffset : Type := mkEventSourceOffset {
  src_topic : string;
  src_partition : Z;
  src_offset : Z
}.
#[export] Instance eta_EventSourceOffset : Eta EventSourceOffset := λ r,
  mkEventSourceOffset (src_topic r) (src_partition r) (src_offset r).
Definition source_unknown : EventSourceOffset := mkEventSourceOffset "unknown" (-1) (-1).

Record RetryEnvelope : Type := mkRetryEnvelope {
  re_event : CommonEvent;
  re_retry_count : Z;
  re_source : EventSourceOffset;
  re_first_failed_at : string;
  re_last_failed_at : string;
  re_next_attempt_at : string;
  re_error_code : string
}.
#[export] Instance eta_RetryEnvelope : Eta RetryEnvelope := λ r,
  mkRetryEnvelope (re_event r) (re_retry_count r) (re_source r) (re_first_failed_at r)
    (re_last_failed_at r) (re_next_attempt_at r) (re_error_code r).

Definition should_deadletter (kafka : KafkaConfig) (e : RetryEnvelope) : bool :=
  bool_decide (kafka_retry_max_attempts kafka ≤ re_retry_count e).

Definition into_deadletter (e : RetryEnvelope) : DeadLetterEnvelope := {|
  dl_event := re_event e;
  dl_retry_count := re_retry_count e;
  dl_first_failed_at := re_first_failed_at e;
  dl_last_failed_at := re_last_failed_at e;
  dl_error_code := re_error_code e
|}.

Section envelopes.
Context `{Env}.

Definition deadletter_envelope (now : time) (event : CommonEvent) (retry_count : Z)
    (error_code : string) : DeadLetterEnvelope := {|
  dl_event := event;
  dl_retry_count := retry_count;
  dl_first_failed_at := rfc3339 now;
  dl_last_failed_at := rfc3339 now;
  dl_error_code := error_code
|}.

Definition retry_envelope_for_source (now now' : time) (event : CommonEvent)
    (previous : option RetryEnvelope) (error_code : string)
    (source : EventSourceOffset) (retry_backoff_seconds : Z) : RetryEnvelope := {|
  re_event := event;
  re_retry_count :=
    unwrap_or ((λ e, sat_add_u32 (re_retry_count e) 1) <$> previous) 1;
  re_source := unwrap_or (re_source <$> previous) source;
  re_first_failed_at := unwrap_or (re_first_failed_at <$> previous) (rfc3339 now);
  re_last_failed_at := rfc3339 now;
  re_next_attempt_at := rfc3339 (now' + seconds (Z.max retry_backoff_seconds 0));
  re_error_code := error_code
|}.

Definition retry_envelope (now now' : time) (event : CommonEvent)
    (previous : option RetryEnvelope) (error_code : string) : RetryEnvelope :=
  retry_envelope_for_source now now' event previous error_code source_unknown 0.

(** ** Codec: [to_vec] is [serde_json::to_vec]. *)
Definition encode_event_for_kafka (to_vec : CommonEvent → result string string)
    (kafka : KafkaConfig) (event : CommonEvent) : result string EventBusError :=
  match raw_media_field (ev_payload event) with
  | Some field => Err (RawMediaBytes (ev_event_id event) field)
  | None =>
    match to_vec event with
    | Err err => Err (Codec err)
    | Ok bytes =>
      if decide (kafka_message_max_bytes kafka < str_len bytes)
      then Err (MessageTooLarge (ev_event_id event) (str_len bytes)
                  (kafka_message_max_bytes kafka))
      else Ok bytes
    end
  end.

Definition encode_deadletter_for_kafka
    (to_vec : DeadLetterEnvelope → result string string)
    (kafka : KafkaConfig) (envelope : DeadLetterEnvelope) : result string EventBusError :=
  match raw_media_field (ev_payload (dl_event envelope)) with
  | Some field => Err (RawMediaBytes (ev_event_id (dl_event envelope)) field)
  | None =>
    match to_vec envelope with
    | Err err => Err (Codec err)
    | Ok bytes =>
      if decide (kafka_message_max_bytes kafka < str_len bytes)
      then Err (MessageTooLarge (ev_event_id (dl_event envelope)) (str_len bytes)
                  (kafka_message_max_bytes kafka))
      else Ok bytes
    end
  end.
End envelopes.

(** ** Consumer decisions *)
Inductive ConsumerHandlerStatus := Processed | Duplicate | Retried | DeadLettered.
Inductive ConsumerCommitDecision := Commit | DoNotCommit.

Definition from_handler_result (r : result ConsumerHandlerStatus EventBusError)
  : ConsumerCommitDecision :=
  match r with
  | Ok (Processed | Duplicate | Retried | DeadLettered) => Commit
  | Err _ => DoNotCommit
  end.

(** ** Health *)
Record EventBusHealth : Type := mkEventBusHealth {
  health_ok : bool;
  health_detail : string
}.
#[export] Instance eta_EventBusHealth : Eta EventBusHealth := λ r,
  mkEventBusHealth (health_ok r) (health_detail r).

Definition health_check (mode : EventBusMode) (kafka : KafkaConfig) : EventBusHealth :=
  match mode with
  | BusInMemory => mkEventBusHealth true "in-memory event bus"
  | BusPostgres => mkEventBusHealth true "postgres event bus drainer enabled"
  | BusKafka =>
    match kafka_brokers kafka with
    | Some brokers =>
      if negb (is_blank brokers)
      then mkEventBusHealth true ("kafka configured at " +:+ brokers)
      else mkEventBusHealth false "KAFKA_BROKERS missing"
    | None => mkEventBusHealth false "KAFKA_BROKERS missing"
    end
  end.

(** ** The handle the store publishes through *)
Record EventBusRuntimeMetrics : Type := mkEventBusRuntimeMetrics {
  bm_publish_attempts : Z;
  bm_publish_successes : Z;
  bm_publish_failures : Z;
  bm_deadletter_attempts : Z;
  bm_deadletter_successes : Z;
  bm_outbox_enqueue_observed : Z;
  bm_last_topic : option string;
  bm_last_error : option string;
  bm_recent_deadletters : list DeadLetterEnvelope
}.
#[export] Instance eta_EventBusRuntimeMetrics : Eta EventBusRuntimeMetrics := λ r,
  mkEventBusRuntimeMetrics (bm_publish_attempts r) (bm_publish_successes r)
    (bm_publish_failures r) (bm_deadletter_attempts r) (bm_deadletter_successes r)
    (bm_outbox_enqueue_observed r) (bm_last_topic r) (bm_last_error r)
    (bm_recent_deadletters r).
Definition default_metrics : EventBusRuntimeMetrics :=
  mkEventBusRuntimeMetrics 0 0 0 0 0 0 None None [].

(** [tx]: the publisher task's channel: [None] when there is none, otherwise
    whether its receiver is alive, with the events sent so far. *)
Record EventBusHandle : Type := mkEventBusHandle {
  bus_mode : EventBusMode;
  bus_kafka_config : KafkaConfig;
  bus_tx : option (bool * list CommonEvent);
  bus_metrics : EventBusRuntimeMetrics;
  bus_durable_outbox : bool
}.
#[export] Instance eta_EventBusHandle : Eta EventBusHandle := λ r,
  mkEventBusHandle (bus_mode r) (bus_kafka_config r) (bus_tx r) (bus_metrics r)
    (bus_durable_outbox r).

Definition local_handle (mode : EventBusMode) (kafka : KafkaConfig) : EventBusHandle :=
  mkEventBusHandle mode kafka None default_metrics false.
Definition durable_outbox_handle (mode : EventBusMode) (kafka : KafkaConfig) : EventBusHandle :=
  mkEventBusHandle mode kafka None default_metrics true.

Definition publish_background (h : EventBusHandle) (event : CommonEvent) : EventBusHandle :=
  if bus_durable_outbox h
  then h <| bus_metrics ::= λ m,
         m <| bm_outbox_enqueue_observed := wrap_u64 (bm_outbox_enqueue_observed m + 1) |> |>
  else match bus_tx h with
       | Some (true, sent) => h <| bus_tx := Some (true, sent ++ [event]) |>
       | Some (false, sent) =>
         h <| bus_metrics ::= λ m,
            m <| bm_publish_failures := wrap_u64 (bm_publish_failures m + 1) |>
              <| bm_last_error := Some "event bus publisher task is not running"%string |> |>
       | None => h
       end.

(** ** Properties *)

Lemma topic_suffix_known event_type : topic_suffix event_type ∈ EVENT_TOPIC_SUFFIXES.
Proof.
  unfold topic_suffix.
  repeat match goal with
  | |- context [if ?c then _ else _] => destruct c
  end; apply (bool_decide_unpack _); by vm_compute.
Qed.

(** Every topic an event can be published to is among the topics the
    program creates. *)
Theorem topic_for_event_required kafka event_type :
  topic_for_event kafka event_type ∈ spec_name <$> required_topic_specs kafka.
Proof.
  unfold required_topic_specs, topic_for_event. rewrite <- list_fmap_compose.
  apply list_elem_of_fmap. exists (topic_suffix event_type). split; [done|].
  unfold topic_suffixes. apply elem_of_dedup, elem_of_sort_by, elem_of_app. left.
  apply topic_suffix_known.
Qed.

Lemma find_raw_media_spec v :
  ∀ path, find_raw_media v path = None ↔ contains_bytes v = false.
Proof.
  induction v as [| | | |l IH|o IH] using value_ind'; intros path; try done.
  - simpl. generalize 0%nat. induction IH as [|v l Hv _ IHl]; intros i; simpl; [done|].
    rewrite orb_false_iff, <- (Hv (path +:+ "[" +:+ fmt_nat i +:+ "]")).
    destruct (find_raw_media v _); [by split; [|intros [? _]]|].
    rewrite IHl. tauto.
  - simpl. induction IH as [|[key v] o Hv _ IHo]; simpl; [done|].
    destruct (raw_media_key key); [done|]. simpl in Hv |- *.
    rewrite orb_false_iff, <- (Hv (if decide (path = "") then key else path +:+ "." +:+ key)).
    destruct (find_raw_media v _); [by split; [|intros [? _]]|].
    rewrite IHo. tauto.
Qed.

(** The two scans for raw media bytes agree. *)
Lemma raw_media_field_spec event :
  raw_media_field (ev_payload event) = None ↔ event_has_raw_media_bytes event = false.
Proof. apply find_raw_media_spec. Qed.

(** An event that is encoded for Kafka carries no raw media bytes and fits
    the size limit; every refusal names the guard that failed. *)
Theorem encode_event_for_kafka_spec to_vec kafka event :
  match encode_event_for_kafka to_vec kafka event with
  | Ok bytes =>
    to_vec event = Ok bytes ∧ event_has_raw_media_bytes event = false
    ∧ str_len bytes ≤ kafka_message_max_bytes kafka
  | Err (RawMediaBytes id _) =>
    id = ev_event_id event ∧ event_has_raw_media_bytes event = true
  | Err (MessageTooLarge id actual limit) =>
    id = ev_event_id event ∧ limit = kafka_message_max_bytes kafka ∧ limit < actual
  | Err (Codec e) => to_vec event = Err e
  | Err _ => False
  end.
Proof.
  unfold encode_event_for_kafka. pose proof (raw_media_field_spec event) as Hspec.
  destruct (raw_media_field (ev_payload event)) as [field|].
  - split; [done|]. destruct (event_has_raw_media_bytes event); [done|].
    destruct Hspec as [_ Hspec]. discriminate (Hspec eq_refl).
  - destruct (to_vec event) as [bytes|err]; [|done].
    case_decide; repeat split; try lia. by apply Hspec.
Qed.

(** The [n]-th retry of a failing event, the source offset being that of the
    first failure. *)
Fixpoint nth_retry `{Env} (clock : nat → time) (event : CommonEvent) (err : string)
    (source : EventSourceOffset) (backoff : Z) (n : nat) : RetryEnvelope :=
  match n with
  | O => retry_envelope_for_source (clock 0%nat) (clock 0%nat) event None err source backoff
  | S n' =>
    retry_envelope_for_source (clock n) (clock n) event
      (Some (nth_retry clock event err source backoff n')) err source_unknown backoff
  end.

Lemma nth_retry_fields `{Env} clock event err source backoff n :
  Z.of_nat n < u32_max →
  let r := nth_retry clock event err source backoff n in
  re_retry_count r = Z.of_nat n + 1 ∧ re_source r = source
  ∧ re_first_failed_at r = rfc3339 (clock 0%nat) ∧ re_event r = event.
Proof.
  intros Hn. induction n as [|n IH]; simpl; [done|].
  destruct IH as (Hc & Hs & Hf & He); [lia|]. simpl in *.
  rewrite Hc, Hs, Hf. unfold sat_add_u32. repeat split; lia.
Qed.

(** A failing event is dead-lettered exactly from the configured number of
    attempts on, and its envelope keeps the event, the time of the first failure
    and the offset it came from. *)
Theorem retry_reaches_deadletter `{Env} clock event err source backoff kafka n :
  1 ≤ kafka_retry_max_attempts kafka ≤ u32_max → Z.of_nat n < u32_max →
  let r := nth_retry clock event err source backoff n in
  (should_deadletter kafka r = true ↔ kafka_retry_max_attempts kafka ≤ Z.of_nat n + 1)
  ∧ dl_event (into_deadletter r) = event
  ∧ dl_first_failed_at (into_deadletter r) = rfc3339 (clock 0%nat)
  ∧ re_source r = source.
Proof.
  intros Hk Hn r. destruct (nth_retry_fields clock event err source backoff n Hn)
    as (Hc & Hs & Hf & He).
  unfold should_deadletter. rewrite bool_decide_eq_true. fold r in Hc, Hs, Hf, He.
  by rewrite Hc.
Qed.

Definition demo_event : CommonEvent :=
  new_event 0 "e" "t" "c" "conversation.dirty" "p" "c" None (Some "conv"%string) None (Some 7)
    (json! { "to_seq" ~> 7 }).

Lemma retry_reaches_deadletter_witness :
  let k := cfg_kafka default_config in
  1 ≤ kafka_retry_max_attempts k ≤ u32_max ∧
  should_deadletter k (@nth_retry demo_env (λ n, Z.of_nat n) demo_event "boom"
    source_unknown 5 7) = true.
Proof.
  split; [by vm_compute|].
  apply (@retry_reaches_deadletter demo_env (λ n, Z.of_nat n) demo_event "boom"
    source_unknown 5 (cfg_kafka default_config) 7); by vm_compute.
Defined.
