(* ===== verification/Codec.v ===== *)
(** * Serialized forms (src/models.rs, src/eventbus.rs)

    [serde_time_compat], the time format of the stored documents with the
    legacy arrays it still reads, and the documents of a [CommonEvent]: its
    derived [Serialize] and [Deserialize] implementations on JSON values. *)
From S2P Require Import Prelude Text Json Env Models EventBus.

(** ** What the serialization and time crates provide

    - [invalid_type v expected]: the message of a value of another type;
    - [from_ordinal_date], [from_hms_nano], [utc_offset_from_hms]: constructors
      of the [time] crate, as nanoseconds since the epoch at midnight, as
      nanoseconds of the day and as seconds;
    - [event_to_vec], [deadletter_to_vec]: [serde_json::to_vec];
      [event_from_slice]: [serde_json::from_slice]. *)
Class Serde := {
  invalid_type : Value → string → string;
  from_ordinal_date : Z → Z → result Z string;
  from_hms_nano : Z → Z → Z → Z → result Z string;
  utc_offset_from_hms : Z → Z → Z → result Z string;
  event_to_vec : CommonEvent → result string string;
  deadletter_to_vec : DeadLetterEnvelope → result string string;
  event_from_slice : string → result CommonEvent string
}.

(** [from_slice] reads back what [to_vec] writes. *)
Class SerdeLaws `{Serde} := {
  event_from_slice_to_vec e bytes : event_to_vec e = Ok bytes → event_from_slice bytes = Ok e
}.

(** [value.as_i64()] *)
Definition as_i64 (v : Value) : option Z :=
  match v with
  | VNumber (PosInt n) => if decide (n ≤ i64_max) then Some n else None
  | VNumber (NegInt n) => Some n
  | _ => None
  end.

Section time_compat.
Context `{Env} `{Serde}.

(** ** [serde_time_compat] *)
Definition to_rfc3339 (value : time) : string := rfc3339 value.

(** [i32::try_from(z).map_err(|_| err)] and its like, by the bounds of the type. *)
Definition try_from (lo hi : Z) (err : string) (z : Z) : result Z string :=
  if decide (lo ≤ z ≤ hi) then Ok z else Err err.

Definition legacy_array_to_offset_datetime (parts : list Z) : result time string :=
  match parts with
  | [p0; p1; p2; p3; p4; p5; p6; p7; p8] =>
    let? year := try_from (- 2 ^ 31) (2 ^ 31 - 1) "year out of range" p0 in
    let? ordinal := try_from 0 65535 "ordinal out of range" p1 in
    let? hour := try_from 0 255 "hour out of range" p2 in
    let? minute := try_from 0 255 "minute out of range" p3 in
    let? second := try_from 0 255 "second out of range" p4 in
    let? nanos := try_from 0 u32_max "nanoseconds out of range" p5 in
    let? offset_hour := try_from (-128) 127 "offset hour out of range" p6 in
    let? offset_minute := try_from (-128) 127 "offset minute out of range" p7 in
    let? offset_second := try_from (-128) 127 "offset second out of range" p8 in
    let? date := from_ordinal_date year ordinal in
    let? time := from_hms_nano hour minute second nanos in
    let? offset := utc_offset_from_hms offset_hour offset_minute offset_second in
    Ok (date + time - seconds offset)
  | _ => Err ("legacy OffsetDateTime array must have 9 values, got "
              +:+ fmt_nat (length parts))
  end.

(** The loop over [values]: it stops at the first element that is no [i64]. *)
Fixpoint integer_parts (values : list Value) : result (list Z) string :=
  match values with
  | [] => Ok []
  | value :: values =>
    let? part := ok_or (as_i64 value) "legacy OffsetDateTime array contains non-integer"%string in
    let? parts := integer_parts values in
    Ok (part :: parts)
  end.

(** The error of a malformed RFC 3339 text is the [time] crate's. *)
Definition from_json_value (value : Value) : result time string :=
  match value with
  | VString text => ok_or (parse_rfc3339 text) (invalid_type value "RFC3339")
  | VArray values =>
    let? parts := integer_parts values in legacy_array_to_offset_datetime parts
  | _ => Err "expected RFC3339 string or legacy OffsetDateTime array"%string
  end.

Definition serialize_time (value : time) : Value := VString (to_rfc3339 value).
Definition serialize_option (value : option time) : Value :=
  match value with Some value => VString (to_rfc3339 value) | None => VNull end.
(** An absent field and [null] are [None]. *)
Definition deserialize_option (value : option Value) : result (option time) string :=
  match value with
  | None | Some VNull => Ok None
  | Some value => map_result Some (from_json_value value)
  end.

(** [serde_time_compat::map]: the entries in the map's order, into an object. *)
Definition serialize_map (value : gmap string time) : Value :=
  obj_of (prod_map id serialize_time <$> hm_iter value).
Fixpoint deserialize_entries (o : list (string * Value)) : result (gmap string time) string :=
  match o with
  | [] => Ok ∅
  | (key, value) :: o =>
    let? value := from_json_value value in
    let? m := deserialize_entries o in
    Ok (<[key := value]> m)
  end.
Definition deserialize_map (value : Value) : result (gmap string time) string :=
  match value with
  | VObject o => deserialize_entries o
  | _ => Err (invalid_type value "a map")
  end.

(** ** [CommonEvent] *)
Definition event_to_value (e : CommonEvent) : Value :=
  json! {
    "event_id" ~> ev_event_id e,
    "event_type" ~> ev_event_type e,
    "project_id" ~> ev_project_id e,
    "company_id" ~> ev_company_id e,
    "channel_id" ~> ev_channel_id e,
    "conversation_id" ~> ev_conversation_id e,
    "message_id" ~> ev_message_id e,
    "conversation_seq" ~> ev_conversation_seq e,
    "trace_id" ~> ev_trace_id e,
    "causation_id" ~> ev_causation_id e,
    "correlation_id" ~> ev_correlation_id e,
    "occurred_at" ~> serialize_time (ev_occurred_at e),
    "produced_at" ~> serialize_time (ev_produced_at e),
    "payload" ~> ev_payload e
  }.

(** The derived reader: entry by entry in the order of the object, then the
    fields that are absent ([None] for the optional ones). *)
Definition read_string (v : Value) : result string string :=
  match v with VString s => Ok s | _ => Err (invalid_type v "a string") end.
Definition read_option {A} (read : Value → result A string) (v : Value)
  : result (option A) string :=
  match v with VNull => Ok None | _ => map_result Some (read v) end.
Definition read_i64 (v : Value) : result Z string := ok_or (as_i64 v) (invalid_type v "i64").

Definition check_event_field (key : string) (v : Value) : result unit string :=
  if is_any key ["event_id"; "event_type"; "project_id"; "company_id"; "trace_id";
                 "correlation_id"]%string
  then map_result (λ _, tt) (read_string v)
  else if is_any key ["channel_id"; "conversation_id"; "message_id"; "causation_id"]%string
  then map_result (λ _, tt) (read_option read_string v)
  else if is_any key ["conversation_seq"]%string
  then map_result (λ _, tt) (read_option read_i64 v)
  else if is_any key ["occurred_at"; "produced_at"]%string
  then map_result (λ _, tt) (from_json_value v)
  else Ok tt.
Fixpoint check_event_fields (o : list (string * Value)) : result unit string :=
  match o with
  | [] => Ok tt
  | (key, v) :: o => let? _ := check_event_field key v in check_event_fields o
  end.

Definition required {A} (o : list (string * Value)) (read : Value → result A string)
    (key : string) : result A string :=
  match obj_get key o with
  | Some v => read v
  | None => Err ("missing field `" +:+ key +:+ "`")
  end.
Definition optional {A} (o : list (string * Value)) (read : Value → result A string)
    (key : string) : result (option A) string :=
  match obj_get key o with Some v => read_option read v | None => Ok None end.

Definition event_of_fields (o : list (string * Value)) : result CommonEvent string :=
  let? _ := check_event_fields o in
  let? event_id := required o read_string "event_id" in
  let? event_type := required o read_string "event_type" in
  let? project_id := required o read_string "project_id" in
  let? company_id := required o read_string "company_id" in
  let? channel_id := optional o read_string "channel_id" in
  let? conversation_id := optional o read_string "conversation_id" in
  let? message_id := optional o read_string "message_id" in
  let? conversation_seq := optional o read_i64 "conversation_seq" in
  let? trace_id := required o read_string "trace_id" in
  let? causation_id := optional o read_string "causation_id" in
  let? correlation_id := required o read_string "correlation_id" in
  let? occurred_at := required o from_json_value "occurred_at" in
  let? produced_at := required o from_json_value "produced_at" in
  let? payload := required o Ok "payload" in
  Ok (mkCommonEvent event_id event_type project_id company_id channel_id conversation_id
        message_id conversation_seq trace_id causation_id correlation_id occurred_at
        produced_at payload).

(** The declared order of the fields, by which an array is read. *)
Definition event_fields : list string :=
  ["event_id"; "event_type"; "project_id"; "company_id"; "channel_id"; "conversation_id";
   "message_id"; "conversation_seq"; "trace_id"; "causation_id"; "correlation_id";
   "occurred_at"; "produced_at"; "payload"]%string.

Definition event_from_value (v : Value) : result CommonEvent string :=
  match v with
  | VObject o => event_of_fields o
  | VArray l =>
    if decide (length l = length event_fields) then event_of_fields (zip event_fields l)
    else Err (invalid_type v "struct CommonEvent with 14 elements")
  | _ => Err (invalid_type v "struct CommonEvent")
  end.

(** ** Properties *)
Lemma as_i64_json z : i64_min ≤ z ≤ i64_max → as_i64 (json z) = Some z.
Proof.
  intros Hz. unfold json, json_Z. case_bool_decide; simpl; [|done].
  rewrite decide_True; [done|lia].
Qed.

Context {TL : TimeLaws}.

Lemma from_json_value_serialize t : from_json_value (serialize_time t) = Ok t.
Proof. simpl. unfold to_rfc3339. by rewrite parse_rfc3339_format. Qed.

Lemma deserialize_option_serialize t : deserialize_option (Some (serialize_option t)) = Ok t.
Proof. destruct t as [t|]; [|done]. simpl. unfold to_rfc3339. by rewrite parse_rfc3339_format. Qed.

Lemma read_option_string s : read_option read_string (json s) = Ok s.
Proof. by destruct s. Qed.

Lemma read_option_i64 z :
  (∀ n, z = Some n → i64_min ≤ n ≤ i64_max) → read_option read_i64 (json z) = Ok z.
Proof.
  intros Hz. destruct z as [n|]; [|done]. cbn [json json_option].
  unfold read_option, read_i64. rewrite as_i64_json by auto.
  by unfold json, json_Z; case_bool_decide.
Qed.

(** The object an event is written as: its fields by key. *)
Lemma event_to_value_fields e : event_to_value e = VObject [
  ("causation_id", json (ev_causation_id e)); ("channel_id", json (ev_channel_id e));
  ("company_id", json (ev_company_id e)); ("conversation_id", json (ev_conversation_id e));
  ("conversation_seq", json (ev_conversation_seq e));
  ("correlation_id", json (ev_correlation_id e)); ("event_id", json (ev_event_id e));
  ("event_type", json (ev_event_type e)); ("message_id", json (ev_message_id e));
  ("occurred_at", serialize_time (ev_occurred_at e)); ("payload", ev_payload e);
  ("produced_at", serialize_time (ev_produced_at e)); ("project_id", json (ev_project_id e));
  ("trace_id", json (ev_trace_id e))]%string.
Proof. reflexivity. Qed.

Lemma check_field_string key (s : string) :
  is_any key ["event_id"; "event_type"; "project_id"; "company_id"; "trace_id";
              "correlation_id"]%string = true →
  check_event_field key (json s) = Ok tt.
Proof. intros Hk. unfold check_event_field. by rewrite Hk. Qed.

Lemma check_field_option key (s : option string) :
  is_any key ["channel_id"; "conversation_id"; "message_id"; "causation_id"]%string = true →
  check_event_field key (json s) = Ok tt.
Proof.
  intros Hk. unfold check_event_field. rewrite read_option_string.
  unfold is_any in Hk. split_bools. set_unfold in Hk.
  destruct_or! Hk; by subst key.
Qed.

Lemma check_field_time key t :
  is_any key ["occurred_at"; "produced_at"]%string = true →
  check_event_field key (serialize_time t) = Ok tt.
Proof.
  intros Hk. unfold check_event_field. rewrite from_json_value_serialize.
  unfold is_any in Hk. split_bools. set_unfold in Hk. destruct_or! Hk; by subst key.
Qed.

(** A stored event reads back as itself. *)
Lemma event_value_roundtrip e :
  (∀ n, ev_conversation_seq e = Some n → i64_min ≤ n ≤ i64_max) →
  event_from_value (event_to_value e) = Ok e.
Proof.
  intros Hseq. rewrite event_to_value_fields.
  assert (Hc : check_event_field "conversation_seq" (json (ev_conversation_seq e)) = Ok tt).
  { unfold check_event_field. by rewrite read_option_i64. }
  unfold event_from_value, event_of_fields. cbn [check_event_fields].
  rewrite ?check_field_string, ?check_field_option, ?check_field_time, Hc by done.
  change (check_event_field "payload" (ev_payload e)) with (@Ok unit string tt).
  cbn iota beta. unfold required, optional.
  repeat match goal with
  | |- context [obj_get ?k ?o] =>
    let r := eval hnf in (obj_get k o) in change (obj_get k o) with r
  end.
  cbv beta iota.
  rewrite !read_option_string, read_option_i64, !from_json_value_serialize by done.
  by destruct e.
Qed.
End time_compat.
