(* ===== verification/Jid.v ===== *)
(** * Phone numbers and JIDs (src/state.rs, src/whatsapp.rs)

    The pure functions that relate phone numbers, WhatsApp JIDs and the public
    identifiers derived from them. *)
From S2P Require Import Prelude Text Json Env Models.

(** ** Surfaces whose traffic is ignored (src/whatsapp.rs) *)
Definition is_updates_surface_jid (jid : string) : bool :=
  let normalized := to_ascii_lowercase (trim jid) in
  bool_decide (normalized = "status@broadcast") || ends_with normalized "@newsletter"
  || ends_with normalized "@broadcast".

Definition opt_updates_surface (o : option string) : bool :=
  is_some_and o is_updates_surface_jid.

Definition is_updates_event_surface (chat_jid sender_jid : string)
    (sender_alt_jid recipient_jid recipient_alt_jid : option string) : bool :=
  is_updates_surface_jid chat_jid || is_updates_surface_jid sender_jid
  || opt_updates_surface sender_alt_jid || opt_updates_surface recipient_jid
  || opt_updates_surface recipient_alt_jid.

(** ** Phone numbers *)
Definition phone_to_jid (phone_e164 : string) : string :=
  let digits := filter_str is_ascii_digit phone_e164 in
  if decide (digits = "") then phone_e164 else digits +:+ "@s.whatsapp.net".

Definition phone_number_from_value (value : string) : option string :=
  let digits := filter_str is_ascii_digit value in
  bool_then (negb (bool_decide (digits = ""))) digits.

Definition phone_from_jid (jid : string) : option string :=
  let local_part := split_next "@" jid in
  if ends_with jid "@s.whatsapp.net" && all_str is_ascii_digit local_part
  then Some ("+" +:+ local_part) else None.

Definition phone_number_from_jid (jid : string) : option string :=
  let local_part := split_next "@" jid in
  if ends_with jid "@s.whatsapp.net" && all_str is_ascii_digit local_part
  then Some local_part else None.

Definition phone_number_from_e164 (phone_e164 : string) : option string :=
  phone_number_from_value phone_e164.

(** ** Display names *)
Definition display_name_for_jid (jid : string) : string :=
  unwrap_or (phone_from_jid jid) (split_next "@" jid).
Definition group_subject_for_jid (jid : string) : string :=
  "Grupo " +:+ split_next "@" jid.

(** [redact_jid_for_log]: the last four characters of the local part.
    [last_chars n s] is [s.chars().rev().take(n)] reversed, on UTF-8: bytes of
    the form 10xxxxxx continue a character. *)
Definition is_continuation (a : ascii) : bool := in_range 128 191 a.
(** [s.chars().take(n)] on UTF-8, and from the end. *)
Fixpoint take_chars (n : nat) (s : string) : string :=
  match s with
  | EmptyString => ""
  | String a s' =>
    if is_continuation a then String a (take_chars n s')
    else match n with O => "" | S n => String a (take_chars n s') end
  end.
Fixpoint take_chars_rev (n : nat) (s : string) : string :=
  match s with
  | EmptyString => ""
  | String a s' =>
    match n with
    | O => ""
    | S n' =>
      if is_continuation a then String a (take_chars_rev n s')
      else String a (take_chars_rev n' s')
    end
  end.
Definition last_chars (n : nat) (s : string) : string :=
  String.rev (take_chars_rev n (String.rev s)).

Definition redact_jid_for_log (jid : string) (redact_phone : bool) : string :=
  if negb redact_phone then jid
  else
    let '(local_part, domain) := unwrap_or (split_once "@" jid) (jid, ""%string) in
    let suffix := last_chars 4 local_part in
    if decide (domain = "") then "***" +:+ suffix
    else "***" +:+ suffix +:+ "@" +:+ domain.

(** ** Media ids *)
Definition is_rustzap_media_id (value : string) : bool :=
  match strip_prefix value "media_" with
  | None => false
  | Some suffix =>
    bool_decide (String.length suffix = 32%nat) && all_str is_ascii_hexdigit suffix
  end.

Definition rustzap_profile_picture_media_id (value : option string) : option string :=
  opt_filter is_rustzap_media_id (trim <$> value).

(** ** Cleaning text *)
Definition clean_optional_text (value : option string) : option string :=
  opt_filter (λ v, negb (bool_decide (v = ""))) (trim <$> value).
Definition clean_group_subject (subject : option string) : option string :=
  clean_optional_text subject.

Definition should_replace_group_member_name (current contact_id : string) : bool :=
  let current := trim current in
  bool_decide (current = "") || bool_decide (current = contact_id)
  || bool_decide (current = display_name_for_jid contact_id)
  || ends_with current "@lid" || ends_with current "@s.whatsapp.net".

Definition xml_escape (value : string) : string :=
  replace_char (ascii_of_nat 34) "&quot;"
    (replace_char ">" "&gt;" (replace_char "<" "&lt;" (replace_char "&" "&amp;" value))).

(** ** Media types and file names *)
Definition starts_with_any (s : string) (l : list string) : bool := existsb (starts_with s) l.

Definition infer_media_type (mime_type : string) : string :=
  if starts_with mime_type "image/" then "image"
  else if starts_with mime_type "audio/" then "audio" else "document".

Definition normalize_inbound_media_type (value mime_type : string) : string :=
  let v := to_ascii_lowercase (trim value) in
  if decide (v ∈ ["image"; "audio"; "video"; "document"]%string) then v
  else if decide (v ∈ ["file"; "application"]%string) then "document"
  else if starts_with mime_type "video/" then "video"
  else infer_media_type mime_type.

Definition file_extension (filename : string) : option string :=
  opt_filter (λ ext, negb (bool_decide (ext = "")) && bool_decide (String.length ext ≤ 12)%nat)
    ((λ p, trim p.2) <$> rsplit_once "." filename).

Definition extension_for_mime (mime_type : string) : string :=
  let m := trim (split_next ";" mime_type) in
  if decide (m = "image/jpeg") then "jpg"
  else if decide (m = "image/png") then "png"
  else if decide (m = "image/gif") then "gif"
  else if decide (m = "image/webp") then "webp"
  else if decide (m = "image/svg+xml") then "svg"
  else if decide (m = "audio/ogg") then "ogg"
  else if decide (m = "audio/webm") then "webm"
  else if decide (m = "audio/mpeg") then "mp3"
  else if decide (m = "audio/mp4") then "m4a"
  else if decide (m = "video/mp4") then "mp4"
  else if decide (m = "video/quicktime") then "mov"
  else if decide (m = "application/pdf") then "pdf"
  else if decide (m = "text/plain") then "txt" else "bin".

(** ** Properties *)

Lemma filter_digits_spec s :
  all_str is_ascii_digit (filter_str is_ascii_digit s) = true.
Proof. apply all_str_filter. Qed.

Lemma phone_number_from_jid_digits d :
  all_str is_ascii_digit d = true →
  phone_number_from_jid (d +:+ "@s.whatsapp.net") = Some d.
Proof.
  intros Hd. unfold phone_number_from_jid.
  rewrite ends_with_app, (split_next_app "@" d) by by apply digits_no_at. by rewrite Hd.
Qed.

(** The phone number of a JID made from a phone number is that number,
    whatever formatting the caller used. *)
Theorem phone_jid_roundtrip phone n :
  phone_number_from_value phone = Some n →
  phone_number_from_jid (phone_to_jid phone) = Some n
  ∧ phone_from_jid (phone_to_jid phone) = Some ("+" +:+ n)
  ∧ phone_number_from_e164 ("+" +:+ n) = Some n
  ∧ phone_to_jid n = phone_to_jid phone.
Proof.
  unfold phone_number_from_value, phone_to_jid.
  set (d := filter_str is_ascii_digit phone). intros Hn.
  destruct (decide (d = "")) as [->|Hne]; [done|].
  rewrite bool_decide_eq_false_2 in Hn by done. injection Hn as <-.
  pose proof (all_str_filter is_ascii_digit phone : all_str is_ascii_digit d = true) as Hd.
  pose proof (phone_number_from_jid_digits d Hd) as Hj.
  assert (Hf : filter_str is_ascii_digit d = d) by by apply filter_str_all.
  split; [done|]. split.
  { unfold phone_from_jid. unfold phone_number_from_jid in Hj.
    destruct (ends_with _ _ && _); [|done]. by injection Hj as ->. }
  split.
  { unfold phone_number_from_e164, phone_number_from_value.
    change (filter_str is_ascii_digit ("+" +:+ d)) with (filter_str is_ascii_digit d).
    rewrite Hf. by rewrite bool_decide_eq_false_2. }
  rewrite Hf. by rewrite decide_False.
Qed.

Lemma phone_jid_roundtrip_witness :
  phone_number_from_value "+55 (11) 9999" = Some "55119999"%string
  ∧ phone_number_from_jid (phone_to_jid "+55 (11) 9999") = Some "55119999"%string.
Proof.
  split; [reflexivity|].
  exact (proj1 (phone_jid_roundtrip "+55 (11) 9999" "55119999" eq_refl)).
Defined.
