(* ===== verification/Records.v ===== *)
(** * The store's records (src/state.rs)

    The in-memory store: its records, its maps, and the serialized snapshot. *)
From S2P Require Import Prelude Text Json Env Models.

Record ContactRecord : Type := mkContactRecord {
  ct_id : string;
  ct_canonical_jid : option string;
  ct_lid : option string;
  ct_project_id : string;
  ct_company_id : string;
  ct_channel_account_id : option string;
  ct_phone_e164 : option string;
  ct_push_name : option string;
  ct_display_name : string;
  ct_profile_picture_media_id : option string;
  ct_business_description : option string;
  ct_profile_lookup_attempted_at : option time;
  ct_profile_lookup_failed_at : option time;
  ct_profile_lookup_failure_count : Z;
  ct_avatar_url : option string;
  ct_profile_picture_url : option string;
  ct_first_contact_at : time;
  ct_last_contact_at : time
}.
#[export] Instance eta_ContactRecord : Eta ContactRecord := λ r,
  mkContactRecord (ct_id r) (ct_canonical_jid r) (ct_lid r) (ct_project_id r)
    (ct_company_id r) (ct_channel_account_id r) (ct_phone_e164 r) (ct_push_name r)
    (ct_display_name r) (ct_profile_picture_media_id r) (ct_business_description r)
    (ct_profile_lookup_attempted_at r) (ct_profile_lookup_failed_at r)
    (ct_profile_lookup_failure_count r) (ct_avatar_url r) (ct_profile_picture_url r)
    (ct_first_contact_at r) (ct_last_contact_at r).

Record GroupMemberRecord : Type := mkGroupMemberRecord {
  gm_group_id : string;
  gm_contact_id : string;
  gm_wa_jid : option string;
  gm_phone_e164 : option string;
  gm_display_name : string;
  gm_role : string;
  gm_is_admin : bool;
  gm_joined_at : time;
  gm_updated_at : time;
  gm_last_seen_at : time
}.
#[export] Instance eta_GroupMemberRecord : Eta GroupMemberRecord := λ r,
  mkGroupMemberRecord (gm_group_id r) (gm_contact_id r) (gm_wa_jid r) (gm_phone_e164
    r) (gm_display_name r) (gm_role r) (gm_is_admin r) (gm_joined_at r) (gm_updated_at
    r) (gm_last_seen_at r).

Record GroupRecord : Type := mkGroupRecord {
  gr_wa_jid : option string;
  gr_subject : option string;
  gr_description : option string;
  gr_owner_jid : option string;
  gr_subject_owner_jid : option string;
  gr_profile_picture_media_id : option string;
  gr_avatar_url : option string;
  gr_profile_picture_url : option string;
  gr_created_at_wa : option time;
  gr_members_count : option Z;
  gr_admins_count : option Z
}.
#[export] Instance eta_GroupRecord : Eta GroupRecord := λ r,
  mkGroupRecord (gr_wa_jid r) (gr_subject r) (gr_description r) (gr_owner_jid r)
    (gr_subject_owner_jid r) (gr_profile_picture_media_id r) (gr_avatar_url r)
    (gr_profile_picture_url r) (gr_created_at_wa r) (gr_members_count r)
    (gr_admins_count r).

Record IdempotencyRecord : Type := mkIdempotencyRecord {
  idem_request_hash : string;
  idem_message_id : string
}.
#[export] Instance eta_IdempotencyRecord : Eta IdempotencyRecord := λ r,
  mkIdempotencyRecord (idem_request_hash r) (idem_message_id r).

Record MediaUploadIdempotencyRecord : Type := mkMediaUploadIdempotencyRecord {
  mui_request_hash : string;
  mui_media_id : string
}.
#[export] Instance eta_MediaUploadIdempotencyRecord : Eta MediaUploadIdempotencyRecord := λ r,
  mkMediaUploadIdempotencyRecord (mui_request_hash r) (mui_media_id r).

Record DirtyRecord : Type := mkDirtyRecord {
  dirty_conversation_id : string;
  dirty_max_seq : Z;
  dirty_reason : string;
  dirty_priority : Z;
  dirty_available_at : time;
  dirty_lease_token : option string;
  dirty_locked_until : option time
}.
#[export] Instance eta_DirtyRecord : Eta DirtyRecord := λ r,
  mkDirtyRecord (dirty_conversation_id r) (dirty_max_seq r) (dirty_reason r)
    (dirty_priority r) (dirty_available_at r) (dirty_lease_token r)
    (dirty_locked_until r).

Record DirtyLeaseRecord : Type := mkDirtyLeaseRecord {
  lease_lease_token : string;
  lease_locked_until : time;
  lease_max_seq : Z
}.
#[export] Instance eta_DirtyLeaseRecord : Eta DirtyLeaseRecord := λ r,
  mkDirtyLeaseRecord (lease_lease_token r) (lease_locked_until r) (lease_max_seq r).

(** Tuple keys: (project, company), (project, company, key or conversation),
    (project, company, consumer, conversation). *)
Abbreviation key2 := (string * string)%type.
Abbreviation key3 := (string * string * string)%type.
Abbreviation key4 := (string * string * string * string)%type.

Record StoreInner : Type := mkStoreInner {
  st_projects : gmap string Value;
  st_companies : gmap key2 Value;
  st_api_keys : gmap string Value;
  st_channels : gmap string Value;
  st_conversations : gmap string Conversation;
  st_messages_by_conversation : gmap string (list Message);
  st_messages_by_id : gmap string Message;
  st_idempotency : gmap key3 IdempotencyRecord;
  st_media_upload_idempotency : gmap key3 MediaUploadIdempotencyRecord;
  st_media_upload_idempotency_inflight : gmap key3 string;
  st_dirty : gmap key3 DirtyRecord;
  st_dirty_leases : gmap key4 DirtyLeaseRecord;
  st_consumer_state : gmap key4 Z;
  st_contacts : gmap string ContactRecord;
  st_groups : gmap string GroupRecord;
  st_group_members : gmap string (gmap string GroupMemberRecord);
  st_group_profile_refreshes : gmap string time;
  st_media : gmap string MediaObject;
  st_transcripts : gmap string Transcript;
  st_qr : gmap string QrState;
  st_events : list CommonEvent;
  st_internal_processed_event_ids : gset string;
  st_callbacks : gmap string Value;
  st_webhook_delivery_attempts : list WebhookDeliveryAttempt;
  st_audit_logs : list Value
}.
#[export] Instance eta_StoreInner : Eta StoreInner := λ r,
  mkStoreInner (st_projects r) (st_companies r) (st_api_keys r) (st_channels r)
    (st_conversations r) (st_messages_by_conversation r) (st_messages_by_id r)
    (st_idempotency r) (st_media_upload_idempotency r)
    (st_media_upload_idempotency_inflight r) (st_dirty r) (st_dirty_leases r)
    (st_consumer_state r) (st_contacts r) (st_groups r) (st_group_members r)
    (st_group_profile_refreshes r) (st_media r) (st_transcripts r) (st_qr r)
    (st_events r) (st_internal_processed_event_ids r) (st_callbacks r)
    (st_webhook_delivery_attempts r) (st_audit_logs r).

(** [StoreInner::default()] *)
Definition empty_store : StoreInner :=
  mkStoreInner ∅ ∅ ∅ ∅ ∅ ∅ ∅ ∅ ∅ ∅ ∅ ∅ ∅ ∅ ∅ ∅ ∅ ∅ ∅ ∅ [] ∅ ∅ [] [].

(** The snapshot written to disk or to the database: maps with tuple keys
    become lists of pairs; what is only meaningful in a running process
    (uploads in flight, claimed work events) is left out. *)
Record PersistedStore : Type := mkPersistedStore {
  ps_projects : gmap string Value;
  ps_companies : list (key2 * Value);
  ps_api_keys : gmap string Value;
  ps_channels : gmap string Value;
  ps_conversations : gmap string Conversation;
  ps_messages_by_conversation : gmap string (list Message);
  ps_messages_by_id : gmap string Message;
  ps_idempotency : list (key3 * IdempotencyRecord);
  ps_media_upload_idempotency : list (key3 * MediaUploadIdempotencyRecord);
  ps_dirty : list (key3 * DirtyRecord);
  ps_dirty_leases : list (key4 * DirtyLeaseRecord);
  ps_consumer_state : list (key4 * Z);
  ps_contacts : gmap string ContactRecord;
  ps_groups : gmap string GroupRecord;
  ps_group_members : gmap string (gmap string GroupMemberRecord);
  ps_group_profile_refreshes : gmap string time;
  ps_media : gmap string MediaObject;
  ps_transcripts : gmap string Transcript;
  ps_qr : gmap string QrState;
  ps_events : list CommonEvent;
  ps_callbacks : gmap string Value;
  ps_webhook_delivery_attempts : list WebhookDeliveryAttempt;
  ps_audit_logs : list Value
}.
#[export] Instance eta_PersistedStore : Eta PersistedStore := λ r,
  mkPersistedStore (ps_projects r) (ps_companies r) (ps_api_keys r) (ps_channels r)
    (ps_conversations r) (ps_messages_by_conversation r) (ps_messages_by_id r)
    (ps_idempotency r) (ps_media_upload_idempotency r) (ps_dirty r) (ps_dirty_leases
    r) (ps_consumer_state r) (ps_contacts r) (ps_groups r) (ps_group_members r)
    (ps_group_profile_refreshes r) (ps_media r) (ps_transcripts r) (ps_qr r)
    (ps_events r) (ps_callbacks r) (ps_webhook_delivery_attempts r) (ps_audit_logs r).

Definition channel_belongs_to_company (channel : Value) (project_id company_id : string)
  : bool :=
  bool_decide (get_str channel "project_id" = Some project_id)
  && bool_decide (get_str channel "company_id" = Some company_id).

Definition conversation_matches_tenant (conversation : Conversation)
    (project_id company_id : string) : bool :=
  bool_decide (conv_project_id conversation = project_id)
  && bool_decide (conv_company_id conversation = company_id).

(** The same test on a contact, a message, a media object, a transcript. *)
Definition contact_of_tenant (c : ContactRecord) (project_id company_id : string) : bool :=
  bool_decide (ct_project_id c = project_id) && bool_decide (ct_company_id c = company_id).
Definition message_of_tenant (m : Message) (project_id company_id : string) : bool :=
  bool_decide (msg_project_id m = project_id) && bool_decide (msg_company_id m = company_id).
Definition media_of_tenant (m : MediaObject) (project_id company_id : string) : bool :=
  bool_decide (media_project_id m = project_id) && bool_decide (media_company_id m = company_id).
Definition transcript_of_tenant (t : Transcript) (project_id company_id : string) : bool :=
  bool_decide (tr_project_id t = project_id) && bool_decide (tr_company_id t = company_id).
