(* ===== verification/Tables.v ===== *)
(** * The relational tables (src/migrations)

    The rows of the tables the metadata snapshots are copied to, and the
    constraints the server checks of a row before it stores it.  A column the
    program neither writes nor reads keeps its default and is left out. *)
From S2P Require Import Prelude Text Json Env Models Records.

(** ** Rows *)
(** [projects], by [id]. *)
Record ProjectRow : Type := mkProjectRow {
  pr_name : string;
  pr_status : string;
  pr_updated_at : time
}.
(** [companies], by [id]. *)
Record CompanyRow : Type := mkCompanyRow {
  cor_project_id : string;
  cor_name : string;
  cor_status : string;
  cor_updated_at : time
}.
(** [channel_accounts], by [id]. *)
Record ChannelRow : Type := mkChannelRow {
  cr_project_id : string;
  cr_company_id : string;
  cr_provider : string;
  cr_phone_e164 : option string;
  cr_label : option string;
  cr_status : string;
  cr_connected_at : option time;
  cr_updated_at : time
}.
(** [contacts], by [id]. *)
Record ContactRow : Type := mkContactRow {
  cx_project_id : string;
  cx_company_id : string;
  cx_channel_account_id : string;
  cx_wa_jid : option string;
  cx_phone_e164 : option string;
  cx_lid : option string;
  cx_push_name : option string;
  cx_display_name : option string;
  cx_profile_picture_media_id : option string;
  cx_business_description : option string;
  cx_avatar_url : option string;
  cx_profile_picture_url : option string;
  cx_first_contact_at : option time;
  cx_last_contact_at : option time;
  cx_updated_at : time
}.
#[export] Instance eta_ContactRow : Eta ContactRow := λ r,
  mkContactRow (cx_project_id r) (cx_company_id r) (cx_channel_account_id r) (cx_wa_jid r)
    (cx_phone_e164 r) (cx_lid r) (cx_push_name r) (cx_display_name r)
    (cx_profile_picture_media_id r) (cx_business_description r) (cx_avatar_url r)
    (cx_profile_picture_url r) (cx_first_contact_at r) (cx_last_contact_at r)
    (cx_updated_at r).
(** [groups], by [id]. *)
Record GroupRow : Type := mkGroupRow {
  grw_project_id : string;
  grw_company_id : string;
  grw_channel_account_id : string;
  grw_wa_jid : string;
  grw_subject : option string;
  grw_description : option string;
  grw_owner_jid : option string;
  grw_subject_owner_jid : option string;
  grw_created_at_wa : option time;
  grw_profile_picture_media_id : option string;
  grw_avatar_url : option string;
  grw_profile_picture_url : option string;
  grw_members_count : option Z;
  grw_admins_count : option Z;
  grw_updated_at : time
}.
#[export] Instance eta_GroupRow : Eta GroupRow := λ r,
  mkGroupRow (grw_project_id r) (grw_company_id r) (grw_channel_account_id r) (grw_wa_jid r)
    (grw_subject r) (grw_description r) (grw_owner_jid r) (grw_subject_owner_jid r)
    (grw_created_at_wa r) (grw_profile_picture_media_id r) (grw_avatar_url r)
    (grw_profile_picture_url r) (grw_members_count r) (grw_admins_count r)
    (grw_updated_at r).
(** [group_members], by ([group_id], [contact_id]). *)
Record MemberRow : Type := mkMemberRow {
  mr_wa_jid : option string;
  mr_phone_e164 : option string;
  mr_name : option string;
  mr_role : string;
  mr_is_admin : bool;
  mr_joined_at : option time;
  mr_updated_at : time
}.
(** [conversations], by [id]. *)
Record ConversationRow : Type := mkConversationRow {
  vr_project_id : string;
  vr_company_id : string;
  vr_channel_account_id : string;
  vr_type : string;
  vr_contact_id : option string;
  vr_group_id : option string;
  vr_display_name : option string;
  vr_display_phone : option string;
  vr_avatar_url : option string;
  vr_profile_picture_url : option string;
  vr_last_seq : Z;
  vr_last_message_at : option time;
  vr_unread_count : Z;
  vr_is_archived : bool;
  vr_is_muted : bool;
  vr_is_pinned : bool;
  vr_control_mode : string;
  vr_created_at : time;
  vr_updated_at : time
}.
#[export] Instance eta_ConversationRow : Eta ConversationRow := λ r,
  mkConversationRow (vr_project_id r) (vr_company_id r) (vr_channel_account_id r) (vr_type r)
    (vr_contact_id r) (vr_group_id r) (vr_display_name r) (vr_display_phone r)
    (vr_avatar_url r) (vr_profile_picture_url r) (vr_last_seq r) (vr_last_message_at r)
    (vr_unread_count r) (vr_is_archived r) (vr_is_muted r) (vr_is_pinned r)
    (vr_control_mode r) (vr_created_at r) (vr_updated_at r).
(** [dirty_conversations], by ([project_id], [company_id], [conversation_id]). *)
Record DirtyRow : Type := mkDirtyRow {
  dr_max_seq : Z;
  dr_reason : string;
  dr_priority : Z;
  dr_available_at : time;
  dr_locked_until : option time;
  dr_lease_token : option string;
  dr_updated_at : time
}.
(** [dirty_conversation_leases], by the tenant, the consumer and the
    conversation, like [consumer_processing_state]. *)
Record LeaseRow : Type := mkLeaseRow {
  lr_lease_token : string;
  lr_locked_until : time;
  lr_max_seq : Z;
  lr_updated_at : time
}.
Record ConsumerRow : Type := mkConsumerRow {
  csr_last_processed_seq : Z;
  csr_last_processed_at : time;
  csr_updated_at : time
}.
(** [idempotency_keys], by ([project_id], [company_id], [key]). *)
Record IdempotencyRow : Type := mkIdempotencyRow {
  ir_request_hash : string;
  ir_response_json : Value;
  ir_message_id : string;
  ir_status : string;
  ir_expires_at : time;
  ir_updated_at : time
}.
(** [consumer_callbacks], by [id]. *)
Record CallbackRow : Type := mkCallbackRow {
  kr_project_id : string;
  kr_company_id : string;
  kr_url : string;
  kr_encrypted_secret : option string;
  kr_enabled : bool;
  kr_events : list string;
  kr_max_batch_size : Z;
  kr_timeout_seconds : Z;
  kr_updated_at : time
}.
#[export] Instance eta_CallbackRow : Eta CallbackRow := λ r,
  mkCallbackRow (kr_project_id r) (kr_company_id r) (kr_url r) (kr_encrypted_secret r)
    (kr_enabled r) (kr_events r) (kr_max_batch_size r) (kr_timeout_seconds r)
    (kr_updated_at r).
(** [webhook_delivery_attempts], by [id]. *)
Record AttemptRow : Type := mkAttemptRow {
  ar_callback_id : string;
  ar_event_id : string;
  ar_attempt : Z;
  ar_status : string;
  ar_http_status : option Z;
  ar_error_message : option string;
  ar_first_failed_at : option time;
  ar_last_failed_at : option time;
  ar_next_retry_at : option time;
  ar_created_at : time
}.

(** A row of [messages] has the columns of [Message]; one of [transcripts]
    those of [Transcript]; one of [media_objects] those of [MediaObject], with
    [width], [height] and [duration_seconds] never written. *)
Record Tables : Type := mkTables {
  tb_projects : gmap string ProjectRow;
  tb_companies : gmap string CompanyRow;
  tb_channels : gmap string ChannelRow;
  tb_contacts : gmap string ContactRow;
  tb_groups : gmap string GroupRow;
  tb_members : gmap (string * string) MemberRow;
  tb_conversations : gmap string ConversationRow;
  tb_messages : gmap string Message;
  tb_media : gmap string MediaObject;
  tb_transcripts : gmap string Transcript;
  tb_dirty : gmap key3 DirtyRow;
  tb_leases : gmap key4 LeaseRow;
  tb_consumers : gmap key4 ConsumerRow;
  tb_idempotency : gmap key3 IdempotencyRow;
  tb_callbacks : gmap string CallbackRow;
  tb_attempts : gmap string AttemptRow
}.
#[export] Instance eta_Tables : Eta Tables := λ r,
  mkTables (tb_projects r) (tb_companies r) (tb_channels r) (tb_contacts r) (tb_groups r)
    (tb_members r) (tb_conversations r) (tb_messages r) (tb_media r) (tb_transcripts r)
    (tb_dirty r) (tb_leases r) (tb_consumers r) (tb_idempotency r) (tb_callbacks r)
    (tb_attempts r).

(** The tables after the migrations. *)
Definition no_rows : Tables := mkTables ∅ ∅ ∅ ∅ ∅ ∅ ∅ ∅ ∅ ∅ ∅ ∅ ∅ ∅ ∅ ∅.

(** ** Constraints *)
(** [REFERENCES]: a foreign key names a row, or is null. *)
Definition refers {K A} `{Countable K} (m : gmap K A) (k : K) : bool :=
  bool_decide (is_Some (m !! k)).
Definition refers_opt {K A} `{Countable K} (m : gmap K A) (k : option K) : bool :=
  is_none_or k (refers m).

Definition tenant_refs (t : Tables) (project_id company_id : string) : bool :=
  refers (tb_projects t) project_id && refers (tb_companies t) company_id.
Definition company_refs (t : Tables) (r : CompanyRow) : bool :=
  refers (tb_projects t) (cor_project_id r).
Definition channel_refs (t : Tables) (r : ChannelRow) : bool :=
  tenant_refs t (cr_project_id r) (cr_company_id r).
Definition contact_refs (t : Tables) (r : ContactRow) : bool :=
  tenant_refs t (cx_project_id r) (cx_company_id r)
  && refers (tb_channels t) (cx_channel_account_id r).
Definition group_refs (t : Tables) (r : GroupRow) : bool :=
  tenant_refs t (grw_project_id r) (grw_company_id r)
  && refers (tb_channels t) (grw_channel_account_id r).
Definition member_refs (t : Tables) (k : string * string) : bool :=
  refers (tb_groups t) k.1 && refers (tb_contacts t) k.2.
Definition conversation_refs (t : Tables) (r : ConversationRow) : bool :=
  tenant_refs t (vr_project_id r) (vr_company_id r)
  && refers (tb_channels t) (vr_channel_account_id r)
  && refers_opt (tb_contacts t) (vr_contact_id r)
  && refers_opt (tb_groups t) (vr_group_id r).
Definition message_refs (t : Tables) (m : Message) : bool :=
  tenant_refs t (msg_project_id m) (msg_company_id m)
  && refers (tb_conversations t) (msg_conversation_id m)
  && refers (tb_channels t) (msg_channel_account_id m)
  && refers_opt (tb_contacts t) (msg_sender_contact_id m).
Definition media_refs (t : Tables) (m : MediaObject) : bool :=
  tenant_refs t (media_project_id m) (media_company_id m)
  && refers (tb_conversations t) (media_conversation_id m)
  && refers_opt (tb_messages t) (media_message_id m).
Definition transcript_refs (t : Tables) (r : Transcript) : bool :=
  tenant_refs t (tr_project_id r) (tr_company_id r)
  && refers (tb_messages t) (tr_message_id r)
  && refers_opt (tb_media t) (tr_media_id r).
Definition tenant_conversation_refs (t : Tables)
    (project_id company_id conversation_id : string) : bool :=
  tenant_refs t project_id company_id && refers (tb_conversations t) conversation_id.
Definition callback_refs (t : Tables) (r : CallbackRow) : bool :=
  tenant_refs t (kr_project_id r) (kr_company_id r).

(** The unique constraints of [messages], between two rows: one number per
    conversation, and one copy of a WhatsApp message per channel and direction
    ([participant_jid] is never written). *)
Definition same_number (m m' : Message) : bool :=
  bool_decide (msg_conversation_id m = msg_conversation_id m')
  && bool_decide (msg_conversation_seq m = msg_conversation_seq m').
Definition same_external (m m' : Message) : bool :=
  bool_decide (is_Some (msg_wa_message_id m))
  && bool_decide (msg_wa_message_id m = msg_wa_message_id m')
  && bool_decide (msg_channel_account_id m = msg_channel_account_id m')
  && bool_decide (msg_direction m = msg_direction m').
Definition duplicates (m m' : Message) : bool := same_number m m' || same_external m m'.

(** No other row of [messages] collides with [m]. *)
Definition message_unique (t : Tables) (m : Message) : bool :=
  bool_decide (map_Forall (λ id m', id = msg_id m ∨ duplicates m m' = false) (tb_messages t)).
