(* ===== verification/Database.v ===== *)
(** * Metadata database (src/db.rs)

    The tables of the durable event bus (migrations/202604280001) and of the
    metadata snapshots, and the methods of [MetadataDb] on them.  A statement
    is one atomic step of the database; a transaction takes effect when it
    commits.  Every round trip can fail, before or after it takes effect. *)
From S2P Require Import Prelude Text Json Env Config Models Records EventBus Codec Tables.

(** ** Rows *)

(** [event_outbox]; the column [headers_json] is never written. *)
Record OutboxRow : Type := mkOutboxRow {
  ob_event_type : string;
  ob_topic : string;
  ob_partition_key : string;
  ob_payload_json : Value;
  ob_status : string;
  ob_attempt_count : Z;
  ob_kafka_partition : option Z;
  ob_kafka_offset : option Z;
  ob_locked_by : option string;
  ob_locked_until : option time;
  ob_next_attempt_at : time;
  ob_last_error : option string;
  ob_available_at : time;
  ob_published_at : option time;
  ob_created_at : time;
  ob_updated_at : time
}.
#[export] Instance eta_OutboxRow : Eta OutboxRow := λ r,
  mkOutboxRow (ob_event_type r) (ob_topic r) (ob_partition_key r) (ob_payload_json r)
    (ob_status r) (ob_attempt_count r) (ob_kafka_partition r) (ob_kafka_offset r)
    (ob_locked_by r) (ob_locked_until r) (ob_next_attempt_at r) (ob_last_error r)
    (ob_available_at r) (ob_published_at r) (ob_created_at r) (ob_updated_at r).

(** [event_inbox], keyed by its unique pair (consumer group, event). *)
Record InboxRow : Type := mkInboxRow {
  ib_topic : string;
  ib_partition : Z;
  ib_offset : Z;
  ib_payload_json : Value;
  ib_processed_at : time
}.

(** [kafka_deadletters], keyed by its UUID. *)
Record DeadLetterRow : Type := mkDeadLetterRow {
  kd_event_id : string;
  kd_event_type : string;
  kd_source_topic : option string;
  kd_original_topic : option string;
  kd_original_partition : option Z;
  kd_original_offset : option Z;
  kd_partition_key : string;
  kd_retry_count : Z;
  kd_error_code : string;
  kd_payload_json : Value;
  kd_first_failed_at : time;
  kd_last_failed_at : time;
  kd_replayed_at : option time;
  kd_replayed_by : option string;
  kd_resolved_at : option time;
  kd_created_at : time
}.
#[export] Instance eta_DeadLetterRow : Eta DeadLetterRow := λ r,
  mkDeadLetterRow (kd_event_id r) (kd_event_type r) (kd_source_topic r) (kd_original_topic r)
    (kd_original_partition r) (kd_original_offset r) (kd_partition_key r) (kd_retry_count r)
    (kd_error_code r) (kd_payload_json r) (kd_first_failed_at r) (kd_last_failed_at r)
    (kd_replayed_at r) (kd_replayed_by r) (kd_resolved_at r) (kd_created_at r).

(** [db_tables]: the tables of the schema; [db_relational]: the rows the
    snapshots are copied to; [db_calls]: round trips so far. *)
Record Db : Type := mkDb {
  db_tables : list string;
  db_snapshots : gmap string Value;
  db_outbox : gmap string OutboxRow;
  db_inbox : gmap (string * string) InboxRow;
  db_deadletters : gmap string DeadLetterRow;
  db_relational : Tables;
  db_calls : nat
}.
#[export] Instance eta_Db : Eta Db := λ r,
  mkDb (db_tables r) (db_snapshots r) (db_outbox r) (db_inbox r) (db_deadletters r)
    (db_relational r) (db_calls r).

(** What a claimed row hands to its worker. *)
Record OutboxRecord : Type := mkOutboxRecord {
  or_event_id : string;
  or_topic : string;
  or_partition_key : string;
  or_payload_json : Value;
  or_attempt_count : Z
}.

Record KafkaDeadLetterRecord : Type := mkKafkaDeadLetterRecord {
  kdr_id : string;
  kdr_row : DeadLetterRow;
  kdr_first_failed_at : string;
  kdr_last_failed_at : string;
  kdr_replayed_at : option string;
  kdr_resolved_at : option string;
  kdr_created_at : string
}.

(** ** The server

    - [pg_call n]: what becomes of the [n]-th round trip: it is carried out, it
      is refused without effect, or it is carried out and its answer is lost;
    - [pg_now n]: [now()] of the statement or transaction the [n]-th begins;
    - [pg_error n]: the text of the error the [n]-th round trip may end in;
    - [pg_uuid n]: [gen_random_uuid()];  [parse_uuid]: the cast [::uuid];
    - [timestamptz]: the time a [timestamptz] column keeps;
    - [store_to_value], [store_from_value]: the derived codec of
      [PersistedStore]. *)
Inductive PgOutcome := PgDone | PgRefused | PgLost.
Class Postgres := {
  pg_call : nat → PgOutcome;
  pg_now : nat → time;
  pg_error : nat → string;
  pg_uuid : nat → string;
  parse_uuid : string → option string;
  timestamptz : time → time;
  store_to_value : PersistedStore → result Value string;
  store_from_value : Value → result PersistedStore string
}.

(** Computations of the client; an error is its displayed context. *)
Abbreviation D A := (ST Db (result A string)).

Section statements.
Context `{Env} `{Serde} `{Postgres}.

(** A statement under the clock [now]: [f] gives its answer and effect, [None]
    when the server refuses it. *)
Definition run_statement {A} (now : time) (context : string)
    (f : Db → option (A * Db)) : D A := λ d,
  let d' := d <| db_calls ::= S |> in
  match pg_call (db_calls d) with
  | PgRefused => (Err context, d')
  | PgDone => match f d' with Some (a, d'') => (Ok a, d'') | None => (Err context, d') end
  | PgLost => match f d' with Some (_, d'') => (Err context, d'') | None => (Err context, d') end
  end.
(** A statement of its own, outside a transaction. *)
Definition statement {A} (context : string) (f : time → Db → option (A * Db)) : D A := λ d,
  run_statement (pg_now (db_calls d)) context (f (pg_now (db_calls d))) d.

(** A transaction: its statements share [now]; an error abandons it, and the
    tables are those before it. *)
Inductive tx_end (A : Type) := TxCommit (a : A) | TxRollback (context : string) (a : A).
#[local] Arguments TxCommit {A} a.
#[local] Arguments TxRollback {A} context a.
Definition rollback (before after : Db) : Db := before <| db_calls := db_calls after |>.

Definition transaction {A} (begin_context commit_context : string)
    (body : time → D (tx_end A)) : D A := λ d,
  match pg_call (db_calls d) with
  | PgDone =>
    let '(r, d1) := body (pg_now (db_calls d)) (d <| db_calls ::= S |>) in
    let d2 := d1 <| db_calls ::= S |> in
    match r with
    | Err e => (Err e, rollback d d1)
    | Ok (TxRollback context a) =>
      match pg_call (db_calls d1) with
      | PgDone => (Ok a, rollback d d2)
      | _ => (Err context, rollback d d2)
      end
    | Ok (TxCommit a) =>
      match pg_call (db_calls d1) with
      | PgDone => (Ok a, d2)
      | PgRefused => (Err commit_context, rollback d d2)
      | PgLost => (Err commit_context, d2)
      end
    end
  | _ => (Err begin_context, d <| db_calls ::= S |>)
  end.

(** A computation on the client that is not a round trip. *)
Definition pure_result {A} (r : result A string) : D A := ret r.

(** ** Readiness *)
Definition critical_tables : list string :=
  ["projects"; "companies"; "channel_accounts"; "conversations"; "messages";
   "media_objects"; "transcripts"; "consumer_callbacks"; "metadata_snapshots";
   "event_outbox"; "event_inbox"]%string.

Definition check_ready : D unit :=
  try! _ := statement "metadata Postgres readiness query failed" (λ _ d, Some (1, d)) in
  try! missing := statement "metadata migration readiness query failed" (λ _ d,
    Some (retain_list (λ t, negb (bool_decide (t ∈ db_tables d))) critical_tables, d)) in
  if decide (missing = []) then ret (Ok tt)
  else ret (Err ("metadata migrations missing critical tables: "
                 +:+ String.concat ", " missing)).

(** ** The outbox *)
Definition queued_row (now : time) (event_type topic partition_key : string) (payload : Value)
  : OutboxRow := {|
  ob_event_type := event_type; ob_topic := topic; ob_partition_key := partition_key;
  ob_payload_json := payload; ob_status := "queued"; ob_attempt_count := 0;
  ob_kafka_partition := None; ob_kafka_offset := None; ob_locked_by := None;
  ob_locked_until := None; ob_next_attempt_at := now; ob_last_error := None;
  ob_available_at := now; ob_published_at := None; ob_created_at := now;
  ob_updated_at := now |}.

Definition put_outbox (event_id : string) (row : OutboxRow) (d : Db) : Db :=
  d <| db_outbox ::= <[event_id := row]> |>.

(** [ON CONFLICT (event_id) DO UPDATE]: a published row keeps its status. *)
Definition insert_event_outbox (event : CommonEvent) (topic partition_key : string) : D unit :=
  statement "failed to insert Kafka outbox event" (λ now d,
    let payload := event_to_value event in
    Some (tt, put_outbox (ev_event_id event)
      match db_outbox d !! ev_event_id event with
      | None => queued_row now (ev_event_type event) topic partition_key payload
      | Some row =>
        row <| ob_event_type := ev_event_type event |> <| ob_topic := topic |>
            <| ob_partition_key := partition_key |> <| ob_payload_json := payload |>
            <| ob_status ::= λ st, if decide (st = "published") then st else "queued" |>
            <| ob_updated_at := now |>
      end d)).

(** The [WHERE] clause of a claim. *)
Definition lock_free (now : time) (row : OutboxRow) : bool :=
  is_none_or (ob_locked_until row) (λ t, bool_decide (t < now)).
Definition claimable (now : time) (row : OutboxRow) : bool :=
  ((is_any (ob_status row) ["queued"; "failed"]%string
      && bool_decide (ob_next_attempt_at row ≤ now))
   || (bool_decide (ob_status row = "publishing")
      && is_some_and (ob_locked_until row) (λ t, bool_decide (t < now))))
  && lock_free now row.

(** [ORDER BY available_at, created_at], ties in any order. *)
Definition outbox_le (a b : string * OutboxRow) : bool :=
  bool_decide (ob_available_at a.2 < ob_available_at b.2)
  || (bool_decide (ob_available_at a.2 = ob_available_at b.2)
      && bool_decide (ob_created_at a.2 ≤ ob_created_at b.2)).
Definition next_events (now : time) (limit : Z) (d : Db) : list (string * OutboxRow) :=
  take (Z.to_nat limit)
    (sort_by outbox_le (retain_list (λ kv, claimable now kv.2) (hm_iter (db_outbox d)))).

Definition lock_row (now : time) (worker_id : string) (lock_seconds : Z) (row : OutboxRow)
  : OutboxRow :=
  row <| ob_status := "publishing" |> <| ob_locked_by := Some worker_id |>
      <| ob_locked_until := Some (now + seconds lock_seconds) |> <| ob_updated_at := now |>.

Definition outbox_record (kv : string * OutboxRow) : OutboxRecord :=
  mkOutboxRecord kv.1 (ob_topic kv.2) (ob_partition_key kv.2) (ob_payload_json kv.2)
    (ob_attempt_count kv.2).

(** [RETURNING] lists the updated rows in any order. *)
Definition claim_rows (now : time) (worker_id : string) (limit lock_seconds : Z) (d : Db)
  : list OutboxRecord * Db :=
  let claimed : gmap string OutboxRow :=
    lock_row now worker_id (Z.max lock_seconds 1) <$> list_to_map (next_events now limit d) in
  (outbox_record <$> hm_iter claimed, d <| db_outbox ::= λ m, claimed ∪ m |>).

Definition claim_event_outbox_batch (worker_id : string) (limit lock_seconds : Z)
  : D (list OutboxRecord) :=
  statement "failed to claim Kafka outbox events" (λ now d,
    Some (claim_rows now worker_id limit lock_seconds d)).

(** [UPDATE event_outbox .. WHERE event_id = $1] with [attempt_count + 1], which
    the server refuses when it leaves the [integer] type. *)
Definition update_outbox (event_id : string) (f : OutboxRow → OutboxRow) (d : Db)
  : option (unit * Db) :=
  match db_outbox d !! event_id with
  | None => Some (tt, d)
  | Some row =>
    if decide (ob_attempt_count row = 2 ^ 31 - 1) then None
    else Some (tt, put_outbox event_id (f (row <| ob_attempt_count ::= Z.succ |>)) d)
  end.

Definition published_row (partition offset : Z) (now : time) (row : OutboxRow) : OutboxRow :=
  row <| ob_status := "published" |> <| ob_kafka_partition := Some partition |>
      <| ob_kafka_offset := Some offset |> <| ob_last_error := None |>
      <| ob_published_at := Some now |> <| ob_updated_at := now |>.
Definition mark_event_outbox_published (event_id : string) (partition offset : Z) : D unit :=
  statement "failed to mark Kafka outbox event published" (λ now,
    update_outbox event_id (published_row partition offset now)).

Definition failed_row (error : string) (retry_after_seconds : Z) (now : time) (row : OutboxRow)
  : OutboxRow :=
  row <| ob_status := "failed" |> <| ob_last_error := Some error |>
      <| ob_locked_by := None |> <| ob_locked_until := None |>
      <| ob_next_attempt_at := now + seconds (Z.max retry_after_seconds 1) |>
      <| ob_updated_at := now |>.
Definition mark_event_outbox_failed (event_id error : string) (retry_after_seconds : Z)
  : D unit :=
  statement "failed to mark Kafka outbox event failed" (λ now,
    update_outbox event_id (failed_row error retry_after_seconds now)).

Definition deadlettered_row (error : string) (now : time) (row : OutboxRow) : OutboxRow :=
  row <| ob_status := "deadlettered" |> <| ob_last_error := Some error |>
      <| ob_locked_by := None |> <| ob_locked_until := None |> <| ob_updated_at := now |>.
Definition mark_event_outbox_deadlettered (event_id error : string) : D unit :=
  statement "failed to mark Kafka outbox event deadlettered" (λ now,
    update_outbox event_id (deadlettered_row error now)).

Definition outbox_backlog_count : D Z :=
  statement "failed to count Kafka outbox backlog" (λ _ d,
    Some (Z.of_nat (size (retain (λ _ row,
            is_any (ob_status row) ["queued"; "failed"; "publishing"]%string)
            (db_outbox d))), d)).
(** ** Dead letters *)
Definition deadletter_row (now first last : time) (envelope : DeadLetterEnvelope)
    (source_topic : option string) (partition_key : string) : DeadLetterRow := {|
  kd_event_id := ev_event_id (dl_event envelope);
  kd_event_type := ev_event_type (dl_event envelope);
  kd_source_topic := source_topic;
  kd_original_topic := source_topic;
  kd_original_partition := Some (-1);
  kd_original_offset := Some (-1);
  kd_partition_key := partition_key;
  kd_retry_count := wrap_i32 (dl_retry_count envelope);
  kd_error_code := dl_error_code envelope;
  kd_payload_json := event_to_value (dl_event envelope);
  kd_first_failed_at := timestamptz first;
  kd_last_failed_at := timestamptz last;
  kd_replayed_at := None;
  kd_replayed_by := None;
  kd_resolved_at := None;
  kd_created_at := now
|}.

(** The [n]-th round trip draws the [n]-th UUID; a repeated one violates the
    primary key. *)
Definition insert_kafka_deadletter (envelope : DeadLetterEnvelope) (source_topic : option string)
    (partition_key : string) : D unit :=
  try! first := pure_result (ok_or (parse_rfc3339 (dl_first_failed_at envelope))
    "failed to parse deadletter first_failed_at"%string) in
  try! last := pure_result (ok_or (parse_rfc3339 (dl_last_failed_at envelope))
    "failed to parse deadletter last_failed_at"%string) in
  statement "failed to insert Kafka deadletter" (λ now d,
    let id := pg_uuid (db_calls d) in
    match db_deadletters d !! id with
    | Some _ => None
    | None =>
      Some (tt, d <| db_deadletters ::=
        <[id := deadletter_row now first last envelope source_topic partition_key]> |>)
    end).

(** [ORDER BY created_at DESC LIMIT .. OFFSET ..] *)
Definition deadletter_le (a b : string * DeadLetterRow) : bool :=
  bool_decide (kd_created_at b.2 ≤ kd_created_at a.2).
Definition deadletter_record (kv : string * DeadLetterRow) : KafkaDeadLetterRecord := {|
  kdr_id := kv.1;
  kdr_row := kv.2;
  kdr_first_failed_at := ts (kd_first_failed_at kv.2);
  kdr_last_failed_at := ts (kd_last_failed_at kv.2);
  kdr_replayed_at := ts <$> kd_replayed_at kv.2;
  kdr_resolved_at := ts <$> kd_resolved_at kv.2;
  kdr_created_at := ts (kd_created_at kv.2)
|}.
Definition list_kafka_deadletters (limit offset : Z) : D (list KafkaDeadLetterRecord) :=
  statement "failed to list Kafka deadletters" (λ _ d,
    Some (deadletter_record <$>
      take (Z.to_nat (Z.max 1 (Z.min limit 500)))
        (drop (Z.to_nat (Z.max offset 0))
          (sort_by deadletter_le (hm_iter (db_deadletters d)))), d)).

(** The row of a replayed event: queued again, with its attempts so far. *)
Definition requeue_row (now : time) (event : CommonEvent) (topic partition_key : string)
    (payload : Value) (row : option OutboxRow) : OutboxRow :=
  match row with
  | None => queued_row now (ev_event_type event) topic partition_key payload
  | Some row =>
    row <| ob_status := "queued" |> <| ob_topic := topic |>
        <| ob_partition_key := partition_key |> <| ob_payload_json := payload |>
        <| ob_next_attempt_at := now |> <| ob_locked_by := None |>
        <| ob_locked_until := None |> <| ob_updated_at := now |>
  end.

(** [SELECT .. WHERE id = $1::uuid AND replayed_at IS NULL FOR UPDATE] *)
Definition load_replayable (deadletter_id : string) (d : Db)
  : option (option (string * DeadLetterRow) * Db) :=
  match parse_uuid deadletter_id with
  | None => None
  | Some id =>
    Some (match db_deadletters d !! id with
          | Some row => if decide (kd_replayed_at row = None) then Some (id, row) else None
          | None => None
          end, d)
  end.

Definition replay_body (kafka : KafkaConfig) (deadletter_id replayed_by : string) (now : time)
  : D (tx_end (option string)) :=
  try! row := run_statement now "failed to load Kafka deadletter for replay"
                (load_replayable deadletter_id) in
  match row with
  | None => ret (Ok (TxRollback "failed to rollback empty replay transaction" None))
  | Some (id, row) =>
    match event_from_value (kd_payload_json row) with
    | Err _ => ret (Err "failed to decode Kafka deadletter payload"%string)
    | Ok event =>
      try! _ := run_statement now "failed to enqueue replayed Kafka deadletter" (λ d,
        Some (tt, put_outbox (ev_event_id event)
          (requeue_row now event (topic_for_event kafka (ev_event_type event))
             (partition_key event) (kd_payload_json row) (db_outbox d !! ev_event_id event))
          d)) in
      try! _ := run_statement now "failed to mark Kafka deadletter replayed" (λ d,
        Some (tt, d <| db_deadletters ::= <[id :=
          row <| kd_replayed_at := Some now |> <| kd_replayed_by := Some replayed_by |>]> |>)) in
      ret (Ok (TxCommit (Some (ev_event_id event))))
    end
  end.
Definition replay_kafka_deadletter (kafka : KafkaConfig) (deadletter_id replayed_by : string)
  : D (option string) :=
  transaction "failed to begin replay transaction" "failed to commit Kafka deadletter replay"
    (replay_body kafka deadletter_id replayed_by).

(** ** The inbox *)
Definition inbox_match (consumer_group event_id topic : string) (partition offset : Z)
    (kv : (string * string) * InboxRow) : bool :=
  bool_decide (kv.1.1 = consumer_group)
  && (bool_decide (kv.1.2 = event_id)
      || (bool_decide (ib_topic kv.2 = topic) && bool_decide (ib_partition kv.2 = partition)
          && bool_decide (ib_offset kv.2 = offset))).

Definition event_inbox_processed (consumer_group : string) (event : CommonEvent)
    (topic : string) (partition offset : Z) : D bool :=
  statement "failed to check Kafka inbox event" (λ _ d,
    Some (existsb (inbox_match consumer_group (ev_event_id event) topic partition offset)
            (hm_iter (db_inbox d)), d)).

(** The row of another event at the same source violates
    [UNIQUE (consumer_group, topic, partition, offset_value)]. *)
Definition source_taken (consumer_group event_id topic : string) (partition offset : Z)
    (kv : (string * string) * InboxRow) : bool :=
  bool_decide (kv.1.1 = consumer_group) && negb (bool_decide (kv.1.2 = event_id))
  && bool_decide (ib_topic kv.2 = topic) && bool_decide (ib_partition kv.2 = partition)
  && bool_decide (ib_offset kv.2 = offset).

Definition mark_event_inbox_processed (consumer_group : string) (event : CommonEvent)
    (topic : string) (partition offset : Z) : D unit :=
  statement "failed to mark Kafka inbox event processed" (λ now d,
    if existsb (source_taken consumer_group (ev_event_id event) topic partition offset)
         (hm_iter (db_inbox d))
    then None
    else Some (tt, d <| db_inbox ::= <[(consumer_group, ev_event_id event) :=
           {| ib_topic := topic; ib_partition := partition; ib_offset := offset;
              ib_payload_json := event_to_value event; ib_processed_at := now |}]> |>)).

(** ** Snapshots *)
Definition load_snapshot : D (option PersistedStore) :=
  try! row := statement "failed to load metadata snapshot" (λ _ d,
                Some (db_snapshots d !! "main"%string, d)) in
  match row with
  | None => ret (Ok None)
  | Some value =>
    match store_from_value value with
    | Ok store => ret (Ok (Some store))
    | Err _ => ret (Err "failed to deserialize metadata snapshot"%string)
    end
  end.

(** One event of the snapshot: a row of its own unless it has one. *)
Definition enqueue_event (kafka : KafkaConfig) (now : time) (event : CommonEvent) (d : Db)
  : Db :=
  match db_outbox d !! ev_event_id event with
  | Some _ => d
  | None =>
    put_outbox (ev_event_id event)
      (queued_row now (ev_event_type event) (topic_for_event kafka (ev_event_type event))
         (partition_key event) (event_to_value event)) d
  end.
Fixpoint enqueue_events (kafka : KafkaConfig) (now : time) (events : list CommonEvent)
  : D unit :=
  match events with
  | [] => ret (Ok tt)
  | event :: events =>
    try! _ := run_statement now ("failed to enqueue outbox event " +:+ ev_event_id event)
                (λ d, Some (tt, enqueue_event kafka now event d)) in
    enqueue_events kafka now events
  end.

Definition persist_body (kafka : KafkaConfig) (store : PersistedStore) (now : time)
  : D (tx_end unit) :=
  try! state_json := pure_result (store_to_value store) in
  try! _ := run_statement now "failed to persist metadata snapshot transactionally" (λ d,
    Some (tt, d <| db_snapshots ::= <["main"%string := state_json]> |>)) in
  try! _ := enqueue_events kafka now (ps_events store) in
  ret (Ok (TxCommit tt)).
Definition persist_snapshot_and_outbox (kafka : KafkaConfig) (store : PersistedStore) : D unit :=
  transaction "failed to begin metadata snapshot/outbox transaction"
    "failed to commit metadata snapshot/outbox transaction" (persist_body kafka store).
End statements.

Arguments TxCommit {A} a.
Arguments TxRollback {A} context a.
