(* ===== verification/Relational.v ===== *)
(** * The relational copy of a snapshot (src/db.rs)

    [persist_relational] and the upserts it calls.  Each statement is one step
    of the server, which refuses a row that violates a constraint; the first
    error ends the copy, with the earlier statements carried out. *)
From S2P Require Import Prelude Text Json Errors Env Config Models Records EventBus Codec.
From S2P Require Import Tables Database.

(** ** Values read from the JSON records *)
Definition value_str (value : Value) (key : string) : option string :=
  opt_filter (λ s, negb (bool_decide (s = ""%string))) (trim <$> get_str value key).

Section relational.
Context `{Env} `{Serde} `{Postgres}.

Definition value_time (value : Value) (key : string) : option time :=
  value_str value key ≫= parse_rfc3339.

Definition channel_status_for_id (store : PersistedStore) (channel_id : string) : string :=
  unwrap_or (ps_channels store !! channel_id ≫= λ channel, value_str channel "status")
    "disconnected".

Definition channel_connected_at_for_id (store : PersistedStore) (channel_id : string)
  : option time :=
  ps_channels store !! channel_id ≫= λ channel, value_time channel "connected_at".

Definition channel_for_project_company (store : PersistedStore) (project_id company_id : string)
  : string :=
  unwrap_or
    (opt_or
       (find_map (λ kv : string * Value,
          bool_then (bool_decide (get_str kv.2 "project_id" = Some project_id)
                     && bool_decide (get_str kv.2 "company_id" = Some company_id)) kv.1)
          (hm_iter (ps_channels store)))
       (conv_channel_account_id <$>
          find (λ c, conversation_matches_tenant c project_id company_id)
            (hm_values (ps_conversations store))))
    "channel_dev".

Definition group_context (store : PersistedStore) (group_id : string)
  : string * string * string :=
  unwrap_or
    ((λ c, (conv_project_id c, conv_company_id c, conv_channel_account_id c)) <$>
       find (λ c, bool_decide (conv_group_id c = Some group_id))
         (hm_values (ps_conversations store)))
    ("default", "default", "channel_dev")%string.

(** ** Statements on the tables *)
(** [f now tables]: the tables after the statement, [None] when a constraint
    refuses it. *)
Definition table_statement (context : string) (f : time → Tables → option Tables) : D unit :=
  statement context (λ now d,
    (λ t, (tt, d <| db_relational := t |>)) <$> f now (db_relational d)).
(** Without a context: the error is the server's. *)
Definition plain_statement (f : time → Tables → option Tables) : D unit := λ d,
  table_statement (pg_error (db_calls d)) f d.

(** [row], if its references hold. *)
Definition checked {A} (ok : bool) (a : A) : option A := bool_then ok a.

(** ** Projects, companies, channels *)
Definition project_row (name status : string) (now : time) : ProjectRow :=
  mkProjectRow name status now.
Definition upsert_project (id name status : string) : D unit :=
  plain_statement (λ now t,
    Some (t <| tb_projects ::= <[id := project_row name status now]> |>)).

Definition upsert_company (project_id company_id name status : string) : D unit :=
  plain_statement (λ now t,
    let row := mkCompanyRow project_id name status now in
    checked (company_refs t row) (t <| tb_companies ::= <[company_id := row]> |>)).

Definition channel_row (project_id company_id provider : string)
    (phone_e164 label : option string) (status : string) (connected_at : option time)
    (now : time) (old : option ChannelRow) : ChannelRow :=
  let connected_at := timestamptz <$> connected_at in
  match old with
  | None => mkChannelRow project_id company_id provider phone_e164 label status connected_at now
  | Some old =>
    mkChannelRow project_id company_id provider
      (opt_or phone_e164 (cr_phone_e164 old)) (opt_or label (cr_label old)) status
      (if decide (status = "connected"%string) then opt_or connected_at (cr_connected_at old)
       else None) now
  end.
Definition upsert_channel (id project_id company_id provider : string)
    (phone_e164 label : option string) (status : string) (connected_at : option time)
  : D unit :=
  plain_statement (λ now t,
    let row := channel_row project_id company_id provider phone_e164 label status connected_at
                 now (tb_channels t !! id) in
    checked (channel_refs t row) (t <| tb_channels ::= <[id := row]> |>)).

(** ** Contacts and groups *)
Definition contact_row (contact : ContactRecord) (channel_id : string) (now : time)
    (old : option ContactRow) : ContactRow :=
  let wa_jid := opt_or (ct_canonical_jid contact) (ct_lid contact) in
  let last_contact_at := Some (timestamptz (ct_last_contact_at contact)) in
  match old with
  | None => {|
      cx_project_id := ct_project_id contact;
      cx_company_id := ct_company_id contact;
      cx_channel_account_id := channel_id;
      cx_wa_jid := wa_jid;
      cx_phone_e164 := ct_phone_e164 contact;
      cx_lid := ct_lid contact;
      cx_push_name := ct_push_name contact;
      cx_display_name := Some (ct_display_name contact);
      cx_profile_picture_media_id := ct_profile_picture_media_id contact;
      cx_business_description := ct_business_description contact;
      cx_avatar_url := ct_avatar_url contact;
      cx_profile_picture_url := ct_profile_picture_url contact;
      cx_first_contact_at := Some (timestamptz (ct_first_contact_at contact));
      cx_last_contact_at := last_contact_at;
      cx_updated_at := now |}
  | Some old =>
    old <| cx_channel_account_id := channel_id |>
        <| cx_wa_jid ::= opt_or wa_jid |>
        <| cx_lid ::= opt_or (ct_lid contact) |>
        <| cx_phone_e164 ::= opt_or (ct_phone_e164 contact) |>
        <| cx_push_name ::= opt_or (ct_push_name contact) |>
        <| cx_display_name := Some (ct_display_name contact) |>
        <| cx_profile_picture_media_id ::= opt_or (ct_profile_picture_media_id contact) |>
        <| cx_business_description ::= opt_or (ct_business_description contact) |>
        <| cx_avatar_url ::= opt_or (ct_avatar_url contact) |>
        <| cx_profile_picture_url ::= opt_or (ct_profile_picture_url contact) |>
        <| cx_last_contact_at := last_contact_at |>
        <| cx_updated_at := now |>
  end.
Definition upsert_contact (contact : ContactRecord) (channel_id : string) : D unit :=
  let channel_id := unwrap_or (ct_channel_account_id contact) channel_id in
  plain_statement (λ now t,
    let row := contact_row contact channel_id now (tb_contacts t !! ct_id contact) in
    checked (contact_refs t row) (t <| tb_contacts ::= <[ct_id contact := row]> |>)).

Definition minimal_contact_row (project_id company_id channel_id contact_id : string)
    (display_name phone_e164 : option string) (now : time) (old : option ContactRow)
  : ContactRow :=
  let name := Some (unwrap_or display_name contact_id) in
  match old with
  | None => {|
      cx_project_id := project_id;
      cx_company_id := company_id;
      cx_channel_account_id := channel_id;
      cx_wa_jid := Some contact_id;
      cx_phone_e164 := phone_e164;
      cx_lid := None;
      cx_push_name := None;
      cx_display_name := name;
      cx_profile_picture_media_id := None;
      cx_business_description := None;
      cx_avatar_url := None;
      cx_profile_picture_url := None;
      cx_first_contact_at := Some now;
      cx_last_contact_at := Some now;
      cx_updated_at := now |}
  | Some old =>
    old <| cx_display_name ::= opt_or name |>
        <| cx_phone_e164 ::= opt_or phone_e164 |>
        <| cx_last_contact_at := Some now |>
        <| cx_updated_at := now |>
  end.
Definition upsert_minimal_contact (project_id company_id channel_id contact_id : string)
    (display_name phone_e164 : option string) : D unit :=
  plain_statement (λ now t,
    let row := minimal_contact_row project_id company_id channel_id contact_id display_name
                 phone_e164 now (tb_contacts t !! contact_id) in
    checked (contact_refs t row) (t <| tb_contacts ::= <[contact_id := row]> |>)).

(** [i32::try_from(value).ok()], of a [usize] *)
Definition count_column (value : option Z) : option Z :=
  opt_filter (λ n, bool_decide (n < 2 ^ 31)) value.
Definition group_row (group_id : string) (group : GroupRecord)
    (project_id company_id channel_id : string) (now : time) (old : option GroupRow)
  : GroupRow :=
  let created_at_wa := timestamptz <$> gr_created_at_wa group in
  let wa_jid := unwrap_or (gr_wa_jid group) group_id in
  match old with
  | None => {|
      grw_project_id := project_id;
      grw_company_id := company_id;
      grw_channel_account_id := channel_id;
      grw_wa_jid := wa_jid;
      grw_subject := gr_subject group;
      grw_description := gr_description group;
      grw_owner_jid := gr_owner_jid group;
      grw_subject_owner_jid := gr_subject_owner_jid group;
      grw_created_at_wa := created_at_wa;
      grw_profile_picture_media_id := gr_profile_picture_media_id group;
      grw_avatar_url := gr_avatar_url group;
      grw_profile_picture_url := gr_profile_picture_url group;
      grw_members_count := count_column (gr_members_count group);
      grw_admins_count := count_column (gr_admins_count group);
      grw_updated_at := now |}
  | Some old =>
    old <| grw_channel_account_id := channel_id |>
        <| grw_wa_jid := wa_jid |>
        <| grw_subject ::= opt_or (gr_subject group) |>
        <| grw_description ::= opt_or (gr_description group) |>
        <| grw_owner_jid ::= opt_or (gr_owner_jid group) |>
        <| grw_subject_owner_jid ::= opt_or (gr_subject_owner_jid group) |>
        <| grw_created_at_wa ::= opt_or created_at_wa |>
        <| grw_profile_picture_media_id ::= opt_or (gr_profile_picture_media_id group) |>
        <| grw_avatar_url ::= opt_or (gr_avatar_url group) |>
        <| grw_profile_picture_url ::= opt_or (gr_profile_picture_url group) |>
        <| grw_members_count ::= opt_or (count_column (gr_members_count group)) |>
        <| grw_admins_count ::= opt_or (count_column (gr_admins_count group)) |>
        <| grw_updated_at := now |>
  end.
Definition upsert_group (group_id : string) (group : GroupRecord)
    (project_id company_id channel_id : string) : D unit :=
  plain_statement (λ now t,
    let row := group_row group_id group project_id company_id channel_id now
                 (tb_groups t !! group_id) in
    checked (group_refs t row) (t <| tb_groups ::= <[group_id := row]> |>)).

Definition old_column {A B} (f : A → option B) (old : option A) : option B :=
  match old with Some row => f row | None => None end.
Definition member_row (member : GroupMemberRecord) (old : option MemberRow) : MemberRow :=
  let wa_jid := Some (unwrap_or (gm_wa_jid member) (gm_contact_id member)) in
  let name := Some (gm_display_name member) in
  let joined_at := Some (timestamptz (gm_joined_at member)) in
  {| mr_wa_jid := opt_or wa_jid (old_column mr_wa_jid old);
     mr_phone_e164 := opt_or (gm_phone_e164 member) (old_column mr_phone_e164 old);
     mr_name := opt_or name (old_column mr_name old);
     mr_role := gm_role member;
     mr_is_admin := gm_is_admin member;
     mr_joined_at := opt_or (old_column mr_joined_at old) joined_at;
     mr_updated_at := timestamptz (gm_updated_at member) |}.
Definition upsert_group_member (member : GroupMemberRecord) : D unit :=
  let key := (gm_group_id member, gm_contact_id member) in
  table_statement ("failed to persist group member " +:+ gm_group_id member +:+ "/"
                   +:+ gm_contact_id member) (λ _ t,
    checked (member_refs t key)
      (t <| tb_members ::= <[key := member_row member (tb_members t !! key)]> |>)).

(** ** Conversations, messages, media, transcripts *)
Definition conversation_row (c : Conversation) (old : option ConversationRow)
  : ConversationRow := {|
  vr_project_id := conv_project_id c;
  vr_company_id := conv_company_id c;
  vr_channel_account_id := conv_channel_account_id c;
  vr_type := conv_conversation_type c;
  vr_contact_id := conv_contact_id c;
  vr_group_id := conv_group_id c;
  vr_display_name := conv_display_name c;
  vr_display_phone := conv_display_phone c;
  vr_avatar_url := conv_avatar_url c;
  vr_profile_picture_url := conv_profile_picture_url c;
  vr_last_seq := conv_last_seq c;
  vr_last_message_at := timestamptz <$> conv_last_message_at c;
  vr_unread_count := conv_unread_count c;
  vr_is_archived := conv_is_archived c;
  vr_is_muted := conv_is_muted c;
  vr_is_pinned := conv_is_pinned c;
  vr_control_mode := conv_control_mode c;
  vr_created_at := match old with
                   | Some old => vr_created_at old
                   | None => timestamptz (conv_created_at c)
                   end;
  vr_updated_at := timestamptz (conv_updated_at c) |}.
Definition persist_conversation (c : Conversation) : D unit :=
  table_statement ("failed to persist conversation " +:+ conv_id c) (λ _ t,
    let row := conversation_row c (tb_conversations t !! conv_id c) in
    checked (conversation_refs t row) (t <| tb_conversations ::= <[conv_id c := row]> |>)).

(** The tenant, the conversation, the channel, the direction, the type and the
    creation of a stored message are not updated. *)
Definition message_row (m : Message) (old : option Message) : Message :=
  let row := m <| msg_created_at_wa ::= timestamptz |> <| msg_created_at ::= timestamptz |>
               <| msg_updated_at ::= timestamptz |> in
  match old with
  | None => row
  | Some old =>
    row <| msg_project_id := msg_project_id old |>
        <| msg_company_id := msg_company_id old |>
        <| msg_conversation_id := msg_conversation_id old |>
        <| msg_channel_account_id := msg_channel_account_id old |>
        <| msg_direction := msg_direction old |>
        <| msg_message_type := msg_message_type old |>
        <| msg_created_at_wa := msg_created_at_wa old |>
        <| msg_created_at := msg_created_at old |>
  end.
Definition persist_message (m : Message) : D unit :=
  table_statement ("failed to persist message " +:+ msg_id m) (λ _ t,
    let row := message_row m (tb_messages t !! msg_id m) in
    checked (message_refs t row && message_unique t row)
      (t <| tb_messages ::= <[msg_id m := row]> |>)).

Definition media_row (m : MediaObject) (old : option MediaObject) : MediaObject :=
  let row := m <| media_size_bytes ::= Z.min i64_max |>
               <| media_width := None |> <| media_height := None |>
               <| media_duration_seconds := None |>
               <| media_expires_at ::= option_map timestamptz |>
               <| media_saved_at ::= option_map timestamptz |>
               <| media_created_at ::= timestamptz |>
               <| media_updated_at ::= timestamptz |> in
  match old with
  | None => row
  | Some old =>
    row <| media_project_id := media_project_id old |>
        <| media_company_id := media_company_id old |>
        <| media_created_at := media_created_at old |>
  end.
Definition persist_media_object (m : MediaObject) : D unit :=
  table_statement ("failed to persist media " +:+ media_id m) (λ _ t,
    let row := media_row m (tb_media t !! media_id m) in
    checked (media_refs t row) (t <| tb_media ::= <[media_id m := row]> |>)).

Definition transcript_row (r : Transcript) (old : option Transcript) : Transcript :=
  let row := r <| tr_created_at ::= timestamptz |> <| tr_updated_at ::= timestamptz |> in
  match old with
  | None => row
  | Some old =>
    old <| tr_media_id := tr_media_id r |> <| tr_text := tr_text r |>
        <| tr_raw_response_json := tr_raw_response_json r |> <| tr_status := tr_status r |>
        <| tr_error_message := tr_error_message r |> <| tr_updated_at := tr_updated_at row |>
  end.
Definition persist_transcript (r : Transcript) : D unit :=
  table_statement ("failed to persist transcript " +:+ tr_id r) (λ _ t,
    let row := transcript_row r (tb_transcripts t !! tr_id r) in
    checked (transcript_refs t row) (t <| tb_transcripts ::= <[tr_id r := row]> |>)).

(** ** Polling *)
Definition persist_dirty_record (project_id company_id : string) (dirty : DirtyRecord)
  : D unit :=
  let id := dirty_conversation_id dirty in
  table_statement ("failed to persist dirty conversation " +:+ id) (λ now t,
    checked (tenant_conversation_refs t project_id company_id id)
      (t <| tb_dirty ::= <[(project_id, company_id, id) :=
        mkDirtyRow (dirty_max_seq dirty) (dirty_reason dirty) (dirty_priority dirty)
          (timestamptz (dirty_available_at dirty)) (timestamptz <$> dirty_locked_until dirty)
          (dirty_lease_token dirty) now]> |>)).

Definition persist_dirty_lease (project_id company_id consumer_id conversation_id : string)
    (lease : DirtyLeaseRecord) : D unit :=
  table_statement ("failed to persist dirty lease " +:+ consumer_id +:+ "/"
                   +:+ conversation_id) (λ now t,
    checked (tenant_conversation_refs t project_id company_id conversation_id)
      (t <| tb_leases ::= <[(project_id, company_id, consumer_id, conversation_id) :=
        mkLeaseRow (lease_lease_token lease) (timestamptz (lease_locked_until lease))
          (lease_max_seq lease) now]> |>)).

Definition persist_consumer_position (key : key4) (last_processed_seq : Z) : D unit :=
  let '(project_id, company_id, consumer_id, conversation_id) := key in
  table_statement ("failed to persist consumer state " +:+ consumer_id) (λ now t,
    checked (tenant_conversation_refs t project_id company_id conversation_id)
      (t <| tb_consumers ::= <[key := mkConsumerRow last_processed_seq now now]> |>)).

Definition persist_idempotency_key (expires_at : time) (key : key3)
    (record : IdempotencyRecord) : D unit :=
  let '(project_id, company_id, k) := key in
  table_statement ("failed to persist idempotency key " +:+ k) (λ now t,
    checked (tenant_refs t project_id company_id)
      (t <| tb_idempotency ::= <[key :=
        mkIdempotencyRow (idem_request_hash record)
          (json! { "message_id" ~> idem_message_id record }) (idem_message_id record)
          "completed" (timestamptz expires_at) now]> |>)).

(** ** Webhooks *)
Definition callback_events (callback : Value) : list string :=
  match get callback "events" ≫= as_array with
  | Some items => omap as_str items
  | None => ["conversation.dirty"%string]
  end.
Definition callback_row (callback : Value) (project_id company_id : string) (now : time)
    (old : option CallbackRow) : CallbackRow :=
  {| kr_project_id := match old with Some old => kr_project_id old | None => project_id end;
     kr_company_id := match old with Some old => kr_company_id old | None => company_id end;
     kr_url := unwrap_or (value_str callback "url") "http://localhost/webhook"%string;
     kr_encrypted_secret := value_str callback "encrypted_secret";
     kr_enabled := unwrap_or (as_bool (index callback "enabled")) true;
     kr_events := callback_events callback;
     kr_max_batch_size :=
       wrap_i32 (unwrap_or (as_i64 (index callback "max_batch_size")) 100);
     kr_timeout_seconds :=
       wrap_i32 (unwrap_or (as_i64 (index callback "timeout_seconds")) 10);
     kr_updated_at := now |}.
Definition persist_callback (callback : Value) : D unit :=
  let id := unwrap_or (value_str callback "id") "callback_unknown"%string in
  let project_id := unwrap_or (value_str callback "project_id") "default"%string in
  let company_id := unwrap_or (value_str callback "company_id") "default"%string in
  try! _ := upsert_project project_id project_id "active" in
  try! _ := upsert_company project_id company_id company_id "active" in
  table_statement ("failed to persist consumer callback " +:+ id) (λ now t,
    let row := callback_row callback project_id company_id now (tb_callbacks t !! id) in
    checked (callback_refs t row) (t <| tb_callbacks ::= <[id := row]> |>)).

(** [$1::uuid] refuses an identifier that is not a UUID; a stored attempt is
    left alone. *)
Definition attempt_row (attempt : WebhookDeliveryAttempt) : AttemptRow := {|
  ar_callback_id := att_callback_id attempt;
  ar_event_id := att_event_id attempt;
  ar_attempt := Z.min (att_attempt attempt) (2 ^ 31 - 1);
  ar_status := att_status attempt;
  ar_http_status := att_http_status attempt;
  ar_error_message := att_error_message attempt;
  ar_first_failed_at := timestamptz <$> att_first_failed_at attempt;
  ar_last_failed_at := timestamptz <$> att_last_failed_at attempt;
  ar_next_retry_at := timestamptz <$> att_next_retry_at attempt;
  ar_created_at := timestamptz (att_created_at attempt) |}.
Definition persist_webhook_delivery_attempt (attempt : WebhookDeliveryAttempt) : D unit :=
  table_statement ("failed to persist webhook attempt " +:+ att_callback_id attempt +:+ "/"
                   +:+ att_event_id attempt) (λ _ t,
    match parse_uuid (att_id attempt) with
    | None => None
    | Some id =>
      match tb_attempts t !! id with
      | Some _ => Some t
      | None =>
        checked (refers (tb_callbacks t) (att_callback_id attempt))
          (t <| tb_attempts ::= <[id := attempt_row attempt]> |>)
      end
    end).

(** ** The copy *)
Section copy.
Context (store : PersistedStore).

Abbreviation conversations := (hm_values (ps_conversations store)).
Abbreviation messages := (hm_values (ps_messages_by_id store)).

Definition project_stub (id : string) : D unit := upsert_project id id "active".
Definition company_stub (project_id company_id : string) : D unit :=
  upsert_company project_id company_id company_id "active".
(** The channel of a record, for a channel that has no record of its own. *)
Definition channel_stub (channel_id project_id company_id : string) : D unit :=
  upsert_channel channel_id project_id company_id "whatsapp-rust" None
    (Some "WhatsApp"%string) (channel_status_for_id store channel_id)
    (channel_connected_at_for_id store channel_id).

Definition persist_projects : D unit :=
  try! _ := try_each (λ kv : string * Value,
    upsert_project kv.1 (unwrap_or (value_str kv.2 "name") kv.1)
      (unwrap_or (value_str kv.2 "status") "active")) (hm_iter (ps_projects store)) in
  try! _ := try_each (λ e : key2 * Value, project_stub e.1.1) (ps_companies store) in
  try! _ := try_each (λ value, match value_str value "project_id" with
                               | Some project_id => project_stub project_id
                               | None => ret (Ok tt)
                               end) (hm_values (ps_channels store)) in
  try! _ := try_each (λ c, project_stub (conv_project_id c)) conversations in
  try! _ := try_each (λ m, project_stub (msg_project_id m)) messages in
  try! _ := try_each (λ m, project_stub (media_project_id m)) (hm_values (ps_media store)) in
  try! _ := try_each (λ r, project_stub (tr_project_id r)) (hm_values (ps_transcripts store)) in
  try! _ := try_each (λ e : key3 * DirtyRecord, project_stub e.1.1.1) (ps_dirty store) in
  try! _ := try_each (λ e : key4 * Z, project_stub e.1.1.1.1) (ps_consumer_state store) in
  try_each (λ e : key3 * IdempotencyRecord, project_stub e.1.1.1) (ps_idempotency store).

Definition persist_companies : D unit :=
  try! _ := try_each (λ e : key2 * Value,
    upsert_company e.1.1 e.1.2 (unwrap_or (value_str e.2 "name") e.1.2)
      (unwrap_or (value_str e.2 "status") "active")) (ps_companies store) in
  try! _ := try_each (λ value,
    match value_str value "project_id", value_str value "company_id" with
    | Some project_id, Some company_id => company_stub project_id company_id
    | _, _ => ret (Ok tt)
    end) (hm_values (ps_channels store)) in
  try! _ := try_each (λ c, company_stub (conv_project_id c) (conv_company_id c))
              conversations in
  try! _ := try_each (λ m, company_stub (msg_project_id m) (msg_company_id m)) messages in
  try! _ := try_each (λ e : key3 * DirtyRecord, company_stub e.1.1.1 e.1.1.2)
              (ps_dirty store) in
  try! _ := try_each (λ e : key4 * Z, company_stub e.1.1.1.1 e.1.1.1.2)
              (ps_consumer_state store) in
  try_each (λ e : key3 * IdempotencyRecord, company_stub e.1.1.1 e.1.1.2)
    (ps_idempotency store).

Definition persist_channel (id : string) (value : Value) : D unit :=
  let project_id := unwrap_or (value_str value "project_id") "default"%string in
  let company_id := unwrap_or (value_str value "company_id") "default"%string in
  let provider := unwrap_or (value_str value "provider") "whatsapp-rust"%string in
  let status := unwrap_or (value_str value "status") "disconnected"%string in
  try! _ := project_stub project_id in
  try! _ := company_stub project_id company_id in
  upsert_channel id project_id company_id provider (value_str value "phone_e164")
    (value_str value "label") status (value_time value "connected_at").
Definition persist_channels : D unit :=
  try! _ := try_each (λ kv, persist_channel kv.1 kv.2) (hm_iter (ps_channels store)) in
  try! _ := try_each (λ c, channel_stub (conv_channel_account_id c) (conv_project_id c)
                             (conv_company_id c)) conversations in
  try_each (λ m, channel_stub (msg_channel_account_id m) (msg_project_id m)
                   (msg_company_id m)) messages.

Definition persist_contact (contact : ContactRecord) : D unit :=
  let channel_id := channel_for_project_company store (ct_project_id contact)
                      (ct_company_id contact) in
  try! _ := channel_stub channel_id (ct_project_id contact) (ct_company_id contact) in
  upsert_contact contact channel_id.
Definition persist_contacts : D unit :=
  try! _ := try_each persist_contact (hm_values (ps_contacts store)) in
  try! _ := try_each (λ c,
    match conv_contact_id c with
    | Some contact_id =>
      upsert_minimal_contact (conv_project_id c) (conv_company_id c)
        (conv_channel_account_id c) contact_id (conv_display_name c) (conv_display_phone c)
    | None => ret (Ok tt)
    end) conversations in
  try_each (λ m,
    match msg_sender_contact_id m with
    | Some contact_id =>
      upsert_minimal_contact (msg_project_id m) (msg_company_id m)
        (msg_channel_account_id m) contact_id (msg_sender_display_name m) None
    | None => ret (Ok tt)
    end) messages.

(** The group of a conversation, and of members without a record. *)
Definition bare_group (group_id : string) (subject avatar_url profile_picture_url : option string)
  : GroupRecord :=
  mkGroupRecord (Some group_id) subject None None None None avatar_url profile_picture_url
    None None None.
Definition persist_group (group_id : string) (group : GroupRecord) : D unit :=
  let '(project_id, company_id, channel_id) := group_context store group_id in
  upsert_group group_id group project_id company_id channel_id.
Definition persist_groups : D unit :=
  try! _ := try_each (λ kv, persist_group kv.1 kv.2) (hm_iter (ps_groups store)) in
  try_each (λ c,
    match conv_group_id c with
    | Some group_id =>
      upsert_group group_id
        (bare_group group_id (conv_display_name c) (conv_avatar_url c)
           (conv_profile_picture_url c))
        (conv_project_id c) (conv_company_id c) (conv_channel_account_id c)
    | None => ret (Ok tt)
    end) conversations.

Definition persist_member (project_id company_id channel_id : string)
    (member : GroupMemberRecord) : D unit :=
  try! _ := upsert_minimal_contact project_id company_id channel_id (gm_contact_id member)
              (Some (gm_display_name member)) (gm_phone_e164 member) in
  upsert_group_member member.
Definition persist_members (group_id : string) (members : gmap string GroupMemberRecord)
  : D unit :=
  let '(project_id, company_id, channel_id) := group_context store group_id in
  let group := unwrap_or (ps_groups store !! group_id)
                 (bare_group group_id (Some group_id) None None) in
  try! _ := upsert_group group_id group project_id company_id channel_id in
  try_each (persist_member project_id company_id channel_id) (hm_values members).
Definition persist_group_members : D unit :=
  try_each (λ kv, persist_members kv.1 kv.2) (hm_iter (ps_group_members store)).

Definition persist_conversations : D unit := try_each persist_conversation conversations.
Definition persist_messages : D unit := try_each persist_message messages.
Definition persist_media : D unit :=
  try_each persist_media_object (hm_values (ps_media store)).
Definition persist_transcripts : D unit :=
  try_each persist_transcript (hm_values (ps_transcripts store)).
Definition persist_dirty : D unit :=
  try_each (λ e : key3 * DirtyRecord, persist_dirty_record e.1.1.1 e.1.1.2 e.2)
    (ps_dirty store).
Definition persist_dirty_leases : D unit :=
  try_each (λ e : key4 * DirtyLeaseRecord,
    persist_dirty_lease e.1.1.1.1 e.1.1.1.2 e.1.1.2 e.1.2 e.2) (ps_dirty_leases store).
Definition persist_consumer_state : D unit :=
  try_each (λ e : key4 * Z, persist_consumer_position e.1 e.2) (ps_consumer_state store).
(** [now]: the time of the program, at the call. *)
Definition persist_idempotency (now : time) : D unit :=
  try_each (λ e : key3 * IdempotencyRecord,
    persist_idempotency_key (now + hours 72) e.1 e.2) (ps_idempotency store).
Definition persist_callbacks : D unit :=
  try_each persist_callback (hm_values (ps_callbacks store)).
Definition persist_webhook_delivery_attempts : D unit :=
  try_each persist_webhook_delivery_attempt (ps_webhook_delivery_attempts store).

Definition persist_relational (now : time) : D unit :=
  try! _ := persist_projects in
  try! _ := persist_companies in
  try! _ := persist_channels in
  try! _ := persist_contacts in
  try! _ := persist_groups in
  try! _ := persist_group_members in
  try! _ := persist_conversations in
  try! _ := persist_messages in
  try! _ := persist_media in
  try! _ := persist_transcripts in
  try! _ := persist_dirty in
  try! _ := persist_dirty_leases in
  try! _ := persist_consumer_state in
  try! _ := persist_idempotency now in
  try! _ := persist_callbacks in
  persist_webhook_delivery_attempts.

Definition persist_store (kafka : KafkaConfig) (now : time) : D unit :=
  try! _ := persist_snapshot_and_outbox kafka store in
  persist_relational now.
End copy.
End relational.
