(* ===== verification/DatabaseSpec.v ===== *)
(** * What the metadata database promises

    A statement takes effect once or not at all, a transaction entirely or not
    at all, whatever the connection does.  A lease on an outbox row excludes
    other claims; a snapshot is stored together with a row for each of its
    events; a dead letter is replayed once. *)
From S2P Require Import Prelude Text Json Env Config Models Jid Records EventBus Codec Tables.
From S2P Require Import Database Relational.

Section database_spec.
Context `{Env} `{Serde} `{Postgres}.

(** The contents, without the counter of round trips. *)
Definition contents (d : Db) :=
  (db_tables d, db_snapshots d, db_outbox d, db_inbox d, db_deadletters d).
Definition tick (d : Db) : Db := d <| db_calls ::= S |>.

(** ** Statements and transactions *)
Lemma run_statement_cases {A} now ctx (f : Db → option (A * Db)) d :
  (∃ a d1, f (tick d) = Some (a, d1) ∧ state_of (run_statement now ctx f) d = d1
     ∧ (value_of (run_statement now ctx f) d = Ok a
        ∨ value_of (run_statement now ctx f) d = Err ctx))
  ∨ (state_of (run_statement now ctx f) d = tick d
     ∧ value_of (run_statement now ctx f) d = Err ctx).
Proof.
  unfold state_of, value_of, run_statement, tick.
  destruct (pg_call (db_calls d)), (f _) as [[a d1]|]; simpl; eauto 8.
Qed.

Lemma statement_cases {A} ctx (f : time → Db → option (A * Db)) d :
  let now := pg_now (db_calls d) in
  (∃ a d1, f now (tick d) = Some (a, d1) ∧ state_of (statement ctx f) d = d1
     ∧ (value_of (statement ctx f) d = Ok a ∨ value_of (statement ctx f) d = Err ctx))
  ∨ (state_of (statement ctx f) d = tick d ∧ value_of (statement ctx f) d = Err ctx).
Proof. apply run_statement_cases. Qed.

Lemma statement_ok {A} ctx (f : time → Db → option (A * Db)) d a :
  value_of (statement ctx f) d = Ok a →
  f (pg_now (db_calls d)) (tick d) = Some (a, state_of (statement ctx f) d).
Proof.
  intros Hv. destruct (statement_cases ctx f d) as [(a' & d1 & Hf & -> & [Ha|Ha])|[_ Ha]];
    rewrite Hv in Ha; by simplify_eq.
Qed.

(** A statement that only reads leaves the contents. *)
Lemma statement_reads {A} ctx (f : time → Db → option (A * Db)) d :
  (∀ now d a d1, f now d = Some (a, d1) → d1 = d) →
  contents (state_of (statement ctx f) d) = contents d.
Proof.
  intros Hf. destruct (statement_cases ctx f d) as [(a & d1 & Ha & -> & _)|[-> _]]; [|done].
  by rewrite (Hf _ _ _ _ Ha).
Qed.

Lemma transaction_cases {A} bc cc (body : time → D (tx_end A)) d :
  let r := body (pg_now (db_calls d)) (tick d) in
  (∃ a, r.1 = Ok (TxCommit a) ∧ contents (state_of (transaction bc cc body) d) = contents r.2
     ∧ (value_of (transaction bc cc body) d = Ok a ∨ value_of (transaction bc cc body) d = Err cc))
  ∨ (contents (state_of (transaction bc cc body) d) = contents d
     ∧ ((∃ e, value_of (transaction bc cc body) d = Err e)
        ∨ ∃ c a, r.1 = Ok (TxRollback c a) ∧ value_of (transaction bc cc body) d = Ok a)).
Proof.
  unfold state_of, value_of, transaction. change (d <| db_calls ::= S |>) with (tick d).
  cbv zeta. destruct (pg_call (db_calls d)); [|right; simpl; eauto..].
  destruct (body _ _) as [[[a|c a]|e] d1]; simpl; [| |right; eauto].
  - destruct (pg_call (db_calls d1)); simpl; [left|right|left]; eauto 8.
  - right. destruct (pg_call (db_calls d1)); simpl; eauto 8.
Qed.

(** ** Snapshot and outbox, atomically *)
Definition event_row (kafka : KafkaConfig) (now : time) (event : CommonEvent) : OutboxRow :=
  queued_row now (ev_event_type event) (topic_for_event kafka (ev_event_type event))
    (partition_key event) (event_to_value event).

(** The row of an identifier after the events are enqueued: the one it had, or
    that of its first event. *)
Definition enqueued (kafka : KafkaConfig) (now : time) (events : list CommonEvent)
    (m : gmap string OutboxRow) (id : string) : option OutboxRow :=
  opt_or (m !! id)
    (event_row kafka now <$> find (λ e, bool_decide (ev_event_id e = id)) events).

Lemma enqueue_event_lookup kafka now event d id :
  db_outbox (enqueue_event kafka now event d) !! id
  = enqueued kafka now [event] (db_outbox d) id.
Proof.
  unfold enqueue_event, enqueued, event_row. simpl. case_bool_decide as Hid.
  - subst id. destruct (db_outbox d !! ev_event_id event) as [row|] eqn:E; simpl; [by rewrite E|].
    by rewrite lookup_insert_eq.
  - destruct (db_outbox d !! ev_event_id event); simpl.
    + by destruct (db_outbox d !! id).
    + rewrite lookup_insert_ne by done. by destruct (db_outbox d !! id).
Qed.

Lemma enqueue_events_ok kafka now events d d' :
  enqueue_events kafka now events d = (Ok tt, d') →
  (∀ id, db_outbox d' !! id = enqueued kafka now events (db_outbox d) id)
  ∧ (db_tables d', db_snapshots d', db_inbox d', db_deadletters d')
    = (db_tables d, db_snapshots d, db_inbox d, db_deadletters d).
Proof.
  revert d. induction events as [|event events IH]; intros d; simpl.
  - intros [= <-]. split; [|done]. intros id. unfold enqueued. simpl. by destruct (_ !! id).
  - unfold bindR. rewrite bind_run.
    set (f := λ d, Some (tt, enqueue_event kafka now event d)).
    set (ctx := "failed to enqueue outbox event " +:+ ev_event_id event).
    destruct (run_statement_cases now ctx f d) as [(a & d1 & Hf & -> & [-> | ->])|[_ ->]];
      [|intros [=]..].
    intros Hr. destruct (IH _ Hr) as [Ho Hc]. unfold f in Hf. injection Hf as <-.
    subst d1. split.
    + intros id. rewrite Ho. unfold enqueued at 1. rewrite enqueue_event_lookup.
      unfold enqueued. simpl. destruct (db_outbox d !! id); simpl; [done|].
      by case_bool_decide.
    + rewrite Hc. unfold enqueue_event. by destruct (_ !! _).
Qed.

Lemma persist_body_commit kafka store now d d' :
  persist_body kafka store now d = (Ok (TxCommit tt), d') →
  ∃ v, store_to_value store = Ok v
    ∧ db_snapshots d' = <["main"%string := v]> (db_snapshots d)
    ∧ (∀ id, db_outbox d' !! id = enqueued kafka now (ps_events store) (db_outbox d) id)
    ∧ (db_tables d', db_inbox d', db_deadletters d')
      = (db_tables d, db_inbox d, db_deadletters d).
Proof.
  unfold persist_body, pure_result. rewrite bindR_ret. destruct (store_to_value store) as [v|]; [|by intros [=]].
  set (ctx := "failed to persist metadata snapshot transactionally"%string).
  set (f := λ d : Db, Some (tt, d <| db_snapshots ::= <["main"%string := v]> |>)).
  unfold bindR. rewrite bind_run.
  destruct (run_statement_cases now ctx f d) as [(a & d1 & Hf & -> & [-> | ->])|[_ ->]];
    [|intros [=]..].
  injection Hf as _ Hd1. rewrite bind_run.
  destruct (enqueue_events kafka now (ps_events store) d1) as [[[]|e] d2] eqn:E;
    unfold value_of, state_of; rewrite E; intros [= <-].
  apply enqueue_events_ok in E as [Ho Hc]. subst d1. simpl in Ho. exists v.
  injection Hc as Ht Hsn Hi Hd. split_and!; [done|by rewrite Hsn|done|by rewrite Ht, Hi, Hd].
Qed.

(** Persisting a snapshot stores it together with a queued row for every event
    that had none, or changes nothing: rows that exist are never touched, and
    a success is only reported when all of it is stored. *)
Theorem persist_snapshot_atomic kafka store d :
  let d' := state_of (persist_snapshot_and_outbox kafka store) d in
  let r := value_of (persist_snapshot_and_outbox kafka store) d in
  (contents d' = contents d ∧ ∃ e, r = Err e)
  ∨ (∃ v, store_to_value store = Ok v
     ∧ db_snapshots d' = <["main"%string := v]> (db_snapshots d)
     ∧ (∀ id, db_outbox d' !! id
              = enqueued kafka (pg_now (db_calls d)) (ps_events store) (db_outbox d) id)
     ∧ (db_tables d', db_inbox d', db_deadletters d')
       = (db_tables d, db_inbox d, db_deadletters d)).
Proof.
  cbv zeta. unfold persist_snapshot_and_outbox.
  set (bc := "failed to begin metadata snapshot/outbox transaction"%string).
  set (cc := "failed to commit metadata snapshot/outbox transaction"%string).
  destruct (transaction_cases bc cc (persist_body kafka store) d)
    as [([] & Hr & Hc & _)|[Hc [He|(c & a & Hr & _)]]]; [|by left|].
  - right. destruct (persist_body _ _ _ _) as [r d2] eqn:E. simpl in Hr, Hc. subst r.
    apply persist_body_commit in E as (v & Hv & Hsn & Ho & Hrest).
    exists v. unfold contents in Hc. injection Hc as Ht Hs' Ho' Hi Hd.
    rewrite Hs', Ho', Ht, Hi, Hd. done.
  - exfalso. revert Hr. unfold persist_body, pure_result. rewrite bindR_ret.
    destruct (store_to_value store); [|done]. unfold bindR. rewrite bind_run.
    destruct (value_of (run_statement _ _ _) _) as [[]|]; [|done]. rewrite bind_run.
    by destruct (value_of (enqueue_events _ _ _) _) as [[]|].
Qed.

(** ** The relational copy leaves the other tables alone *)
Lemma frame_table_statement ctx f : frame contents (table_statement ctx f).
Proof.
  intros d. unfold table_statement.
  match goal with |- contents (state_of (statement ?c ?g) d) = _ =>
    destruct (statement_cases c g d) as [(a & d1 & Hf & -> & _)|[-> _]] end; [|done].
  by apply fmap_Some in Hf as (t & _ & [= _ ->]).
Qed.
Lemma frame_plain_statement f : frame contents (plain_statement f).
Proof. intros d. apply (frame_table_statement _ f d). Qed.
Hint Resolve frame_table_statement frame_plain_statement : frame.

Lemma frame_upsert_project id name st : frame contents (upsert_project id name st).
Proof. apply frame_plain_statement. Qed.
Lemma frame_upsert_company p c name st : frame contents (upsert_company p c name st).
Proof. apply frame_plain_statement. Qed.
Lemma frame_upsert_channel id p c pr ph l st t :
  frame contents (upsert_channel id p c pr ph l st t).
Proof. apply frame_plain_statement. Qed.
Lemma frame_upsert_minimal p c ch id n ph : frame contents (upsert_minimal_contact p c ch id n ph).
Proof. apply frame_plain_statement. Qed.
Lemma frame_upsert_group id g p c ch : frame contents (upsert_group id g p c ch).
Proof. apply frame_plain_statement. Qed.
Hint Resolve frame_upsert_project frame_upsert_company frame_upsert_channel
  frame_upsert_minimal frame_upsert_group : frame.

Lemma frame_persist_relational store now : frame contents (persist_relational store now).
Proof.
  unfold persist_relational, persist_projects, persist_companies, persist_channels,
    persist_contacts, persist_groups, persist_group_members, persist_conversations,
    persist_messages, persist_media, persist_transcripts, persist_dirty, persist_dirty_leases,
    persist_consumer_state, persist_idempotency, persist_callbacks,
    persist_webhook_delivery_attempts, persist_channel, persist_contact, persist_group,
    persist_members, persist_member, persist_callback, upsert_contact, upsert_group_member,
    persist_conversation, persist_message, persist_media_object, persist_transcript,
    persist_dirty_record, persist_dirty_lease, persist_consumer_position,
    persist_idempotency_key, persist_webhook_delivery_attempt, project_stub, company_stub,
    channel_stub.
  frame_tac.
Qed.

(** Loading reads the row of the snapshot, or fails. *)
Lemma load_reads d loaded :
  value_of load_snapshot d = Ok loaded →
  match db_snapshots d !! "main"%string with
  | None => loaded = None
  | Some v => ∃ store, store_from_value v = Ok store ∧ loaded = Some store
  end.
Proof.
  unfold load_snapshot, bindR. rewrite value_of_bind.
  match goal with |- context [value_of (statement ?c ?g) d] =>
    destruct (statement_cases c g d) as [(a & d1 & Hf & -> & [-> | ->])|[-> ->]] end; try done.
  injection Hf as <- <-. change (db_snapshots (tick d)) with (db_snapshots d).
  destruct (_ !! _) as [v|]; simpl; [|by intros [= <-]].
  destruct (store_from_value v) as [store|]; intros [= <-]. by exists store.
Qed.
Lemma load_leaves d : contents (state_of load_snapshot d) = contents d.
Proof.
  unfold load_snapshot, bindR. rewrite state_of_bind.
  match goal with |- context [statement ?c ?g] =>
    assert (Hc : contents (state_of (statement c g) d) = contents d)
      by (apply statement_reads; by intros ? ? ? ? [= _ <-]);
    destruct (value_of (statement c g) d) as [[v|]|] end; [|exact Hc..].
  destruct (store_from_value v); exact Hc.
Qed.

(** ** Leases *)
Lemma elem_of_next_events now limit d kv :
  kv ∈ next_events now limit d →
  db_outbox d !! kv.1 = Some kv.2 ∧ claimable now kv.2 = true.
Proof.
  unfold next_events. intros (i & Hi%list_elem_of_lookup_2 & _)%elem_of_take.
  apply elem_of_sort_by, elem_of_retain_list in Hi as [Hin Hc].
  destruct kv as [k row]. by apply elem_of_hm_iter in Hin.
Qed.

Lemma next_events_NoDup now limit d : NoDup (next_events now limit d).*1.
Proof.
  unfold next_events. rewrite fmap_take. eapply sublist_NoDup; [|apply sublist_take].
  rewrite sort_by_perm. eapply sublist_NoDup; [apply (hm_iter_NoDup (db_outbox d))|].
  apply fmap_sublist, sublist_filter.
Qed.
(** A claim that has room for every row takes all that can be claimed. *)
Lemma elem_of_next_events_all now limit d id row :
  (size (db_outbox d) ≤ Z.to_nat limit)%nat →
  db_outbox d !! id = Some row → claimable now row = true → (id, row) ∈ next_events now limit d.
Proof.
  intros Hsize Hrow Hc. unfold next_events. rewrite take_ge.
  - apply elem_of_sort_by, elem_of_retain_list. split; [|done]. by apply elem_of_hm_iter.
  - rewrite sort_by_perm. etrans; [|exact Hsize].
    rewrite <- length_map_to_list, <- (hm_iter_perm (db_outbox d)).
    apply length_filter.
Qed.

(** The rows a claim takes, as it leaves them. *)
Definition taken (now : time) (worker_id : string) (limit lock_seconds : Z) (d : Db)
  : gmap string OutboxRow :=
  lock_row now worker_id (Z.max lock_seconds 1) <$> list_to_map (next_events now limit d).

Lemma lookup_taken now w limit secs d id row' :
  taken now w limit secs d !! id = Some row' →
  ∃ row, db_outbox d !! id = Some row ∧ claimable now row = true
    ∧ row' = lock_row now w (Z.max secs 1) row.
Proof.
  unfold taken. intros (row & <- & Hl%elem_of_list_to_map_2)%lookup_fmap_Some.
  apply elem_of_next_events in Hl as [Hrow Hc]. eauto.
Qed.

Lemma claim_rows_outbox now w limit secs d id :
  db_outbox (claim_rows now w limit secs d).2 !! id
  = opt_or (taken now w limit secs d !! id) (db_outbox d !! id).
Proof.
  simpl. fold (taken now w limit secs d).
  destruct (taken now w limit secs d !! id) as [row|] eqn:E; simpl.
  - by apply lookup_union_Some_l.
  - by apply lookup_union_r.
Qed.

Lemma claim_rows_returned now w limit secs d r :
  r ∈ (claim_rows now w limit secs d).1 →
  ∃ row, taken now w limit secs d !! or_event_id r = Some row
    ∧ r = outbox_record (or_event_id r, row).
Proof.
  intros ([id row] & -> & Hin%elem_of_hm_iter)%list_elem_of_fmap. by exists row.
Qed.

(** What a client does to the tables while a lease of [id] that ends at [expiry]
    is held: other claims before it ends, outcomes of other rows, a published
    mark of any row, and everything that does not touch existing rows. *)
Inductive lease_step (id : string) (expiry : time) : Db → Db → Prop :=
| lease_claim w limit secs d :
    pg_now (db_calls d) ≤ expiry →
    lease_step id expiry d (state_of (claim_event_outbox_batch w limit secs) d)
| lease_published id' partition offset d :
    lease_step id expiry d (state_of (mark_event_outbox_published id' partition offset) d)
| lease_failed id' err secs d : id' ≠ id →
    lease_step id expiry d (state_of (mark_event_outbox_failed id' err secs) d)
| lease_deadlettered id' err d : id' ≠ id →
    lease_step id expiry d (state_of (mark_event_outbox_deadlettered id' err) d)
| lease_insert e topic key d :
    lease_step id expiry d (state_of (insert_event_outbox e topic key) d)
| lease_persist kafka store d :
    lease_step id expiry d (state_of (persist_snapshot_and_outbox kafka store) d)
| lease_other d d' : db_outbox d' = db_outbox d → lease_step id expiry d d'.

Definition leased (id : string) (expiry : time) (d : Db) : Prop :=
  ∃ row t, db_outbox d !! id = Some row ∧ ob_locked_until row = Some t ∧ expiry ≤ t.

Lemma leased_not_claimed id expiry w limit secs d now :
  leased id expiry d → now ≤ expiry → taken now w limit secs d !! id = None.
Proof.
  intros (row & t & Hrow & Hl & Ht) Hnow.
  destruct (taken _ _ _ _ _ !! id) as [row'|] eqn:E; [exfalso|done].
  apply lookup_taken in E as (row'' & Hrow'' & Hc & _). simplify_eq.
  unfold claimable, lock_free in Hc. rewrite Hl in Hc. simpl in Hc. split_bools. lia.
Qed.

Lemma leased_outbox id expiry d d' :
  db_outbox d' !! id = db_outbox d !! id → leased id expiry d → leased id expiry d'.
Proof. unfold leased. by intros ->. Qed.

Lemma update_outbox_lookup eid f d r d' id :
  update_outbox eid f d = Some (r, d') →
  db_outbox d' !! id = db_outbox d !! id
  ∨ (id = eid ∧ ∃ row, db_outbox d !! id = Some row
      ∧ db_outbox d' !! id = Some (f (row <| ob_attempt_count ::= Z.succ |>))).
Proof.
  unfold update_outbox. destruct (db_outbox d !! eid) as [row|] eqn:E; [|intros [= _ <-]; by left].
  case_decide; [done|]. intros [= _ <-]. unfold put_outbox. simpl.
  destruct (decide (id = eid)) as [->|Hne]; [right|left; by rewrite lookup_insert_ne].
  split; [done|]. exists row. by rewrite lookup_insert_eq.
Qed.

(** A marking statement: the row is rewritten or left. *)
Lemma mark_lookup ctx eid (f : time → OutboxRow → OutboxRow) d id :
  let d' := state_of (statement ctx (λ now, update_outbox eid (f now))) d in
  db_outbox d' !! id = db_outbox d !! id
  ∨ (id = eid ∧ ∃ row now, db_outbox d !! id = Some row
      ∧ db_outbox d' !! id = Some (f now (row <| ob_attempt_count ::= Z.succ |>))).
Proof.
  cbv zeta. destruct (statement_cases ctx (λ now, update_outbox eid (f now)) d)
    as [(a & d1 & Hu & -> & _)|[-> _]]; [|by left].
  apply (update_outbox_lookup _ _ _ _ _ id) in Hu as [->|(-> & row & Hr & ->)]; [by left|].
  right. split; [done|]. by exists row, (pg_now (db_calls d)).
Qed.

Lemma leased_step id expiry d d' :
  lease_step id expiry d d' → leased id expiry d → leased id expiry d'.
Proof.
  intros Hstep Hl. destruct Hstep as [w limit secs d Hnow|id' p o d|id' err secs d Hne
    |id' err d Hne|e topic key d|kafka store d|d d' Ho].
  - unfold claim_event_outbox_batch. set (ctx := "failed to claim Kafka outbox events"%string).
    set (f := λ now d, Some (claim_rows now w limit secs d)).
    destruct (statement_cases ctx f d) as [(a & d1 & Hf & -> & _)|[-> _]]; [|done].
    unfold f in Hf. apply (inj Some) in Hf. apply (leased_outbox _ _ d); [|done].
    change d1 with (a, d1).2. rewrite <- Hf, claim_rows_outbox.
    by rewrite (leased_not_claimed _ expiry).
  - destruct Hl as (row & t & Hrow & Ht & Hle).
    destruct (mark_lookup "failed to mark Kafka outbox event published" id'
                (published_row p o) d id) as [Heq|(-> & row' & now & Hr & Heq)];
      unfold leased, mark_event_outbox_published; rewrite Heq; [eauto|].
    simplify_eq. eexists _, t. split_and!; [done|simpl|done].
    unfold published_row. by destruct row.
  - eapply leased_outbox; [|done]. unfold mark_event_outbox_failed.
    by destruct (mark_lookup "failed to mark Kafka outbox event failed" id'
                   (failed_row err secs) d id) as [Heq|(-> & _)].
  - eapply leased_outbox; [|done]. unfold mark_event_outbox_deadlettered.
    by destruct (mark_lookup "failed to mark Kafka outbox event deadlettered" id'
                   (deadlettered_row err) d id) as [Heq|(-> & _)].
  - destruct Hl as (row & t & Hrow & Ht & Hle). unfold insert_event_outbox.
    match goal with |- context [statement ?c ?f] =>
      destruct (statement_cases c f d) as [(a & d1 & Hf & -> & _)|[-> _]] end.
    + injection Hf as _ <-. unfold leased, put_outbox. simpl.
      destruct (decide (id = ev_event_id e)) as [->|Hne].
      * rewrite lookup_insert_eq, Hrow. eexists _, t. by destruct row.
      * rewrite lookup_insert_ne by done. eauto.
    + by exists row, t.
  - destruct (persist_snapshot_atomic kafka store d) as [[Hc _]|(v & _ & _ & Ho & _)].
    + eapply leased_outbox; [|done]. unfold contents in Hc. by injection Hc as _ _ -> _ _.
    + eapply leased_outbox; [|done]. rewrite Ho. unfold enqueued.
      destruct Hl as (row & t & -> & _). done.
  - eapply leased_outbox; [|done]. by rewrite Ho.
Qed.

Lemma claim_ok w limit secs d rs :
  value_of (claim_event_outbox_batch w limit secs) d = Ok rs →
  let c := claim_rows (pg_now (db_calls d)) w limit secs (tick d) in
  rs = c.1 ∧ state_of (claim_event_outbox_batch w limit secs) d = c.2.
Proof.
  intros Hc%statement_ok%(inj Some). unfold claim_event_outbox_batch. by rewrite Hc.
Qed.

(** C24. While a worker's lease lasts, no other claim is given the row: whatever the
    other workers claim, publish or enqueue in between, and however their
    statements fail, until the row is marked failed or dead-lettered, its dead
    letter replayed, or the lease ends. *)
Theorem claims_exclusive w limit secs d rs r d' w' limit' secs' rs' r' :
  let expiry := pg_now (db_calls d) + seconds (Z.max secs 1) in
  value_of (claim_event_outbox_batch w limit secs) d = Ok rs → r ∈ rs →
  rtc (lease_step (or_event_id r) expiry)
    (state_of (claim_event_outbox_batch w limit secs) d) d' →
  pg_now (db_calls d') ≤ expiry →
  value_of (claim_event_outbox_batch w' limit' secs') d' = Ok rs' → r' ∈ rs' →
  or_event_id r' ≠ or_event_id r.
Proof.
  intros expiry Hc Hr Hsteps Hnow Hc' Hr' Heq.
  apply claim_ok in Hc as [-> Hs]. rewrite Hs in Hsteps.
  assert (Hl : leased (or_event_id r) expiry
                 (claim_rows (pg_now (db_calls d)) w limit secs (tick d)).2).
  { apply claim_rows_returned in Hr as (row & Htaken & _). unfold leased.
    rewrite claim_rows_outbox, Htaken. apply lookup_taken in Htaken as (row0 & _ & _ & ->).
    eexists _, expiry. by split_and!. }
  assert (Hl' : leased (or_event_id r) expiry d') by (clear -Hsteps Hl; induction Hsteps; eauto using leased_step).
  apply claim_ok in Hc' as [-> _].
  apply claim_rows_returned in Hr' as (row & Htaken & _).
  rewrite Heq, (leased_not_claimed _ expiry) in Htaken; done.
Qed.

(** ** Replay *)
Lemma replay_body_commit kafka u by_ now d r d' :
  replay_body kafka u by_ now d = (Ok (TxCommit r), d') →
  ∃ uuid row event, parse_uuid u = Some uuid ∧ db_deadletters d !! uuid = Some row
    ∧ kd_replayed_at row = None ∧ event_from_value (kd_payload_json row) = Ok event
    ∧ r = Some (ev_event_id event)
    ∧ db_outbox d' = <[ev_event_id event :=
        requeue_row now event (topic_for_event kafka (ev_event_type event))
          (partition_key event) (kd_payload_json row) (db_outbox d !! ev_event_id event)]>
        (db_outbox d)
    ∧ db_deadletters d' = <[uuid :=
        row <| kd_replayed_at := Some now |> <| kd_replayed_by := Some by_ |>]> (db_deadletters d)
    ∧ (db_tables d', db_snapshots d', db_inbox d') = (db_tables d, db_snapshots d, db_inbox d).
Proof.
  unfold replay_body, bindR. rewrite bind_run.
  set (ctx := "failed to load Kafka deadletter for replay"%string).
  destruct (run_statement_cases now ctx (load_replayable u) d)
    as [(a & d1 & Hf & -> & [-> | ->])|[_ ->]]; [|intros [=]..].
  unfold load_replayable in Hf. destruct (parse_uuid u) as [uuid|] eqn:Hu; [|done].
  apply (inj Some) in Hf. change (db_deadletters (tick d)) with (db_deadletters d) in Hf.
  destruct (db_deadletters d !! uuid) as [row|] eqn:Hrow; [|by injection Hf as <- <-].
  case_decide as Hrep; injection Hf as <- <-; [|by intros [=]].
  destruct (event_from_value _) as [event|] eqn:Hev; [|by intros [=]].
  rewrite bind_run.
  match goal with |- context [run_statement now ?c ?f] =>
    destruct (run_statement_cases now c f (tick d)) as [(a & d1 & Hf & -> & [-> | ->])|[_ ->]];
      [|intros [=]..] end.
  apply (inj Some) in Hf. injection Hf as _ <-. rewrite bind_run.
  match goal with |- context [value_of (run_statement now ?c ?f) ?d1] =>
    destruct (run_statement_cases now c f d1) as [(a' & d2 & Hf & Hs & [Hv | Hv])|[_ Hv]];
      rewrite Hv; [|intros [=]..] end.
  rewrite Hs. intros [= <- <-]. injection Hf as _ <-.
  exists uuid, row, event. by split_and!.
Qed.

Lemma replay_body_rollback kafka u by_ now d c a :
  (replay_body kafka u by_ now d).1 = Ok (TxRollback c a) → a = None.
Proof.
  unfold replay_body, bindR. rewrite bind_run.
  destruct (value_of _ _) as [[[??]|]|]; [|by intros [=]|done].
  case_match; [|done]. rewrite bind_run. destruct (value_of _ _); [|done].
  rewrite bind_run. by destruct (value_of _ _).
Qed.

(** A replay leaves the inbox. *)
Lemma replay_inbox kafka u by_ d :
  db_inbox (state_of (replay_kafka_deadletter kafka u by_) d) = db_inbox d.
Proof.
  unfold replay_kafka_deadletter.
  match goal with |- context [transaction ?b ?c ?body] =>
    destruct (transaction_cases b c body d) as [(a & Hb & Hc & _)|[Hc _]] end;
    unfold contents in Hc; injection Hc as _ _ _ -> _; [|done].
  destruct (replay_body _ _ _ _ _) as [r d2] eqn:E. simpl in Hb |- *. subst r.
  apply replay_body_commit in E as (uuid & row & event & _ & _ & _ & _ & _ & _ & _ & Hi).
  by injection Hi as _ _ ->.
Qed.

(** The dead letter of the identifier was replayed. *)
Definition spent (u : string) (d : Db) : Prop :=
  ∃ uuid row, parse_uuid u = Some uuid ∧ db_deadletters d !! uuid = Some row
    ∧ kd_replayed_at row ≠ None.

(** A dead letter that is replayed queues its event's row, free of any lease, and
    no other row, and is spent. *)
Lemma replay_queues kafka u by_ d id :
  let d' := state_of (replay_kafka_deadletter kafka u by_) d in
  value_of (replay_kafka_deadletter kafka u by_) d = Ok (Some id) →
  (∃ row, db_outbox d' !! id = Some row ∧ ob_status row = "queued"%string
     ∧ ob_locked_until row = None)
  ∧ (∀ id', id' ≠ id → db_outbox d' !! id' = db_outbox d !! id') ∧ spent u d'.
Proof.
  intros d' Hv. subst d'. unfold replay_kafka_deadletter in *.
  set (bc := "failed to begin replay transaction"%string) in *.
  set (cc := "failed to commit Kafka deadletter replay"%string) in *.
  destruct (transaction_cases bc cc (replay_body kafka u by_) d)
    as [(a & Hr & Hc & Hv')|[_ [[e He]|(c & a & Hr & Hv')]]]; [|congruence|exfalso].
  2: { apply replay_body_rollback in Hr. congruence. }
  assert (a = Some id) as -> by (destruct Hv'; congruence). clear Hv'.
  destruct (replay_body _ _ _ _ _) as [r d2] eqn:E. simpl in Hr, Hc. subst r.
  apply replay_body_commit in E as (uuid & row & event & Hu & Hrow & Hrep & Hev & Hid & Ho & Hd & _).
  injection Hid as ->. simpl in Hrow, Ho, Hd.
  set (d' := state_of _ _) in *. unfold contents in Hc. injection Hc as _ _ Ho' _ Hd'.
  rewrite Ho', Ho. split_and!.
  - rewrite lookup_insert_eq. eexists. split; [done|]. unfold requeue_row. by case_match.
  - intros id' Hne. by apply lookup_insert_ne.
  - eexists uuid, _. split; [done|]. by rewrite Hd', Hd, lookup_insert_eq.
Qed.

Lemma transaction_rollback {A} bc cc (body : time → D (tx_end A)) d c a :
  (∀ n, pg_call n = PgDone) → (body (pg_now (db_calls d)) (tick d)).1 = Ok (TxRollback c a) →
  value_of (transaction bc cc body) d = Ok a.
Proof.
  intros Hdone. unfold value_of, transaction, tick. rewrite Hdone.
  destruct (body _ _) as [r d1]. simpl. intros ->. by rewrite Hdone.
Qed.

(** A spent dead letter is not replayed: nothing changes, and a server that
    answers finds none to replay. *)
Lemma spent_refused kafka u by_ d :
  spent u d →
  contents (state_of (replay_kafka_deadletter kafka u by_) d) = contents d
  ∧ (∀ id, value_of (replay_kafka_deadletter kafka u by_) d ≠ Ok (Some id))
  ∧ ((∀ n, pg_call n = PgDone) → value_of (replay_kafka_deadletter kafka u by_) d = Ok None).
Proof.
  intros (uuid & row & Hu & Hrow & Hrep). unfold replay_kafka_deadletter.
  set (bc := "failed to begin replay transaction"%string).
  set (cc := "failed to commit Kafka deadletter replay"%string).
  assert (Hcc : contents (state_of (transaction bc cc (replay_body kafka u by_)) d) = contents d
    ∧ ∀ id, value_of (transaction bc cc (replay_body kafka u by_)) d ≠ Ok (Some id)).
  { destruct (transaction_cases bc cc (replay_body kafka u by_) d) as [(a & Hr & _)|[Hc' Hv']].
    - exfalso. destruct (replay_body _ _ _ _ _) as [r d3] eqn:E. simpl in Hr. subst r.
      apply replay_body_commit in E as (uuid' & row' & ? & Hu' & Hrow' & Hrep' & _).
      simpl in Hrow'. congruence.
    - split; [done|]. intros id Hv''. destruct Hv' as [[e He]|(c & a & Hr & Ha)]; [congruence|].
      apply replay_body_rollback in Hr. congruence. }
  destruct Hcc as [Hc Hn]. split; [done|]. split; [done|]. intros Hdone.
  assert (Hb : ∀ now d0, db_deadletters d0 = db_deadletters d →
    (replay_body kafka u by_ now d0).1
    = Ok (TxRollback "failed to rollback empty replay transaction"%string None)).
  { intros now d0 Hd0. unfold replay_body, bindR, bind, run_statement, load_replayable.
    rewrite Hdone. simpl. rewrite Hu, Hd0, Hrow. by rewrite decide_False. }
  eapply transaction_rollback, Hb; done.
Qed.
End database_spec.
