(* ===== verification/Snapshot.v ===== *)
(** * Snapshots (src/state.rs)

    [PersistedStore::from_inner], [PersistedStore::into_inner] and the
    sanitizing pass both run: status, broadcast and newsletter surfaces are
    dropped, and media whose conversation is unknown gets a placeholder. *)
From S2P Require Import Prelude Text Json Env Models Jid Records.

Section snapshot.
Context `{Env}.

Definition conversation_updates_surface (c : Conversation) : bool :=
  is_updates_surface_jid (conv_id c) || opt_updates_surface (conv_contact_id c)
  || opt_updates_surface (conv_group_id c).

Definition contact_updates_surface (c : ContactRecord) : bool :=
  is_updates_surface_jid (ct_id c) || opt_updates_surface (ct_canonical_jid c)
  || opt_updates_surface (ct_lid c).

Definition group_updates_surface (group_id : string) (group : GroupRecord) : bool :=
  is_updates_surface_jid group_id || opt_updates_surface (gr_wa_jid group).

Definition group_member_updates_surface (member : GroupMemberRecord) : bool :=
  is_updates_surface_jid (gm_group_id member) || is_updates_surface_jid (gm_contact_id member)
  || opt_updates_surface (gm_wa_jid member).

Definition message_updates_surface (m : Message) : bool :=
  is_updates_surface_jid (msg_conversation_id m)
  || opt_updates_surface (msg_sender_contact_id m).

Definition nul : ascii := ascii_of_nat 0.
Definition key_updates_surface (key : string) : bool :=
  existsb is_updates_surface_jid (split "|" key)
  || existsb is_updates_surface_jid (split nul key) || is_updates_surface_jid key.

(** [into_iter().map(..).collect()]: later entries win, in iteration order. *)
Definition normalize_group_profile_refreshes (refreshes : gmap string time)
  : gmap string time :=
  foldl (λ m kv, <[replace_char nul "|" kv.1 := kv.2]> m) ∅ (hm_iter refreshes).

(** ** Placeholder conversations *)
Definition placeholder_channel_for_project_company (store : PersistedStore)
    (project_id company_id : string) : string :=
  let channels := hm_iter (ps_channels store) in
  unwrap_or
    (opt_or
      (find_map (λ '(id, channel),
         bool_then (channel_belongs_to_company channel project_id company_id
           && bool_decide (get_str channel "status" = Some "connected"%string)) id) channels)
      (find_map (λ '(id, channel),
         bool_then (channel_belongs_to_company channel project_id company_id) id) channels))
    "channel_dev"%string.

Definition placeholder_conversation (channel_id : string) (media : MediaObject)
  : Conversation :=
  let conversation_id := media_conversation_id media in
  let is_group := ends_with conversation_id "@g.us" in
  {| conv_id := conversation_id;
     conv_project_id := media_project_id media;
     conv_company_id := media_company_id media;
     conv_channel_account_id := channel_id;
     conv_conversation_type := if is_group then "group" else "direct";
     conv_contact_id := if is_group then None else Some conversation_id;
     conv_group_id := None;
     conv_display_name := Some (if is_group then group_subject_for_jid conversation_id
                                else display_name_for_jid conversation_id);
     conv_display_phone := if is_group then None else phone_from_jid conversation_id;
     conv_phone_number := if is_group then None else phone_number_from_jid conversation_id;
     conv_profile_picture_media_id := None;
     conv_avatar_url := None;
     conv_profile_picture_url := None;
     conv_last_seq := 0;
     conv_last_message_at := None;
     conv_unread_count := 0;
     conv_is_archived := false;
     conv_is_muted := false;
     conv_is_pinned := false;
     conv_control_mode := "manual";
     conv_created_at := media_created_at media;
     conv_updated_at := media_updated_at media |}.

Definition add_placeholder (store : PersistedStore) (media : MediaObject)
  : PersistedStore :=
  match ps_conversations store !! media_conversation_id media with
  | Some _ => store
  | None =>
    let channel_id := placeholder_channel_for_project_company store
      (media_project_id media) (media_company_id media) in
    store <| ps_conversations ::=
      <[media_conversation_id media := placeholder_conversation channel_id media]> |>
  end.

Definition ensure_media_conversation_placeholders (store : PersistedStore)
  : PersistedStore :=
  let orphan_media := retain_list (λ media,
    negb (is_blank (media_conversation_id media))
    && bool_decide (ps_conversations store !! media_conversation_id media = None))
    (hm_values (ps_media store)) in
  foldl add_placeholder store orphan_media.

(** ** Sanitizing *)
Definition disallowed_conversations (store : PersistedStore) : gset string :=
  list_to_set (conv_id <$> retain_list conversation_updates_surface
                 (hm_values (ps_conversations store)))
  ∪ list_to_set (retain_list is_updates_surface_jid
                   (hm_keys (ps_messages_by_conversation store))).

Definition mem (x : string) (s : gset string) : bool := bool_decide (x ∈ s).

(** The ids of the messages to drop, from both indexes. *)
Definition removed_messages (disallowed : gset string) (store : PersistedStore)
  : gset string :=
  let bad (m : Message) :=
    mem (msg_conversation_id m) disallowed || message_updates_surface m in
  list_to_set ((retain_list (λ kv, bad kv.2) (hm_iter (ps_messages_by_id store))).*1)
  ∪ list_to_set (msg_id <$> retain_list bad
      (mjoin (hm_values (ps_messages_by_conversation store)))).

Definition retain_members (disallowed : gset string)
    (group_members : gmap string (gmap string GroupMemberRecord))
  : gmap string (gmap string GroupMemberRecord) :=
  map_imap (λ group_id members,
    if mem group_id disallowed || is_updates_surface_jid group_id then None
    else
      let members := retain (λ _ m, negb (group_member_updates_surface m)) members in
      if decide (members = ∅) then None else Some members) group_members.

Definition retain_conversation_messages (disallowed removed : gset string)
    (by_conversation : gmap string (list Message)) : gmap string (list Message) :=
  map_imap (λ conversation_id messages,
    if mem conversation_id disallowed || is_updates_surface_jid conversation_id then None
    else
      let messages := retain_list (λ m,
        negb (mem (msg_id m) removed) && negb (message_updates_surface m)) messages in
      if decide (messages = []) then None else Some messages) by_conversation.

Definition sanitize_updates_surfaces (store : PersistedStore) : PersistedStore :=
  let disallowed := disallowed_conversations store in
  let removed := removed_messages disallowed store in
  let kept_media := retain (λ _ media,
    negb (mem (media_conversation_id media) disallowed)
    && negb (is_updates_surface_jid (media_conversation_id media))
    && is_none_or (media_message_id media) (λ id, negb (mem id removed))) (ps_media store) in
  ensure_media_conversation_placeholders (store
    <| ps_conversations ::= retain (λ _ c, negb (conversation_updates_surface c)) |>
    <| ps_contacts ::= retain (λ _ c, negb (contact_updates_surface c)) |>
    <| ps_groups ::= retain (λ id g, negb (group_updates_surface id g)) |>
    <| ps_group_members ::= retain_members disallowed |>
    <| ps_group_profile_refreshes ::= retain (λ key _, negb (key_updates_surface key)) |>
    <| ps_messages_by_id ::= retain (λ id m,
         negb (mem id removed) && negb (mem (msg_conversation_id m) disallowed)
         && negb (message_updates_surface m)) |>
    <| ps_messages_by_conversation ::= retain_conversation_messages disallowed removed |>
    <| ps_media := kept_media |>
    <| ps_transcripts ::= retain (λ id _, negb (mem id removed)) |>
    <| ps_idempotency ::= retain_list (λ '((_, _, conversation_id), record),
         negb (mem conversation_id disallowed)
         && negb (is_updates_surface_jid conversation_id)
         && negb (mem (idem_message_id record) removed)) |>
    <| ps_media_upload_idempotency ::= retain_list (λ '(_, record),
         bool_decide (is_Some (kept_media !! mui_media_id record))) |>
    <| ps_dirty ::= retain_list (λ '((_, _, conversation_id), _),
         negb (mem conversation_id disallowed)) |>
    <| ps_dirty_leases ::= retain_list (λ '((_, _, _, conversation_id), _),
         negb (mem conversation_id disallowed)) |>
    <| ps_consumer_state ::= retain_list (λ '((_, _, _, conversation_id), _),
         negb (mem conversation_id disallowed)) |>
    <| ps_events ::= retain_list (λ event,
         is_none_or (ev_conversation_id event) (λ id, negb (is_updates_surface_jid id))
         && is_none_or (ev_message_id event) (λ id, negb (mem id removed))) |>).

(** ** Conversion *)
Definition unsanitized (inner : StoreInner) : PersistedStore := {|
  ps_projects := st_projects inner;
  ps_companies := hm_iter (st_companies inner);
  ps_api_keys := st_api_keys inner;
  ps_channels := st_channels inner;
  ps_conversations := st_conversations inner;
  ps_messages_by_conversation := st_messages_by_conversation inner;
  ps_messages_by_id := st_messages_by_id inner;
  ps_idempotency := hm_iter (st_idempotency inner);
  ps_media_upload_idempotency := hm_iter (st_media_upload_idempotency inner);
  ps_dirty := hm_iter (st_dirty inner);
  ps_dirty_leases := hm_iter (st_dirty_leases inner);
  ps_consumer_state := hm_iter (st_consumer_state inner);
  ps_contacts := st_contacts inner;
  ps_groups := st_groups inner;
  ps_group_members := st_group_members inner;
  ps_group_profile_refreshes :=
    normalize_group_profile_refreshes (st_group_profile_refreshes inner);
  ps_media := st_media inner;
  ps_transcripts := st_transcripts inner;
  ps_qr := st_qr inner;
  ps_events := st_events inner;
  ps_callbacks := st_callbacks inner;
  ps_webhook_delivery_attempts := st_webhook_delivery_attempts inner;
  ps_audit_logs := st_audit_logs inner
|}.

Definition from_inner (inner : StoreInner) : PersistedStore :=
  sanitize_updates_surfaces (unsanitized inner).

(** [into_iter().collect()] of a list of pairs. *)
Definition collect {K V} `{Countable K} (l : list (K * V)) : gmap K V :=
  foldl (λ m kv, <[kv.1 := kv.2]> m) ∅ l.

Definition into_inner (self : PersistedStore) : StoreInner :=
  let store := sanitize_updates_surfaces self in {|
  st_projects := ps_projects store;
  st_companies := collect (ps_companies store);
  st_api_keys := ps_api_keys store;
  st_channels := ps_channels store;
  st_conversations := ps_conversations store;
  st_messages_by_conversation := ps_messages_by_conversation store;
  st_messages_by_id := ps_messages_by_id store;
  st_idempotency := collect (ps_idempotency store);
  st_media_upload_idempotency := collect (ps_media_upload_idempotency store);
  st_media_upload_idempotency_inflight := ∅;
  st_dirty := collect (ps_dirty store);
  st_dirty_leases := collect (ps_dirty_leases store);
  st_consumer_state := collect (ps_consumer_state store);
  st_contacts := ps_contacts store;
  st_groups := ps_groups store;
  st_group_members := ps_group_members store;
  st_group_profile_refreshes :=
    normalize_group_profile_refreshes (ps_group_profile_refreshes store);
  st_media := ps_media store;
  st_transcripts := ps_transcripts store;
  st_qr := ps_qr store;
  st_events := ps_events store;
  st_internal_processed_event_ids := ∅;
  st_callbacks := ps_callbacks store;
  st_webhook_delivery_attempts := ps_webhook_delivery_attempts store;
  st_audit_logs := ps_audit_logs store
|}.
End snapshot.
