(* ===== verification/Whatsapp.v ===== *)
(** * The WhatsApp channel manager (src/whatsapp.rs)

    Per-channel reconnection bookkeeping and the table of running clients.
    What the client library reports about a client (its task has finished, its
    socket is connected) is part of the state; the library may change it
    between two calls. *)
From S2P Require Import Prelude Text Json Env Models Jid.

Record ReconnectIntent : Type := mkReconnectIntent {
  ri_desired : bool;
  ri_needs_session_reset : bool;
  ri_has_connected : bool;
  ri_attempts : Z
}.
#[export] Instance eta_ReconnectIntent : Eta ReconnectIntent := λ r,
  mkReconnectIntent (ri_desired r) (ri_needs_session_reset r) (ri_has_connected r)
    (ri_attempts r).
Definition default_intent : ReconnectIntent := mkReconnectIntent false false false 0.

Record ChannelSupervisor : Type := mkChannelSupervisor {
  sup_task_finished : bool;
  sup_client_connected : bool
}.
#[export] Instance eta_ChannelSupervisor : Eta ChannelSupervisor := λ r,
  mkChannelSupervisor (sup_task_finished r) (sup_client_connected r).

Record WhatsappManager : Type := mkWhatsappManager {
  wm_supervisors : gmap string ChannelSupervisor;
  wm_intents : gmap string ReconnectIntent
}.
#[export] Instance eta_WhatsappManager : Eta WhatsappManager := λ r,
  mkWhatsappManager (wm_supervisors r) (wm_intents r).
Definition default_manager : WhatsappManager := mkWhatsappManager ∅ ∅.

(** What is handed to the client library to send. *)
Record OutboundMediaMessage : Type := mkOutboundMediaMessage {
  omm_media_type : string;
  omm_mime_type : string;
  omm_filename : option string;
  omm_caption : option string;
  omm_bytes : string;
  omm_ptt : bool
}.

Record ChannelRuntime : Type := mkChannelRuntime {
  rt_project_id : string;
  rt_company_id : string;
  rt_channel_id : string;
  rt_session_path : string
}.
#[export] Instance eta_ChannelRuntime : Eta ChannelRuntime := λ r,
  mkChannelRuntime (rt_project_id r) (rt_company_id r) (rt_channel_id r)
    (rt_session_path r).

(** What the client library needs to download the media of a message. *)
Record InboundMediaDescriptor : Type := mkInboundMediaDescriptor {
  imd_media_type : string;
  imd_mime_type : string;
  imd_filename : option string;
  imd_caption : option string;
  imd_direct_path : string;
  imd_media_key_b64 : string;
  imd_file_sha256_b64 : string;
  imd_file_enc_sha256_b64 : string;
  imd_file_length : Z;
  imd_width : option Z;
  imd_height : option Z;
  imd_duration_seconds : option Z
}.
#[export] Instance eta_InboundMediaDescriptor : Eta InboundMediaDescriptor := λ r,
  mkInboundMediaDescriptor (imd_media_type r) (imd_mime_type r) (imd_filename r)
    (imd_caption r) (imd_direct_path r) (imd_media_key_b64 r) (imd_file_sha256_b64 r)
    (imd_file_enc_sha256_b64 r) (imd_file_length r) (imd_width r) (imd_height r)
    (imd_duration_seconds r).

Record ContactProfile : Type := mkContactProfile {
  cp_requested_jid : string;
  cp_resolved_jid : option string;
  cp_lid : option string;
  cp_phone_e164 : option string;
  cp_business_description : option string;
  cp_profile_picture_id : option string;
  cp_profile_picture_media_id : option string;
  cp_profile_picture_url : option string
}.
#[export] Instance eta_ContactProfile : Eta ContactProfile := λ r,
  mkContactProfile (cp_requested_jid r) (cp_resolved_jid r) (cp_lid r) (cp_phone_e164
    r) (cp_business_description r) (cp_profile_picture_id r)
    (cp_profile_picture_media_id r) (cp_profile_picture_url r).

Record GroupParticipantProfile : Type := mkGroupParticipantProfile {
  gp_contact_id : string;
  gp_phone_jid : option string;
  gp_is_admin : bool
}.
#[export] Instance eta_GroupParticipantProfile : Eta GroupParticipantProfile := λ r,
  mkGroupParticipantProfile (gp_contact_id r) (gp_phone_jid r) (gp_is_admin r).

Record GroupProfile : Type := mkGroupProfile {
  gprof_group_jid : string;
  gprof_subject : option string;
  gprof_description : option string;
  gprof_owner_jid : option string;
  gprof_subject_owner_jid : option string;
  gprof_created_at_wa_unix : option Z;
  gprof_size : option Z;
  gprof_profile_picture_id : option string;
  gprof_profile_picture_media_id : option string;
  gprof_profile_picture_url : option string;
  gprof_participants : list GroupParticipantProfile
}.
#[export] Instance eta_GroupProfile : Eta GroupProfile := λ r,
  mkGroupProfile (gprof_group_jid r) (gprof_subject r) (gprof_description r)
    (gprof_owner_jid r) (gprof_subject_owner_jid r) (gprof_created_at_wa_unix r)
    (gprof_size r) (gprof_profile_picture_id r) (gprof_profile_picture_media_id r)
    (gprof_profile_picture_url r) (gprof_participants r).

Definition RECONNECT_BASE_DELAY_SECS : Z := 5.
Definition RECONNECT_MAX_DELAY_SECS : Z := 300.

(** [entry(channel_id).or_default()] *)
Definition intent_of (m : WhatsappManager) (channel_id : string) : ReconnectIntent :=
  default default_intent (wm_intents m !! channel_id).

Definition set_desired (channel_id : string) (desired : bool) (m : WhatsappManager)
  : WhatsappManager :=
  m <| wm_intents ::= <[channel_id := intent_of m channel_id <| ri_desired := desired |>]> |>.

Definition is_desired (channel_id : string) (m : WhatsappManager) : bool :=
  is_some_and (wm_intents m !! channel_id) ri_desired.

Definition mark_needs_session_reset (channel_id : string) (m : WhatsappManager)
  : WhatsappManager :=
  m <| wm_intents ::= <[channel_id := intent_of m channel_id
      <| ri_needs_session_reset := true |> <| ri_has_connected := false |>
      <| ri_attempts := 0 |>]> |>.

Definition take_needs_session_reset (channel_id : string) (m : WhatsappManager)
  : bool * WhatsappManager :=
  match wm_intents m !! channel_id with
  | Some intent =>
    if ri_needs_session_reset intent
    then (true, m <| wm_intents ::=
                  <[channel_id := intent <| ri_needs_session_reset := false |>]> |>)
    else (false, m)
  | None => (false, m)
  end.

Definition next_reconnect_delay_secs (channel_id : string) (m : WhatsappManager)
  : Z * WhatsappManager :=
  let intent := intent_of m channel_id in
  let attempt := Z.min (ri_attempts intent) 16 in
  (Z.min (wrap_u64 (Z.shiftl RECONNECT_BASE_DELAY_SECS attempt)) RECONNECT_MAX_DELAY_SECS,
   m <| wm_intents ::= <[channel_id := intent
       <| ri_attempts := sat_add_u32 (ri_attempts intent) 1 |>]> |>).

Definition mark_connected (channel_id : string) (m : WhatsappManager) : WhatsappManager :=
  m <| wm_intents ::= <[channel_id := intent_of m channel_id
      <| ri_has_connected := true |> <| ri_attempts := 0 |>]> |>.

Definition should_reconnect (channel_id : string) (m : WhatsappManager) : bool :=
  is_some_and (wm_intents m !! channel_id) (λ i, ri_desired i && ri_has_connected i).

Definition is_channel_active (channel_id : string) (m : WhatsappManager) : bool :=
  is_some_and (wm_supervisors m !! channel_id) (λ s, negb (sup_task_finished s)).

Definition is_channel_connected (channel_id : string) (m : WhatsappManager) : bool :=
  is_some_and (wm_supervisors m !! channel_id)
    (λ s, negb (sup_task_finished s) && sup_client_connected s).

Definition stop_channel (channel_id : string) (m : WhatsappManager) : WhatsappManager :=
  m <| wm_supervisors ::= delete channel_id |>.

(** [start_channel]: [outcome] is what the library answers when it builds the
    client: an error, or a client that may already be connected. *)
Definition start_channel (runtime : ChannelRuntime) (outcome : result bool string)
    (m : WhatsappManager) : result unit string * WhatsappManager :=
  let channel_id := rt_channel_id runtime in
  if is_channel_active channel_id m then (Ok tt, m)
  else
    let m := m <| wm_supervisors ::= delete channel_id |> in
    match outcome with
    | Err err => (Err err, m)
    | Ok connected =>
      (Ok tt, m <| wm_supervisors ::=
                <[channel_id := mkChannelSupervisor false connected]> |>)
    end.

(** ** Properties *)

(** [n] reconnect attempts in a row: the delays they wait. *)
Fixpoint reconnect_delays (channel_id : string) (n : nat) (m : WhatsappManager) : list Z :=
  match n with
  | O => []
  | S n =>
    let '(d, m) := next_reconnect_delay_secs channel_id m in
    d :: reconnect_delays channel_id n m
  end.

Lemma next_delay_value channel_id m :
  0 ≤ ri_attempts (intent_of m channel_id) →
  (next_reconnect_delay_secs channel_id m).1 =
    Z.min (5 * 2 ^ Z.min (ri_attempts (intent_of m channel_id)) 16) 300.
Proof.
  intros H. unfold next_reconnect_delay_secs, RECONNECT_BASE_DELAY_SECS. simpl.
  rewrite Z.shiftl_mul_pow2 by lia. rewrite wrap_u64_small; [done|].
  pose proof (Z.pow_le_mono_r 2 (Z.min (ri_attempts (intent_of m channel_id)) 16) 16
    ltac:(lia) ltac:(lia)).
  pose proof (Z.pow_nonneg 2 (Z.min (ri_attempts (intent_of m channel_id)) 16)).
  unfold u64_max. lia.
Qed.

Lemma next_delay_state channel_id m :
  intent_of (next_reconnect_delay_secs channel_id m).2 channel_id =
    intent_of m channel_id
      <| ri_attempts := sat_add_u32 (ri_attempts (intent_of m channel_id)) 1 |>.
Proof. unfold next_reconnect_delay_secs, intent_of. simpl. by rewrite lookup_insert_eq. Qed.

(** The delays of successive reconnections of a channel are 5 s doubled at
    each attempt and capped at 300 s. *)
Theorem reconnect_backoff channel_id m n k :
  ri_attempts (intent_of m channel_id) = Z.of_nat k → Z.of_nat (k + n) < u32_max →
  reconnect_delays channel_id n m =
    (λ i, Z.min (5 * 2 ^ Z.min (Z.of_nat i) 16) 300) <$> seq k n.
Proof.
  revert m k. induction n as [|n IH]; intros m k Hk Hb; [done|].
  cbn [reconnect_delays seq fmap list_fmap].
  pose proof (next_delay_value channel_id m ltac:(lia)) as Hv.
  pose proof (next_delay_state channel_id m) as Hs.
  destruct (next_reconnect_delay_secs channel_id m) as [d m'].
  simpl in Hv, Hs. rewrite Hv, Hk. f_equal.
  apply IH; [|lia]. rewrite Hs. simpl. rewrite Hk. unfold sat_add_u32. lia.
Qed.

Lemma reconnect_backoff_witness :
  reconnect_delays "ch" 8 (mark_connected "ch" default_manager) =
    [5; 10; 20; 40; 80; 160; 300; 300].
Proof.
  rewrite (reconnect_backoff "ch" (mark_connected "ch" default_manager) 8 0).
  - by vm_compute.
  - by vm_compute.
  - by vm_compute.
Defined.

(** A session reset that was asked for is taken by exactly one caller, until
    then the channel does not reconnect, and taking it does not change whether
    the channel is wanted. *)
Theorem session_reset_taken_once channel_id m :
  let m1 := mark_needs_session_reset channel_id m in
  let '(first, m2) := take_needs_session_reset channel_id m1 in
  let '(second, m3) := take_needs_session_reset channel_id m2 in
  first = true ∧ second = false ∧ m3 = m2
  ∧ should_reconnect channel_id m1 = false
  ∧ is_desired channel_id m2 = is_desired channel_id m.
Proof.
  simpl. unfold take_needs_session_reset, should_reconnect, is_desired, intent_of. simpl.
  rewrite ?lookup_insert_eq. simpl. rewrite ?lookup_insert_eq. simpl.
  rewrite ?lookup_insert_eq. simpl. rewrite andb_false_r.
  do 4 (split; [done|]). unfold intent_of. by destruct (wm_intents m !! channel_id).
Qed.

(** A stopped channel is neither active nor connected, whatever it was. *)
Lemma stop_channel_inactive channel_id m :
  is_channel_active channel_id (stop_channel channel_id m) = false
  ∧ is_channel_connected channel_id (stop_channel channel_id m) = false.
Proof. unfold is_channel_active, is_channel_connected. simpl. by rewrite lookup_delete_eq. Qed.
