(* ===== verification/WhatsappClient.v ===== *)
(** * The WhatsApp client library, as the adapter uses it (src/whatsapp.rs)

    The types of the library are records of what the adapter reads of them, and
    its calls are a class.  The conversion of the library's events, the messages
    and profiles the adapter builds, and the capabilities it announces. *)
From S2P Require Import Prelude Text Json Env Secrets Models Jid Whatsapp.

(** ** What the library hands over *)
(** The fields of an image, audio, document or video message the adapter reads. *)
Record WaMediaMessage : Type := mkWaMediaMessage {
  wam_mimetype : option string;
  wam_file_name : option string;
  wam_title : option string;
  wam_caption : option string;
  wam_direct_path : option string;
  wam_media_key : option string;
  wam_file_sha256 : option string;
  wam_file_enc_sha256 : option string;
  wam_file_length : option Z;
  wam_width : option Z;
  wam_height : option Z;
  wam_seconds : option Z
}.
(** [wa::Message] with [text_content] and [get_caption] of [MessageExt]. *)
Record WaMessage : Type := mkWaMessage {
  wa_text_content : option string;
  wa_get_caption : option string;
  wa_image_message : option WaMediaMessage;
  wa_audio_message : option WaMediaMessage;
  wa_document_message : option WaMediaMessage;
  wa_video_message : option WaMediaMessage
}.
(** JIDs by their text. *)
Record MessageInfo : Type := mkMessageInfo {
  mi_id : string;
  mi_chat : string;
  mi_sender : string;
  mi_sender_alt : option string;
  mi_recipient : option string;
  mi_recipient_alt : option string;
  mi_push_name : string;
  mi_timestamp : Z;
  mi_is_from_me : bool
}.
Inductive ReceiptType :=
| RtDelivered | RtSender | RtRead | RtReadSelf | RtPlayed | RtPlayedSelf
| RtServerError | RtInactive | RtOther.
(** [wacore]'s [Event]; the reasons by their [Debug] text; [subject] is the new
    subject when the update is one. *)
Inductive WaEvent :=
| WeConnected
| WePairSuccess
| WeDisconnected
| WeLoggedOut (reason : string)
| WePairingQrCode (code : string) (timeout : Z)
| WeHistorySync
| WeMessage (message : WaMessage) (info : MessageInfo)
| WeReceipt (message_ids : list string) (type : ReceiptType) (chat : string) (timestamp : Z)
| WeGroupUpdate (group_jid : string) (subject : option string) (timestamp : Z)
| WeStreamReplaced
| WeConnectFailure (reason message : string)
| WeOther.

(** ** What the adapter makes of it: [WhatsappEvent] *)
Inductive WhatsappEvent :=
| EvConnected
| EvDisconnected
| EvLoggedOut (reason : string)
| EvPairingQrCode (code : string) (timeout : Z)
| EvHistorySyncIgnored
| EvMessage (wa_message_id chat_jid sender_jid : string)
    (sender_alt_jid recipient_jid recipient_alt_jid push_name text : option string)
    (message_type : string) (media : option InboundMediaDescriptor)
    (created_at_wa : time) (is_from_me : bool)
| EvReceipt (wa_message_ids : list string) (receipt_type chat_jid : string)
    (created_at_wa : time)
| EvGroupUpdate (group_jid : string) (subject : option string) (created_at_wa : time)
| EvDiagnostic (event_type : string) (payload : Value).

Definition updates_ignored_event : WhatsappEvent :=
  EvDiagnostic "whatsapp_updates.ignored" (json! { "reason" ~> "updates_surface"%string }).

Definition message_info_has_updates_surface (info : MessageInfo) : bool :=
  is_updates_surface_jid (mi_chat info)
  || is_updates_surface_jid (mi_sender info)
  || opt_updates_surface (mi_sender_alt info)
  || opt_updates_surface (mi_recipient info)
  || opt_updates_surface (mi_recipient_alt info).

Definition receipt_type_name (receipt_type : ReceiptType) : string :=
  match receipt_type with
  | RtDelivered | RtSender => "delivered"
  | RtRead | RtReadSelf => "read"
  | RtPlayed | RtPlayedSelf => "played"
  | RtServerError | RtInactive => "failed"
  | RtOther => "server_ack"
  end.

(** [i64::try_from(timeout.as_secs()).unwrap_or(20).clamp(1, 300)] *)
Definition qr_expiry (now timeout : time) : time :=
  now + seconds (Z.max 1 (Z.min (if decide (timeout ≤ i64_max) then timeout else 20) 300)).

Definition whatsapp_message_type (message : WaMessage) (text : option string) : string :=
  if bool_decide (is_Some text) then "text"
  else if bool_decide (is_Some (wa_image_message message)) then "image"
  else if bool_decide (is_Some (wa_audio_message message)) then "audio"
  else if bool_decide (is_Some (wa_document_message message)) then "document"
  else if bool_decide (is_Some (wa_video_message message)) then "video"
  else "system".

Section events.
Context `{Crypto}.
(** [OffsetDateTime::from_unix_timestamp] (the [time] crate), and the clock. *)
Context (from_unix_timestamp : Z → option time) (now : time).

Definition offset_from_unix (timestamp : Z) : time :=
  unwrap_or (from_unix_timestamp timestamp) now.

(** Nothing without a path, keys, digests and a length to download it by. *)
Definition downloadable_media_descriptor (media_type mime_type : string)
    (filename caption : option string) (width height duration_seconds : option Z)
    (m : WaMediaMessage) : option InboundMediaDescriptor :=
  match wam_direct_path m, wam_media_key m, wam_file_sha256 m, wam_file_enc_sha256 m,
        wam_file_length m with
  | Some direct_path, Some media_key, Some file_sha256, Some file_enc_sha256,
    Some file_length =>
    Some (mkInboundMediaDescriptor media_type mime_type filename caption direct_path
            (b64 media_key) (b64 file_sha256) (b64 file_enc_sha256) file_length
            width height duration_seconds)
  | _, _, _, _, _ => None
  end.

Definition inbound_media_descriptor (message : WaMessage) (message_type : string)
  : option InboundMediaDescriptor :=
  if decide (message_type = "image") then
    m ← wa_image_message message;
    downloadable_media_descriptor "image" (unwrap_or (wam_mimetype m) "image/jpeg")
      None (wam_caption m) (wam_width m) (wam_height m) None m
  else if decide (message_type = "audio") then
    m ← wa_audio_message message;
    downloadable_media_descriptor "audio" (unwrap_or (wam_mimetype m) "audio/ogg")
      None None None None (wam_seconds m) m
  else if decide (message_type = "document") then
    m ← wa_document_message message;
    downloadable_media_descriptor "document"
      (unwrap_or (wam_mimetype m) "application/octet-stream")
      (opt_or (wam_file_name m) (wam_title m)) (wam_caption m) None None None m
  else if decide (message_type = "video") then
    m ← wa_video_message message;
    downloadable_media_descriptor "video" (unwrap_or (wam_mimetype m) "video/mp4")
      None (wam_caption m) (wam_width m) (wam_height m) (wam_seconds m) m
  else None.

Definition map_message_event (message : WaMessage) (info : MessageInfo) : WhatsappEvent :=
  let text := opt_or (wa_text_content message) (wa_get_caption message) in
  let message_type := whatsapp_message_type message text in
  EvMessage (mi_id info) (mi_chat info) (mi_sender info) (mi_sender_alt info)
    (mi_recipient info) (mi_recipient_alt info)
    (bool_then (negb (bool_decide (mi_push_name info = ""))) (mi_push_name info))
    text message_type (inbound_media_descriptor message message_type)
    (offset_from_unix (mi_timestamp info)) (mi_is_from_me info).

(** A message without content is dropped here. *)
Definition is_empty_system (message_type : string) (text : option string) : bool :=
  bool_decide (message_type = "system") && bool_decide (unwrap_or text "" = ""%string).

Definition map_event (event : WaEvent) : option WhatsappEvent :=
  match event with
  | WeConnected | WePairSuccess => Some EvConnected
  | WeDisconnected => Some EvDisconnected
  | WeLoggedOut reason => Some (EvLoggedOut reason)
  | WePairingQrCode code timeout => Some (EvPairingQrCode code timeout)
  | WeHistorySync => Some EvHistorySyncIgnored
  | WeMessage message info =>
    if message_info_has_updates_surface info then Some updates_ignored_event
    else
      let mapped := map_message_event message info in
      match mapped with
      | EvMessage _ _ _ _ _ _ _ text message_type _ _ _ =>
        if is_empty_system message_type text then None else Some mapped
      | _ => Some mapped
      end
  | WeReceipt message_ids type chat timestamp =>
    if is_updates_surface_jid chat then Some updates_ignored_event
    else Some (EvReceipt message_ids (receipt_type_name type) chat
                 (offset_from_unix timestamp))
  | WeGroupUpdate group_jid subject timestamp =>
    if is_updates_surface_jid group_jid then Some updates_ignored_event
    else Some (EvGroupUpdate group_jid subject (offset_from_unix timestamp))
  | WeStreamReplaced => Some (EvDiagnostic "channel.stream_replaced" (json! { }))
  | WeConnectFailure reason message =>
    Some (EvDiagnostic "channel.connect_failure"
            (json! { "reason" ~> reason, "message" ~> message }))
  | WeOther => None
  end.
End events.

(** ** The calls of the library *)
Inductive MediaType := MtImage | MtAudio | MtDocument | MtVideo.
Record WaUpload : Type := mkWaUpload {
  wu_url : string;
  wu_direct_path : string;
  wu_media_key : string;
  wu_file_sha256 : string;
  wu_file_enc_sha256 : string;
  wu_file_length : Z;
  wu_media_key_timestamp : Z
}.
(** The messages the adapter sends. *)
Inductive WaOutbound :=
| OutText (text : string)
| OutImage (upload : WaUpload) (mimetype : string) (caption : option string)
| OutAudio (upload : WaUpload) (mimetype : string) (ptt : bool)
| OutDocument (upload : WaUpload) (mimetype file_name : string) (caption : option string)
| OutReaction (remote_jid : string) (from_me : bool) (id : string)
    (participant : option string) (text : string) (sender_timestamp_ms : Z).
Record UserInfo : Type := mkUserInfo {
  ui_jid : string;
  ui_lid : option string;
  ui_picture_id : option string
}.
Record ProfilePicture : Type := mkProfilePicture { pic_id : string; pic_url : string }.
Record GroupMetadata : Type := mkGroupMetadata {
  gm_id : string;
  gm_subject : string;
  gm_description : option string;
  gm_creator : option string;
  gm_subject_owner : option string;
  gm_creation_time : option Z;
  gm_size : option Z;
  gm_participants : list GroupParticipantProfile
}.

(** The calls on the client of a channel.  [parse_jid] gives the text of the
    parsed JID; a lookup that failed or timed out answers nothing.
    [wa_user_info] is the record of the JID asked for, or any of the answer. *)
Class WaClient := {
  parse_jid : string → option string;
  wa_send_message : string → string → WaOutbound → result string string;
  wa_upload : string → string → MediaType → result WaUpload string;
  wa_download : string → string → string → string → string → Z → MediaType →
                result string string;
  wa_user_info : string → string → option UserInfo;
  wa_business_description : string → string → option string;
  wa_profile_picture : string → string → option ProfilePicture;
  wa_group_metadata : string → string → result GroupMetadata string
}.

Section client.
Context `{Crypto} `{WaClient}.

Definition active_client (channel_id : string) (m : WhatsappManager) : result unit string :=
  if is_channel_active channel_id m then Ok tt
  else Err ("WhatsApp channel " +:+ channel_id +:+ " is not connected").
Definition destination (conversation_id : string) : result string string :=
  ok_or (parse_jid conversation_id)
    ("conversation_id " +:+ conversation_id +:+ " is not a WhatsApp JID").

Definition send_text (m : WhatsappManager) (channel_id conversation_id text : string)
  : result string string :=
  let? _ := active_client channel_id m in
  let? to := destination conversation_id in
  wa_send_message channel_id to (OutText text).

Definition send_media (m : WhatsappManager) (channel_id conversation_id : string)
    (payload : OutboundMediaMessage) : result string string :=
  let? _ := active_client channel_id m in
  let? to := destination conversation_id in
  let? wa_media_type :=
    (if decide (omm_media_type payload = "image") then Ok MtImage
     else if decide (omm_media_type payload = "audio") then Ok MtAudio
     else if decide (omm_media_type payload = "document") then Ok MtDocument
     else Err ("unsupported outbound media type " +:+ omm_media_type payload)) in
  let? upload :=
    match wa_upload channel_id (omm_bytes payload) wa_media_type with
    | Ok upload => Ok upload
    | Err _ => Err ("failed to upload " +:+ omm_media_type payload +:+ " to WhatsApp")
    end in
  let caption := opt_filter (λ c, negb (bool_decide (c = ""))) (trim <$> omm_caption payload) in
  wa_send_message channel_id to
    match wa_media_type with
    | MtImage => OutImage upload (omm_mime_type payload) caption
    | MtAudio => OutAudio upload (omm_mime_type payload) (omm_ptt payload)
    | _ => OutDocument upload (omm_mime_type payload)
             (unwrap_or (omm_filename payload) "rustzap-file"%string) caption
    end.

Definition send_reaction (m : WhatsappManager) (now_unix : Z)
    (channel_id conversation_id target_wa_message_id : string) (target_from_me : bool)
    (target_participant emoji : option string) : result string string :=
  let? _ := active_client channel_id m in
  let? to := destination conversation_id in
  wa_send_message channel_id to
    (OutReaction conversation_id target_from_me target_wa_message_id
       (if ends_with conversation_id "@g.us" then target_participant else None)
       (unwrap_or emoji "") (wrap_i64 (now_unix * 1000))).

Definition download_inbound_media (m : WhatsappManager) (channel_id : string)
    (descriptor : InboundMediaDescriptor) : result string string :=
  let? _ := active_client channel_id m in
  let? media_type :=
    (if decide (imd_media_type descriptor = "image") then Ok MtImage
     else if decide (imd_media_type descriptor = "audio") then Ok MtAudio
     else if decide (imd_media_type descriptor = "document") then Ok MtDocument
     else if decide (imd_media_type descriptor = "video") then Ok MtVideo
     else Err ("unsupported inbound media type " +:+ imd_media_type descriptor)) in
  let? media_key := ok_or (unb64 (imd_media_key_b64 descriptor))
                      "invalid inbound media_key"%string in
  let? file_sha256 := ok_or (unb64 (imd_file_sha256_b64 descriptor))
                        "invalid inbound file_sha256"%string in
  let? file_enc_sha256 := ok_or (unb64 (imd_file_enc_sha256_b64 descriptor))
                            "invalid inbound file_enc_sha256"%string in
  wa_download channel_id (imd_direct_path descriptor) media_key file_sha256 file_enc_sha256
    (imd_file_length descriptor) media_type.

(** ** Profiles *)
Definition phone_from_jid_str (jid : string) : option string :=
  let local := split_next "@" jid in
  if ends_with jid "@s.whatsapp.net" && all_str is_ascii_digit local then Some ("+" +:+ local) else None.

(** The first description that is not blank. *)
Definition business_description (channel_id : string) (candidates : list string)
  : option string :=
  find_map (λ jid,
    opt_filter (λ d, negb (bool_decide (d = "")))
      (trim <$> wa_business_description channel_id jid)) candidates.

Definition contact_profile (m : WhatsappManager) (channel_id jid : string)
  : result ContactProfile string :=
  let? _ := active_client channel_id m in
  let? requested := ok_or (parse_jid jid) (jid +:+ " is not a WhatsApp JID") in
  let profile := mkContactProfile requested None
    (bool_then (ends_with jid "@lid") jid) (phone_from_jid_str jid) None None None None in
  let profile :=
    match wa_user_info channel_id requested with
    | None => profile
    | Some info =>
      profile <| cp_phone_e164 := opt_or (phone_from_jid_str (ui_jid info)) (cp_phone_e164 profile) |>
              <| cp_resolved_jid := Some (ui_jid info) |>
              <| cp_lid := opt_or (ui_lid info) (cp_lid profile) |>
              <| cp_profile_picture_id := ui_picture_id info |>
    end in
  let candidates := match cp_resolved_jid profile ≫= parse_jid with
                    | Some resolved => [resolved; requested]
                    | None => [requested]
                    end in
  let profile := profile <| cp_business_description :=
                   business_description channel_id candidates |> in
  Ok match find_map (wa_profile_picture channel_id) candidates with
     | Some picture =>
       profile <| cp_profile_picture_id := Some (pic_id picture) |>
               <| cp_profile_picture_url := Some (pic_url picture) |>
     | None => profile
     end.

Definition group_profile (m : WhatsappManager) (channel_id group_jid : string)
  : result GroupProfile string :=
  let? _ := active_client channel_id m in
  let? requested := ok_or (parse_jid group_jid) (group_jid +:+ " is not a WhatsApp group JID") in
  let? metadata := wa_group_metadata channel_id requested in
  let non_empty := opt_filter (λ v, negb (bool_decide (v = ""%string))) in
  let picture := wa_profile_picture channel_id requested in
  Ok {| gprof_group_jid := gm_id metadata;
        gprof_subject := non_empty (Some (trim (gm_subject metadata)));
        gprof_description := non_empty (trim <$> gm_description metadata);
        gprof_owner_jid := gm_creator metadata;
        gprof_subject_owner_jid := gm_subject_owner metadata;
        gprof_created_at_wa_unix := gm_creation_time metadata;
        gprof_size := gm_size metadata;
        gprof_profile_picture_id := pic_id <$> picture;
        gprof_profile_picture_media_id := None;
        gprof_profile_picture_url := pic_url <$> picture;
        gprof_participants := gm_participants metadata |}.
End client.

(** ** Capabilities *)
Record FeatureCapability : Type := mkFeatureCapability {
  fc_supported : bool;
  fc_reason : option string;
  fc_requires_admin : option bool;
  fc_guaranteed : option bool
}.
Definition supported : FeatureCapability := mkFeatureCapability true None None None.
Definition unavailable (reason : string) : FeatureCapability :=
  mkFeatureCapability false (Some reason) None None.
Definition unsupported_group_admin (command : string) : FeatureCapability :=
  mkFeatureCapability false
    (Some (command +:+ " is not implemented by the active adapter")) (Some true) None.
Definition best_effort : FeatureCapability := mkFeatureCapability true None None (Some false).

Definition capabilities : gmap string FeatureCapability := list_to_map [
  ("send_text", supported);
  ("send_media", supported);
  ("send_reaction", supported);
  ("pair_code", unavailable "pair-code API is not available in the active adapter");
  ("pin_message", unavailable "pin is not available in the active adapter");
  ("star_message", unavailable "star is not available in the active adapter");
  ("mark_read", best_effort);
  ("read_receipts", best_effort);
  ("groups_manage", mkFeatureCapability false
     (Some "group admin commands are not implemented by the active adapter")
     (Some true) None);
  ("groups_read", supported);
  ("group_exit", unsupported_group_admin "group exit");
  ("group_member_add", unsupported_group_admin "group member add");
  ("group_member_remove", unsupported_group_admin "group member remove");
  ("group_invite_accept", unsupported_group_admin "group invite accept");
  ("group_member_promote", unsupported_group_admin "group member promote");
  ("group_member_demote", unsupported_group_admin "group member demote");
  ("group_join_request_accept", unsupported_group_admin "group join request accept");
  ("group_join_request_reject", unsupported_group_admin "group join request reject")]%string.
