(* ===== verification/Store.v ===== *)
(** * Application state (src/state.rs)

    [AppState]: the store behind its mutex, the WhatsApp manager, the event
    channels, the limiter and the counters.  A method of [AppState] is a
    computation in the state monad [M].  Locks are held for the whole of each
    modelled method or block, so a method is one atomic transition. *)
From S2P Require Import Prelude Text Json Env Config Models Jid Records Snapshot.
From S2P Require Import RateLimit EventBus Whatsapp.

Record RuntimeMetrics : Type := mkRuntimeMetrics {
  rm_rate_limited_total : Z;
  rm_webhook_delivery_attempts_total : Z;
  rm_webhook_delivery_successes_total : Z;
  rm_stt_requests_total : Z;
  rm_websocket_subscriptions_total : Z
}.
#[export] Instance eta_RuntimeMetrics : Eta RuntimeMetrics := λ r,
  mkRuntimeMetrics (rm_rate_limited_total r) (rm_webhook_delivery_attempts_total r)
    (rm_webhook_delivery_successes_total r) (rm_stt_requests_total r)
    (rm_websocket_subscriptions_total r).

(** [app_events_tx] is the log of the broadcast channel; [app_media_bytes] the
    objects of the byte store; [app_staging] the files of the temporary directory,
    by path; [app_persisted] the last snapshot given to
    the sink ([dev_state_path] or the metadata database), when
    [app_has_sink], and [app_snapshots] all those given to it so far, the last
    one first; [app_session_wipes] the session files removed from disk;
    [app_uuids] and [app_clock] count the UUIDs drawn and the
    clock readings made so far. *)
Record AppState : Type := mkAppState {
  app_config : AppConfig;
  app_inner : StoreInner;
  app_whatsapp : WhatsappManager;
  app_events_tx : list CommonEvent;
  app_event_bus : EventBusHandle;
  app_rate_limiter : RateLimiter;
  app_metrics : RuntimeMetrics;
  app_media_bytes : gmap string string;
  app_staging : gmap string string;
  app_has_sink : bool;
  app_persisted : option PersistedStore;
  app_snapshots : list PersistedStore;
  app_session_wipes : list string;
  app_uuids : nat;
  app_clock : nat
}.
#[export] Instance eta_AppState : Eta AppState := λ r,
  mkAppState (app_config r) (app_inner r) (app_whatsapp r) (app_events_tx r)
    (app_event_bus r) (app_rate_limiter r) (app_metrics r) (app_media_bytes r)
    (app_staging r) (app_has_sink r) (app_persisted r) (app_snapshots r)
    (app_session_wipes r) (app_uuids r) (app_clock r).

Abbreviation M A := (ST AppState A).

Section store.
Context `{Env}.

(** A new process: its event bus, and the snapshot it starts from. *)
Definition app_with (config : AppConfig) (has_sink : bool) (bus : EventBusHandle)
    (loaded : option PersistedStore) : AppState := {|
  app_config := config;
  app_inner := match loaded with Some p => into_inner p | None => empty_store end;
  app_whatsapp := default_manager;
  app_events_tx := [];
  app_event_bus := bus;
  app_rate_limiter := ∅;
  app_metrics := mkRuntimeMetrics 0 0 0 0 0;
  app_media_bytes := ∅;
  app_staging := ∅;
  app_has_sink := has_sink;
  app_persisted := None;
  app_snapshots := [];
  app_session_wipes := [];
  app_uuids := 0;
  app_clock := 0
|}.
(** [AppState::new]: an in-memory deployment. *)
Definition app_new (config : AppConfig) (has_sink : bool) (loaded : option PersistedStore)
  : AppState :=
  app_with config has_sink (local_handle (cfg_event_bus config) (cfg_kafka config)) loaded.

(** What a process finds when it starts: the objects and files the one before
    left, and the clock and the UUIDs, which go on. *)
Definition outlives (before new : AppState) : AppState :=
  new <| app_media_bytes := app_media_bytes before |> <| app_staging := app_staging before |>
      <| app_session_wipes := app_session_wipes before |>
      <| app_snapshots := app_snapshots before |>
      <| app_uuids := app_uuids before |> <| app_clock := app_clock before |>.

(** ** Primitive effects *)
(** [OffsetDateTime::now_utc()] *)
Definition now_utc : M time := λ s,
  (now_utc_at (app_clock s), s <| app_clock ::= S |>).
(** [Uuid::now_v7().simple()] *)
Definition fresh_uuid : M string := λ s,
  (uuid_simple (app_uuids s), s <| app_uuids ::= S |>).
(** [Uuid::now_v7().to_string()] *)
Definition fresh_uuid_hyphenated : M string := λ s,
  (uuid_hyphenated (app_uuids s), s <| app_uuids ::= S |>).
(** [format!("{prefix}{}", Uuid::now_v7().simple())] *)
Definition fresh_id (prefix : string) : M string :=
  let! u := fresh_uuid in ret (prefix +:+ u).

Definition get_inner : M StoreInner := gets app_inner.
Definition get_config : M AppConfig := gets app_config.
Definition modify_inner (f : StoreInner → StoreInner) : M unit :=
  modify (λ s, s <| app_inner ::= f |>).
Definition modify_whatsapp (f : WhatsappManager → WhatsappManager) : M unit :=
  modify (λ s, s <| app_whatsapp ::= f |>).

(** [persist_locked]: best effort, failures of the sink are only logged. *)
Definition persist_locked : M unit := modify (λ s,
  if app_has_sink s
  then s <| app_persisted := Some (from_inner (app_inner s)) |>
         <| app_snapshots ::= λ l, from_inner (app_inner s) :: l |>
  else s).

(** [eventbus::new_event] *)
Definition make_event (event_type project_id company_id : string)
    (channel_id conversation_id message_id : option string)
    (conversation_seq : option Z) (payload : Value) : M CommonEvent :=
  let! now := now_utc in
  let! event_uuid := fresh_uuid in
  let! trace_uuid := fresh_uuid in
  let! corr_uuid := fresh_uuid in
  ret (new_event now event_uuid trace_uuid corr_uuid event_type project_id company_id
         channel_id conversation_id message_id conversation_seq payload).

(** [push_event_inner]: broadcast, hand to the bus, append to the log. *)
Definition push_event_inner (event : CommonEvent) : M unit := modify (λ s,
  s <| app_events_tx ::= (λ l, l ++ [event]) |>
    <| app_event_bus ::= (λ b, publish_background b event) |>
    <| app_inner ::= (λ i, i <| st_events ::= (λ l, l ++ [event]) |>) |>).

(** [push_event(new_event(..))] *)
Definition emit (event_type project_id company_id : string)
    (channel_id conversation_id message_id : option string)
    (conversation_seq : option Z) (payload : Value) : M unit :=
  let! event := make_event event_type project_id company_id channel_id conversation_id
                  message_id conversation_seq payload in
  push_event_inner event.

(** [push_event]: under its own lock, with a snapshot. *)
Definition push_event (event : CommonEvent) : M unit :=
  push_event_inner event;;; persist_locked.

(** [eventbus::dirty_signal] *)
Definition dirty_signal (project_id company_id channel_id conversation_id : string)
    (to_seq : Z) (reason : string) (priority : Z) : M CommonEvent :=
  make_event "conversation.dirty" project_id company_id (Some channel_id)
    (Some conversation_id) None (Some to_seq)
    (json! { "to_seq" ~> to_seq, "reason" ~> reason, "priority" ~> priority }).

(** [DirtyRecord::updated] *)
Definition dirty_updated (d : DirtyRecord) (now : time) : DirtyRecord :=
  d <| dirty_available_at ::= (λ t, Z.min t now) |>.

Definition mark_dirty_record (now : time) (project_id company_id conversation_id : string)
    (max_seq : Z) (inner : StoreInner) : StoreInner :=
  let key := (project_id, company_id, conversation_id) in
  let record :=
    match st_dirty inner !! key with
    | Some d => dirty_updated (d <| dirty_max_seq ::= (λ m, Z.max m max_seq) |>) now
    | None =>
      {| dirty_conversation_id := conversation_id;
         dirty_max_seq := max_seq;
         dirty_reason := "new_message";
         dirty_priority := 100;
         dirty_available_at := now;
         dirty_lease_token := None;
         dirty_locked_until := None |}
    end in
  inner <| st_dirty ::= <[key := record]> |>.

Definition mark_dirty_inner (project_id company_id conversation_id : string)
    (max_seq : Z) (channel_id : string) : M unit :=
  let! now := now_utc in
  modify_inner (mark_dirty_record now project_id company_id conversation_id max_seq);;;
  let! event := dirty_signal project_id company_id channel_id conversation_id max_seq
                  "new_message" 100 in
  push_event_inner event.

(** ** Running the primitives *)
Lemma value_of_now s : value_of now_utc s = now_utc_at (app_clock s).
Proof. done. Qed.
Lemma state_of_now s : state_of now_utc s = s <| app_clock ::= S |>.
Proof. done. Qed.
Lemma value_of_uuid s : value_of fresh_uuid s = uuid_simple (app_uuids s).
Proof. done. Qed.
Lemma state_of_uuid s : state_of fresh_uuid s = s <| app_uuids ::= S |>.
Proof. done. Qed.
Lemma value_of_inner s : value_of get_inner s = app_inner s.
Proof. done. Qed.
Lemma state_of_inner s : state_of get_inner s = s.
Proof. done. Qed.
Lemma persist_locked_inner s : app_inner (state_of persist_locked s) = app_inner s.
Proof. unfold persist_locked, state_of, modify; simpl; by destruct (app_has_sink s). Qed.
Lemma persist_locked_clock s : app_clock (state_of persist_locked s) = app_clock s.
Proof. unfold persist_locked, state_of, modify; simpl; by destruct (app_has_sink s). Qed.
Lemma state_of_modify_inner f s : state_of (modify_inner f) s = s <| app_inner ::= f |>.
Proof. done. Qed.
End store.

Create Rewrite HintDb run.
#[export] Hint Rewrite @bind_run @value_of_now @state_of_now @value_of_uuid @state_of_uuid
  @value_of_inner @state_of_inner @state_of_modify_inner : run.
