(* ===== verification/Contacts.v ===== *)
(** * Contacts and groups (src/state.rs)

    The address book of the store: contact records and their aliases (a
    contact is known under its phone JID and under its LID), group records and
    members, and the resolution of what a caller writes (a JID, a LID, a phone
    number) to the identifier a record is stored under.  Everything here is a
    function on [StoreInner]. *)
From S2P Require Import Prelude Text Json Env Errors Models Jid Records Whatsapp.

Record ContactUpsertInput : Type := mkContactUpsertInput {
  cu_project_id : string;
  cu_company_id : string;
  cu_channel_id : option string;
  cu_contact_id : string;
  cu_push_name : option string;
  cu_profile_picture_url : option string;
  cu_now : time
}.
#[export] Instance eta_ContactUpsertInput : Eta ContactUpsertInput := λ r,
  mkContactUpsertInput (cu_project_id r) (cu_company_id r) (cu_channel_id r)
    (cu_contact_id r) (cu_push_name r) (cu_profile_picture_url r) (cu_now r).

Record ContactEnrichmentInput : Type := mkContactEnrichmentInput {
  ce_project_id : string;
  ce_company_id : string;
  ce_channel_id : option string;
  ce_contact_id : string;
  ce_push_name : option string;
  ce_profile : ContactProfile;
  ce_now : time;
  ce_profile_lookup_succeeded : bool
}.
#[export] Instance eta_ContactEnrichmentInput : Eta ContactEnrichmentInput := λ r,
  mkContactEnrichmentInput (ce_project_id r) (ce_company_id r) (ce_channel_id r)
    (ce_contact_id r) (ce_push_name r) (ce_profile r) (ce_now r)
    (ce_profile_lookup_succeeded r).

(** [value.filter(|value| !value.trim().is_empty())] *)
Definition non_blank (value : option string) : option string :=
  opt_filter (λ v, negb (is_blank v)) value.

Definition contact_phone_number (contact : ContactRecord) : option string :=
  opt_or (ct_phone_e164 contact ≫= phone_number_from_e164)
    (opt_or (ct_canonical_jid contact ≫= phone_number_from_jid)
      (phone_number_from_jid (ct_id contact))).

(** ** Upserting a contact *)
Definition upsert_display_name (input : ContactUpsertInput) : string :=
  unwrap_or (opt_or (non_blank (cu_push_name input)) (phone_from_jid (cu_contact_id input)))
    (display_name_for_jid (cu_contact_id input)).

(** The record [or_insert_with] creates. *)
Definition new_contact (input : ContactUpsertInput) : ContactRecord :=
  let id := cu_contact_id input in
  {| ct_id := id;
     ct_canonical_jid := bool_then (negb (ends_with id "@lid")) id;
     ct_lid := bool_then (ends_with id "@lid") id;
     ct_project_id := cu_project_id input;
     ct_company_id := cu_company_id input;
     ct_channel_account_id := cu_channel_id input;
     ct_phone_e164 := phone_from_jid id;
     ct_push_name := cu_push_name input;
     ct_display_name := upsert_display_name input;
     ct_profile_picture_media_id := None;
     ct_business_description := None;
     ct_profile_lookup_attempted_at := None;
     ct_profile_lookup_failed_at := None;
     ct_profile_lookup_failure_count := 0;
     ct_avatar_url := cu_profile_picture_url input;
     ct_profile_picture_url := cu_profile_picture_url input;
     ct_first_contact_at := cu_now input;
     ct_last_contact_at := cu_now input |}.

(** The assignments made to the entry, new or old. *)
Definition touch_contact (input : ContactUpsertInput) (entry : ContactRecord) : ContactRecord :=
  let entry := entry <| ct_project_id := cu_project_id input |>
                     <| ct_company_id := cu_company_id input |> in
  let entry := match cu_channel_id input with
               | Some channel_id => entry <| ct_channel_account_id := Some channel_id |>
               | None => entry end in
  let entry := entry <| ct_last_contact_at := cu_now input |> in
  let entry := match phone_from_jid (cu_contact_id input) with
               | Some phone => entry <| ct_phone_e164 := Some phone |>
               | None => entry end in
  let entry := match non_blank (cu_push_name input) with
               | Some push_name =>
                 entry <| ct_push_name := Some push_name |> <| ct_display_name := push_name |>
               | None =>
                 if decide (ct_display_name entry = ct_id entry)
                 then entry <| ct_display_name := upsert_display_name input |>
                 else entry end in
  match cu_profile_picture_url input with
  | Some url => entry <| ct_avatar_url := Some url |> <| ct_profile_picture_url := Some url |>
  | None => entry
  end.

Definition upsert_contact_inner (inner : StoreInner) (input : ContactUpsertInput)
  : ContactRecord * StoreInner :=
  let entry := touch_contact input
    (default (new_contact input) (st_contacts inner !! cu_contact_id input)) in
  (entry, inner <| st_contacts ::= <[cu_contact_id input := entry]> |>).

(** ** What the alternative JID of a sender says about a contact *)
Definition contact_profile_from_alt (contact_id : string) (alt_jid : option string)
  : option ContactProfile :=
  match opt_filter (λ v, negb (bool_decide (v = contact_id)))
          (opt_filter (λ v, negb (bool_decide (v = ""))) (trim <$> alt_jid)) with
  | None => None
  | Some alt_jid =>
    let canonical_jid :=
      find (λ jid, bool_decide (is_Some (phone_from_jid jid))) [contact_id; alt_jid] in
    let lid := find (λ jid, ends_with jid "@lid") [contact_id; alt_jid] in
    let phone_e164 :=
      opt_or (canonical_jid ≫= phone_from_jid)
        (opt_or (phone_from_jid contact_id) (phone_from_jid alt_jid)) in
    match canonical_jid, lid, phone_e164 with
    | None, None, None => None
    | _, _, _ =>
      Some {| cp_requested_jid := contact_id;
              cp_resolved_jid := canonical_jid;
              cp_lid := lid;
              cp_phone_e164 := phone_e164;
              cp_business_description := None;
              cp_profile_picture_id := None;
              cp_profile_picture_media_id := None;
              cp_profile_picture_url := None |}
    end
  end.

Definition merge_contact_profile_alt (profile : ContactProfile) (alt_jid : option string)
  : ContactProfile :=
  match contact_profile_from_alt (cp_requested_jid profile) alt_jid with
  | Some fallback =>
    profile <| cp_resolved_jid ::= (λ o, opt_or o (cp_resolved_jid fallback)) |>
            <| cp_lid ::= (λ o, opt_or o (cp_lid fallback)) |>
            <| cp_phone_e164 ::= (λ o, opt_or o (cp_phone_e164 fallback)) |>
  | None => profile
  end.

(** ** Enriching a contact from its WhatsApp profile *)
Definition enrich_canonical_jid (input : ContactEnrichmentInput) : option string :=
  opt_or (opt_filter (λ jid, negb (ends_with jid "@lid")) (cp_resolved_jid (ce_profile input)))
    (bool_then (negb (ends_with (ce_contact_id input) "@lid")) (ce_contact_id input)).
Definition enrich_lid (input : ContactEnrichmentInput) : option string :=
  opt_or (cp_lid (ce_profile input))
    (bool_then (ends_with (ce_contact_id input) "@lid") (ce_contact_id input)).

(** The assignments made to the entry of the contact itself. *)
Definition enrich_entry (input : ContactEnrichmentInput) (entry : ContactRecord)
  : ContactRecord :=
  let profile := ce_profile input in
  let canonical_jid := enrich_canonical_jid input in
  let phone_e164 := opt_or (cp_phone_e164 profile) (canonical_jid ≫= phone_from_jid) in
  let entry := entry <| ct_canonical_jid := canonical_jid |> <| ct_lid := enrich_lid input |> in
  let entry := match phone_e164 with
               | Some phone => entry <| ct_phone_e164 := Some phone |>
               | None => entry end in
  let entry := match cp_profile_picture_url profile with
               | Some url => entry <| ct_avatar_url := Some url |>
                                   <| ct_profile_picture_url := Some url |>
               | None => entry end in
  let entry := match cp_profile_picture_media_id profile with
               | Some media_id =>
                 entry <| ct_profile_picture_media_id ::= (λ existing,
                   opt_or (rustzap_profile_picture_media_id (Some media_id))
                          (rustzap_profile_picture_media_id existing)) |>
               | None => entry end in
  let entry := if ce_profile_lookup_succeeded input
               then entry <| ct_profile_lookup_attempted_at := Some (ce_now input) |>
                          <| ct_profile_lookup_failed_at := None |>
                          <| ct_profile_lookup_failure_count := 0 |>
               else entry in
  let entry := match clean_optional_text (cp_business_description profile) with
               | Some description => entry <| ct_business_description := Some description |>
               | None => entry end in
  let entry :=
    match non_blank (ce_push_name input) with
    | Some push_name =>
      entry <| ct_push_name := Some push_name |> <| ct_display_name := push_name |>
    | None =>
      match phone_e164 with
      | Some phone =>
        if bool_decide (ct_display_name entry = ct_id entry)
           || ends_with (ct_display_name entry) "@lid"
           || bool_decide (ct_display_name entry = display_name_for_jid (ce_contact_id input))
        then entry <| ct_display_name := phone |>
        else entry
      | None => entry
      end
    end in
  entry <| ct_last_contact_at := ce_now input |>.

(** [for alias in [canonical_jid, lid].into_iter().flatten()]: the record is
    copied under each other name of the contact. *)
Definition insert_alias (contact_id : string) (enriched : ContactRecord) (alias : option string)
    (inner : StoreInner) : StoreInner :=
  match alias with
  | Some alias =>
    if decide (alias = contact_id) then inner
    else inner <| st_contacts ::= <[alias := enriched <| ct_id := alias |>]> |>
  | None => inner
  end.

Definition enrich_contact_inner (inner : StoreInner) (input : ContactEnrichmentInput)
  : ContactRecord * StoreInner :=
  let '(upserted, inner) := upsert_contact_inner inner
    {| cu_project_id := ce_project_id input;
       cu_company_id := ce_company_id input;
       cu_channel_id := ce_channel_id input;
       cu_contact_id := ce_contact_id input;
       cu_push_name := ce_push_name input;
       cu_profile_picture_url := cp_profile_picture_url (ce_profile input);
       cu_now := ce_now input |} in
  let enriched := enrich_entry input upserted in
  let inner := inner <| st_contacts ::= <[ce_contact_id input := enriched]> |> in
  let inner := insert_alias (ce_contact_id input) enriched (enrich_canonical_jid input) inner in
  (enriched, insert_alias (ce_contact_id input) enriched (enrich_lid input) inner).

Definition upsert_contact_with_alt_inner (inner : StoreInner) (contact : ContactUpsertInput)
    (alt_jid : option string) : ContactRecord * StoreInner :=
  match contact_profile_from_alt (cu_contact_id contact) alt_jid with
  | Some profile =>
    let profile := match cu_profile_picture_url contact with
                   | Some url => profile <| cp_profile_picture_url := Some url |>
                   | None => profile end in
    enrich_contact_inner inner
      {| ce_project_id := cu_project_id contact;
         ce_company_id := cu_company_id contact;
         ce_channel_id := cu_channel_id contact;
         ce_contact_id := cu_contact_id contact;
         ce_push_name := cu_push_name contact;
         ce_profile := profile;
         ce_now := cu_now contact;
         ce_profile_lookup_succeeded := false |}
  | None => upsert_contact_inner inner contact
  end.

(** ** Aliases *)
Definition some_list {A} (o : option A) : list A := match o with Some a => [a] | None => [] end.

Definition contact_aliases (contact : ContactRecord) (profile : ContactProfile) : list string :=
  dedup (sort_strings ([ct_id contact; cp_requested_jid profile]
    ++ some_list (ct_canonical_jid contact) ++ some_list (ct_lid contact)
    ++ some_list (cp_resolved_jid profile))).

Definition contact_aliases_for_record (contact : ContactRecord) : list string :=
  dedup (sort_strings ([ct_id contact]
    ++ some_list (ct_canonical_jid contact) ++ some_list (ct_lid contact))).

(** ** When a profile may be looked up again *)
Definition CONTACT_PROFILE_REFRESH_INTERVAL : time := hours 24.
Definition CONTACT_PROFILE_FAILURE_RETRY_INTERVAL : time := minutes 30.

Definition contact_profile_refresh_due (contact : ContactRecord) (now : time) (force : bool)
  : bool :=
  if force then true else
  match ct_profile_lookup_attempted_at contact with
  | None => true
  | Some last_attempt =>
    let retry_after := if decide (is_Some (ct_profile_lookup_failed_at contact))
                       then CONTACT_PROFILE_FAILURE_RETRY_INTERVAL
                       else CONTACT_PROFILE_REFRESH_INTERVAL in
    bool_decide (last_attempt ≤ now - retry_after)
  end.

(** ** Resolving what a caller wrote *)
Section resolve.
Context `{Env}.

(** [sort_by_key(|id| (!id.ends_with("@lid"), id.clone()))]: LIDs first. *)
Definition lid_first (a b : string) : bool :=
  match ends_with a "@lid", ends_with b "@lid" with
  | true, false => true
  | false, true => false
  | _, _ => str_le a b
  end.

Definition contact_has_phone (project_id company_id phone_number : string)
    (contact : ContactRecord) : bool :=
  contact_of_tenant contact project_id company_id
  && bool_decide (contact_phone_number contact = Some phone_number).

Definition contact_id_for_phone_number_inner (inner : StoreInner)
    (project_id company_id phone_number : string) : option string :=
  head (sort_by lid_first (ct_id <$>
    retain_list (contact_has_phone project_id company_id phone_number)
      (hm_values (st_contacts inner)))).

(** The phone number a reference denotes, if any. *)
Definition phone_of_reference (trimmed : string) : option string :=
  opt_or (phone_number_from_jid trimmed)
    (if contains_char "@" trimmed then None else phone_number_from_value trimmed).

Definition resolve_contact_id_inner (inner : StoreInner)
    (project_id company_id contact_id : string) : string :=
  let trimmed := trim contact_id in
  if is_some_and (st_contacts inner !! trimmed)
       (λ c, contact_of_tenant c project_id company_id)
  then trimmed
  else
    match phone_of_reference trimmed ≫=
            contact_id_for_phone_number_inner inner project_id company_id with
    | Some contact_id => contact_id
    | None => trimmed
    end.

(** [inner.contacts.get(id).filter(tenant)] *)
Definition tenant_contact (inner : StoreInner) (project_id company_id contact_id : string)
  : option ContactRecord :=
  opt_filter (λ c, contact_of_tenant c project_id company_id) (st_contacts inner !! contact_id).

Definition contact_not_found (contact_id : string) : ApiError :=
  NotFound ("contact " +:+ contact_id +:+ " not found").

Definition contact_aliases_for_inner (inner : StoreInner)
    (project_id company_id contact_id : string) : result (list string) ApiError :=
  let contact_id := resolve_contact_id_inner inner project_id company_id contact_id in
  ok_or (contact_aliases_for_record <$> tenant_contact inner project_id company_id contact_id)
    (contact_not_found contact_id).

Definition connected_channel_for_project_company (inner : StoreInner)
    (project_id company_id : string) : option string :=
  find_map (λ '(id, channel),
    bool_then
      (bool_decide (get_str channel "project_id" = Some project_id)
       && bool_decide (get_str channel "company_id" = Some company_id)
       && bool_decide (get_str channel "status" = Some "connected")) id)
    (hm_iter (st_channels inner)).

(** ** The JSON of a contact *)
Definition contact_json (contact : ContactRecord) : Value :=
  let phone_number := contact_phone_number contact in
  json! {
    "id" ~> unwrap_or phone_number (ct_id contact),
    "technical_id" ~> ct_id contact,
    "canonical_jid" ~> ct_canonical_jid contact,
    "lid" ~> ct_lid contact,
    "phone_e164" ~> ct_phone_e164 contact,
    "phone_number" ~> phone_number,
    "push_name" ~> ct_push_name contact,
    "display_name" ~> ct_display_name contact,
    "profile_picture_media_id" ~>
      rustzap_profile_picture_media_id (ct_profile_picture_media_id contact),
    "business_description" ~> ct_business_description contact,
    "avatar_url" ~> ct_avatar_url contact,
    "profile_picture_url" ~> ct_profile_picture_url contact,
    "first_contact_at" ~> ts (ct_first_contact_at contact),
    "last_contact_at" ~> ts (ct_last_contact_at contact)
  }.
End resolve.
