(* ===== verification/Groups.v ===== *)
(** * Group records and members (src/state.rs) *)
From S2P Require Import Prelude Text Json Env Models Jid Records Whatsapp Contacts.

Definition empty_group_record : GroupRecord :=
  mkGroupRecord None None None None None None None None None None None.

(** The part of a group record a conversation shows. *)
Definition group_subject_or_default (group_id : string) (group : option GroupRecord) : string :=
  unwrap_or (group ≫= gr_subject) (group_subject_for_jid group_id).
Definition group_picture (group : option GroupRecord) : option string :=
  group ≫= λ g, rustzap_profile_picture_media_id (gr_profile_picture_media_id g).

Definition apply_group_record_to_conversation (group_id : string) (group : option GroupRecord)
    (conversation : Conversation) : Conversation :=
  conversation
    <| conv_conversation_type := "group" |>
    <| conv_contact_id := None |>
    <| conv_group_id := Some group_id |>
    <| conv_display_phone := None |>
    <| conv_phone_number := None |>
    <| conv_display_name := Some (group_subject_or_default group_id group) |>
    <| conv_profile_picture_media_id := group_picture group |>
    <| conv_avatar_url := group ≫= gr_avatar_url |>
    <| conv_profile_picture_url := group ≫= gr_profile_picture_url |>.

Definition group_conversation (now : time) (project_id company_id channel_id group_id : string)
  : Conversation := {|
  conv_id := group_id;
  conv_project_id := project_id;
  conv_company_id := company_id;
  conv_channel_account_id := channel_id;
  conv_conversation_type := "group";
  conv_contact_id := None;
  conv_group_id := Some group_id;
  conv_display_name := Some (group_subject_for_jid group_id);
  conv_display_phone := None;
  conv_phone_number := None;
  conv_profile_picture_media_id := None;
  conv_avatar_url := None;
  conv_profile_picture_url := None;
  conv_last_seq := 0;
  conv_last_message_at := None;
  conv_unread_count := 0;
  conv_is_archived := false;
  conv_is_muted := false;
  conv_is_pinned := false;
  conv_control_mode := "manual";
  conv_created_at := now;
  conv_updated_at := now
|}.

Definition group_participant_display_name (inner : StoreInner)
    (participant : GroupParticipantProfile) : string :=
  unwrap_or
    (opt_or (ct_display_name <$> st_contacts inner !! gp_contact_id participant)
            (gp_phone_jid participant ≫= phone_from_jid))
    (display_name_for_jid (gp_contact_id participant)).

(** The members of a group: [entry(group_id).or_default()]. *)
Definition members_of (inner : StoreInner) (group_id : string) : gmap string GroupMemberRecord :=
  default ∅ (st_group_members inner !! group_id).
Definition put_member (group_id contact_id : string) (member : GroupMemberRecord)
    (inner : StoreInner) : StoreInner :=
  inner <| st_group_members ::= <[group_id := <[contact_id := member]> (members_of inner group_id)]> |>.

Definition upsert_group_member_inner (group_id contact_id display_name : string) (now : time)
    (inner : StoreInner) : StoreInner :=
  put_member group_id contact_id
    match members_of inner group_id !! contact_id with
    | Some member =>
      member <| gm_wa_jid := Some contact_id |>
             <| gm_phone_e164 := phone_from_jid contact_id |>
             <| gm_display_name := display_name |>
             <| gm_updated_at := now |>
             <| gm_last_seen_at := now |>
    | None =>
      {| gm_group_id := group_id;
         gm_contact_id := contact_id;
         gm_wa_jid := Some contact_id;
         gm_phone_e164 := phone_from_jid contact_id;
         gm_display_name := display_name;
         gm_role := "member";
         gm_is_admin := false;
         gm_joined_at := now;
         gm_updated_at := now;
         gm_last_seen_at := now |}
    end inner.

Definition member_role (contact_id : string) (owner_jid : option string) (is_admin : bool)
  : string :=
  if decide (owner_jid = Some contact_id) then "owner"
  else if is_admin then "admin" else "member".

Definition upsert_group_member_metadata_inner (group_id contact_id : string)
    (phone_jid : option string) (display_name : string) (owner_jid : option string)
    (is_admin : bool) (now : time) (inner : StoreInner) : StoreInner :=
  let role := member_role contact_id owner_jid is_admin in
  let phone_e164 := opt_or (phone_jid ≫= phone_from_jid) (phone_from_jid contact_id) in
  let admin := is_admin || bool_decide (role = "owner") in
  put_member group_id contact_id
    match members_of inner group_id !! contact_id with
    | Some member =>
      let member := member <| gm_wa_jid := Some contact_id |>
                           <| gm_phone_e164 := phone_e164 |> in
      let member := if should_replace_group_member_name (gm_display_name member) contact_id
                    then member <| gm_display_name := display_name |> else member in
      member <| gm_role := role |> <| gm_is_admin := admin |>
             <| gm_updated_at := now |> <| gm_last_seen_at := now |>
    | None =>
      {| gm_group_id := group_id;
         gm_contact_id := contact_id;
         gm_wa_jid := Some contact_id;
         gm_phone_e164 := phone_e164;
         gm_display_name := display_name;
         gm_role := role;
         gm_is_admin := admin;
         gm_joined_at := now;
         gm_updated_at := now;
         gm_last_seen_at := now |}
    end inner.

Section group_json.
Context `{Env}.

Definition clamp_u32 (n : nat) : Z := Z.min (Z.of_nat n) u32_max.

Definition group_json (inner : StoreInner) (conversation : Conversation) : Value :=
  let id := conv_id conversation in
  let members := size (members_of inner id) in
  let admins := length (retain_list gm_is_admin (hm_values (members_of inner id))) in
  let group := st_groups inner !! id in
  json! {
    "id" ~> id,
    "subject" ~> group_subject_or_default id group,
    "description" ~> (group ≫= gr_description),
    "owner_jid" ~> (group ≫= gr_owner_jid),
    "subject_owner_jid" ~> (group ≫= gr_subject_owner_jid),
    "created_at_wa" ~> (ts <$> (group ≫= gr_created_at_wa)),
    "members_count" ~> unwrap_or (group ≫= gr_members_count) (clamp_u32 members),
    "admins_count" ~> unwrap_or (group ≫= gr_admins_count) (clamp_u32 admins),
    "last_message_at" ~> (ts <$> conv_last_message_at conversation),
    "conversation_id" ~> id,
    "profile_picture_media_id" ~> group_picture group,
    "avatar_url" ~> (group ≫= gr_avatar_url),
    "profile_picture_url" ~> (group ≫= gr_profile_picture_url)
  }.

Definition group_member_json (member : GroupMemberRecord) : Value :=
  let phone_number :=
    opt_or (gm_phone_e164 member ≫= phone_number_from_e164)
      (opt_or (gm_wa_jid member ≫= phone_number_from_jid)
        (phone_number_from_jid (gm_contact_id member))) in
  json! {
    "group_id" ~> gm_group_id member,
    "contact_id" ~> unwrap_or phone_number (gm_contact_id member),
    "technical_contact_id" ~> gm_contact_id member,
    "wa_jid" ~> gm_wa_jid member,
    "phone_e164" ~> gm_phone_e164 member,
    "phone_number" ~> phone_number,
    "name" ~> gm_display_name member,
    "display_name" ~> gm_display_name member,
    "role" ~> gm_role member,
    "is_admin" ~> gm_is_admin member,
    "joined_at" ~> ts (gm_joined_at member),
    "updated_at" ~> ts (gm_updated_at member),
    "last_seen_at" ~> ts (gm_last_seen_at member)
  }.

Definition group_profile_refresh_key (runtime : ChannelRuntime) (group_id : string) : string :=
  rt_project_id runtime +:+ "|" +:+ rt_company_id runtime +:+ "|" +:+ rt_channel_id runtime
    +:+ "|" +:+ group_id.
End group_json.
