(* ===== verification/Conversations.v ===== *)
(** * Conversations (src/state.rs)

    Reading conversations: the fields that are only computed for the caller,
    the resolution of a reference to a stored conversation, and the tenant
    test every read goes through. *)
From S2P Require Import Prelude Text Json Env Errors Models Jid Records Contacts Groups.

Section conversations.
Context `{Env}.

Definition conversation_phone_number_for_inner (inner : StoreInner)
    (conversation : Conversation) : option string :=
  if decide (conv_conversation_type conversation = "group") then None else
  opt_or (conv_phone_number conversation)
    (opt_or (conv_display_phone conversation ≫= phone_number_from_e164)
      (opt_or (phone_number_from_jid (conv_id conversation))
        (opt_or (conv_contact_id conversation ≫= λ contact_id,
                   st_contacts inner !! contact_id ≫= contact_phone_number)
          (st_contacts inner !! conv_id conversation ≫= contact_phone_number)))).

Definition apply_public_conversation_fields (inner : StoreInner)
    (conversation : Conversation) : Conversation :=
  let conversation := conversation
    <| conv_profile_picture_media_id ::= rustzap_profile_picture_media_id |> in
  if decide (conv_conversation_type conversation = "group")
  then conversation <| conv_phone_number := None |>
  else match conversation_phone_number_for_inner inner conversation with
       | Some phone_number =>
         let conversation :=
           match conv_display_phone conversation with
           | None => conversation <| conv_display_phone := Some ("+" +:+ phone_number) |>
           | Some _ => conversation
           end in
         conversation <| conv_phone_number := Some phone_number |>
       | None => conversation
       end.

Definition public_conversation_id (conversation : Conversation) : string :=
  unwrap_or (conv_phone_number conversation) (conv_id conversation).

(** A stored conversation as the API shows it: the common part of
    [conversations], [conversation] and [contact_conversations]. *)
Definition public_conversation (inner : StoreInner) (conversation : Conversation)
  : Conversation :=
  let conversation :=
    if decide (conv_conversation_type conversation = "group")
    then apply_group_record_to_conversation (conv_id conversation)
           (st_groups inner !! conv_id conversation) conversation
    else conversation in
  apply_public_conversation_fields inner conversation.

(** ** Resolution *)
Definition phone_aliases (inner : StoreInner) (project_id company_id phone_number : string)
  : list string :=
  dedup (sort_strings (
    ((retain_list (contact_has_phone project_id company_id phone_number)
        (hm_values (st_contacts inner))) ≫= λ contact,
       some_list (ct_lid contact) ++ some_list (ct_canonical_jid contact) ++ [ct_id contact])
    ++ [phone_to_jid phone_number])).

(** [inner.conversations.get(id).is_some_and(tenant)] *)
Definition has_conversation (inner : StoreInner) (project_id company_id : string)
    (conversation_id : string) : bool :=
  is_some_and (st_conversations inner !! conversation_id)
    (λ c, conversation_matches_tenant c project_id company_id).

Definition conversation_id_for_phone_number_inner (inner : StoreInner)
    (project_id company_id phone_number : string) : option string :=
  find (has_conversation inner project_id company_id)
    (phone_aliases inner project_id company_id phone_number).

Definition resolve_conversation_id_inner (inner : StoreInner)
    (project_id company_id conversation_id : string) : string :=
  let trimmed := trim conversation_id in
  if has_conversation inner project_id company_id trimmed then trimmed
  else match phone_of_reference trimmed with
       | Some phone_number =>
         unwrap_or (conversation_id_for_phone_number_inner inner project_id company_id
                      phone_number) (phone_to_jid phone_number)
       | None => trimmed
       end.

Definition conversation_not_found : ApiError := NotFound "conversation not found".

Definition conversation_for_inner (inner : StoreInner)
    (project_id company_id conversation_id : string) : result Conversation ApiError :=
  let conversation_id :=
    resolve_conversation_id_inner inner project_id company_id conversation_id in
  ok_or (opt_filter (λ c, conversation_matches_tenant c project_id company_id)
           (st_conversations inner !! conversation_id)) conversation_not_found.

(** ** Reads of [AppState]; a read leaves the store as it is *)
Definition last_message_desc (a b : Conversation) : bool :=
  match conv_last_message_at a, conv_last_message_at b with
  | _, None => true
  | None, Some _ => false
  | Some x, Some y => bool_decide (y ≤ x)
  end.

Definition conversations (inner : StoreInner) (project_id company_id : string)
  : list Conversation :=
  sort_by last_message_desc (public_conversation inner <$>
    retain_list (λ c, conversation_matches_tenant c project_id company_id)
      (hm_values (st_conversations inner))).

Definition conversation (inner : StoreInner) (project_id company_id conversation_id : string)
  : result Conversation ApiError :=
  map_result (public_conversation inner)
    (conversation_for_inner inner project_id company_id conversation_id).

Definition public_conversation_id_for_ref (inner : StoreInner)
    (project_id company_id conversation_id : string) : string :=
  match conversation inner project_id company_id conversation_id with
  | Ok c => public_conversation_id c
  | Err _ => conversation_id
  end.

(** The order of [Option<&str>], descending; [None] is the least. *)
Definition key_desc (key : string) (a b : Value) : bool :=
  match get_str a key, get_str b key with
  | _, None => true
  | None, Some _ => false
  | Some x, Some y => str_le y x
  end.

Definition contacts (inner : StoreInner) (project_id company_id : string) : list Value :=
  sort_by (key_desc "last_contact_at") (contact_json <$>
    retain_list (λ c, contact_of_tenant c project_id company_id)
      (hm_values (st_contacts inner))).

Definition contact (inner : StoreInner) (project_id company_id contact_id : string)
  : result Value ApiError :=
  let contact_id := resolve_contact_id_inner inner project_id company_id contact_id in
  ok_or (contact_json <$> tenant_contact inner project_id company_id contact_id)
    (contact_not_found contact_id).

Definition contact_by_phone (inner : StoreInner) (project_id company_id phone_e164 : string)
  : result Value ApiError :=
  let not_found := NotFound ("contact phone " +:+ phone_e164 +:+ " not found") in
  let? phone_number := ok_or (phone_number_from_value phone_e164)
                         (BadRequest "phone number is empty") in
  let? contact_id := ok_or (contact_id_for_phone_number_inner inner project_id company_id
                              phone_number) not_found in
  ok_or (contact_json <$> st_contacts inner !! contact_id) not_found.

(** The direct conversation of one of the aliases. *)
Definition direct_with (aliases : list string) (c : Conversation) : bool :=
  bool_decide (conv_id c ∈ aliases)
  || is_some_and (conv_contact_id c) (λ contact_id, bool_decide (contact_id ∈ aliases)).

Definition contact_in_conversation (inner : StoreInner) (aliases : list string)
    (c : Conversation) : bool :=
  if decide (conv_conversation_type c = "direct") then direct_with aliases c
  else is_some_and (conv_group_id c ≫= λ group_id, st_group_members inner !! group_id)
         (λ members, existsb (λ alias, bool_decide (is_Some (members !! alias))) aliases).

Definition contact_conversations (inner : StoreInner)
    (project_id company_id contact_id : string) : result (list Conversation) ApiError :=
  let? aliases := contact_aliases_for_inner inner project_id company_id contact_id in
  Ok (sort_by last_message_desc (public_conversation inner <$>
        retain_list (λ c, conversation_matches_tenant c project_id company_id
                          && contact_in_conversation inner aliases c)
          (hm_values (st_conversations inner)))).

Definition media_of_contact (inner : StoreInner) (aliases : list string) (m : MediaObject)
  : bool :=
  is_some_and (st_conversations inner !! media_conversation_id m)
    (λ c, bool_decide (conv_conversation_type c = "direct") && direct_with aliases c)
  || is_some_and (media_message_id m ≫= λ message_id, st_messages_by_id inner !! message_id
                    ≫= msg_sender_contact_id)
       (λ sender, bool_decide (sender ∈ aliases)).

Definition media_for_contact (inner : StoreInner) (project_id company_id contact_id : string)
  : result (list MediaObject) ApiError :=
  let? aliases := contact_aliases_for_inner inner project_id company_id contact_id in
  Ok (sort_by (λ a b, bool_decide (media_created_at b ≤ media_created_at a))
        (retain_list (λ m, media_of_tenant m project_id company_id
                           && media_of_contact inner aliases m)
           (hm_values (st_media inner)))).

Definition is_tenant_group (project_id company_id : string) (c : Conversation) : bool :=
  conversation_matches_tenant c project_id company_id
  && bool_decide (conv_conversation_type c = "group").

Definition groups (inner : StoreInner) (project_id company_id : string) : list Value :=
  sort_by (key_desc "last_message_at") (group_json inner <$>
    retain_list (is_tenant_group project_id company_id) (hm_values (st_conversations inner))).

Definition group (inner : StoreInner) (project_id company_id group_id : string)
  : result Value ApiError :=
  ok_or (group_json inner <$>
           opt_filter (is_tenant_group project_id company_id)
             (st_conversations inner !! group_id))
    (NotFound ("group " +:+ group_id +:+ " not found")).

Definition group_refresh_channel (inner : StoreInner) (project_id company_id group_id : string)
  : result (option string) ApiError :=
  let? c := ok_or (opt_filter (is_tenant_group project_id company_id)
                     (st_conversations inner !! group_id))
              (NotFound ("group " +:+ group_id +:+ " not found")) in
  Ok (opt_or (Some (conv_channel_account_id c))
        (connected_channel_for_project_company inner project_id company_id)).

Definition message (inner : StoreInner) (message_id : string) : result Message ApiError :=
  ok_or (st_messages_by_id inner !! message_id)
    (NotFound ("message " +:+ message_id +:+ " not found")).

Definition message_for_company (inner : StoreInner) (project_id company_id message_id : string)
  : result Message ApiError :=
  ok_or (opt_filter (λ m, message_of_tenant m project_id company_id)
           (st_messages_by_id inner !! message_id))
    (NotFound ("message " +:+ message_id +:+ " not found")).
End conversations.
