(* ===== verification/Messages.v ===== *)
(** * Messages (src/state.rs)

    The message log: recording a message (from the API, from a simulated
    inbound request, from WhatsApp), the two copies of every message
    ([messages_by_id] and [messages_by_conversation]) and the operations that
    update both, paging through a conversation, receipts, flags, reactions and
    the state of a conversation. *)
From S2P Require Import Prelude Text Json Errors Env Config Models Jid Records.
From S2P Require Import EventBus Whatsapp Store Contacts Groups Conversations.

(** The arguments of [record_message_inner]. *)
Record RecordArgs : Type := mkRecordArgs {
  rec_project_id : string;
  rec_company_id : string;
  rec_conversation_id : string;
  rec_direction : string;
  rec_message_type : string;
  rec_text : option string;
  rec_status : string;
  rec_quoted_message_id : option string;
  rec_channel_account_id : option string;
  rec_sender_contact_id : option string;
  rec_sender_display_name : option string;
  rec_sender_profile_picture_url : option string;
  rec_sent_by_external_user_id : option string
}.
#[export] Instance eta_RecordArgs : Eta RecordArgs := λ r,
  mkRecordArgs (rec_project_id r) (rec_company_id r) (rec_conversation_id r)
    (rec_direction r) (rec_message_type r) (rec_text r) (rec_status r)
    (rec_quoted_message_id r) (rec_channel_account_id r) (rec_sender_contact_id r)
    (rec_sender_display_name r) (rec_sender_profile_picture_url r)
    (rec_sent_by_external_user_id r).

Record WhatsappMessageInput : Type := mkWhatsappMessageInput {
  wmi_project_id : string;
  wmi_company_id : string;
  wmi_channel_id : string;
  wmi_conversation_id : string;
  wmi_contact_id : option string;
  wmi_contact_alt_jid : option string;
  wmi_contact_name : option string;
  wmi_direction : string;
  wmi_message_type : string;
  wmi_text : option string;
  wmi_status : string;
  wmi_wa_message_id : option string;
  wmi_sender_contact_id : option string;
  wmi_sender_alt_jid : option string;
  wmi_sender_name : option string;
  wmi_created_at_wa : time
}.
#[export] Instance eta_WhatsappMessageInput : Eta WhatsappMessageInput := λ r,
  mkWhatsappMessageInput (wmi_project_id r) (wmi_company_id r) (wmi_channel_id r)
    (wmi_conversation_id r) (wmi_contact_id r) (wmi_contact_alt_jid r)
    (wmi_contact_name r) (wmi_direction r) (wmi_message_type r) (wmi_text r)
    (wmi_status r) (wmi_wa_message_id r) (wmi_sender_contact_id r) (wmi_sender_alt_jid
    r) (wmi_sender_name r) (wmi_created_at_wa r).

Definition is_group_jid (id : string) : bool := ends_with id "@g.us".
Definition inbound (direction : string) : bool := bool_decide (direction = "inbound").
Definition outbound (direction : string) : bool := bool_decide (direction = "outbound").

Section messages.
Context `{Env}.

(** ** The profile a conversation shows: of its group or of its contact *)
Definition shown_name (is_group : bool) (conversation_id : string)
    (group : option GroupRecord) (contact : option ContactRecord) : option string :=
  if is_group then Some (group_subject_or_default conversation_id group)
  else ct_display_name <$> contact.
Definition shown_phone (is_group : bool) (contact : option ContactRecord) : option string :=
  if is_group then None else contact ≫= ct_phone_e164.
Definition shown_picture (is_group : bool) (group : option GroupRecord)
    (contact : option ContactRecord) : option string :=
  if is_group then group_picture group
  else contact ≫= λ c, rustzap_profile_picture_media_id (ct_profile_picture_media_id c).
Definition shown_avatar (is_group : bool) (group : option GroupRecord)
    (contact : option ContactRecord) : option string :=
  if is_group then group ≫= gr_avatar_url else contact ≫= ct_avatar_url.
Definition shown_picture_url (is_group : bool) (group : option GroupRecord)
    (contact : option ContactRecord) : option string :=
  if is_group then group ≫= gr_profile_picture_url else contact ≫= ct_profile_picture_url.

(** The conversation [or_insert_with] creates, for the first message of a
    conversation or for an upload into it. *)
Definition new_conversation (now : time) (project_id company_id conversation_id channel_id : string)
    (contact_id : option string) (group : option GroupRecord) (contact : option ContactRecord)
    (phone_number : option string) (control_mode : string) : Conversation :=
  let is_group := is_group_jid conversation_id in
  {| conv_id := conversation_id;
     conv_project_id := project_id;
     conv_company_id := company_id;
     conv_channel_account_id := channel_id;
     conv_conversation_type := if is_group then "group" else "direct";
     conv_contact_id := if is_group then None else contact_id;
     conv_group_id := bool_then is_group conversation_id;
     conv_display_name := shown_name is_group conversation_id group contact;
     conv_display_phone := shown_phone is_group contact;
     conv_phone_number := phone_number;
     conv_profile_picture_media_id := shown_picture is_group group contact;
     conv_avatar_url := shown_avatar is_group group contact;
     conv_profile_picture_url := shown_picture_url is_group group contact;
     conv_last_seq := 0;
     conv_last_message_at := None;
     conv_unread_count := 0;
     conv_is_archived := false;
     conv_is_muted := false;
     conv_is_pinned := false;
     conv_control_mode := control_mode;
     conv_created_at := now;
     conv_updated_at := now |}.

(** [if name.is_some() { conversation.display_name = name }] and the same for
    the phone. *)
Definition refresh_shown_contact (name phone : option string) (c : Conversation)
  : Conversation :=
  let c := match name with Some _ => c <| conv_display_name := name |> | None => c end in
  match phone with
  | Some p => c <| conv_phone_number := phone_number_from_e164 p |>
                <| conv_display_phone := phone |>
  | None => c
  end.

(** The counters: [last_seq += 1], and [unread_count += 1] when inbound. *)
Definition bump_conversation (direction : string) (last_message_at now : time)
    (c : Conversation) : Conversation :=
  let c := c <| conv_last_seq ::= (λ n, wrap_i64 (n + 1)) |>
             <| conv_last_message_at := Some last_message_at |>
             <| conv_updated_at := now |> in
  if inbound direction then c <| conv_unread_count ::= (λ n, wrap_i64 (n + 1)) |> else c.

Definition put_conversation (id : string) (c : Conversation) (inner : StoreInner)
  : StoreInner := inner <| st_conversations ::= <[id := c]> |>.

(** [messages_by_conversation.entry(..).or_default().push(message)] and
    [messages_by_id.insert(..)]. *)
Definition conversation_messages (inner : StoreInner) (conversation_id : string)
  : list Message :=
  default [] (st_messages_by_conversation inner !! conversation_id).
Definition append_message (m : Message) (inner : StoreInner) : StoreInner :=
  inner <| st_messages_by_conversation ::=
             <[msg_conversation_id m :=
                 conversation_messages inner (msg_conversation_id m) ++ [m]]> |>
        <| st_messages_by_id ::= <[msg_id m := m]> |>.

(** ** Recording a message *)

(** The contact the message is attributed to. *)
Definition record_contact_id (a : RecordArgs) : option string :=
  let is_group := is_group_jid (rec_conversation_id a) in
  let of_conversation := if is_group then None else Some (rec_conversation_id a) in
  if inbound (rec_direction a)
  then opt_or (rec_sender_contact_id a) of_conversation else of_conversation.

Definition record_channel_id (a : RecordArgs) : string :=
  unwrap_or (rec_channel_account_id a) "channel_dev".

(** Upserting that contact and, in a group, the member. *)
Definition record_contact (now : time) (a : RecordArgs) (inner : StoreInner)
  : option ContactRecord * StoreInner :=
  let '(contact, inner) :=
    match record_contact_id a with
    | Some contact_id =>
      let '(c, inner) := upsert_contact_inner inner
        {| cu_project_id := rec_project_id a;
           cu_company_id := rec_company_id a;
           cu_channel_id := Some (record_channel_id a);
           cu_contact_id := contact_id;
           cu_push_name := rec_sender_display_name a;
           cu_profile_picture_url := rec_sender_profile_picture_url a;
           cu_now := now |} in
      (Some c, inner)
    | None => (None, inner)
    end in
  match is_group_jid (rec_conversation_id a), rec_sender_contact_id a with
  | true, Some sender =>
    let display_name :=
      unwrap_or (opt_or (rec_sender_display_name a) (ct_display_name <$> contact))
        (display_name_for_jid sender) in
    (contact, upsert_group_member_inner (rec_conversation_id a) sender display_name now inner)
  | _, _ => (contact, inner)
  end.

(** The record of a group conversation. *)
Definition group_record_of (inner : StoreInner) (conversation_id : string)
  : option GroupRecord :=
  if is_group_jid conversation_id then st_groups inner !! conversation_id else None.

(** The conversation of the message: found or created, its shown profile
    refreshed, its counters bumped. *)
Definition record_conversation (now : time) (a : RecordArgs) (contact : option ContactRecord)
    (inner : StoreInner) : Conversation :=
  let id := rec_conversation_id a in
  let is_group := is_group_jid id in
  let group := group_record_of inner id in
  let phone := shown_phone is_group contact in
  let c := default
    (new_conversation now (rec_project_id a) (rec_company_id a) id (record_channel_id a)
       (record_contact_id a) group contact (phone ≫= phone_number_from_e164) "autopilot")
    (st_conversations inner !! id) in
  let c := if is_group then apply_group_record_to_conversation id group c
           else refresh_shown_contact (shown_name is_group id group contact) phone c in
  bump_conversation (rec_direction a) now now c.

Definition recorded_message (now : time) (a : RecordArgs) (contact : option ContactRecord)
    (conversation_seq : Z) (msg_uuid wa_uuid : string) : Message := {|
  msg_id := "msg_" +:+ msg_uuid;
  msg_project_id := rec_project_id a;
  msg_company_id := rec_company_id a;
  msg_conversation_id := rec_conversation_id a;
  msg_channel_account_id := record_channel_id a;
  msg_conversation_seq := conversation_seq;
  msg_wa_message_id := Some ("wa_" +:+ wa_uuid);
  msg_direction := rec_direction a;
  msg_sender_contact_id := rec_sender_contact_id a;
  msg_sender_display_name :=
    opt_or (rec_sender_display_name a) (ct_display_name <$> contact);
  msg_message_type := rec_message_type a;
  msg_text := rec_text a;
  msg_media_id := None;
  msg_media_url := None;
  msg_thumbnail_url := None;
  msg_mime_type := None;
  msg_file_name := None;
  msg_quoted_message_id := rec_quoted_message_id a;
  msg_status := rec_status a;
  msg_error_message := None;
  msg_is_starred := false;
  msg_is_pinned := false;
  msg_reaction := None;
  msg_sent_by_source := bool_then (outbound (rec_direction a)) "rustzap_api";
  msg_sent_by_external_user_id :=
    if outbound (rec_direction a) then rec_sent_by_external_user_id a else None;
  msg_created_at_wa := now;
  msg_created_at := now;
  msg_updated_at := now
|}.

(** The end of both recording functions: the message is appended to the
    log, its conversation is marked dirty, the event is pushed. *)
Definition log_message (m : Message) (event_type : string) (payload : Value) : M unit :=
  modify_inner (append_message m);;;
  mark_dirty_inner (msg_project_id m) (msg_company_id m) (msg_conversation_id m)
    (msg_conversation_seq m) (msg_channel_account_id m);;;
  emit event_type (msg_project_id m) (msg_company_id m) (Some (msg_channel_account_id m))
    (Some (msg_conversation_id m)) (Some (msg_id m)) (Some (msg_conversation_seq m)) payload.

Definition recorded_payload (m : Message) : Value :=
  json! { "message_id" ~> msg_id m, "status" ~> msg_status m,
          "delivery_state" ~> delivery_state m }.

Definition record_message_inner (a : RecordArgs) : M Message :=
  let! now := now_utc in
  let! inner := get_inner in
  let '(contact, inner') := record_contact now a inner in
  let conversation := record_conversation now a contact inner' in
  modify_inner (λ _, put_conversation (rec_conversation_id a) conversation inner');;;
  let! msg_uuid := fresh_uuid in
  let! wa_uuid := fresh_uuid in
  let m := recorded_message now a contact (conv_last_seq conversation) msg_uuid wa_uuid in
  log_message m (if inbound (rec_direction a) then "message.received" else "message.queued")
    (recorded_payload m);;;
  ret m.

(** ** Recording a WhatsApp message *)
Definition same_wa_message (input : WhatsappMessageInput) (wa_message_id : string)
    (m : Message) : bool :=
  bool_decide (msg_channel_account_id m = wmi_channel_id input)
  && bool_decide (msg_wa_message_id m = Some wa_message_id)
  && bool_decide (msg_direction m = wmi_direction input).

(** A message already recorded, which a second delivery must not repeat. *)
Definition known_wa_message (input : WhatsappMessageInput) (inner : StoreInner)
  : option Message :=
  wmi_wa_message_id input ≫= λ wa_message_id,
    find (same_wa_message input wa_message_id) (hm_values (st_messages_by_id inner)).

Definition wa_contact_id (input : WhatsappMessageInput) : option string :=
  opt_or (wmi_contact_id input)
    (if is_group_jid (wmi_conversation_id input)
     then if inbound (wmi_direction input) then wmi_sender_contact_id input else None
     else Some (wmi_conversation_id input)).

Definition wa_upsert (now : time) (input : WhatsappMessageInput)
    (contact_id name alt_jid : option string) (inner : StoreInner)
  : option ContactRecord * StoreInner :=
  match contact_id with
  | Some contact_id =>
    let '(c, inner) := upsert_contact_with_alt_inner inner
      {| cu_project_id := wmi_project_id input;
         cu_company_id := wmi_company_id input;
         cu_channel_id := Some (wmi_channel_id input);
         cu_contact_id := contact_id;
         cu_push_name := name;
         cu_profile_picture_url := None;
         cu_now := now |} alt_jid in
    (Some c, inner)
  | None => (None, inner)
  end.

(** The contact and, for an inbound group message, the sender. *)
Definition wa_record_contacts (now : time) (input : WhatsappMessageInput) (inner : StoreInner)
  : option ContactRecord * option ContactRecord * StoreInner :=
  let is_group := is_group_jid (wmi_conversation_id input) in
  let '(contact, inner) :=
    wa_upsert now input (wa_contact_id input) (wmi_contact_name input)
      (wmi_contact_alt_jid input) inner in
  let '(sender_contact, inner) :=
    if is_group && inbound (wmi_direction input)
    then wa_upsert now input (wmi_sender_contact_id input) (wmi_sender_name input)
           (wmi_sender_alt_jid input) inner
    else (None, inner) in
  match is_group, wmi_sender_contact_id input with
  | true, Some sender =>
    let display_name :=
      unwrap_or (opt_or (ct_display_name <$> opt_or sender_contact contact)
                        (wmi_sender_name input)) (display_name_for_jid sender) in
    (contact, sender_contact,
     upsert_group_member_inner (wmi_conversation_id input) sender display_name now inner)
  | _, _ => (contact, sender_contact, inner)
  end.

Definition wa_record_conversation (now : time) (input : WhatsappMessageInput)
    (contact : option ContactRecord) (inner : StoreInner) : Conversation :=
  let id := wmi_conversation_id input in
  let is_group := is_group_jid id in
  let group := group_record_of inner id in
  let phone := shown_phone is_group contact in
  let c := default
    (new_conversation now (wmi_project_id input) (wmi_company_id input) id
       (wmi_channel_id input) (wa_contact_id input) group contact
       (phone ≫= phone_number_from_e164) "manual")
    (st_conversations inner !! id) in
  let c :=
    if is_group then apply_group_record_to_conversation id group c
    else
      let c := refresh_shown_contact (shown_name is_group id group contact) phone c in
      c <| conv_avatar_url ::= opt_or (shown_avatar is_group group contact) |>
        <| conv_profile_picture_url ::= opt_or (shown_picture_url is_group group contact) |>
        <| conv_profile_picture_media_id ::= opt_or (shown_picture is_group group contact) |> in
  bump_conversation (wmi_direction input) (wmi_created_at_wa input) now c.

Definition wa_recorded_message (now : time) (input : WhatsappMessageInput)
    (contact sender_contact : option ContactRecord) (conversation_seq : Z) (msg_uuid : string)
  : Message := {|
  msg_id := "msg_" +:+ msg_uuid;
  msg_project_id := wmi_project_id input;
  msg_company_id := wmi_company_id input;
  msg_conversation_id := wmi_conversation_id input;
  msg_channel_account_id := wmi_channel_id input;
  msg_conversation_seq := conversation_seq;
  msg_wa_message_id := wmi_wa_message_id input;
  msg_direction := wmi_direction input;
  msg_sender_contact_id := wmi_sender_contact_id input;
  msg_sender_display_name :=
    if inbound (wmi_direction input)
    then opt_or (ct_display_name <$> opt_or sender_contact contact) (wmi_sender_name input)
    else None;
  msg_message_type := wmi_message_type input;
  msg_text := wmi_text input;
  msg_media_id := None;
  msg_media_url := None;
  msg_thumbnail_url := None;
  msg_mime_type := None;
  msg_file_name := None;
  msg_quoted_message_id := None;
  msg_status := wmi_status input;
  msg_error_message := None;
  msg_is_starred := false;
  msg_is_pinned := false;
  msg_reaction := None;
  msg_sent_by_source := bool_then (outbound (wmi_direction input)) "whatsapp-rust";
  msg_sent_by_external_user_id :=
    if outbound (wmi_direction input) then wmi_sender_name input else None;
  msg_created_at_wa := wmi_created_at_wa input;
  msg_created_at := now;
  msg_updated_at := now
|}.

Definition wa_recorded_payload (m : Message) : Value :=
  json! { "wa_message_id" ~> msg_wa_message_id m, "status" ~> msg_status m,
          "delivery_state" ~> delivery_state m }.

Definition record_new_whatsapp_message (input : WhatsappMessageInput) (inner : StoreInner)
  : M Message :=
  let! now := now_utc in
  let '(contact, sender_contact, inner') := wa_record_contacts now input inner in
  let conversation := wa_record_conversation now input contact inner' in
  modify_inner (λ _, put_conversation (wmi_conversation_id input) conversation inner');;;
  let! msg_uuid := fresh_uuid in
  let m := wa_recorded_message now input contact sender_contact
             (conv_last_seq conversation) msg_uuid in
  log_message m (if inbound (wmi_direction input) then "message.received" else "message.sent")
    (wa_recorded_payload m);;;
  persist_locked;;;
  ret m.

Definition record_whatsapp_message (input : WhatsappMessageInput) : M Message :=
  let! inner := get_inner in
  match known_wa_message input inner with
  | Some existing => ret existing
  | None => record_new_whatsapp_message input inner
  end.

(** [ensure_conversation_inner]: an upload may come before the first message. *)
Definition ensure_conversation_inner (project_id company_id conversation_id channel_id
    control_mode : string) : M unit :=
  let! inner := get_inner in
  if decide (is_Some (st_conversations inner !! conversation_id)) then ret tt else
  let! now := now_utc in
  let is_group := is_group_jid conversation_id in
  let '(contact, inner') :=
    if is_group then (None, inner) else
    let '(c, inner') := upsert_contact_inner inner
      {| cu_project_id := project_id;
         cu_company_id := company_id;
         cu_channel_id := Some channel_id;
         cu_contact_id := conversation_id;
         cu_push_name := None;
         cu_profile_picture_url := None;
         cu_now := now |} in
    (Some c, inner') in
  modify_inner (λ _, put_conversation conversation_id
    (new_conversation now project_id company_id conversation_id channel_id
       (Some conversation_id) (group_record_of inner' conversation_id) contact
       (if is_group then None else contact ≫= contact_phone_number) control_mode) inner').

(** ** Updating a message: both copies *)
(** [get_mut(message_id)?], the assignments [f now], and the copy into the
    conversation. *)
Definition update_message (message_id : string) (f : time → Message → Message)
  : M (option Message) :=
  let! inner := get_inner in
  match st_messages_by_id inner !! message_id with
  | None => ret None
  | Some m =>
    let! now := now_utc in
    let updated := f now m <| msg_updated_at := now |> in
    modify_inner (λ i,
      i <| st_messages_by_id ::= <[message_id := updated]> |>
        <| st_messages_by_conversation ::=
             alter (replace_first (λ x, bool_decide (msg_id x = msg_id updated)) updated)
                   (msg_conversation_id updated) |>);;;
    ret (Some updated)
  end.

Definition message_not_found (message_id : string) : ApiError :=
  NotFound ("message " +:+ message_id +:+ " not found").

Definition require_message (message_id : string) (f : time → Message → Message)
  : M (result Message ApiError) :=
  let! updated := update_message message_id f in
  ret (ok_or updated (message_not_found message_id)).

Definition attach_media (media : MediaObject) (m : Message) : Message :=
  m <| msg_media_id := Some (media_id media) |>
    <| msg_media_url := media_public_url media |>
    <| msg_thumbnail_url := media_thumbnail_url media |>
    <| msg_mime_type := Some (media_mime_type media) |>
    <| msg_file_name := media_original_filename media |>.
Definition attach_media_to_message_inner (message_id : string) (media : MediaObject)
  : M (option Message) :=
  update_message message_id (λ _, attach_media media).

(** The event of an operation on a message. *)
Definition emit_message (event_type : string) (m : Message) (payload : Value) : M unit :=
  emit event_type (msg_project_id m) (msg_company_id m) (Some (msg_channel_account_id m))
    (Some (msg_conversation_id m)) (Some (msg_id m)) (Some (msg_conversation_seq m)) payload.
Definition mark_message_dirty (m : Message) : M unit :=
  mark_dirty_inner (msg_project_id m) (msg_company_id m) (msg_conversation_id m)
    (msg_conversation_seq m) (msg_channel_account_id m).

Definition update_outbound_after_dispatch (message_id : string) (wa_message_id : option string)
    (status : string) (error_message : option string) : M (result Message ApiError) :=
  try! updated := require_message message_id (λ _ m,
    m <| msg_wa_message_id ::= opt_or wa_message_id |>
      <| msg_status := status |>
      <| msg_error_message := error_message |>) in
  mark_message_dirty updated;;;
  let event_type := if decide (status = "sent_to_whatsapp") then "message.sent"
                    else if decide (status = "failed") then "message.failed"
                    else "message.updated" in
  emit_message event_type updated
    (json! { "message_id" ~> msg_id updated,
             "wa_message_id" ~> msg_wa_message_id updated,
             "status" ~> msg_status updated,
             "delivery_state" ~> delivery_state updated,
             "error_message" ~> msg_error_message updated });;;
  persist_locked;;;
  ret (Ok updated).

Definition update_receipt_with_context (message_id receipt_type : string)
    (created_at_wa : option time) : M (result Message ApiError) :=
  try! updated := require_message message_id (λ _ m, m <| msg_status := receipt_type |>) in
  mark_message_dirty updated;;;
  emit_message "message.receipt" updated
    (json! { "message_id" ~> msg_id updated,
             "wa_message_id" ~> msg_wa_message_id updated,
             "receipt_type" ~> receipt_type,
             "status" ~> msg_status updated,
             "delivery_state" ~> delivery_state updated,
             "created_at_wa" ~> (ts <$> created_at_wa) });;;
  persist_locked;;;
  ret (Ok updated).

Definition update_receipt_by_wa_id_with_context (wa_message_id receipt_type : string)
    (created_at_wa : option time) : M (result Message ApiError) :=
  let! inner := get_inner in
  match find (λ m, bool_decide (msg_wa_message_id m = Some wa_message_id))
          (hm_values (st_messages_by_id inner)) with
  | Some m => update_receipt_with_context (msg_id m) receipt_type created_at_wa
  | None => ret (Err (NotFound ("wa message " +:+ wa_message_id +:+ " not found")))
  end.

Definition set_message_flag (message_id flag : string) (value : bool)
  : M (result Message ApiError) :=
  try! updated := require_message message_id (λ _ m,
    if decide (flag = "pin") then m <| msg_is_pinned := value |>
    else if decide (flag = "star") then m <| msg_is_starred := value |>
    else m) in
  persist_locked;;;
  ret (Ok updated).

Definition set_message_flag_for_company (project_id company_id message_id flag : string)
    (value : bool) : M (result Message ApiError) :=
  try! _ := gets (λ s, message_for_company (app_inner s) project_id company_id message_id) in
  set_message_flag message_id flag value.

Definition set_message_reaction (message_id : string) (reaction : option string)
  : M (result Message ApiError) :=
  try! updated := require_message message_id (λ _ m, m <| msg_reaction := reaction |>) in
  emit_message "message.reaction" updated (json! { "reaction" ~> msg_reaction updated });;;
  persist_locked;;;
  ret (Ok updated).

(** [send] is what the client library answers: sent, refused, or nothing in time. *)
Definition react_to_message (send : option (result string string)) (message_id : string)
    (emoji : option string) : M (result Message ApiError) :=
  try! m := gets (λ s, message (app_inner s) message_id) in
  match msg_wa_message_id m with
  | None =>
    ret (Err (BadRequest ("message " +:+ message_id +:+ " does not have a WhatsApp id yet")))
  | Some _ =>
    match send with
    | Some (Ok _) => set_message_reaction message_id (clean_optional_text emoji)
    | Some (Err err) => ret (Err (ProviderError err))
    | None => ret (Err (ProviderError "WhatsApp reaction timed out"))
    end
  end.

(** ** Inbound text *)
Definition receive_inbound_text (project_id company_id : string)
    (request : SimulateInboundTextRequest) : M Message :=
  let phone_jid := phone_to_jid <$> itreq_from_phone_e164 request in
  let conversation_id :=
    unwrap_or (itreq_conversation_id request) (unwrap_or phone_jid "conv_dev") in
  let sender_contact_id := unwrap_or phone_jid conversation_id in
  let! m := record_message_inner
    {| rec_project_id := project_id;
       rec_company_id := company_id;
       rec_conversation_id := conversation_id;
       rec_direction := "inbound";
       rec_message_type := "text";
       rec_text := Some (itreq_text request);
       rec_status := "received";
       rec_quoted_message_id := None;
       rec_channel_account_id := itreq_channel_id request;
       rec_sender_contact_id := Some sender_contact_id;
       rec_sender_display_name := itreq_sender_name request;
       rec_sender_profile_picture_url := itreq_profile_picture_url request;
       rec_sent_by_external_user_id := None |} in
  persist_locked;;;
  ret m.
End messages.
