(* ===== verification/Inbox.v ===== *)
(** * Conversation state and profiles (src/state.rs)

    Marking a conversation read, patching its metadata, and applying what
    WhatsApp says about a contact or a group to the conversations, messages and
    members that show it. *)
From S2P Require Import Prelude Text Json Errors Env Config Models Jid Records.
From S2P Require Import EventBus Whatsapp Store Contacts Groups Conversations Messages.

Section inbox.
Context `{Env}.

(** [get_mut(id).filter(tenant).ok_or(not found)] on conversations. *)
Definition tenant_conversation (inner : StoreInner) (project_id company_id id : string)
  : result Conversation ApiError :=
  ok_or (opt_filter (λ c, conversation_matches_tenant c project_id company_id)
           (st_conversations inner !! id)) conversation_not_found.

Definition mark_read (project_id company_id conversation_id : string)
  : M (result Conversation ApiError) :=
  let! inner := get_inner in
  let id := resolve_conversation_id_inner inner project_id company_id conversation_id in
  match tenant_conversation inner project_id company_id id with
  | Err e => ret (Err e)
  | Ok c =>
    let! now := now_utc in
    let updated := c <| conv_unread_count := 0 |> <| conv_updated_at := now |> in
    modify_inner (put_conversation id updated);;;
    emit "conversation.read" project_id company_id (Some (conv_channel_account_id updated))
      (Some (conv_id updated)) None (Some (conv_last_seq updated))
      (json! { "unread_count" ~> 0 });;;
    persist_locked;;;
    ret (Ok updated)
  end.

(** ** [patch_conversation_metadata] *)
Definition patch_fields : list string :=
  ["is_archived"; "is_muted"; "is_pinned"; "control_mode"].

(** The checks made before the store is locked. *)
Definition validate_patch (body : Value) : result (list (string * Value)) ApiError :=
  let? fields := ok_or (as_object body)
                   (BadRequest "conversation patch body must be an object") in
  match find (λ key, negb (bool_decide (key ∈ patch_fields))) fields.*1 with
  | Some key => Err (BadRequest ("unsupported conversation patch field " +:+ key))
  | None =>
    match fields with
    | [] => Err (BadRequest "conversation patch body must include at least one supported field")
    | _ => Ok fields
    end
  end.

(** One field: the conversation as the assignments made so far leave it, and
    the error that stops the patch, if any. *)
Definition patch_bool (fields : list (string * Value)) (key : string)
    (set : bool → Conversation → Conversation) (c : Conversation)
  : Conversation * option ApiError :=
  match obj_get key fields with
  | None => (c, None)
  | Some value =>
    match as_bool value with
    | Some x => (set x c, None)
    | None => (c, Some (BadRequest (key +:+ " must be a boolean")))
    end
  end.

Definition patch_control_mode (fields : list (string * Value)) (c : Conversation)
  : Conversation * option ApiError :=
  match obj_get "control_mode" fields with
  | None => (c, None)
  | Some value =>
    match as_str value with
    | None => (c, Some (BadRequest "control_mode must be a string"))
    | Some control_mode =>
      if is_blank control_mode then (c, Some (BadRequest "control_mode must not be empty"))
      else (c <| conv_control_mode := control_mode |>, None)
    end
  end.

(** The assignments in order; the first error stops them. *)
Definition and_then (r : Conversation * option ApiError)
    (k : Conversation → Conversation * option ApiError) : Conversation * option ApiError :=
  match r with
  | (c, None) => k c
  | (c, Some e) => (c, Some e)
  end.

Definition apply_patch (fields : list (string * Value)) (c : Conversation)
  : Conversation * option ApiError :=
  let r := patch_bool fields "is_archived" (λ x c, c <| conv_is_archived := x |>) c in
  let r := and_then r (patch_bool fields "is_muted" (λ x c, c <| conv_is_muted := x |>)) in
  let r := and_then r (patch_bool fields "is_pinned" (λ x c, c <| conv_is_pinned := x |>)) in
  and_then r (patch_control_mode fields).

Definition patch_conversation_metadata (project_id company_id conversation_id : string)
    (body : Value) : M (result Conversation ApiError) :=
  match validate_patch body with
  | Err e => ret (Err e)
  | Ok fields =>
    let! inner := get_inner in
    let id := resolve_conversation_id_inner inner project_id company_id conversation_id in
    match tenant_conversation inner project_id company_id id with
    | Err e => ret (Err e)
    | Ok c =>
      match apply_patch fields c with
      | (c, Some e) => modify_inner (put_conversation id c);;; ret (Err e)
      | (c, None) =>
        let! now := now_utc in
        let updated := c <| conv_updated_at := now |> in
        modify_inner (put_conversation id updated);;;
        emit "conversation.updated" project_id company_id
          (Some (conv_channel_account_id updated)) (Some (conv_id updated)) None
          (Some (conv_last_seq updated))
          (json! { "conversation_id" ~> conv_id updated,
                   "is_archived" ~> conv_is_archived updated,
                   "is_muted" ~> conv_is_muted updated,
                   "is_pinned" ~> conv_is_pinned updated,
                   "control_mode" ~> conv_control_mode updated });;;
        mark_dirty_inner project_id company_id (conv_id updated) (conv_last_seq updated)
          (conv_channel_account_id updated);;;
        persist_locked;;;
        ret (Ok updated)
      end
    end
  end.

(** ** Profile lookups: when one may start *)
Definition reserve_contact_profile_refresh (project_id company_id contact_id : string)
    (force : bool) : M (result bool ApiError) :=
  let! inner := get_inner in
  let id := resolve_contact_id_inner inner project_id company_id contact_id in
  let! now := now_utc in
  match tenant_contact inner project_id company_id id with
  | None => ret (Err (contact_not_found id))
  | Some contact =>
    if contact_profile_refresh_due contact now force then
      modify_inner (λ i, i <| st_contacts ::=
        <[id := contact <| ct_profile_lookup_attempted_at := Some now |>]> |>);;;
      persist_locked;;;
      ret (Ok true)
    else ret (Ok false)
  end.

Definition record_contact_profile_lookup_failure (project_id company_id contact_id : string)
  : M unit :=
  let! inner := get_inner in
  let id := resolve_contact_id_inner inner project_id company_id contact_id in
  let! now := now_utc in
  match tenant_contact inner project_id company_id id with
  | None => ret tt
  | Some contact =>
    modify_inner (λ i, i <| st_contacts ::= <[id :=
      contact <| ct_profile_lookup_attempted_at := Some now |>
              <| ct_profile_lookup_failed_at := Some now |>
              <| ct_profile_lookup_failure_count ::= (λ n, sat_add_u32 n 1) |>]> |>);;;
    persist_locked
  end.

Definition reserve_group_profile_refresh (runtime : ChannelRuntime) (group_id : string)
    (force : bool) : M bool :=
  let! inner := get_inner in
  let! now := now_utc in
  let key := group_profile_refresh_key runtime group_id in
  if negb force && is_some_and (st_group_profile_refreshes inner !! key)
                     (λ last, bool_decide (now - minutes 5 < last))
  then ret false
  else modify_inner (λ i, i <| st_group_profile_refreshes ::= <[key := now]> |>);;;
       ret true.

(** ** Applying a contact's profile *)
Definition apply_contact_to_conversation (now : time) (contact : ContactRecord)
    (c : Conversation) : Conversation :=
  let c := c <| conv_contact_id := Some (ct_id contact) |>
             <| conv_display_name := Some (ct_display_name contact) |>
             <| conv_display_phone ::= opt_or (ct_phone_e164 contact) |>
             <| conv_phone_number ::= opt_or (contact_phone_number contact) |>
             <| conv_avatar_url ::= opt_or (ct_avatar_url contact) |>
             <| conv_profile_picture_url ::= opt_or (ct_profile_picture_url contact) |>
             <| conv_profile_picture_media_id :=
                  rustzap_profile_picture_media_id (ct_profile_picture_media_id contact) |> in
  c <| conv_updated_at := now |>.

Definition update_conversation (id : string) (f : time → Conversation → Conversation)
  : M unit :=
  let! inner := get_inner in
  match st_conversations inner !! id with
  | Some c => let! now := now_utc in modify_inner (put_conversation id (f now c))
  | None => ret tt
  end.

Definition direct_conversation_of (project_id company_id : string) (aliases : list string)
    (c : Conversation) : bool :=
  conversation_matches_tenant c project_id company_id
  && bool_decide (conv_conversation_type c = "direct") && direct_with aliases c.

(** The messages the contact sent show its new name. *)
Definition rename_sender (aliases : list string) (name : string) (now : time) (m : Message)
  : Message :=
  if is_some_and (msg_sender_contact_id m) (λ sender, bool_decide (sender ∈ aliases))
  then m <| msg_sender_display_name := Some name |> <| msg_updated_at := now |>
  else m.
Definition rename_member (aliases : list string) (name : string) (now : time)
    (member : GroupMemberRecord) : GroupMemberRecord :=
  if bool_decide (gm_contact_id member ∈ aliases)
  then member <| gm_display_name := name |> <| gm_last_seen_at := now |>
  else member.

Definition rename_everywhere (aliases : list string) (name : string) (now : time)
    (inner : StoreInner) : StoreInner :=
  inner <| st_messages_by_conversation ::=
             fmap (M:=gmap string) (fmap (M:=list) (rename_sender aliases name now)) |>
        <| st_messages_by_id ::= fmap (M:=gmap string) (rename_sender aliases name now) |>
        <| st_group_members ::=
             fmap (M:=gmap string) (fmap (M:=gmap string) (rename_member aliases name now)) |>.

Definition apply_contact_profile (project_id company_id channel_id conversation_id contact_id
    : string) (push_name : option string) (profile : ContactProfile)
    (profile_lookup_succeeded : bool) : M unit :=
  let! now := now_utc in
  let! inner := get_inner in
  let '(contact, inner') := enrich_contact_inner inner
    {| ce_project_id := project_id;
       ce_company_id := company_id;
       ce_channel_id := Some channel_id;
       ce_contact_id := contact_id;
       ce_push_name := push_name;
       ce_profile := profile;
       ce_now := now;
       ce_profile_lookup_succeeded := profile_lookup_succeeded |} in
  modify_inner (λ _, inner');;;
  let aliases := contact_aliases contact profile in
  (if is_some_and (st_conversations inner' !! conversation_id)
        (λ c, bool_decide (conv_conversation_type c = "direct"))
   then update_conversation conversation_id (λ now, apply_contact_to_conversation now contact)
   else ret tt);;;
  let! inner := get_inner in
  for_each (λ '(id, c),
      if direct_conversation_of project_id company_id aliases c
      then update_conversation id (λ now, apply_contact_to_conversation now contact)
      else ret tt) (hm_iter (st_conversations inner));;;
  modify_inner (rename_everywhere aliases (ct_display_name contact) now);;;
  emit "contact.updated" project_id company_id (Some channel_id) (Some conversation_id) None
    None
    (json! { "contact_id" ~> ct_id contact,
             "canonical_jid" ~> ct_canonical_jid contact,
             "lid" ~> ct_lid contact,
             "phone_e164" ~> ct_phone_e164 contact,
             "profile_picture_url" ~> ct_profile_picture_url contact });;;
  persist_locked.

(** ** Applying a group's subject or profile *)

(** [conversations.entry(group_id).or_insert_with(group_conversation)], the
    group record applied. *)
Definition show_group (now : time) (project_id company_id channel_id group_id : string)
    (record : GroupRecord) (inner : StoreInner) : Conversation :=
  apply_group_record_to_conversation group_id (Some record)
    (default (group_conversation now project_id company_id channel_id group_id)
       (st_conversations inner !! group_id)).

Definition apply_group_subject (project_id company_id channel_id group_id subject : string)
    (created_at_wa : time) : M unit :=
  match clean_group_subject (Some subject) with
  | None => ret tt
  | Some subject =>
    let! inner := get_inner in
    let record := default empty_group_record (st_groups inner !! group_id)
      <| gr_wa_jid := Some group_id |> <| gr_subject := Some subject |> in
    modify_inner (λ i, i <| st_groups ::= <[group_id := record]> |>);;;
    let! created := (if decide (is_Some (st_conversations inner !! group_id))
                     then ret 0 else now_utc) in
    let! now := now_utc in
    modify_inner (λ i, put_conversation group_id
      (show_group created project_id company_id channel_id group_id record i
         <| conv_updated_at := now |>) i);;;
    emit "group.updated" project_id company_id (Some channel_id) (Some group_id) None None
      (json! { "group_id" ~> group_id, "subject" ~> subject,
               "created_at_wa" ~> ts created_at_wa });;;
    persist_locked
  end.

(** The record of the group, refreshed from the profile.  [to_time] is
    [OffsetDateTime::from_unix_timestamp], which refuses what is out of range. *)
Definition refreshed_group_record (to_time : Z → option time) (profile : GroupProfile)
    (members_count admins_count : Z) (record : GroupRecord) : GroupRecord :=
  record
    <| gr_wa_jid := Some (gprof_group_jid profile) |>
    <| gr_subject := clean_group_subject (gprof_subject profile) |>
    <| gr_description := clean_optional_text (gprof_description profile) |>
    <| gr_owner_jid := gprof_owner_jid profile |>
    <| gr_subject_owner_jid := gprof_subject_owner_jid profile |>
    <| gr_created_at_wa := opt_filter (λ t, bool_decide (t ≤ i64_max)) (gprof_created_at_wa_unix profile) ≫= to_time |>
    <| gr_members_count := Some members_count |>
    <| gr_admins_count := Some admins_count |>
    <| gr_profile_picture_media_id ::= (λ existing,
         opt_or (rustzap_profile_picture_media_id (gprof_profile_picture_media_id profile))
                (rustzap_profile_picture_media_id existing)) |>
    <| gr_avatar_url := gprof_profile_picture_url profile |>
    <| gr_profile_picture_url := gprof_profile_picture_url profile |>.

Definition apply_participant (now : time) (project_id company_id channel_id group_id : string)
    (owner_jid : option string) (inner : StoreInner) (p : GroupParticipantProfile)
  : StoreInner :=
  let inner :=
    match gp_phone_jid p with
    | Some phone_jid =>
      (upsert_contact_with_alt_inner inner
         {| cu_project_id := project_id;
            cu_company_id := company_id;
            cu_channel_id := Some channel_id;
            cu_contact_id := gp_contact_id p;
            cu_push_name := None;
            cu_profile_picture_url := None;
            cu_now := now |} (Some phone_jid)).2
    | None => inner
    end in
  upsert_group_member_metadata_inner group_id (gp_contact_id p) (gp_phone_jid p)
    (group_participant_display_name inner p) owner_jid (gp_is_admin p) now inner.

Definition apply_group_profile (to_time : Z → option time)
    (project_id company_id channel_id group_id : string) (profile : GroupProfile) : M unit :=
  let! now := now_utc in
  let! inner := get_inner in
  let participants := gprof_participants profile in
  let owner_jid := gprof_owner_jid profile in
  let members_count := unwrap_or (gprof_size profile) (clamp_u32 (length participants)) in
  let admins_count := clamp_u32 (length (retain_list (λ p,
    gp_is_admin p || bool_decide (owner_jid = Some (gp_contact_id p))) participants)) in
  let record := refreshed_group_record to_time profile members_count admins_count
    (default empty_group_record (st_groups inner !! group_id)) in
  let inner := inner <| st_groups ::= <[group_id := record]> |> in
  let inner := foldl (apply_participant now project_id company_id channel_id group_id owner_jid)
                 inner participants in
  let conversation := show_group now project_id company_id channel_id group_id record inner
                        <| conv_updated_at := now |> in
  (* A new group conversation reads the clock once more for its creation time. *)
  let! created := (if decide (is_Some (st_conversations inner !! group_id))
                   then ret (conv_created_at conversation) else now_utc) in
  modify_inner (λ _, put_conversation group_id
    (conversation <| conv_created_at := created |>) inner);;;
  emit "group.updated" project_id company_id (Some channel_id) (Some group_id) None None
    (json! { "group_id" ~> group_id,
             "subject" ~> gr_subject record,
             "description" ~> gr_description record,
             "owner_jid" ~> gr_owner_jid record,
             "subject_owner_jid" ~> gr_subject_owner_jid record,
             "created_at_wa" ~> (ts <$> gr_created_at_wa record),
             "profile_picture_provider_id" ~> gprof_profile_picture_id profile,
             "profile_picture_media_id" ~> gr_profile_picture_media_id record,
             "profile_picture_url" ~> gr_profile_picture_url record,
             "members_count" ~> members_count,
             "admins_count" ~> admins_count });;;
  persist_locked.
End inbox.
