(* ===== verification/MessageLog.v ===== *)
(** * The message log invariant

    The store keeps two copies of every message, one per identifier and one in
    its conversation, and numbers the messages of a conversation.  This file
    states what makes the log well formed, shows how it is extended, and gives
    the rules with which every operation of [AppState] is shown to keep it. *)
From S2P Require Import Prelude Text Json Errors Env Config Models Jid Records Snapshot.
From S2P Require Import EventBus Whatsapp Store Contacts Groups Conversations Messages Inbox.

(** ** The invariant *)
Record log_ok (inner : StoreInner) : Prop := {
  log_indexed cid ms m :
    st_messages_by_conversation inner !! cid = Some ms → m ∈ ms →
    msg_conversation_id m = cid ∧ st_messages_by_id inner !! msg_id m = Some m;
  log_listed id m :
    st_messages_by_id inner !! id = Some m →
    msg_id m = id ∧ m ∈ conversation_messages inner (msg_conversation_id m);
  log_sorted cid ms :
    st_messages_by_conversation inner !! cid = Some ms →
    StronglySorted Z.lt (msg_conversation_seq <$> ms);
  log_numbered cid ms m :
    st_messages_by_conversation inner !! cid = Some ms → m ∈ ms →
    ∃ c, st_conversations inner !! cid = Some c ∧ 1 ≤ msg_conversation_seq m ≤ conv_last_seq c;
  log_conversations id c :
    st_conversations inner !! id = Some c → conv_id c = id ∧ 0 ≤ conv_last_seq c
}.

(** Media are filed under their identifiers; a transcript is filed under its
    message, and its own identifier, of one of [n] UUIDs, is that of no other. *)
Record records_filed `{Env} (n : nat) (inner : StoreInner) : Prop := {
  media_filed id m : st_media inner !! id = Some m → media_id m = id;
  transcript_filed id t :
    st_transcripts inner !! id = Some t →
    tr_message_id t = id ∧ ∃ k, (k < n)%nat ∧ tr_id t = "tr_" +:+ uuid_simple k;
  transcripts_apart id id' t t' :
    st_transcripts inner !! id = Some t → st_transcripts inner !! id' = Some t' →
    tr_id t = tr_id t' → id = id'
}.

(** With [n] UUIDs drawn: identifiers come from those UUIDs, no conversation has
    counted further than [n], and the records the log names are filed. *)
Record log_fresh `{Env} (n : nat) (inner : StoreInner) : Prop := {
  fresh_ids id m :
    st_messages_by_id inner !! id = Some m →
    ∃ k, (k < n)%nat ∧ id = "msg_" +:+ uuid_simple k;
  fresh_seqs id c :
    st_conversations inner !! id = Some c → conv_last_seq c ≤ Z.of_nat n;
  fresh_filed : records_filed n inner
}.

Definition log_wf `{Env} (n : nat) (inner : StoreInner) : Prop :=
  log_ok inner ∧ log_fresh n inner.

(** Each snapshot given to the sink was taken of a well-formed log, and the
    last one is one of them. *)
Definition sink (s : AppState) : option PersistedStore * list PersistedStore :=
  (app_persisted s, app_snapshots s).
Definition sink_wf `{Env} (n : nat) (k : option PersistedStore * list PersistedStore) : Prop :=
  Forall (λ p, ∃ inner, log_wf n inner ∧ p = from_inner inner) k.2
  ∧ ∀ p, k.1 = Some p → p ∈ k.2.

(** The invariant of [AppState].  The counters are [i64]: it speaks of runs
    that draw fewer than 2^63 UUIDs. *)
Definition WF `{Env} (s : AppState) : Prop :=
  Z.of_nat (app_uuids s) ≤ i64_max →
  log_wf (app_uuids s) (app_inner s) ∧ sink_wf (app_uuids s) (sink s).
Lemma wf_log `{Env} s :
  WF s → Z.of_nat (app_uuids s) ≤ i64_max → log_wf (app_uuids s) (app_inner s).
Proof. intros Hs Hb. by apply Hs. Qed.

(** Changes that leave the log alone. *)
Definition same_log (i i' : StoreInner) : Prop :=
  st_conversations i = st_conversations i'
  ∧ st_messages_by_conversation i = st_messages_by_conversation i'
  ∧ st_messages_by_id i = st_messages_by_id i'
  ∧ st_media i = st_media i'
  ∧ st_transcripts i = st_transcripts i'.

Section wf.
Context `{Env}.

Lemma same_log_wf n i i' : same_log i i' → log_wf n i' → log_wf n i.
Proof.
  intros (Hc & Hm & Hi & Hd & Ht) [[L1 L2 L3 L4 L5] [F1 F2 [R1 R2 R3]]]. split; constructor;
    unfold conversation_messages in *; rewrite ?Hc, ?Hm, ?Hi; eauto.
  constructor; rewrite ?Hd, ?Ht; eauto.
Qed.

Lemma empty_log_wf n : log_wf n empty_store.
Proof.
  split; constructor; [..|constructor]; simpl; unfold conversation_messages; simpl; intros;
    repeat match goal with H : ∅ !! _ = Some _ |- _ => by rewrite lookup_empty in H end.
Qed.

Lemma records_filed_mono n n' i : (n ≤ n')%nat → records_filed n i → records_filed n' i.
Proof.
  intros Hn [R1 R2 R3]. constructor; [done| |done]. intros id t Ht.
  destruct (R2 id t Ht) as (? & k & ? & ?). split; [done|]. exists k. split; [lia|done].
Qed.

Lemma log_wf_mono n n' i : (n ≤ n')%nat → log_wf n i → log_wf n' i.
Proof.
  intros Hn [? [F1 F2 F3]]. split; [done|]. constructor.
  - intros id m Hm. destruct (F1 id m Hm) as (k & ? & ?). exists k. split; [lia|done].
  - intros id c Hc. specialize (F2 id c Hc). lia.
  - by apply (records_filed_mono n).
Qed.

Lemma sink_wf_mono n n' k : (n ≤ n')%nat → sink_wf n k → sink_wf n' k.
Proof.
  intros Hn [Hl Hk]. split; [|done]. eapply Forall_impl; [exact Hl|]. intros p (i & Hi & ->). exists i. split; [|done].
  by apply (log_wf_mono n).
Qed.

(** *** Extending the log *)

(** The last number given in a conversation; 0 before its first message. *)
Definition last_seq (i : StoreInner) (id : string) : Z :=
  default 0 (conv_last_seq <$> st_conversations i !! id).

Lemma last_seq_bounds n i id : log_wf n i → 0 ≤ last_seq i id ≤ Z.of_nat n.
Proof.
  intros [HL HF]. unfold last_seq. destruct (st_conversations i !! id) eqn:E; simpl.
  - split; [eapply log_conversations | eapply fresh_seqs]; eauto.
  - lia.
Qed.

Section append.
Context (n n' : nat) (inner : StoreInner) (id : string) (c : Conversation) (m : Message).
Hypothesis Hwf : log_wf n inner.
Hypothesis Hlaws : EnvLaws.
Hypothesis Hn : (n < n')%nat.
Hypothesis Hc : conv_id c = id.
Hypothesis Hmid : msg_id m = "msg_" +:+ uuid_simple n.
Hypothesis Hmc : msg_conversation_id m = id.
Hypothesis Hseq : msg_conversation_seq m = conv_last_seq c.
Hypothesis Hlast : conv_last_seq c = last_seq inner id + 1.

Let inner' := append_message m (put_conversation id c inner).

Lemma append_fresh : st_messages_by_id inner !! msg_id m = None.
Proof.
  destruct Hwf as [HL HF]. destruct (_ !! msg_id m) eqn:E; [|done]. exfalso.
  destruct (fresh_ids _ _ HF _ _ E) as (k & ? & Hk). rewrite Hmid in Hk.
  apply str_app_inj_l, (inj _) in Hk. lia.
Qed.

Lemma append_lookup cid :
  st_messages_by_conversation inner' !! cid =
    if decide (cid = id) then Some (conversation_messages inner id ++ [m])
    else st_messages_by_conversation inner !! cid.
Proof.
  unfold inner'. simpl. rewrite Hmc. unfold conversation_messages. simpl.
  case_decide; subst; [by rewrite lookup_insert_eq | by rewrite lookup_insert_ne].
Qed.

Lemma append_old_seq x : x ∈ conversation_messages inner id →
  1 ≤ msg_conversation_seq x ≤ last_seq inner id.
Proof.
  destruct Hwf as [HL HF]. unfold conversation_messages, last_seq.
  destruct (st_messages_by_conversation inner !! id) as [ms|] eqn:E; simpl; [|by intros ?%elem_of_nil]. intros Hx.
  destruct (log_numbered _ HL _ _ _ E Hx) as (c' & -> & ?). simpl. lia.
Qed.

Lemma append_log_indexed cid ms x :
  st_messages_by_conversation inner' !! cid = Some ms → x ∈ ms →
  msg_conversation_id x = cid ∧ st_messages_by_id inner' !! msg_id x = Some x.
Proof.
  destruct Hwf as [HL HF]. pose proof append_fresh as Hf. rewrite append_lookup.
  assert (Hold : ∀ cid' ms' y, st_messages_by_conversation inner !! cid' = Some ms' →
    y ∈ ms' → msg_conversation_id y = cid' ∧ st_messages_by_id inner' !! msg_id y = Some y).
  { intros cid' ms' y Hms Hy. destruct (log_indexed _ HL _ _ _ Hms Hy) as [? Hi].
    split; [done|]. simpl. rewrite lookup_insert_ne; [done|]. congruence. }
  case_decide as Hid; [|by eauto]. subst cid. intros [= <-] [Hx|Hx]%elem_of_app.
  - unfold conversation_messages in Hx.
    destruct (st_messages_by_conversation inner !! id) eqn:E; simpl in Hx; [eauto | by apply elem_of_nil in Hx].
  - apply list_elem_of_singleton in Hx as ->. split; [done|]. simpl.
    by rewrite lookup_insert_eq.
Qed.

Lemma append_log_listed i x :
  st_messages_by_id inner' !! i = Some x →
  msg_id x = i ∧ x ∈ conversation_messages inner' (msg_conversation_id x).
Proof.
  destruct Hwf as [HL HF]. unfold conversation_messages at 1. rewrite append_lookup. simpl.
  destruct (decide (i = msg_id m)) as [->|Hne].
  - rewrite lookup_insert_eq. intros [= <-]. split; [done|].
    rewrite decide_True by done. simpl. apply elem_of_app. right. by apply list_elem_of_singleton.
  - rewrite lookup_insert_ne by done. intros Hx.
    destruct (log_listed _ HL _ _ Hx) as [? Hin]. split; [done|].
    case_decide as Hid; [|done]. simpl. rewrite Hid in Hin. apply elem_of_app. by left.
Qed.

Lemma append_log_sorted cid ms :
  st_messages_by_conversation inner' !! cid = Some ms →
  StronglySorted Z.lt (msg_conversation_seq <$> ms).
Proof.
  destruct Hwf as [HL HF]. rewrite append_lookup.
  case_decide as Hid; [|by apply log_sorted]. intros [= <-].
  rewrite fmap_app. apply StronglySorted_app. repeat split.
  - intros x y (z & -> & Hz)%list_elem_of_fmap Hy%list_elem_of_singleton. subst y.
    pose proof (append_old_seq z Hz). lia.
  - unfold conversation_messages.
    destruct (st_messages_by_conversation inner !! id) eqn:E; simpl; [|constructor].
    by eapply log_sorted.
  - simpl. repeat constructor.
Qed.

Lemma append_wf : log_wf n' inner'.
Proof.
  destruct Hwf as [HL HF]. pose proof (last_seq_bounds n inner id Hwf).
  split; constructor.
  - apply append_log_indexed.
  - apply append_log_listed.
  - apply append_log_sorted.
  - intros cid ms x. rewrite append_lookup. simpl. case_decide as Hid.
    + subst cid. rewrite lookup_insert_eq. intros [= <-] [Hx|Hx]%elem_of_app; exists c.
      * apply append_old_seq in Hx. split; [done|lia].
      * apply list_elem_of_singleton in Hx as ->. split; [done|lia].
    + rewrite lookup_insert_ne by done. eauto using log_numbered.
  - simpl. intros i d. destruct (decide (i = id)) as [->|].
    + rewrite lookup_insert_eq. intros [= <-]. split; [done|lia].
    + rewrite lookup_insert_ne by done. eauto using log_conversations.
  - simpl. intros i x. destruct (decide (i = msg_id m)) as [->|].
    + intros _. exists n. split; [lia|done].
    + rewrite lookup_insert_ne by done. intros Hx.
      destruct (fresh_ids _ _ HF _ _ Hx) as (k & ? & ?). exists k. split; [lia|done].
  - simpl. intros i d. destruct (decide (i = id)) as [->|].
    + rewrite lookup_insert_eq. intros [= <-]. lia.
    + rewrite lookup_insert_ne by done. intros Hd. pose proof (fresh_seqs _ _ HF _ _ Hd). lia.
  - apply (records_filed_mono n); [lia|]. destruct (fresh_filed _ _ HF). by constructor.
Qed.
End append.
End wf.

(** ** Changing messages in place *)
Section in_place.
Context `{Env} (n : nat) (inner : StoreInner).
Hypothesis Hwf : log_wf n inner.

(** A change that keeps the identity of a message. *)
Definition keeps_key (f : Message → Message) : Prop := ∀ m,
  msg_id (f m) = msg_id m ∧ msg_conversation_id (f m) = msg_conversation_id m
  ∧ msg_conversation_seq (f m) = msg_conversation_seq m.

Definition map_log (f : Message → Message) (i : StoreInner) : StoreInner :=
  i <| st_messages_by_conversation ::= fmap (M:=gmap string) (fmap (M:=list) f) |>
    <| st_messages_by_id ::= fmap (M:=gmap string) f |>.

Lemma map_log_wf f : keeps_key f → log_wf n (map_log f inner).
Proof.
  intros Hf. destruct Hwf as [HL HF]. split; constructor; simpl.
  - intros cid ms m. rewrite lookup_fmap.
    intros (ms0 & Hms0 & ->)%fmap_Some (m0 & -> & Hm0)%list_elem_of_fmap.
    destruct (Hf m0) as (Hi & Hc & _). rewrite Hi, Hc, lookup_fmap.
    destruct (log_indexed _ HL _ _ _ Hms0 Hm0) as [? ->]. done.
  - intros id m. rewrite lookup_fmap. intros (m0 & Hm0 & ->)%fmap_Some.
    destruct (Hf m0) as (Hi & Hc & _). rewrite Hi, Hc.
    destruct (log_listed _ HL _ _ Hm0) as [? Hin]. split; [done|].
    unfold conversation_messages in *. simpl. rewrite lookup_fmap.
    destruct (st_messages_by_conversation inner !! msg_conversation_id m0); simpl in *.
    + apply list_elem_of_fmap. eauto.
    + by apply elem_of_nil in Hin.
  - intros cid ms. rewrite lookup_fmap. intros (ms0 & Hms0 & ->)%fmap_Some.
    rewrite <- list_fmap_compose.
    rewrite (list_fmap_ext _ msg_conversation_seq ms0); [by eapply log_sorted|].
    intros ? m _. by destruct (Hf m) as (_ & _ & ?).
  - intros cid ms m. rewrite lookup_fmap.
    intros (ms0 & Hms0 & ->)%fmap_Some (m0 & -> & Hm0)%list_elem_of_fmap.
    destruct (Hf m0) as (_ & _ & ->). eauto using log_numbered.
  - eauto using log_conversations.
  - intros id m. rewrite lookup_fmap. intros (m0 & Hm0 & ->)%fmap_Some.
    eauto using fresh_ids.
  - eauto using fresh_seqs.
  - destruct (fresh_filed _ _ HF). by constructor.
Qed.

(** [update_message] is such a change, of one message. *)
Definition set_message (u : Message) (m : Message) : Message :=
  if decide (msg_id m = msg_id u) then u else m.

Lemma conversation_ids_NoDup cid ms :
  st_messages_by_conversation inner !! cid = Some ms → NoDup (msg_id <$> ms).
Proof.
  destruct Hwf as [HL HF]. intros Hms.
  pose proof (log_sorted _ HL _ _ Hms) as Hs.
  assert (Hix : ∀ m, m ∈ ms → st_messages_by_id inner !! msg_id m = Some m)
    by (intros m Hm; by apply (log_indexed _ HL _ _ _ Hms Hm)).
  clear Hms. induction ms as [|m ms IH]; simpl; [constructor|]. simpl in Hs.
  apply StronglySorted_inv in Hs as [Hs Hall]. constructor.
  - intros (m' & Heq & Hm')%list_elem_of_fmap.
    assert (Hmm : m = m').
    { assert (Some m = Some m') as [= ->]; [|done].
      rewrite <- (Hix m), <- (Hix m') by set_solver. by rewrite Heq. }
    subst m'. rewrite Forall_forall in Hall.
    specialize (Hall (msg_conversation_seq m)). enough (msg_conversation_seq m < msg_conversation_seq m) by lia.
    apply Hall, list_elem_of_fmap. eauto.
  - apply IH; [done|]. intros m' Hm'. apply Hix. set_solver.
Qed.

Lemma replace_first_set u ms :
  NoDup (msg_id <$> ms) →
  replace_first (λ x, bool_decide (msg_id x = msg_id u)) u ms = set_message u <$> ms.
Proof.
  induction ms as [|m ms IH]; simpl; intros Hnd; [done|].
  apply NoDup_cons in Hnd as [Hni Hnd]. unfold set_message at 1.
  destruct (decide (msg_id m = msg_id u)) as [Heq|Hne].
  - rewrite bool_decide_eq_true_2 by done. f_equal. symmetry.
    rewrite <- (list_fmap_id ms) at 2. apply list_fmap_ext. intros k x Hx. simpl.
    unfold set_message. rewrite decide_False; [done|]. intros Hx'. apply Hni.
    rewrite Heq, <- Hx'. apply list_elem_of_fmap. eauto using list_elem_of_lookup_2.
  - rewrite bool_decide_eq_false_2 by done. f_equal. by apply IH.
Qed.

Lemma set_message_map_log id m u :
  st_messages_by_id inner !! id = Some m →
  msg_id u = id → msg_conversation_id u = msg_conversation_id m →
  inner <| st_messages_by_id ::= <[id := u]> |>
        <| st_messages_by_conversation ::=
             alter (replace_first (λ x, bool_decide (msg_id x = msg_id u)) u)
                   (msg_conversation_id u) |>
  = map_log (set_message u) inner.
Proof.
  destruct Hwf as [HL HF]. intros Hm Hu Hc. unfold map_log; simpl; f_equal.
  - apply map_eq. intros cid. rewrite lookup_fmap.
    destruct (decide (cid = msg_conversation_id u)) as [->|Hne].
    + rewrite lookup_alter_eq.
      destruct (st_messages_by_conversation inner !! msg_conversation_id u) eqn:E; simpl; [|done].
      f_equal. eauto using replace_first_set, conversation_ids_NoDup.
    + rewrite lookup_alter_ne by done.
      destruct (st_messages_by_conversation inner !! cid) as [ms|] eqn:E; simpl; [|done].
      f_equal. rewrite <- (list_fmap_id ms) at 1. apply list_fmap_ext. intros k x Hx. simpl.
      unfold set_message. rewrite decide_False; [done|]. intros Hxu. apply Hne.
      apply list_elem_of_lookup_2 in Hx. destruct (log_indexed _ HL _ _ _ E Hx) as [<- Hx'].
      rewrite Hxu, Hu, Hm in Hx'. congruence.
  - apply map_eq. intros i. rewrite lookup_fmap. destruct (decide (i = id)) as [->|Hne].
    + rewrite lookup_insert_eq, Hm. simpl. unfold set_message. rewrite decide_True; [done|].
      destruct (log_listed _ HL _ _ Hm). congruence.
    + rewrite lookup_insert_ne by done.
      destruct (st_messages_by_id inner !! i) eqn:E; simpl; [|done]. unfold set_message.
      rewrite decide_False; [done|]. destruct (log_listed _ HL _ _ E). congruence.
Qed.

(** [set_message u] keeps keys only on the messages it meets in this log. *)
Lemma set_message_wf id m u :
  st_messages_by_id inner !! id = Some m →
  msg_id u = id → msg_conversation_id u = msg_conversation_id m →
  msg_conversation_seq u = msg_conversation_seq m →
  log_wf n (map_log (set_message u) inner).
Proof.
  intros Hm Hu Hc Hs.
  destruct Hwf as [HL HF].
  pose (f x := if decide (msg_id x = msg_id m
                          ∧ msg_conversation_id x = msg_conversation_id m
                          ∧ msg_conversation_seq x = msg_conversation_seq m) then u else x).
  destruct (log_listed _ HL _ _ Hm) as [Hmid _].
  assert (Hx : ∀ x, st_messages_by_id inner !! msg_id x = Some x → set_message u x = f x).
  { intros x Hx. unfold set_message, f.
    destruct (decide (msg_id x = msg_id u)) as [Heq|Hne].
    - assert (x = m) as -> by congruence. by rewrite decide_True.
    - rewrite decide_False; [done|]. intros (? & _). congruence. }
  assert (Hext : map_log (set_message u) inner = map_log f inner).
  { unfold map_log; simpl; f_equal; apply map_eq; intros i; rewrite !lookup_fmap.
    - destruct (st_messages_by_conversation inner !! i) as [ms|] eqn:E; simpl; [|done].
      f_equal. apply list_fmap_ext. intros k x Hk%list_elem_of_lookup_2.
      apply Hx. by apply (log_indexed _ HL _ _ _ E).
    - destruct (st_messages_by_id inner !! i) eqn:E; simpl; [|done]. f_equal. apply Hx.
      destruct (log_listed _ HL _ _ E). congruence. }
  rewrite Hext. apply map_log_wf. intros x. unfold f.
  case_decide as Hk; [destruct Hk as (? & ? & ?)|done]. repeat split; congruence.
Qed.

(** ** Removing messages *)
Definition drop_messages (gone : gset string) (i : StoreInner) : StoreInner :=
  i <| st_messages_by_id ::= retain (λ id _, negb (bool_decide (id ∈ gone))) |>
    <| st_messages_by_conversation ::=
         fmap (M:=gmap string) (retain_list (λ m, negb (bool_decide (msg_id m ∈ gone)))) |>.

Lemma retain_sorted (p : Message → bool) ms :
  StronglySorted Z.lt (msg_conversation_seq <$> ms) →
  StronglySorted Z.lt (msg_conversation_seq <$> retain_list p ms).
Proof.
  unfold retain_list. induction ms as [|m ms IH]; simpl; intros Hs; [constructor|].
  apply StronglySorted_inv in Hs as [Hs Hall]. rewrite filter_cons.
  case_decide; simpl; [|by apply IH]. constructor; [by apply IH|].
  rewrite Forall_forall in *. intros y (x & -> & Hx)%list_elem_of_fmap.
  apply list_elem_of_filter in Hx as [_ Hx]. apply Hall, list_elem_of_fmap. eauto.
Qed.

Lemma drop_messages_wf gone : log_wf n (drop_messages gone inner).
Proof.
  destruct Hwf as [HL HF]. split; constructor; simpl.
  - intros cid ms m. rewrite lookup_fmap.
    intros (ms0 & Hms0 & ->)%fmap_Some [Hm Hp]%elem_of_retain_list.
    destruct (log_indexed _ HL _ _ _ Hms0 Hm) as [? Hi]. split; [done|].
    by apply lookup_retain_Some.
  - intros id m [Hm Hp]%lookup_retain_Some.
    destruct (log_listed _ HL _ _ Hm) as [? Hin]. split; [done|].
    unfold conversation_messages in *. simpl. rewrite lookup_fmap.
    destruct (st_messages_by_conversation inner !! msg_conversation_id m); simpl in *;
      [|by apply elem_of_nil in Hin]. apply elem_of_retain_list. split; [done|]. by subst id.
  - intros cid ms. rewrite lookup_fmap. intros (ms0 & Hms0 & ->)%fmap_Some.
    eapply retain_sorted, log_sorted; eauto.
  - intros cid ms m. rewrite lookup_fmap.
    intros (ms0 & Hms0 & ->)%fmap_Some [Hm Hp]%elem_of_retain_list. eauto using log_numbered.
  - eauto using log_conversations.
  - intros id m [Hm Hp]%lookup_retain_Some. eauto using fresh_ids.
  - eauto using fresh_seqs.
  - destruct (fresh_filed _ _ HF). by constructor.
Qed.

(** ** Changing a conversation *)
Lemma put_conversation_wf id c c' :
  st_conversations inner !! id = Some c →
  conv_id c' = conv_id c → conv_last_seq c' = conv_last_seq c →
  log_wf n (put_conversation id c' inner).
Proof.
  destruct Hwf as [HL HF]. intros Hc Hid Hseq.
  destruct (log_conversations _ HL _ _ Hc) as [? ?].
  split; constructor; simpl.
  - exact (log_indexed _ HL).
  - exact (log_listed _ HL).
  - exact (log_sorted _ HL).
  - intros cid ms m Hms Hm. destruct (log_numbered _ HL _ _ _ Hms Hm) as (d & Hd & ?).
    destruct (decide (cid = id)) as [->|].
    + rewrite lookup_insert_eq. exists c'. split; [done|]. simplify_eq. by rewrite Hseq.
    + rewrite lookup_insert_ne by done. eauto.
  - intros i d. destruct (decide (i = id)) as [->|].
    + rewrite lookup_insert_eq. intros [= <-]. split; [congruence|lia].
    + rewrite lookup_insert_ne by done. eauto using log_conversations.
  - exact (fresh_ids _ _ HF).
  - intros i d. destruct (decide (i = id)) as [->|].
    + rewrite lookup_insert_eq. intros [= <-]. rewrite Hseq. eauto using fresh_seqs.
    + rewrite lookup_insert_ne by done. eauto using fresh_seqs.
  - destruct (fresh_filed _ _ HF). by constructor.
Qed.

Lemma new_conversation_wf id c' :
  st_conversations inner !! id = None → conv_id c' = id → conv_last_seq c' = 0 →
  log_wf n (put_conversation id c' inner).
Proof.
  destruct Hwf as [HL HF]. intros Hc Hid Hseq.
  split; constructor; simpl.
  - exact (log_indexed _ HL).
  - exact (log_listed _ HL).
  - exact (log_sorted _ HL).
  - intros cid ms m Hms Hm. destruct (log_numbered _ HL _ _ _ Hms Hm) as (d & Hd & ?).
    rewrite lookup_insert_ne by congruence. eauto.
  - intros i d. destruct (decide (i = id)) as [->|].
    + rewrite lookup_insert_eq. intros [= <-]. split; [done|lia].
    + rewrite lookup_insert_ne by done. eauto using log_conversations.
  - exact (fresh_ids _ _ HF).
  - intros i d. destruct (decide (i = id)) as [->|].
    + rewrite lookup_insert_eq. intros [= <-]. lia.
    + rewrite lookup_insert_ne by done. eauto using fresh_seqs.
  - destruct (fresh_filed _ _ HF). by constructor.
Qed.
End in_place.

(** ** Keeping the invariant: rules for [AppState] computations

    [since b s]: the invariant holds, and since [b] no UUID was given back and
    no snapshot taken from the sink.  [keeps m]: [m] keeps this.  [keeps_at i m]:
    so it does from the states whose store is [i]; these are the rules for an
    operation that reads the store, computes from it and writes. *)
Record since `{Env} (b : nat * list PersistedStore) (s : AppState) : Prop := {
  since_uuids : (b.1 ≤ app_uuids s)%nat;
  since_snapshots : b.2 ⊆ app_snapshots s;
  since_wf : WF s
}.
Definition keeps `{Env} {A} (m : M A) : Prop := ∀ b, preserves (since b) m.
Definition keeps_at `{Env} {A} (i : StoreInner) (m : M A) : Prop :=
  ∀ b s, app_inner s = i → since b s → since b (state_of m s).

Section keeps.
Context `{Env}.

Lemma keeps_at_of {A} i (m : M A) : keeps m → keeps_at i m.
Proof. intros Hm b s _ Hs. by apply Hm. Qed.

Lemma keeps_of_at {A} (m : M A) : (∀ i, keeps_at i m) → keeps m.
Proof. intros Hm b s Hs. by eapply Hm. Qed.

Lemma keeps_ret {A} (a : A) : keeps (ret a).
Proof. intros b. apply preserves_ret. Qed.
Lemma keeps_gets {A} (f : AppState → A) : keeps (gets f).
Proof. intros b. apply preserves_gets. Qed.
Lemma keeps_bind {A B} (m : M A) (k : A → M B) :
  keeps m → (∀ a, keeps (k a)) → keeps (bind m k).
Proof. intros Hm Hk b. apply preserves_bind; [done|]. intros a. apply Hk. Qed.
Lemma keeps_bindR {A B E} (m : M (result A E)) (k : A → M (result B E)) :
  keeps m → (∀ a, keeps (k a)) → keeps (bindR m k).
Proof. intros Hm Hk b. apply preserves_bindR; [done|]. intros a. apply Hk. Qed.
Lemma keeps_for_each {A} (f : A → M unit) l : (∀ a, keeps (f a)) → keeps (for_each f l).
Proof. intros Hf b. apply preserves_for_each. intros a. apply Hf. Qed.
(** A program all of whose blocks keep it, whatever they answer one another. *)
Definition all_keep {A} (p : Async AppState A) : Prop := every (λ X, keeps (A:=X)) p.
Lemma keeps_run {A} (p : Async AppState A) : all_keep p → keeps (run_async p).
Proof.
  unfold all_keep. induction p as [a|X block resume IH]; simpl; [intros _; apply keeps_ret|].
  intros [Hb Hk]. apply keeps_bind; auto.
Qed.
Lemma keeps_block {A} (p : Async AppState A) m : all_keep p → block_of p m → keeps m.
Proof.
  apply every_block. intros X block Hb. apply keeps_bind; [done|]. intros a. apply keeps_ret.
Qed.
Lemma all_keep_call {A B} (p : Async AppState A) (k : A → Async AppState B) :
  all_keep p → (∀ a, all_keep (k a)) → all_keep (call p k).
Proof. apply every_call. Qed.
Lemma all_keep_await {A X} (m : M X) (k : X → Async AppState A) :
  keeps m → (∀ a, all_keep (k a)) → all_keep (Await m k).
Proof. by split. Qed.
Lemma all_keep_finish {A} (a : A) : all_keep (Finish a).
Proof. done. Qed.

(** A change of the state that keeps the store and the snapshots, and draws no
    fewer UUIDs. *)
Lemma wf_frame b s s' :
  app_inner s' = app_inner s → sink s' = sink s →
  (app_uuids s ≤ app_uuids s')%nat → since b s → since b s'.
Proof.
  intros Hi Hp Hu [Hbu Hbs Hs]. pose proof Hp as [= _ Hsn].
  constructor; [lia|by rewrite Hsn|]. intros Hb. destruct Hs as [Hl Hw]; [lia|]. rewrite Hi, Hp.
  split; [by apply (log_wf_mono (app_uuids s))|by apply (sink_wf_mono (app_uuids s))].
Qed.

Lemma keeps_modify f :
  (∀ s, app_inner (f s) = app_inner s ∧ sink (f s) = sink s
        ∧ (app_uuids s ≤ app_uuids (f s))%nat) →
  keeps (modify f).
Proof.
  intros Hf b. apply preserves_modify. intros s. destruct (Hf s) as (?&?&?). by apply wf_frame.
Qed.
(** A change of the store. *)
Lemma wf_inner b s f :
  (∀ n, log_wf n (app_inner s) → log_wf n (f (app_inner s))) → since b s →
  since b (s <| app_inner ::= f |>).
Proof.
  intros Hf [Hu Hp Hs]. constructor; [done..|]. intros Hb. destruct (Hs Hb) as [Hl Hw].
  split; [by apply Hf|done].
Qed.

Lemma keeps_modify_inner_at i f :
  (∀ n, log_wf n i → log_wf n (f i)) → keeps_at i (modify_inner f).
Proof. intros Hf b s <- Hs. by apply wf_inner. Qed.

Lemma keeps_modify_inner f :
  (∀ n i, log_wf n i → log_wf n (f i)) → keeps (modify_inner f).
Proof. intros Hf. apply keeps_of_at. intros i. apply keeps_modify_inner_at. eauto. Qed.

Lemma keeps_same_log f : (∀ i, same_log (f i) i) → keeps (modify_inner f).
Proof. intros Hf. apply keeps_modify_inner. intros n i. by apply same_log_wf. Qed.

Lemma keeps_get {A} (k : StoreInner → M A) :
  (∀ i, keeps_at i (k i)) → keeps (bind get_inner k).
Proof. intros Hk b s Hs. by apply Hk. Qed.

Lemma keeps_at_get {A} i (k : StoreInner → M A) :
  keeps_at i (k i) → keeps_at i (bind get_inner k).
Proof. intros Hk b s <- Hs. by apply Hk. Qed.

Lemma keeps_at_gets {A B} i (f : AppState → A) (k : A → M B) :
  (∀ a, keeps_at i (k a)) → keeps_at i (bind (gets f) k).
Proof. intros Hk b s Hi Hs. by apply Hk. Qed.

Lemma keeps_at_now {A} i (k : time → M A) :
  (∀ t, keeps_at i (k t)) → keeps_at i (bind now_utc k).
Proof.
  intros Hk b s Hi Hs. apply (Hk _ b (s <| app_clock ::= S |>)); [done|]. by apply (wf_frame b s).
Qed.

Lemma keeps_at_uuid {A} i (k : string → M A) :
  (∀ u, keeps_at i (k u)) → keeps_at i (bind fresh_uuid k).
Proof.
  intros Hk b s Hi Hs. apply (Hk _ b (s <| app_uuids ::= S |>)); [done|].
  apply (wf_frame b s); simpl; auto with lia.
Qed.

Lemma keeps_at_id {A} i pre (k : string → M A) :
  (∀ u, keeps_at i (k u)) → keeps_at i (bind (fresh_id pre) k).
Proof.
  intros Hk b s Hi Hs. apply (Hk _ b (s <| app_uuids ::= S |>)); [done|].
  apply (wf_frame b s); simpl; auto with lia.
Qed.

Lemma keeps_at_inner {A} i f (k : unit → M A) :
  (∀ n, log_wf n i → log_wf n (f i)) → keeps_at (f i) (k tt) →
  keeps_at i (bind (modify_inner f) k).
Proof.
  intros Hf Hk b s <- Hs. apply (Hk b (s <| app_inner ::= f |>)); [done|]. by apply wf_inner.
Qed.

Lemma keeps_at_ret_bind {A B} i (a : A) (k : A → M B) :
  keeps_at i (k a) → keeps_at i (bind (ret a) k).
Proof. done. Qed.

Lemma keeps_at_bind {A B} i (m : M A) (k : A → M B) :
  keeps_at i m → (∀ a, keeps (k a)) → keeps_at i (bind m k).
Proof.
  intros Hm Hk b s Hi Hs. rewrite state_of_bind. apply Hk. by apply Hm.
Qed.

Lemma keeps_now : keeps now_utc.
Proof. intros b s Hs. by apply (wf_frame b s). Qed.
Lemma keeps_uuid : keeps fresh_uuid.
Proof. intros b s Hs. apply (wf_frame b s); simpl; auto with lia. Qed.
Lemma keeps_hyphenated : keeps fresh_uuid_hyphenated.
Proof. intros b s Hs. apply (wf_frame b s); simpl; auto with lia. Qed.
Lemma keeps_id pre : keeps (fresh_id pre).
Proof. intros b s Hs. apply (wf_frame b s); simpl; auto with lia. Qed.
Lemma keeps_whatsapp f : keeps (modify_whatsapp f).
Proof. by apply keeps_modify. Qed.
Lemma keeps_persist : keeps persist_locked.
Proof.
  intros b s [Hu Hp Hs]. unfold persist_locked, state_of, modify. simpl.
  destruct (app_has_sink s); [|done]. constructor; simpl; [done|set_solver|].
  intros Hb. destruct (Hs Hb) as [Hl [Hw _]]. split; [done|]. split; [constructor; [by exists (app_inner s)|done]|].
  intros p [= <-]. by left.
Qed.
Lemma keeps_push e : keeps (push_event_inner e).
Proof.
  intros b s [Hu Hp Hs]. constructor; [done..|]. intros Hb. destruct (Hs Hb) as [Hl Hw].
  split; [|done]. eapply same_log_wf, Hl.
  by repeat split.
Qed.
End keeps.

(** What a computation that keeps the invariant leaves. *)
Lemma keeps_since `{Env} {A} (m : M A) s :
  keeps m → WF s → since (app_uuids s, app_snapshots s) (state_of m s).
Proof. intros Hm Hs. apply Hm. by constructor. Qed.
Lemma keeps_wf `{Env} {A} (m : M A) s : keeps m → WF s → WF (state_of m s).
Proof. intros Hm Hs. by apply (keeps_since m). Qed.

Create HintDb keeps discriminated.
#[export] Hint Constants Opaque : keeps.
#[export] Hint Transparent time : keeps.
#[export] Hint Resolve keeps_ret keeps_gets keeps_now keeps_uuid keeps_hyphenated keeps_id keeps_whatsapp
  keeps_persist keeps_push : keeps.

(** One rule, chosen by the shape of the goal; [log_tac] closes the effects on
    the log. *)
Ltac log_tac :=
  first [ solve [intros; eapply same_log_wf; [|eassumption]; repeat split; reflexivity]
        | solve [eauto using put_conversation_wf, new_conversation_wf] ].
Ltac keeps_step :=
  cbv beta;
  lazymatch goal with
  | |- ∀ _, _ => intros ?
  | |- keeps (bind get_inner _) => apply keeps_get
  | |- keeps_at _ (bind get_inner _) => apply keeps_at_get
  | |- keeps_at _ (bind (gets _) _) => apply keeps_at_gets
  | |- keeps_at _ (bind now_utc _) => apply keeps_at_now
  | |- keeps_at _ (bind fresh_uuid _) => apply keeps_at_uuid
  | |- keeps_at _ (bind (fresh_id _) _) => apply keeps_at_id
  | |- keeps_at _ (bind (ret _) _) => apply keeps_at_ret_bind
  | |- keeps_at _ (bind (modify_inner _) _) => apply keeps_at_inner; [try log_tac|]
  | |- keeps_at _ (modify_inner _) => apply keeps_modify_inner_at; try log_tac
  | |- keeps_at _ (match ?x with _ => _ end) => destruct x eqn:?
  | |- keeps_at _ (bind _ _) => apply keeps_at_bind; [|intros ?]
  | |- keeps_at _ _ => apply keeps_at_of
  | |- keeps (match ?x with _ => _ end) => destruct x eqn:?
  | |- keeps (bind _ _) => first [solve [eauto with keeps] | apply keeps_bind; [|intros ?]]
  | |- keeps (bindR _ _) => apply keeps_bindR; [|intros ?]
  | |- keeps (run_async _) => apply keeps_run
  | |- all_keep (Finish _) => apply all_keep_finish
  | |- all_keep (Await _ _) => apply all_keep_await; [|intros ?]
  | |- all_keep (call _ _) => apply all_keep_call; [|intros ?]
  | |- all_keep (match ?x with _ => _ end) => destruct x eqn:?
  | |- all_keep _ => solve [eauto with keeps]
  | |- keeps (for_each _ _) => apply keeps_for_each; intros ?
  | |- keeps (modify_inner _) => apply keeps_modify_inner; try log_tac
  | |- keeps (modify _) => apply keeps_modify; try (intros; split_and!; [reflexivity..|simpl; lia])
  | |- keeps _ => solve [eauto with keeps]
  end.
Ltac keeps_tac := repeat keeps_step.

Section keeps_messages.
Context `{Env}.

Lemma keeps_get_inner : keeps get_inner.
Proof. apply keeps_gets. Qed.
Lemma keeps_make_event t p c ch cv m q v : keeps (make_event t p c ch cv m q v).
Proof. unfold make_event. keeps_tac. Qed.
Lemma keeps_emit t p c ch cv m q v : keeps (emit t p c ch cv m q v).
Proof. unfold emit. apply keeps_bind; [apply keeps_make_event|]. keeps_tac. Qed.
Lemma keeps_push_event e : keeps (push_event e).
Proof. unfold push_event. keeps_tac. Qed.
Lemma keeps_mark_dirty p c cv q ch : keeps (mark_dirty_inner p c cv q ch).
Proof.
  unfold mark_dirty_inner, dirty_signal. keeps_tac. apply keeps_make_event.
Qed.
End keeps_messages.
#[export] Hint Resolve keeps_get_inner keeps_make_event keeps_emit keeps_push_event keeps_mark_dirty : keeps.

(** ** The recording and updating operations keep the log well formed *)
Section keeps_operations.
Context `{Env} {EL : EnvLaws}.

(** Upserting contacts and members leaves the log alone. *)
Lemma same_log_refl i : same_log i i.
Proof. by repeat split. Qed.
Lemma same_log_trans i1 i2 i3 : same_log i1 i2 → same_log i2 i3 → same_log i1 i3.
Proof. intros (?&?&?&?&?) (?&?&?&?&?). repeat split; congruence. Qed.

Lemma insert_alias_log id c a i : same_log (insert_alias id c a i) i.
Proof. unfold insert_alias. destruct a; [case_decide|]; by repeat split. Qed.

Lemma enrich_contact_log i input : same_log (enrich_contact_inner i input).2 i.
Proof.
  unfold enrich_contact_inner. simpl.
  eapply same_log_trans; [apply insert_alias_log|].
  eapply same_log_trans; [apply insert_alias_log|]. by repeat split.
Qed.

Lemma upsert_with_alt_log i input alt : same_log (upsert_contact_with_alt_inner i input alt).2 i.
Proof.
  unfold upsert_contact_with_alt_inner. case_match; [apply enrich_contact_log|].
  by repeat split.
Qed.

Lemma record_contact_log now a i : same_log (record_contact now a i).2 i.
Proof.
  unfold record_contact. simpl.
  destruct (record_contact_id a), (is_group_jid _), (rec_sender_contact_id a);
    by repeat split.
Qed.

Lemma wa_upsert_log now input cid name alt i : same_log (wa_upsert now input cid name alt i).2 i.
Proof.
  unfold wa_upsert. destruct cid as [cid|]; [|apply same_log_refl].
  destruct (upsert_contact_with_alt_inner _ _ _) as [c i'] eqn:E. simpl.
  change i' with (c, i').2. rewrite <- E. apply upsert_with_alt_log.
Qed.

Lemma wa_record_contacts_log now input i : same_log (wa_record_contacts now input i).2 i.
Proof.
  unfold wa_record_contacts.
  destruct (wa_upsert now input (wa_contact_id input) _ _ i) as [c i1] eqn:E1.
  assert (H1 : same_log i1 i).
  { change i1 with (c, i1).2. rewrite <- E1. apply wa_upsert_log. }
  destruct (if is_group_jid (wmi_conversation_id input) && inbound (wmi_direction input)
            then _ else (None, i1)) as [c' i2] eqn:E2.
  assert (H2 : same_log i2 i1).
  { destruct (is_group_jid _ && _).
    - change i2 with (c', i2).2. rewrite <- E2. apply wa_upsert_log.
    - simplify_eq. apply same_log_refl. }
  pose proof (same_log_trans _ _ _ H2 H1) as H3.
  destruct (is_group_jid _), (wmi_sender_contact_id input); done.
Qed.

Lemma same_log_last i i' id : same_log i i' →
  st_conversations i !! id = st_conversations i' !! id.
Proof. by intros (-> & _). Qed.

(** What [bump_conversation] leaves. *)
Lemma bump_conversation_id d t t' c : conv_id (bump_conversation d t t' c) = conv_id c.
Proof. unfold bump_conversation. by destruct (inbound d). Qed.
Lemma bump_conversation_seq d t t' c :
  conv_last_seq (bump_conversation d t t' c) = wrap_i64 (conv_last_seq c + 1).
Proof. unfold bump_conversation. by destruct (inbound d). Qed.
Lemma refresh_shown_contact_id name phone c :
  conv_id (refresh_shown_contact name phone c) = conv_id c.
Proof. unfold refresh_shown_contact. by destruct name, phone. Qed.
Lemma refresh_shown_contact_seq name phone c :
  conv_last_seq (refresh_shown_contact name phone c) = conv_last_seq c.
Proof. unfold refresh_shown_contact. by destruct name, phone. Qed.

Lemma record_conversation_key n now a contact i :
  log_wf n i →
  conv_id (record_conversation now a contact i) = rec_conversation_id a
  ∧ conv_last_seq (record_conversation now a contact i)
    = wrap_i64 (last_seq i (rec_conversation_id a) + 1).
Proof.
  intros [HL _]. unfold record_conversation.
  rewrite bump_conversation_id, bump_conversation_seq. unfold last_seq.
  destruct (st_conversations i !! rec_conversation_id a) as [c|] eqn:E; simpl;
    [destruct (log_conversations _ HL _ _ E) as [? _]|];
    (destruct (is_group_jid _); simpl;
     [done | by rewrite refresh_shown_contact_id, refresh_shown_contact_seq]).
Qed.

Lemma wa_record_conversation_key n now input contact i :
  log_wf n i →
  conv_id (wa_record_conversation now input contact i) = wmi_conversation_id input
  ∧ conv_last_seq (wa_record_conversation now input contact i)
    = wrap_i64 (last_seq i (wmi_conversation_id input) + 1).
Proof.
  intros [HL _]. unfold wa_record_conversation.
  rewrite bump_conversation_id, bump_conversation_seq. unfold last_seq.
  destruct (st_conversations i !! wmi_conversation_id input) as [c|] eqn:E; simpl;
    [destruct (log_conversations _ HL _ _ E) as [? _]|];
    (destruct (is_group_jid _); simpl;
     [done | by rewrite refresh_shown_contact_id, refresh_shown_contact_seq]).
Qed.

(** The common end of the two recording functions. *)
Lemma log_message_wf b s i' id c m t v n' s' :
  since b s → same_log i' (app_inner s) →
  (∀ n, log_wf n i' →
    conv_id c = id ∧ conv_last_seq c = wrap_i64 (last_seq i' id + 1)) →
  msg_id m = "msg_" +:+ uuid_simple (app_uuids s) → msg_conversation_id m = id →
  msg_conversation_seq m = conv_last_seq c → (app_uuids s < n')%nat →
  app_inner s' = put_conversation id c i' → sink s' = sink s →
  app_uuids s' = n' →
  since b (state_of (log_message m t v) s').
Proof.
  intros [Hbu Hbs Hs] Hlog Hkey Hmid Hmc Hms Hn Hi' Hp' Hu'. unfold log_message.
  rewrite state_of_bind.
  apply (keeps_bind (mark_dirty_inner _ _ _ _ _)); [apply keeps_mark_dirty|intros; apply keeps_emit|].
  pose proof Hp' as [= _ Hsn']. constructor; simpl; [lia|by rewrite Hsn'|].
  intros Hb. simpl in *. rewrite Hi', Hu' in *. destruct Hs as [Hl Hw]; [lia|].
  assert (Hwf : log_wf (app_uuids s) i') by (eapply same_log_wf; [exact Hlog|done]).
  destruct (Hkey _ Hwf) as [Hid Hseq].
  assert (Hlast : conv_last_seq c = last_seq i' id + 1).
  { rewrite Hseq. pose proof (last_seq_bounds _ _ id Hwf).
    apply wrap_i64_small. unfold i64_min, i64_max in *. lia. }
  split; [by eapply (append_wf (app_uuids s))|].
  change (sink_wf n' (sink s')). rewrite Hp'. apply (sink_wf_mono (app_uuids s)); [lia|done].
Qed.

(** The state in which a recorded message is appended. *)
Definition recording_state (id : string) (c : Conversation) (i' : StoreInner) (drawn : nat)
    (s : AppState) : AppState :=
  s <| app_clock ::= S |> <| app_inner := put_conversation id c i' |>
    <| app_uuids ::= Nat.add drawn |>.

Lemma record_message_run a s :
  let now := now_utc_at (app_clock s) in
  let r := record_contact now a (app_inner s) in
  let c := record_conversation now a r.1 r.2 in
  let m := recorded_message now a r.1 (conv_last_seq c) (uuid_simple (app_uuids s))
             (uuid_simple (S (app_uuids s))) in
  record_message_inner a s =
      (m, state_of (log_message m (if inbound (rec_direction a) then "message.received"
                                   else "message.queued") (recorded_payload m))
            (recording_state (rec_conversation_id a) c r.2 2 s)).
Proof.
  unfold record_message_inner. autorewrite with run.
  change (app_inner (s <| app_clock ::= S |>)) with (app_inner s).
  destruct (record_contact _ a (app_inner s)) as [contact i'].
  autorewrite with run. reflexivity.
Qed.

Lemma keeps_record_message a : keeps (record_message_inner a).
Proof.
  intros b s Hs. unfold state_of. rewrite record_message_run.
  pose proof (record_contact_log (now_utc_at (app_clock s)) a (app_inner s)) as Hlog.
  destruct (record_contact _ a (app_inner s)) as [contact i']. cbn [fst snd] in *.
  apply (log_message_wf b s i' (rec_conversation_id a)
           (record_conversation (now_utc_at (app_clock s)) a contact i') _ _ _
           (2 + app_uuids s)%nat); try done; [|lia].
  intros n. apply record_conversation_key.
Qed.

Lemma record_whatsapp_run input s :
  known_wa_message input (app_inner s) = None →
  let now := now_utc_at (app_clock s) in
  let '(contact, sender, i') := wa_record_contacts now input (app_inner s) in
  let c := wa_record_conversation now input contact i' in
  let m := wa_recorded_message now input contact sender (conv_last_seq c)
             (uuid_simple (app_uuids s)) in
  record_whatsapp_message input s =
    (m, state_of persist_locked
          (state_of (log_message m (if inbound (wmi_direction input) then "message.received"
                                    else "message.sent") (wa_recorded_payload m))
            (recording_state (wmi_conversation_id input) c i' 1 s))).
Proof.
  intros Hnew now.
  assert (Hr : record_whatsapp_message input s =
    match known_wa_message input (app_inner s) with
    | Some existing => ret existing
    | None => record_new_whatsapp_message input (app_inner s)
    end s) by reflexivity.
  rewrite Hnew in Hr. rewrite Hr. unfold record_new_whatsapp_message. rewrite bind_run.
  fold now. change (value_of now_utc s) with now.
  destruct (wa_record_contacts now input (app_inner s)) as [[contact sender] i'].
  autorewrite with run. reflexivity.
Qed.

Lemma keeps_record_whatsapp input : keeps (record_whatsapp_message input).
Proof.
  intros b s Hs. destruct (known_wa_message input (app_inner s)) as [m|] eqn:Hnew.
  { unfold record_whatsapp_message. rewrite state_of_bind, value_of_inner. cbv beta.
    rewrite Hnew. exact Hs. }
  pose proof (record_whatsapp_run input s Hnew) as Hr. cbv zeta in Hr.
  pose proof (wa_record_contacts_log (now_utc_at (app_clock s)) input (app_inner s)) as Hlog.
  destruct (wa_record_contacts _ input (app_inner s)) as [[contact sender] i'].
  cbn [fst snd] in *. unfold state_of at 1. rewrite Hr. cbn [snd]. apply keeps_persist.
  apply (log_message_wf b s i' (wmi_conversation_id input)
           (wa_record_conversation (now_utc_at (app_clock s)) input contact i') _ _ _
           (1 + app_uuids s)%nat); try done; [|lia].
  intros n. apply wa_record_conversation_key.
Qed.

Lemma keeps_ensure_conversation p c cid ch mode :
  keeps (ensure_conversation_inner p c cid ch mode).
Proof.
  unfold ensure_conversation_inner. apply keeps_get. intros i.
  case_decide as Hd; [keeps_tac|]. apply eq_None_not_Some in Hd.
  apply keeps_at_now. intros now. destruct (is_group_jid cid).
  - apply keeps_modify_inner_at. intros n Hwf. by apply new_conversation_wf.
  - apply keeps_modify_inner_at. intros n Hwf. apply new_conversation_wf; try done.
    eapply same_log_wf; [|exact Hwf]. by repeat split.
Qed.

Lemma keeps_update_message id f :
  (∀ t, keeps_key (f t)) → keeps (update_message id f).
Proof.
  intros Hf. unfold update_message. apply keeps_get. intros i.
  destruct (st_messages_by_id i !! id) as [m|] eqn:Hm; [|keeps_tac].
  apply keeps_at_now. intros now.
  destruct (Hf now m) as (Hid & Hc & Hq).
  apply keeps_at_inner; [|keeps_tac]. intros n Hwf.
  assert (Hmid : msg_id m = id) by (destruct Hwf as [HL _]; by apply (log_listed _ HL)).
  rewrite (set_message_map_log n i Hwf id m); simpl; try congruence.
  apply (set_message_wf n i Hwf id m); simpl; congruence.
Qed.

Lemma keeps_require_message id f :
  (∀ t, keeps_key (f t)) → keeps (require_message id f).
Proof. intros Hf. apply keeps_bind; [by apply keeps_update_message|]. keeps_tac. Qed.
End keeps_operations.
#[export] Hint Resolve keeps_record_message keeps_record_whatsapp keeps_ensure_conversation : keeps.
#[export] Hint Extern 1 (keeps (update_message _ _)) =>
  apply keeps_update_message; intros; intros ?; repeat split; repeat case_decide; reflexivity : keeps.
#[export] Hint Extern 1 (keeps (require_message _ _)) =>
  apply keeps_require_message; intros; intros ?; repeat split; repeat case_decide; reflexivity : keeps.

Section keeps_inbox.
Context `{Env} {EL : EnvLaws}.

Lemma keeps_attach_media id media : keeps (attach_media_to_message_inner id media).
Proof. unfold attach_media_to_message_inner. eauto with keeps. Qed.
Lemma keeps_emit_message t m v : keeps (emit_message t m v).
Proof. unfold emit_message. apply keeps_emit. Qed.
Lemma keeps_mark_message_dirty m : keeps (mark_message_dirty m).
Proof. unfold mark_message_dirty. apply keeps_mark_dirty. Qed.
Hint Resolve keeps_attach_media keeps_emit_message keeps_mark_message_dirty : keeps.

Lemma keeps_update_outbound id wa st err : keeps (update_outbound_after_dispatch id wa st err).
Proof. unfold update_outbound_after_dispatch. keeps_tac. Qed.
Lemma keeps_update_receipt id t at_ : keeps (update_receipt_with_context id t at_).
Proof. unfold update_receipt_with_context. keeps_tac. Qed.
Hint Resolve keeps_update_receipt : keeps.
Lemma keeps_update_receipt_wa id t at_ : keeps (update_receipt_by_wa_id_with_context id t at_).
Proof. unfold update_receipt_by_wa_id_with_context. keeps_tac. Qed.
Lemma keeps_set_flag id flag v : keeps (set_message_flag id flag v).
Proof. unfold set_message_flag. keeps_tac. Qed.
Hint Resolve keeps_set_flag : keeps.
Lemma keeps_set_flag_company p c id flag v : keeps (set_message_flag_for_company p c id flag v).
Proof. unfold set_message_flag_for_company. keeps_tac. Qed.
Lemma keeps_set_reaction id r : keeps (set_message_reaction id r).
Proof. unfold set_message_reaction. keeps_tac. Qed.
Hint Resolve keeps_set_reaction : keeps.
Lemma keeps_react send id e : keeps (react_to_message send id e).
Proof. unfold react_to_message. keeps_tac. Qed.
Lemma keeps_receive_text p c r : keeps (receive_inbound_text p c r).
Proof. unfold receive_inbound_text. keeps_tac. Qed.

(** Conversations: a lookup that passed the tenant test is a lookup. *)
Lemma tenant_conversation_lookup i p c id conv :
  tenant_conversation i p c id = Ok conv → st_conversations i !! id = Some conv.
Proof.
  unfold tenant_conversation, ok_or. case_match eqn:E; intros [= <-].
  by apply opt_filter_Some in E as [? _].
Qed.

Lemma keeps_mark_read p c cid : keeps (mark_read p c cid).
Proof.
  unfold mark_read. apply keeps_get. intros i. case_match eqn:E; [|keeps_tac].
  apply tenant_conversation_lookup in E. keeps_tac.
Qed.

Lemma apply_patch_key fields c :
  conv_id (apply_patch fields c).1 = conv_id c
  ∧ conv_last_seq (apply_patch fields c).1 = conv_last_seq c.
Proof.
  unfold apply_patch, and_then, patch_control_mode, patch_bool.
  repeat (case_match; simplify_eq/=); done.
Qed.

Lemma keeps_patch p c cid body : keeps (patch_conversation_metadata p c cid body).
Proof.
  unfold patch_conversation_metadata. case_match; [|keeps_tac].
  apply keeps_get. intros i. case_match eqn:E; [|keeps_tac].
  apply tenant_conversation_lookup in E.
  destruct (apply_patch _ _) as [c' err] eqn:P. pose proof (apply_patch_key a a0) as [K1 K2].
  rewrite P in K1, K2. simpl in *. destruct err; keeps_tac.
Qed.

Lemma keeps_reserve_contact p c id f : keeps (reserve_contact_profile_refresh p c id f).
Proof. unfold reserve_contact_profile_refresh. keeps_tac. Qed.
Lemma keeps_contact_failure p c id : keeps (record_contact_profile_lookup_failure p c id).
Proof. unfold record_contact_profile_lookup_failure. keeps_tac. Qed.
Lemma keeps_reserve_group r id f : keeps (reserve_group_profile_refresh r id f).
Proof. unfold reserve_group_profile_refresh. keeps_tac. Qed.

Lemma keeps_update_conversation id f :
  (∀ t c, conv_id (f t c) = conv_id c ∧ conv_last_seq (f t c) = conv_last_seq c) →
  keeps (update_conversation id f).
Proof.
  intros Hf. unfold update_conversation. apply keeps_get. intros i.
  case_match eqn:E; [|keeps_tac]. apply keeps_at_now. intros t.
  destruct (Hf t c). keeps_tac.
Qed.

Lemma rename_everywhere_wf n i aliases name now :
  log_wf n i → log_wf n (rename_everywhere aliases name now i).
Proof.
  intros Hwf. eapply same_log_wf; [|apply (map_log_wf n i Hwf (rename_sender aliases name now))].
  - by repeat split.
  - intros m. unfold rename_sender. by case_match.
Qed.

Lemma keeps_apply_contact_profile p c ch cv id name prof ok :
  keeps (apply_contact_profile p c ch cv id name prof ok).
Proof.
  unfold apply_contact_profile. apply keeps_bind; [apply keeps_now|]. intros now.
  apply keeps_get. intros i. destruct (enrich_contact_inner _ _) as [contact i'] eqn:E.
  apply keeps_at_inner.
  { intros n. apply same_log_wf. change i' with (contact, i').2. rewrite <- E.
    apply enrich_contact_log. }
  apply keeps_at_of. cbv zeta.
  assert (Hu : ∀ id, keeps (update_conversation id
                 (λ now, apply_contact_to_conversation now contact)))
    by (intros; by apply keeps_update_conversation).
  keeps_tac; try apply Hu. by apply rename_everywhere_wf.
Qed.

Lemma show_group_wf n i now p c ch id record t t' :
  log_wf n i →
  log_wf n (put_conversation id
    (show_group now p c ch id record i <| conv_updated_at := t |> <| conv_created_at := t' |>) i).
Proof.
  intros Hwf. unfold show_group. destruct (st_conversations i !! id) as [conv|] eqn:E.
  - by eapply put_conversation_wf.
  - by apply new_conversation_wf.
Qed.

Lemma show_group_updated_wf n i now p c ch id record t :
  log_wf n i →
  log_wf n (put_conversation id
    (show_group now p c ch id record i <| conv_updated_at := t |>) i).
Proof.
  intros Hwf. unfold show_group. destruct (st_conversations i !! id) as [conv|] eqn:E.
  - by eapply put_conversation_wf.
  - by apply new_conversation_wf.
Qed.

Lemma keeps_apply_group_subject p c ch id subject t :
  keeps (apply_group_subject p c ch id subject t).
Proof.
  unfold apply_group_subject. case_match; [|keeps_tac].
  apply keeps_get. intros i. apply keeps_at_inner; [log_tac|]. apply keeps_at_of.
  keeps_tac. by apply show_group_updated_wf.
Qed.

Lemma apply_participants_log now p c ch id owner ps i :
  same_log (foldl (apply_participant now p c ch id owner) i ps) i.
Proof.
  revert i. induction ps as [|x ps IH]; intros i; [apply same_log_refl|]. simpl.
  eapply same_log_trans; [apply IH|]. unfold apply_participant.
  destruct (gp_phone_jid x) as [j|].
  - eapply same_log_trans; [|apply upsert_with_alt_log]. by repeat split.
  - by repeat split.
Qed.

Lemma keeps_apply_group_profile tt_ p c ch id profile :
  keeps (apply_group_profile tt_ p c ch id profile).
Proof.
  unfold apply_group_profile. apply keeps_bind; [apply keeps_now|]. intros now.
  apply keeps_get. intros i. cbv zeta. set (i1 := i <| st_groups ::= _ |>).
  pose proof (apply_participants_log now p c ch id (gprof_owner_jid profile)
                (gprof_participants profile) i1) as Hlog.
  set (i2 := foldl _ _ _) in *.
  assert (Hi : ∀ n, log_wf n i → log_wf n i2).
  { intros n Hwf. eapply same_log_wf; [exact Hlog|]. eapply same_log_wf; [|exact Hwf].
    by repeat split. }
  case_decide.
  - apply keeps_at_ret_bind. apply keeps_at_inner; [|keeps_tac].
    intros n Hwf. apply show_group_wf. by apply Hi.
  - apply keeps_at_now. intros t. apply keeps_at_inner; [|keeps_tac].
    intros n Hwf. apply show_group_wf. by apply Hi.
Qed.
End keeps_inbox.
#[export] Hint Resolve keeps_attach_media keeps_emit_message keeps_mark_message_dirty
  keeps_update_outbound keeps_update_receipt keeps_update_receipt_wa keeps_set_flag
  keeps_set_flag_company keeps_set_reaction keeps_react keeps_receive_text keeps_mark_read
  keeps_patch keeps_reserve_contact keeps_contact_failure keeps_reserve_group
  keeps_apply_contact_profile keeps_apply_group_subject keeps_apply_group_profile : keeps.
