(* ===== verification/Restart.v ===== *)
(** * The message log across a restart

    A process that stops starts again from a snapshot: what [persist_locked]
    gave to its sink, or nothing.  The sanitizing pass drops conversations,
    messages and records from a snapshot when it is written and when it is read;
    the log it leaves is well formed. *)
From S2P Require Import Prelude Text Json Env Config Models Jid Records Snapshot Store Messages.
From S2P Require Import MessageLog.

Section restart.
Context `{Env}.

(** The part of a snapshot the invariant speaks of. *)
Definition log_of (p : PersistedStore) : StoreInner :=
  empty_store <| st_conversations := ps_conversations p |>
    <| st_messages_by_conversation := ps_messages_by_conversation p |>
    <| st_messages_by_id := ps_messages_by_id p |>
    <| st_media := ps_media p |> <| st_transcripts := ps_transcripts p |>.

Lemma placeholder_log n p m : log_wf n (log_of p) → log_wf n (log_of (add_placeholder p m)).
Proof.
  intros Hwf. unfold add_placeholder. case_match eqn:E; [done|].
  exact (new_conversation_wf n _ Hwf _ (placeholder_conversation _ m) E eq_refl eq_refl).
Qed.
Lemma placeholders_log n p :
  log_wf n (log_of p) → log_wf n (log_of (ensure_media_conversation_placeholders p)).
Proof.
  unfold ensure_media_conversation_placeholders.
  generalize (retain_list (λ media, negb (is_blank (media_conversation_id media))
    && bool_decide (ps_conversations p !! media_conversation_id media = None))
    (hm_values (ps_media p))). intros l. simpl.
  revert p. induction l as [|m l IH]; intros p Hwf; [done|]. by apply IH, placeholder_log.
Qed.

(** What the sanitizing pass drops. *)
Lemma surface_disallowed p id c :
  ps_conversations p !! id = Some c → conversation_updates_surface c = true →
  mem (conv_id c) (disallowed_conversations p) = true.
Proof.
  intros Hc Hs. apply bool_decide_eq_true. unfold disallowed_conversations.
  apply elem_of_union_l, elem_of_list_to_set.
  apply list_elem_of_fmap. exists c. split; [done|]. apply elem_of_retain_list.
  split; [|done]. apply elem_of_hm_values. by exists id.
Qed.

(** The messages kept in a conversation, and in the index. *)
Lemma kept_conversation D R (l : gmap string (list Message)) cid ms :
  retain_conversation_messages D R l !! cid = Some ms →
  ∃ ms0, l !! cid = Some ms0 ∧ mem cid D = false ∧ is_updates_surface_jid cid = false
    ∧ ms = retain_list (λ m, negb (mem (msg_id m) R) && negb (message_updates_surface m)) ms0.
Proof.
  unfold retain_conversation_messages. rewrite map_lookup_imap.
  destruct (l !! cid) as [ms0|]; simpl; [|done]. destruct (mem cid D || _) eqn:E; [done|].
  apply orb_false_iff in E as [? ?]. case_decide; [done|]. intros [= <-]. by exists ms0.
Qed.
Lemma conversation_kept D R (l : gmap string (list Message)) cid ms m :
  l !! cid = Some ms → m ∈ ms → mem cid D = false → is_updates_surface_jid cid = false →
  mem (msg_id m) R = false → message_updates_surface m = false →
  ∃ ms', retain_conversation_messages D R l !! cid = Some ms' ∧ m ∈ ms'.
Proof.
  intros Hms Hm HD Hs HR Hu. unfold retain_conversation_messages.
  rewrite map_lookup_imap, Hms. simpl. rewrite HD, Hs. simpl.
  assert (Hin : m ∈ retain_list (λ m, negb (mem (msg_id m) R) && negb (message_updates_surface m)) ms).
  { apply elem_of_retain_list. by rewrite HR, Hu. }
  rewrite decide_False; [by eexists|]. intros E. rewrite E in Hin. by apply elem_of_nil in Hin.
Qed.

(** The pass before the placeholders. *)
Definition swept (p : PersistedStore) : StoreInner :=
  let disallowed := disallowed_conversations p in
  let removed := removed_messages disallowed p in
  log_of p <| st_conversations ::= retain (λ _ c, negb (conversation_updates_surface c)) |>
    <| st_messages_by_id ::= retain (λ id m,
         negb (mem id removed) && negb (mem (msg_conversation_id m) disallowed)
         && negb (message_updates_surface m)) |>
    <| st_messages_by_conversation ::= retain_conversation_messages disallowed removed |>
    <| st_media ::= retain (λ _ media,
         negb (mem (media_conversation_id media) disallowed)
         && negb (is_updates_surface_jid (media_conversation_id media))
         && is_none_or (media_message_id media) (λ id, negb (mem id removed))) |>
    <| st_transcripts ::= retain (λ id _, negb (mem id removed)) |>.

Lemma swept_ok n p : log_wf n (log_of p) → log_ok (swept p).
Proof.
  intros [HL HF]. unfold swept. set (D := disallowed_conversations p).
  set (R := removed_messages D p). constructor; simpl.
  - intros cid ms m (ms0 & Hms & HD & Hs & ->)%kept_conversation [Hm Hk]%elem_of_retain_list.
    destruct (log_indexed _ HL cid ms0 m Hms Hm) as [Hc Hi]. split; [done|].
    apply lookup_retain_Some. split; [exact Hi|]. by rewrite Hc, HD, andb_true_r.
  - intros id m [Hm Hk]%lookup_retain_Some. split_bools.
    destruct (log_listed _ HL id m Hm) as [<- Hin]. split; [done|].
    assert (Hs : is_updates_surface_jid (msg_conversation_id m) = false).
    { unfold message_updates_surface in *. by destruct (is_updates_surface_jid (msg_conversation_id m)). }
    unfold conversation_messages in *. simpl in *.
    destruct (ps_messages_by_conversation p !! msg_conversation_id m) as [ms|] eqn:E; simpl in Hin;
      [|by apply elem_of_nil in Hin].
    destruct (conversation_kept D R _ _ ms m E Hin) as (ms' & -> & ?); try done; by apply negb_true_iff.
  - intros cid ms (ms0 & Hms & _ & _ & ->)%kept_conversation. eapply retain_sorted, (log_sorted _ HL), Hms.
  - intros cid ms m (ms0 & Hms & HD & _ & ->)%kept_conversation [Hm _]%elem_of_retain_list.
    destruct (log_numbered _ HL cid ms0 m Hms Hm) as (c & Hc & ?). exists c. split; [|done].
    apply lookup_retain_Some. split; [exact Hc|]. apply negb_true_iff, not_true_iff_false. intros Hu.
    pose proof (surface_disallowed p cid c Hc Hu) as Hd.
    destruct (log_conversations _ HL cid c Hc) as [E _]. rewrite E in Hd. fold D in Hd. congruence.
  - intros id c [Hc _]%lookup_retain_Some. exact (log_conversations _ HL id c Hc).
Qed.
Lemma swept_fresh n p : log_wf n (log_of p) → log_fresh n (swept p).
Proof.
  intros [HL [F1 F2 [R1 R2 R3]]]. unfold swept. constructor; [..|constructor]; simpl.
  - intros id m [Hm _]%lookup_retain_Some. exact (F1 id m Hm).
  - intros id c [Hc _]%lookup_retain_Some. exact (F2 id c Hc).
  - intros id m [Hm _]%lookup_retain_Some. exact (R1 id m Hm).
  - intros id t [Ht _]%lookup_retain_Some. exact (R2 id t Ht).
  - intros id id' t t' [Ht _]%lookup_retain_Some [Ht' _]%lookup_retain_Some.
    exact (R3 id id' t t' Ht Ht').
Qed.

Lemma sanitize_log n p : log_wf n (log_of p) → log_wf n (log_of (sanitize_updates_surfaces p)).
Proof.
  intros Hwf. unfold sanitize_updates_surfaces. apply placeholders_log.
  split; [by apply (swept_ok n p)|by apply (swept_fresh n p)].
Qed.

(** A store written and read again has a well-formed log. *)
Lemma restored_wf n i : log_wf n i → log_wf n (into_inner (from_inner i)).
Proof.
  intros Hwf. apply (same_log_wf n _ (log_of (sanitize_updates_surfaces (from_inner i))));
    [by repeat split|].
  apply sanitize_log, sanitize_log. by apply (same_log_wf n _ i); [repeat split|].
Qed.
End restart.

(** ** Decidable equality of the records of the store *)
#[export] Instance JNumber_eq_dec : EqDecision JNumber.
Proof. solve_decision. Defined.

(** JSON values, through arrays and objects. *)
Fixpoint value_eq_dec (v w : Value) {struct v} : Decision (v = w).
Proof.
  unshelve refine
    (let lists := fix lists (l k : list Value) {struct l} : Decision (l = k) :=
       match l, k with
       | [], [] => left eq_refl
       | x :: l, y :: k =>
         cast_if_and (value_eq_dec x y) (lists l k)
       | _, _ => right _
       end in
     let objects := fix objects (l k : list (string * Value)) {struct l} : Decision (l = k) :=
       match l, k with
       | [], [] => left eq_refl
       | (a, x) :: l, (b, y) :: k =>
         cast_if_and3 (decide (a = b)) (value_eq_dec x y) (objects l k)
       | _, _ => right _
       end in
     match v, w with
     | VNull, VNull => left eq_refl
     | VBool b, VBool b' => cast_if (decide (b = b'))
     | VNumber n, VNumber n' => cast_if (decide (n = n'))
     | VString s, VString s' => cast_if (decide (s = s'))
     | VArray l, VArray k => cast_if (lists l k)
     | VObject l, VObject k => cast_if (objects l k)
     | _, _ => right _
     end); congruence.
Defined.
#[export] Instance Value_eq_dec : EqDecision Value := value_eq_dec.

#[export] Instance Conversation_eq_dec : EqDecision Conversation.
Proof. solve_decision. Defined.
#[export] Instance Message_eq_dec : EqDecision Message.
Proof. solve_decision. Defined.
#[export] Instance MediaObject_eq_dec : EqDecision MediaObject.
Proof. solve_decision. Defined.
#[export] Instance Transcript_eq_dec : EqDecision Transcript.
Proof. solve_decision. Defined.
#[export] Instance QrState_eq_dec : EqDecision QrState.
Proof. solve_decision. Defined.
#[export] Instance CommonEvent_eq_dec : EqDecision CommonEvent.
Proof. solve_decision. Defined.
#[export] Instance WebhookDeliveryAttempt_eq_dec : EqDecision WebhookDeliveryAttempt.
Proof. solve_decision. Defined.
#[export] Instance ContactRecord_eq_dec : EqDecision ContactRecord.
Proof. solve_decision. Defined.
#[export] Instance GroupMemberRecord_eq_dec : EqDecision GroupMemberRecord.
Proof. solve_decision. Defined.
#[export] Instance GroupRecord_eq_dec : EqDecision GroupRecord.
Proof. solve_decision. Defined.
#[export] Instance IdempotencyRecord_eq_dec : EqDecision IdempotencyRecord.
Proof. solve_decision. Defined.
#[export] Instance MediaUploadIdempotencyRecord_eq_dec : EqDecision MediaUploadIdempotencyRecord.
Proof. solve_decision. Defined.
#[export] Instance DirtyRecord_eq_dec : EqDecision DirtyRecord.
Proof. solve_decision. Defined.
#[export] Instance DirtyLeaseRecord_eq_dec : EqDecision DirtyLeaseRecord.
Proof. solve_decision. Defined.
#[export] Instance PersistedStore_eq_dec : EqDecision PersistedStore.
Proof. solve_decision. Defined.
