(* ===== verification/Demo.v ===== *)
(** * A small concrete run

    A process with the default configuration in the environment [demo_env],
    in which one customer has written twice: the state at which theorems with
    hypotheses are instantiated. *)
From S2P Require Import Prelude Text Json Errors Env Config Models Jid Records.
From S2P Require Import EventBus Whatsapp Store Contacts Groups Conversations Messages Inbox.
From S2P Require Import MessageLog.

Definition demo_customer : string := "5511999990000@s.whatsapp.net".

(** A message received over WhatsApp with the identifier [wa]. *)
Definition demo_input (wa : string) : WhatsappMessageInput := {|
  wmi_project_id := "p"; wmi_company_id := "c"; wmi_channel_id := "channel_dev";
  wmi_conversation_id := demo_customer; wmi_contact_id := None; wmi_contact_alt_jid := None;
  wmi_contact_name := Some "Ana"; wmi_direction := "inbound"; wmi_message_type := "text";
  wmi_text := Some "hello"; wmi_status := "received"; wmi_wa_message_id := Some wa;
  wmi_sender_contact_id := None; wmi_sender_alt_jid := None; wmi_sender_name := None;
  wmi_created_at_wa := seconds 900 |}%string.

Definition demo_inbound (text : string) : SimulateInboundTextRequest := {|
  itreq_conversation_id := Some demo_customer; itreq_channel_id := Some "channel_dev"%string;
  itreq_from_phone_e164 := None; itreq_sender_name := Some "Ana"%string;
  itreq_profile_picture_url := None; itreq_text := text |}.

Definition demo_start : AppState := @app_new demo_env default_config false None.

Definition demo_state : AppState :=
  state_of (@record_whatsapp_message demo_env (demo_input "wa1"))
    (state_of (@receive_inbound_text demo_env "p" "c" (demo_inbound "hi")) demo_start).

Lemma demo_start_wf : @WF demo_env demo_start.
Proof. intros _. split; [apply empty_log_wf|by split]. Qed.

Lemma demo_state_wf : @WF demo_env demo_state.
Proof.
  pose proof demo_env_laws. unfold demo_state.
  repeat (apply keeps_wf; [first [apply keeps_record_whatsapp | apply keeps_receive_text]|]).
  apply demo_start_wf.
Qed.

(** The log of the run, and what the two messages carry. *)
Example demo_log :
  (λ m, (msg_conversation_seq m, msg_text m)) <$>
    conversation_messages (app_inner demo_state) demo_customer
  = [(1, Some "hi"); (2, Some "hello")]%string.
Proof. vm_compute. reflexivity. Qed.
