(* ===== verification/MessageSpec.v ===== *)
(** * What recording a message and patching a conversation do

    The functional behaviour of the recording operations, on top of the
    invariant of the log, and of the patch of a conversation. *)
From S2P Require Import Prelude Text Json Errors Env Config Models Jid Records EventBus Whatsapp.
From S2P Require Import Store Contacts Groups Conversations Messages Inbox MessageLog Demo.

(** The dirty mark of a conversation covers the number [seq]. *)
Definition dirty_covers (i : StoreInner) (key : key3) (seq : Z) : Prop :=
  ∃ d, st_dirty i !! key = Some d ∧ seq ≤ dirty_max_seq d.

(** A message was appended to the log: it has the next number of its
    conversation, it is found under its identifier, which was free, and no
    other message or conversation's list has changed. *)
Record appended (i i' : StoreInner) (m : Message) : Prop := {
  app_seq : msg_conversation_seq m = last_seq i (msg_conversation_id m) + 1;
  app_last : last_seq i' (msg_conversation_id m) = msg_conversation_seq m;
  app_list cid : conversation_messages i' cid =
    conversation_messages i cid ++ (if decide (cid = msg_conversation_id m) then [m] else []);
  app_free : st_messages_by_id i !! msg_id m = None;
  app_index : st_messages_by_id i' = <[msg_id m := m]> (st_messages_by_id i);
  app_others cid : cid ≠ msg_conversation_id m →
    st_conversations i' !! cid = st_conversations i !! cid;
  app_dirty : dirty_covers i'
    (msg_project_id m, msg_company_id m, msg_conversation_id m) (msg_conversation_seq m)
}.

Section message_spec.
Context `{Env} {EL : EnvLaws}.

(** The store after [log_message]. *)
Lemma log_message_log m t v s :
  same_log (app_inner (state_of (log_message m t v) s)) (append_message m (app_inner s)).
Proof. by repeat split. Qed.

Lemma log_message_dirty m t v s :
  dirty_covers (app_inner (state_of (log_message m t v) s))
    (msg_project_id m, msg_company_id m, msg_conversation_id m) (msg_conversation_seq m).
Proof.
  unfold dirty_covers. cbn. rewrite lookup_insert_eq. eexists. split; [done|].
  case_match; simpl; lia.
Qed.

Lemma append_message_appended s i' c m t v s' :
  WF s → Z.of_nat (app_uuids s) < i64_max → same_log i' (app_inner s) →
  (∀ n, log_wf n i' →
    conv_id c = msg_conversation_id m
    ∧ conv_last_seq c = wrap_i64 (last_seq i' (msg_conversation_id m) + 1)) →
  msg_id m = "msg_" +:+ uuid_simple (app_uuids s) →
  msg_conversation_seq m = conv_last_seq c →
  app_inner s' = put_conversation (msg_conversation_id m) c i' →
  appended (app_inner s) (app_inner (state_of (log_message m t v) s')) m.
Proof.
  intros Hs Hb Hlog Hkey Hid Hseq Hi'.
  assert (Hwf : log_wf (app_uuids s) (app_inner s)) by (apply Hs; lia).
  assert (Hwf' : log_wf (app_uuids s) i') by (eapply same_log_wf; [exact Hlog|done]).
  destruct (Hkey _ Hwf') as [_ Hlast].
  assert (Hl : last_seq i' (msg_conversation_id m)
               = last_seq (app_inner s) (msg_conversation_id m))
    by (unfold last_seq; by rewrite (same_log_last _ _ _ Hlog)).
  assert (Hnext : conv_last_seq c = last_seq (app_inner s) (msg_conversation_id m) + 1).
  { rewrite Hlast, Hl. pose proof (last_seq_bounds _ _ (msg_conversation_id m) Hwf).
    apply wrap_i64_small. unfold i64_min, i64_max in *. lia. }
  destruct (log_message_log m t v s') as (Ec & Em & Ei & _). rewrite Hi' in Ec, Em, Ei.
  destruct Hlog as (Lc & Lm & Li & _).
  constructor.
  - congruence.
  - unfold last_seq. rewrite Ec. simpl. rewrite lookup_insert_eq. simpl. congruence.
  - intros cid. unfold conversation_messages. rewrite Em. simpl.
    unfold conversation_messages. simpl. rewrite Lm. case_decide as Hd.
    + subst cid. by rewrite lookup_insert_eq.
    + by rewrite lookup_insert_ne, app_nil_r.
  - eapply (append_fresh (app_uuids s)); eauto.
  - rewrite Ei. simpl. by rewrite Li.
  - intros cid Hcid. rewrite Ec. simpl. by rewrite lookup_insert_ne, Lc.
  - apply log_message_dirty.
Qed.

(** C6. Recording a message appends exactly that message: it gets the next
    sequence number of its conversation and a fresh identifier, both copies are
    stored, no other message and no other conversation changes, the conversation
    is marked dirty up to it, and the message returned carries the conversation,
    text, status and direction it was asked for. *)
Theorem record_message_appends a s :
  WF s → Z.of_nat (app_uuids s) < i64_max →
  let '(m, s') := record_message_inner a s in
  appended (app_inner s) (app_inner s') m
  ∧ msg_conversation_id m = rec_conversation_id a ∧ msg_text m = rec_text a
  ∧ msg_status m = rec_status a ∧ msg_direction m = rec_direction a.
Proof.
  intros Hs Hb. rewrite record_message_run.
  pose proof (record_contact_log (now_utc_at (app_clock s)) a (app_inner s)) as Hlog.
  destruct (record_contact _ a (app_inner s)) as [contact i']. cbn [fst snd] in *.
  split; [|done].
  eapply (append_message_appended s i' (record_conversation (now_utc_at (app_clock s)) a contact i'));
    try done.
  intros n. apply record_conversation_key.
Qed.

(** A message already known is answered as it is stored. *)
Lemma record_whatsapp_known input s k :
  known_wa_message input (app_inner s) = Some k → record_whatsapp_message input s = (k, s).
Proof.
  intros Hk.
  assert (Hr : record_whatsapp_message input s =
    match known_wa_message input (app_inner s) with
    | Some existing => ret existing
    | None => record_new_whatsapp_message input (app_inner s)
    end s) by reflexivity.
  by rewrite Hr, Hk.
Qed.

(** A message not yet known is appended. *)
Lemma record_whatsapp_new input s :
  WF s → Z.of_nat (app_uuids s) < i64_max → known_wa_message input (app_inner s) = None →
  let '(m, s') := record_whatsapp_message input s in
  appended (app_inner s) (app_inner s') m
  ∧ msg_wa_message_id m = wmi_wa_message_id input
  ∧ msg_channel_account_id m = wmi_channel_id input
  ∧ msg_direction m = wmi_direction input
  ∧ msg_conversation_id m = wmi_conversation_id input
  ∧ msg_text m = wmi_text input ∧ msg_status m = wmi_status input.
Proof.
  intros Hs Hb Hk.
  pose proof (record_whatsapp_run input s Hk) as Hr. cbv zeta in Hr.
  pose proof (wa_record_contacts_log (now_utc_at (app_clock s)) input (app_inner s)) as Hlog.
  destruct (wa_record_contacts _ input (app_inner s)) as [[contact sender] i'].
  cbn [fst snd] in *. rewrite Hr. split; [|done].
  rewrite persist_locked_inner.
  eapply (append_message_appended s i'
            (wa_record_conversation (now_utc_at (app_clock s)) input contact i')); try done.
  intros n. apply wa_record_conversation_key.
Qed.

(** The message of the log a delivery is about: the same channel, the same
    WhatsApp identifier and the same direction. *)
Definition delivered_as (input : WhatsappMessageInput) (m : Message) : Prop :=
  is_Some (wmi_wa_message_id input) ∧ msg_wa_message_id m = wmi_wa_message_id input
  ∧ msg_channel_account_id m = wmi_channel_id input ∧ msg_direction m = wmi_direction input.
Definition in_log (i : StoreInner) (m : Message) : Prop :=
  ∃ id, st_messages_by_id i !! id = Some m.

Lemma same_wa_message_spec input wa m :
  wmi_wa_message_id input = Some wa → same_wa_message input wa m = true ↔ delivered_as input m.
Proof.
  intros Hwa. unfold same_wa_message, delivered_as.
  rewrite !andb_true_iff, !bool_decide_eq_true, Hwa. naive_solver.
Qed.

Lemma known_wa_message_Some input i k :
  known_wa_message input i = Some k → in_log i k ∧ delivered_as input k.
Proof.
  unfold known_wa_message. destruct (wmi_wa_message_id input) as [wa|] eqn:Hwa; [|done].
  simpl. intros [Hin Hsame]%find_Some. split; [by apply elem_of_hm_values|].
  by apply (same_wa_message_spec _ _ _ Hwa).
Qed.
Lemma known_wa_message_None input i m :
  known_wa_message input i = None → in_log i m → ¬ delivered_as input m.
Proof.
  unfold known_wa_message. intros Hk Hm Hd. pose proof Hd as [[wa Hwa] _].
  rewrite Hwa in Hk. simpl in Hk. apply (same_wa_message_spec _ _ _ Hwa) in Hd.
  rewrite find_None in Hk. rewrite Hk in Hd; [done|]. by apply elem_of_hm_values.
Qed.

(** C7. In a well-formed log, a message delivered by WhatsApp is appended with the
    identifier, the channel, the direction, the conversation, the text and the
    status of the delivery, unless the log holds a message of that channel with that WhatsApp
    identifier and direction, in whatever conversation; then nothing changes and
    such a message is returned. *)
Theorem whatsapp_message_appends input s :
  WF s → Z.of_nat (app_uuids s) < i64_max →
  let '(m, s') := record_whatsapp_message input s in
  ((∃ k, in_log (app_inner s) k ∧ delivered_as input k) →
     in_log (app_inner s) m ∧ delivered_as input m ∧ s' = s)
  ∧ ((∀ k, in_log (app_inner s) k → ¬ delivered_as input k) →
     appended (app_inner s) (app_inner s') m
     ∧ msg_wa_message_id m = wmi_wa_message_id input
     ∧ msg_channel_account_id m = wmi_channel_id input
     ∧ msg_direction m = wmi_direction input
     ∧ msg_conversation_id m = wmi_conversation_id input
     ∧ msg_text m = wmi_text input ∧ msg_status m = wmi_status input).
Proof.
  intros Hs Hb. destruct (known_wa_message input (app_inner s)) as [k|] eqn:Hk.
  - rewrite (record_whatsapp_known _ _ _ Hk). apply known_wa_message_Some in Hk as [Hl Hd].
    split; [done|]. intros Hno. by destruct (Hno k Hl).
  - pose proof (record_whatsapp_new _ _ Hs Hb Hk) as Hn.
    destruct (record_whatsapp_message input s) as [m s']. split; [|done].
    intros (k & Hl & Hd). by destruct (known_wa_message_None _ _ _ Hk Hl).
Qed.

(** Delivered a second time, the message is known. *)
Lemma appended_known input i i' m wa :
  appended i i' m → wmi_wa_message_id input = Some wa → msg_wa_message_id m = Some wa →
  msg_channel_account_id m = wmi_channel_id input → msg_direction m = wmi_direction input →
  ∃ k, known_wa_message input i' = Some k ∧ same_wa_message input wa k = true.
Proof.
  intros Happ Hwa Hm Hch Hd. unfold known_wa_message. rewrite Hwa. simpl.
  destruct (find (same_wa_message input wa) (hm_values (st_messages_by_id i'))) as [k|] eqn:E.
  - exists k. split; [done|]. exact (proj2 (find_Some _ _ _ E)).
  - exfalso. rewrite find_None in E. specialize (E m).
    assert (Hmm : same_wa_message input wa m = true).
    { unfold same_wa_message. rewrite Hch, Hm, Hd.
      by rewrite !bool_decide_eq_true_2 by done. }
    rewrite E in Hmm; [done|]. apply elem_of_hm_values. exists (msg_id m).
    rewrite (app_index _ _ _ Happ). by rewrite lookup_insert_eq.
Qed.

(** Once recorded, a WhatsApp message is known. *)
Lemma recorded_known input wa s :
  WF s → Z.of_nat (app_uuids s) < i64_max → wmi_wa_message_id input = Some wa →
  ∃ k, known_wa_message input (app_inner (state_of (record_whatsapp_message input) s)) = Some k
    ∧ same_wa_message input wa k = true.
Proof.
  intros Hs Hb Hwa. unfold state_of.
  destruct (known_wa_message input (app_inner s)) as [k|] eqn:Hk.
  - rewrite (record_whatsapp_known _ _ _ Hk). exists k. split; [done|].
    unfold known_wa_message in Hk. rewrite Hwa in Hk. simpl in Hk. exact (proj2 (find_Some _ _ _ Hk)).
  - pose proof (record_whatsapp_new _ _ Hs Hb Hk) as H1.
    destruct (record_whatsapp_message input s) as [m s'].
    destruct H1 as (Happ & Hw & Hc & Hd & _). eapply appended_known; eauto. congruence.
Qed.

(** Delivering the same WhatsApp message a second time changes nothing:
    a message identifier of WhatsApp is recorded once. *)
Theorem whatsapp_delivery_once input wa s :
  WF s → Z.of_nat (app_uuids s) < i64_max → wmi_wa_message_id input = Some wa →
  let '(m, s') := record_whatsapp_message input s in
  let '(m2, s2) := record_whatsapp_message input s' in
  s2 = s' ∧ same_wa_message input wa m2 = true.
Proof.
  intros Hs Hb Hwa.
  pose proof (recorded_known input wa s Hs Hb Hwa) as Hknown. unfold state_of in Hknown.
  destruct (record_whatsapp_message input s) as [m s']. cbn [snd] in Hknown.
  destruct Hknown as (k & Hk & Hsame). by rewrite (record_whatsapp_known _ _ _ Hk).
Qed.
End message_spec.

(** ** The theorems at the concrete run *)
Definition demo_args : RecordArgs := {|
  rec_project_id := "p"; rec_company_id := "c"; rec_conversation_id := demo_customer;
  rec_direction := "outbound"; rec_message_type := "text"; rec_text := Some "welcome";
  rec_status := "queued"; rec_quoted_message_id := None;
  rec_channel_account_id := Some "channel_dev"; rec_sender_contact_id := None;
  rec_sender_display_name := None; rec_sender_profile_picture_url := None;
  rec_sent_by_external_user_id := Some "agent" |}%string.

Lemma record_message_appends_witness :
  let '(m, s') := @record_message_inner demo_env demo_args demo_state in
  appended (app_inner demo_state) (app_inner s') m
  ∧ msg_conversation_id m = demo_customer ∧ msg_text m = Some "welcome"%string
  ∧ msg_status m = "queued"%string ∧ msg_direction m = "outbound"%string.
Proof.
  apply (@record_message_appends demo_env demo_env_laws demo_args demo_state).
  - exact demo_state_wf.
  - vm_compute. reflexivity.
Defined.

(** The second message of the demonstration is new; delivered again, it is known. *)
Lemma whatsapp_message_appends_witness :
  let '(m, s') := @record_whatsapp_message demo_env (demo_input "wa2") demo_state in
  ((∃ k, in_log (app_inner demo_state) k ∧ delivered_as (demo_input "wa2") k) →
     in_log (app_inner demo_state) m ∧ delivered_as (demo_input "wa2") m ∧ s' = demo_state)
  ∧ ((∀ k, in_log (app_inner demo_state) k → ¬ delivered_as (demo_input "wa2") k) →
     appended (app_inner demo_state) (app_inner s') m
     ∧ msg_wa_message_id m = Some "wa2"%string
     ∧ msg_channel_account_id m = "channel_dev"%string
     ∧ msg_direction m = "inbound"%string
     ∧ msg_conversation_id m = wmi_conversation_id (demo_input "wa2")
     ∧ msg_text m = wmi_text (demo_input "wa2") ∧ msg_status m = wmi_status (demo_input "wa2")).
Proof.
  apply (@whatsapp_message_appends demo_env demo_env_laws (demo_input "wa2") demo_state).
  - exact demo_state_wf.
  - vm_compute. reflexivity.
Defined.

Lemma whatsapp_delivery_once_witness :
  let '(m, s') := @record_whatsapp_message demo_env (demo_input "wa2") demo_state in
  let '(m2, s2) := @record_whatsapp_message demo_env (demo_input "wa2") s' in
  s2 = s' ∧ same_wa_message (demo_input "wa2") "wa2" m2 = true.
Proof.
  apply (@whatsapp_delivery_once demo_env demo_env_laws (demo_input "wa2") "wa2" demo_state).
  - exact demo_state_wf.
  - vm_compute. reflexivity.
  - reflexivity.
Defined.

(** ** The patch of a conversation *)
Section inbox_spec.
Context `{Env}.

(** The conversation after the assignments of a patch. *)
Definition patched (o : list (string * Value)) (c : Conversation) : Conversation :=
  c <| conv_is_archived := unwrap_or (obj_get "is_archived" o ≫= as_bool) (conv_is_archived c) |>
    <| conv_is_muted := unwrap_or (obj_get "is_muted" o ≫= as_bool) (conv_is_muted c) |>
    <| conv_is_pinned := unwrap_or (obj_get "is_pinned" o ≫= as_bool) (conv_is_pinned c) |>
    <| conv_control_mode := unwrap_or (obj_get "control_mode" o ≫= as_str)
                              (conv_control_mode c) |>.

Lemma patch_bool_ok o key set c c' get :
  patch_bool o key set c = (c', None) →
  (∀ c, set (get c) c = c) →
  c' = set (unwrap_or (obj_get key o ≫= as_bool) (get c)) c.
Proof.
  unfold patch_bool. intros Hp Hs. destruct (obj_get key o) as [v|]; simpl in *.
  - destruct (as_bool v); [by simplify_eq|done].
  - simplify_eq. by rewrite Hs.
Qed.

Lemma apply_patch_ok o c c' : apply_patch o c = (c', None) → c' = patched o c.
Proof.
  unfold apply_patch, and_then. intros Hp.
  destruct (patch_bool o "is_archived" _ c) as [c1 [?|]] eqn:H1; [done|].
  destruct (patch_bool o "is_muted" _ c1) as [c2 [?|]] eqn:H2; [done|].
  destruct (patch_bool o "is_pinned" _ c2) as [c3 [?|]] eqn:H3; [done|].
  apply (patch_bool_ok _ _ _ _ _ conv_is_archived) in H1; [|by intros []].
  apply (patch_bool_ok _ _ _ _ _ conv_is_muted) in H2; [|by intros []].
  apply (patch_bool_ok _ _ _ _ _ conv_is_pinned) in H3; [|by intros []].
  subst c1 c2 c3. unfold patch_control_mode in Hp. unfold patched.
  destruct (obj_get "control_mode" o) as [v|]; simpl in *.
  - destruct (as_str v) as [x|]; [|done]. destruct (is_blank x); [done|]. by simplify_eq/=.
  - simplify_eq/=. by destruct c.
Qed.

(** An accepted patch names only the fields that may be patched, finds a
    conversation of the company, and assigns exactly the named fields (and the
    time of the update) in it and in no other; a refused one leaves messages,
    dirty marks and events as they were. *)
Theorem patch_conversation_spec p c cv body s :
  let '(r, s') := patch_conversation_metadata p c cv body s in
  match r with
  | Ok u => ∃ o id d, body = VObject o ∧ Forall (λ k, k ∈ patch_fields) o.*1
      ∧ st_conversations (app_inner s) !! id = Some d
      ∧ conversation_matches_tenant d p c = true
      ∧ u = patched o d <| conv_updated_at := conv_updated_at u |>
      ∧ st_conversations (app_inner s') = <[id := u]> (st_conversations (app_inner s))
  | Err _ => st_messages_by_id (app_inner s') = st_messages_by_id (app_inner s)
      ∧ st_dirty (app_inner s') = st_dirty (app_inner s)
      ∧ st_events (app_inner s') = st_events (app_inner s)
  end.
Proof.
  unfold patch_conversation_metadata.
  destruct (validate_patch body) as [o|e] eqn:Hv; [|done].
  rewrite bind_run, value_of_inner, state_of_inner. cbv beta zeta.
  set (id := resolve_conversation_id_inner _ _ _ _).
  destruct (tenant_conversation (app_inner s) p c id) as [d|e] eqn:Hd; [|done].
  destruct (apply_patch o d) as [d' [e|]] eqn:Hp; [done|].
  apply apply_patch_ok in Hp as ->. autorewrite with run. unfold ret.
  rewrite persist_locked_inner.
  assert (Hv' : body = VObject o ∧ Forall (λ k, k ∈ patch_fields) o.*1).
  { unfold validate_patch in Hv. destruct body; simpl in Hv; try done.
    destruct (find _ _) eqn:Hf; [done|]. destruct o0 as [|kv o0]; [done|]. simplify_eq.
    split; [done|]. apply Forall_forall. intros k Hk.
    rewrite find_None in Hf. specialize (Hf k Hk). apply negb_false_iff in Hf.
    by apply bool_decide_eq_true in Hf. }
  destruct Hv' as [Hb Hk]. unfold tenant_conversation in Hd.
  destruct (opt_filter _ (st_conversations (app_inner s) !! id)) as [d0|] eqn:Hf; [|done].
  simpl in Hd. injection Hd as ->. apply opt_filter_Some in Hf as [Hlk Ht].
  exists o, id, d. repeat (split; [done|]). done.
Qed.
End inbox_spec.

(** ** A refused patch that is applied in part *)
Example refused_patch_applied :
  let body := json! { "is_archived" ~> true, "is_muted" ~> "yes"%string } in
  let '(r, s') := @patch_conversation_metadata demo_env "p" "c" demo_customer body demo_state in
  r = Err (BadRequest "is_muted must be a boolean")
  ∧ conv_is_archived <$> st_conversations (app_inner s') !! demo_customer = Some true.
Proof. by vm_compute. Qed.
