(* ===== verification/SnapshotSpec.v ===== *)
(** * What a snapshot keeps

    A snapshot of a store with nothing to sanitize reads back as that store,
    and whatever was stored, what is read back has no status, broadcast or
    newsletter surface. *)
From S2P Require Import Prelude Text Json Errors Env Config Models Jid Records Snapshot.
From S2P Require Import EventBus Whatsapp Store Contacts Groups Conversations Messages Inbox.
From S2P Require Import MessageLog Demo.

(** ** Filters that keep everything *)
Lemma retain_id {K V} `{Countable K} (q : K → V → bool) (m : gmap K V) :
  (∀ k v, m !! k = Some v → q k v = true) → retain q m = m.
Proof.
  intros Hq. apply map_eq. intros k. apply option_eq. intros v.
  rewrite lookup_retain_Some. naive_solver.
Qed.

Lemma map_imap_id {K V} `{Countable K} (f : K → V → option V) (m : gmap K V) :
  (∀ k v, m !! k = Some v → f k v = Some v) → map_imap f m = m.
Proof.
  intros Hf. apply map_eq. intros k. rewrite map_lookup_imap.
  destruct (m !! k) as [v|] eqn:E; simpl; [by apply Hf|done].
Qed.

Section collect.
Context `{HashOrder}.

Lemma collect_list_to_map {K V} `{Countable K} (l : list (K * V)) :
  NoDup l.*1 → collect l = list_to_map l.
Proof.
  intros Hnd. unfold collect.
  assert (Hg : ∀ m : gmap K V, (∀ k, k ∈ l.*1 → m !! k = None) →
    foldl (λ m kv, <[kv.1 := kv.2]> m) m l = (list_to_map l : gmap K V) ∪ m).
  { induction l as [|[k v] l IH]; intros m Hm; simpl; [by rewrite (left_id_L ∅ (∪))|].
    simpl in Hnd. apply NoDup_cons in Hnd as [Hk Hnd]. rewrite IH; [|done|].
    - rewrite <- insert_union_l, insert_union_r; [done|]. by apply not_elem_of_list_to_map_1.
    - intros k' Hk'. rewrite lookup_insert_ne; [apply Hm; by right|]. by intros ->. }
  rewrite Hg by (intros; apply lookup_empty). by rewrite (right_id_L ∅ (∪)).
Qed.

Lemma collect_hm_iter {K V} `{Countable K} (m : gmap K V) : collect (hm_iter m) = m.
Proof.
  rewrite collect_list_to_map by apply hm_iter_NoDup.
  rewrite (list_to_map_proper (hm_iter m) (map_to_list m)); [apply list_to_map_to_list| |].
  - apply hm_iter_NoDup.
  - apply hm_iter_perm.
Qed.
End collect.

Lemma persisted_ext (x y : PersistedStore) :
  ps_projects x = ps_projects y →
  ps_companies x = ps_companies y →
  ps_api_keys x = ps_api_keys y →
  ps_channels x = ps_channels y →
  ps_conversations x = ps_conversations y →
  ps_messages_by_conversation x = ps_messages_by_conversation y →
  ps_messages_by_id x = ps_messages_by_id y →
  ps_idempotency x = ps_idempotency y →
  ps_media_upload_idempotency x = ps_media_upload_idempotency y →
  ps_dirty x = ps_dirty y →
  ps_dirty_leases x = ps_dirty_leases y →
  ps_consumer_state x = ps_consumer_state y →
  ps_contacts x = ps_contacts y →
  ps_groups x = ps_groups y →
  ps_group_members x = ps_group_members y →
  ps_group_profile_refreshes x = ps_group_profile_refreshes y →
  ps_media x = ps_media y →
  ps_transcripts x = ps_transcripts y →
  ps_qr x = ps_qr y →
  ps_events x = ps_events y →
  ps_callbacks x = ps_callbacks y →
  ps_webhook_delivery_attempts x = ps_webhook_delivery_attempts y →
  ps_audit_logs x = ps_audit_logs y →
  x = y.
Proof. destruct x, y. simpl. by intros -> -> -> -> -> -> -> -> -> -> -> -> -> -> -> -> -> -> -> -> -> -> ->. Qed.

Lemma store_ext (x y : StoreInner) :
  st_projects x = st_projects y →
  st_companies x = st_companies y →
  st_api_keys x = st_api_keys y →
  st_channels x = st_channels y →
  st_conversations x = st_conversations y →
  st_messages_by_conversation x = st_messages_by_conversation y →
  st_messages_by_id x = st_messages_by_id y →
  st_idempotency x = st_idempotency y →
  st_media_upload_idempotency x = st_media_upload_idempotency y →
  st_media_upload_idempotency_inflight x = st_media_upload_idempotency_inflight y →
  st_dirty x = st_dirty y →
  st_dirty_leases x = st_dirty_leases y →
  st_consumer_state x = st_consumer_state y →
  st_contacts x = st_contacts y →
  st_groups x = st_groups y →
  st_group_members x = st_group_members y →
  st_group_profile_refreshes x = st_group_profile_refreshes y →
  st_media x = st_media y →
  st_transcripts x = st_transcripts y →
  st_qr x = st_qr y →
  st_events x = st_events y →
  st_internal_processed_event_ids x = st_internal_processed_event_ids y →
  st_callbacks x = st_callbacks y →
  st_webhook_delivery_attempts x = st_webhook_delivery_attempts y →
  st_audit_logs x = st_audit_logs y →
  x = y.
Proof. destruct x, y. simpl. by intros -> -> -> -> -> -> -> -> -> -> -> -> -> -> -> -> -> -> -> -> -> -> -> -> ->. Qed.

Section snapshot_spec.
Context `{Env}.

(** ** Stores with nothing to sanitize *)
Record clean (s : PersistedStore) : Prop := {
  clean_conversations : map_Forall (λ _ c, conversation_updates_surface c = false)
    (ps_conversations s);
  clean_contacts : map_Forall (λ _ c, contact_updates_surface c = false) (ps_contacts s);
  clean_groups : map_Forall (λ id g, group_updates_surface id g = false) (ps_groups s);
  clean_members : map_Forall (λ id ms, is_updates_surface_jid id = false ∧ ms ≠ ∅
    ∧ map_Forall (λ _ m, group_member_updates_surface m = false) ms) (ps_group_members s);
  clean_refreshes : map_Forall (λ k _, key_updates_surface k = false
    ∧ contains_char nul k = false) (ps_group_profile_refreshes s);
  clean_messages : map_Forall (λ _ m, message_updates_surface m = false) (ps_messages_by_id s);
  clean_log : map_Forall (λ id l, is_updates_surface_jid id = false ∧ l ≠ []
    ∧ Forall (λ m, message_updates_surface m = false) l) (ps_messages_by_conversation s);
  clean_media : map_Forall (λ _ m, is_updates_surface_jid (media_conversation_id m) = false
    ∧ (is_blank (media_conversation_id m) = true
       ∨ is_Some (ps_conversations s !! media_conversation_id m))) (ps_media s);
  clean_idempotency : Forall (λ '((_, _, key), _), is_updates_surface_jid key = false)
    (ps_idempotency s);
  clean_uploads : Forall (λ '(_, r), is_Some (ps_media s !! mui_media_id r))
    (ps_media_upload_idempotency s);
  clean_events : Forall (λ e, opt_updates_surface (ev_conversation_id e) = false) (ps_events s)
}.

Section is_clean.
Context (s : PersistedStore) (Hs : clean s).

Lemma clean_disallowed : disallowed_conversations s = ∅.
Proof.
  unfold disallowed_conversations. rewrite !retain_list_none; [set_solver| |].
  - intros id Hid. unfold hm_keys in Hid.
    apply list_elem_of_fmap in Hid as ([k l] & -> & Hin%elem_of_hm_iter).
    apply (clean_log _ Hs _ _ Hin).
  - intros x (k & Hk)%elem_of_hm_values. exact (clean_conversations _ Hs _ _ Hk).
Qed.

Lemma clean_removed : removed_messages ∅ s = ∅.
Proof.
  unfold removed_messages. rewrite !retain_list_none; [set_solver| |].
  - intros m (l & Hm & (k & Hk)%elem_of_hm_values)%list_elem_of_join. simpl.
    destruct (clean_log _ Hs _ _ Hk) as (_ & _ & Hall). rewrite Forall_forall in Hall.
    unfold mem. rewrite bool_decide_eq_false_2 by set_solver. by apply Hall.
  - intros [k m] Hk%elem_of_hm_iter. simpl.
    unfold mem. rewrite bool_decide_eq_false_2 by set_solver.
    exact (clean_messages _ Hs _ _ Hk).
Qed.

Lemma mem_empty x : mem x ∅ = false.
Proof. unfold mem. by rewrite bool_decide_eq_false_2 by set_solver. Qed.

Lemma clean_placeholders : ensure_media_conversation_placeholders s = s.
Proof.
  unfold ensure_media_conversation_placeholders. rewrite retain_list_none; [done|].
  intros m (k & Hk)%elem_of_hm_values. destruct (clean_media _ Hs _ _ Hk) as [_ [->|[c Hc]]].
  - done.
  - rewrite Hc. by rewrite bool_decide_eq_false_2, andb_false_r.
Qed.

Lemma clean_members_kept : retain_members ∅ (ps_group_members s) = ps_group_members s.
Proof.
  apply map_imap_id. intros id ms Hms. destruct (clean_members _ Hs _ _ Hms) as (-> & Hne & Hall).
  rewrite mem_empty. simpl. rewrite retain_id; [by rewrite decide_False|].
  intros k m Hm. by rewrite (Hall _ _ Hm).
Qed.

Lemma clean_log_kept :
  retain_conversation_messages ∅ ∅ (ps_messages_by_conversation s)
  = ps_messages_by_conversation s.
Proof.
  apply map_imap_id. intros id l Hl. destruct (clean_log _ Hs _ _ Hl) as (-> & Hne & Hall).
  rewrite mem_empty. simpl. rewrite retain_list_all; [by rewrite decide_False|].
  intros m Hm. rewrite mem_empty. rewrite Forall_forall in Hall. by rewrite Hall.
Qed.

Lemma sanitize_clean : sanitize_updates_surfaces s = s.
Proof.
  unfold sanitize_updates_surfaces. rewrite clean_disallowed, clean_removed. cbv zeta.
  assert (Hmedia : retain (λ _ media, negb (mem (media_conversation_id media) ∅)
      && negb (is_updates_surface_jid (media_conversation_id media))
      && is_none_or (media_message_id media) (λ id, negb (mem id ∅))) (ps_media s)
    = ps_media s).
  { apply retain_id. intros k m Hk. destruct (clean_media _ Hs _ _ Hk) as [-> _].
    rewrite mem_empty. destruct (media_message_id m); simpl; [by rewrite mem_empty|done]. }
  rewrite Hmedia.
  match goal with |- ensure_media_conversation_placeholders ?x = _ =>
    assert (Hx : x = s); [|rewrite Hx; apply clean_placeholders] end.
  apply persisted_ext; try reflexivity.
  - apply (retain_id _ (ps_conversations s)). intros k c Hk.
    by rewrite (clean_conversations _ Hs _ _ Hk).
  - exact clean_log_kept.
  - apply (retain_id _ (ps_messages_by_id s)). intros k m Hk.
    by rewrite !mem_empty, (clean_messages _ Hs _ _ Hk).
  - apply (retain_list_all _ (ps_idempotency s)). intros [[[p c] key] r] Hin.
    pose proof (clean_idempotency _ Hs) as Hall. rewrite Forall_forall in Hall.
    rewrite !mem_empty. specialize (Hall _ Hin). simpl in Hall. by rewrite Hall.
  - apply (retain_list_all _ (ps_media_upload_idempotency s)). intros [key r] Hin.
    pose proof (clean_uploads _ Hs) as Hall. rewrite Forall_forall in Hall.
    apply bool_decide_eq_true. exact (Hall _ Hin).
  - apply (retain_list_all _ (ps_dirty s)). intros [[[p c] k] d] _. by rewrite mem_empty.
  - apply (retain_list_all _ (ps_dirty_leases s)). intros [[[[p c] k] v] d] _.
    by rewrite mem_empty.
  - apply (retain_list_all _ (ps_consumer_state s)). intros [[[[p c] k] v] d] _.
    by rewrite mem_empty.
  - apply (retain_id _ (ps_contacts s)). intros k c Hk. by rewrite (clean_contacts _ Hs _ _ Hk).
  - apply (retain_id _ (ps_groups s)). intros k g Hk. by rewrite (clean_groups _ Hs _ _ Hk).
  - exact clean_members_kept.
  - apply (retain_id _ (ps_group_profile_refreshes s)). intros k t Hk.
    by destruct (clean_refreshes _ Hs _ _ Hk) as [-> _].
  - apply (retain_id _ (ps_transcripts s)). intros k t _. by rewrite mem_empty.
  - apply (retain_list_all _ (ps_events s)). intros e Hin.
    pose proof (clean_events _ Hs) as Hall. rewrite Forall_forall in Hall.
    specialize (Hall _ Hin). unfold opt_updates_surface in Hall.
    destruct (ev_conversation_id e), (ev_message_id e); simpl in *;
      rewrite ?mem_empty, ?Hall; done.
Qed.
End is_clean.

Lemma replace_char_absent a t x : contains_char a x = false → replace_char a t x = x.
Proof.
  induction x as [|b x IH]; [done|]. simpl. intros [Hb Hx]%orb_false_iff.
  apply bool_decide_eq_false in Hb. rewrite decide_False by done. by rewrite IH.
Qed.

Lemma normalize_id (m : gmap string time) :
  map_Forall (λ k _, contains_char nul k = false) m → normalize_group_profile_refreshes m = m.
Proof.
  intros Hm. etrans; [|apply (collect_hm_iter m)]. unfold normalize_group_profile_refreshes, collect.
  assert (Hl : ∀ kv, kv ∈ hm_iter m → contains_char nul kv.1 = false).
  { intros [k v] Hk%elem_of_hm_iter. exact (Hm _ _ Hk). }
  revert Hl. generalize (hm_iter m) as l. generalize (∅ : gmap string time) as acc.
  intros acc l. revert acc. induction l as [|[k v] l IH]; intros acc Hl; [done|]. simpl.
  rewrite replace_char_absent; [|apply (Hl (k, v)); by left].
  apply IH. intros kv Hkv. apply Hl. by right.
Qed.

(** A snapshot of a store that has nothing to sanitize is read back as that
    store, but for the two tables of work in flight, which start empty, and the
    group refreshes, which are normalized. *)
Lemma roundtrip_store i :
  clean (unsanitized i) →
  into_inner (from_inner i) =
    i <| st_media_upload_idempotency_inflight := ∅ |>
      <| st_internal_processed_event_ids := ∅ |>
      <| st_group_profile_refreshes ::= normalize_group_profile_refreshes |>.
Proof.
  intros Hc. unfold from_inner. rewrite (sanitize_clean _ Hc). unfold into_inner.
  rewrite (sanitize_clean _ Hc). cbv zeta.
  apply store_ext; try reflexivity; try apply collect_hm_iter.
  apply (normalize_id (normalize_group_profile_refreshes (st_group_profile_refreshes i))).
  intros k v Hk. apply (clean_refreshes _ Hc k v Hk).
Qed.

(** ** What is never kept *)
Record free_of_surfaces (s : PersistedStore) : Prop := {
  free_conversations : map_Forall (λ _ c, conversation_updates_surface c = false)
    (ps_conversations s);
  free_contacts : map_Forall (λ _ c, contact_updates_surface c = false) (ps_contacts s);
  free_groups : map_Forall (λ id g, group_updates_surface id g = false) (ps_groups s);
  free_messages : map_Forall (λ _ m, message_updates_surface m = false) (ps_messages_by_id s);
  free_log : map_Forall (λ id l, is_updates_surface_jid id = false
    ∧ Forall (λ m, message_updates_surface m = false) l) (ps_messages_by_conversation s);
  free_media : map_Forall (λ _ m, is_updates_surface_jid (media_conversation_id m) = false)
    (ps_media s)
}.

Lemma placeholder_surface ch m :
  is_updates_surface_jid (media_conversation_id m) = false →
  conversation_updates_surface (placeholder_conversation ch m) = false.
Proof.
  intros Hm. unfold conversation_updates_surface, placeholder_conversation. simpl. rewrite Hm.
  case_match; simpl; by rewrite ?Hm.
Qed.

Lemma add_placeholder_free s m :
  is_updates_surface_jid (media_conversation_id m) = false → free_of_surfaces s →
  free_of_surfaces (add_placeholder s m).
Proof.
  intros Hm [F1 F2 F3 F4 F5 F6]. unfold add_placeholder. case_match; [done|].
  constructor; try done. simpl. apply map_Forall_insert_2; [|done]. by apply placeholder_surface.
Qed.

Lemma placeholders_free s :
  free_of_surfaces s → free_of_surfaces (ensure_media_conversation_placeholders s).
Proof.
  intros Hs. unfold ensure_media_conversation_placeholders.
  assert (Hl : ∀ m, m ∈ hm_values (ps_media s) →
            is_updates_surface_jid (media_conversation_id m) = false).
  { intros m (k & Hk)%elem_of_hm_values. exact (free_media _ Hs _ _ Hk). }
  set (l := retain_list _ _).
  assert (Hl' : Forall (λ m, is_updates_surface_jid (media_conversation_id m) = false) l).
  { apply Forall_forall. intros m [Hm _]%elem_of_retain_list. by apply Hl. }
  clearbody l. clear Hl. revert s Hs. induction Hl' as [|m l Hm _ IH]; intros s Hs; simpl; [done|].
  apply IH. by apply add_placeholder_free.
Qed.

(** Whatever a snapshot holds, after the sanitizing pass no
    conversation, contact, group, message or media object in it belongs to a
    status, broadcast or newsletter surface. *)
Theorem sanitize_removes_surfaces s : free_of_surfaces (sanitize_updates_surfaces s).
Proof.
  unfold sanitize_updates_surfaces. cbv zeta. apply placeholders_free. constructor.
  - intros k c Hk. apply lookup_retain_Some in Hk as [_ Hk]. by apply negb_true_iff.
  - intros k c Hk. apply lookup_retain_Some in Hk as [_ Hk]. by apply negb_true_iff.
  - intros k c Hk. apply lookup_retain_Some in Hk as [_ Hk]. by apply negb_true_iff.
  - intros k m Hk. apply lookup_retain_Some in Hk as [_ Hk].
    apply andb_true_iff in Hk as [_ Hk]. by apply negb_true_iff.
  - intros k l. simpl. unfold retain_conversation_messages. rewrite map_lookup_imap.
    intros (l0 & Hl0 & Hf)%bind_Some. destruct (mem k _ || is_updates_surface_jid k) eqn:E; [done|].
    apply orb_false_iff in E as [_ E]. split; [done|]. case_decide; [done|]. injection Hf as <-.
    apply Forall_forall. intros m [_ Hm]%elem_of_retain_list.
    apply andb_true_iff in Hm as [_ Hm]. by apply negb_true_iff.
  - intros k m Hk. apply lookup_retain_Some in Hk as [_ Hk].
    apply andb_true_iff in Hk as [Hk _]. apply andb_true_iff in Hk as [_ Hk]. by apply negb_true_iff.
Qed.

(** Every media object of a snapshot has its conversation there: the relational
    copy can refer to it. *)
Lemma add_placeholder_media s m : ps_media (add_placeholder s m) = ps_media s.
Proof. unfold add_placeholder. by case_match. Qed.
Lemma add_placeholder_grows s m id :
  is_Some (ps_conversations s !! id) → is_Some (ps_conversations (add_placeholder s m) !! id).
Proof.
  intros Hs. unfold add_placeholder. case_match; [done|]. simpl.
  apply lookup_insert_is_Some'. by right.
Qed.
Lemma add_placeholders_grow l s id :
  is_Some (ps_conversations s !! id) →
  is_Some (ps_conversations (foldl add_placeholder s l) !! id).
Proof.
  revert s. induction l as [|m l IH]; intros s Hs; [done|]. by apply IH, add_placeholder_grows.
Qed.
Lemma add_placeholders_all l s m :
  m ∈ l → is_Some (ps_conversations (foldl add_placeholder s l) !! media_conversation_id m).
Proof.
  revert s. induction l as [|m' l IH]; intros s; [by intros ?%elem_of_nil|].
  intros [->|Hm]%elem_of_cons; simpl; [|by apply IH].
  apply add_placeholders_grow. unfold add_placeholder. case_match; simpl; [by eexists|].
  rewrite lookup_insert_eq. eauto.
Qed.
Lemma placeholders_media s : ps_media (ensure_media_conversation_placeholders s) = ps_media s.
Proof.
  unfold ensure_media_conversation_placeholders. generalize (retain_list
    (λ media, negb (is_blank (media_conversation_id media))
       && bool_decide (ps_conversations s !! media_conversation_id media = None))
    (hm_values (ps_media s))). intros l. revert s.
  induction l as [|m l IH]; intros s; [done|]. simpl. by rewrite IH, add_placeholder_media.
Qed.
Lemma snapshot_media_conversation inner id m :
  ps_media (from_inner inner) !! id = Some m → is_blank (media_conversation_id m) = false →
  is_Some (ps_conversations (from_inner inner) !! media_conversation_id m).
Proof.
  unfold from_inner, sanitize_updates_surfaces. cbv zeta.
  match goal with |- context [ensure_media_conversation_placeholders ?x] => set (s := x) end.
  rewrite placeholders_media. intros Hm Hb. unfold ensure_media_conversation_placeholders.
  destruct (ps_conversations s !! media_conversation_id m) as [c|] eqn:E.
  - apply add_placeholders_grow. by rewrite E.
  - apply add_placeholders_all, elem_of_retain_list. split; [apply elem_of_hm_values; eauto|].
    by rewrite Hb, E.
Qed.
End snapshot_spec.

(** ** The snapshot of the concrete run *)
Lemma demo_clean : clean (@unsanitized demo_env (app_inner demo_state)).
Proof. constructor; apply (bool_decide_unpack _); vm_compute; exact I. Qed.
