(* ===== verification/Channels.v ===== *)
(** * Channels, tenants and admission (src/state.rs)

    Projects, companies and API keys as the administration stores them; the
    channel records and their QR codes, kept in step with what the WhatsApp
    manager runs; the rate limit applied to a request. *)
From S2P Require Import Prelude Text Json Errors Env Config Models Jid Records.
From S2P Require Import RateLimit EventBus Whatsapp Store.

(** [PathBuf::join]: an absolute path replaces what it is joined to. *)
Definition path_join (base component : string) : string :=
  if starts_with component "/" then component
  else if bool_decide (base = "") || ends_with base "/" then base +:+ component
  else base +:+ "/" +:+ component.

Definition session_sqlite_path (base_dir project_id company_id channel_id : string) : string :=
  path_join (path_join (path_join (path_join base_dir project_id) company_id) channel_id)
    "session.sqlite".

Record RateLimitScope : Type := mkRateLimitScope {
  scope_api_key_id : string;
  scope_project_id : option string;
  scope_company_id : option string;
  scope_family : string;
  scope_resource_id : option string;
  scope_max_per_minute : Z
}.
#[export] Instance eta_RateLimitScope : Eta RateLimitScope := λ r,
  mkRateLimitScope (scope_api_key_id r) (scope_project_id r) (scope_company_id r)
    (scope_family r) (scope_resource_id r) (scope_max_per_minute r).

(** [client_ip]: [headers] reads a header that is valid text. *)
Definition client_ip (headers : string → option string) : string :=
  let clean := λ v : option string, opt_filter (λ x, negb (bool_decide (x = ""))) (trim <$> v) in
  unwrap_or
    (opt_or (clean (split_next "," <$> headers "x-forwarded-for"))
            (clean (headers "x-real-ip"))) "unknown".

(** The budgets a request counts against. *)
Definition rate_limit_keys (headers : string → option string) (s : RateLimitScope)
  : list string :=
  let family := scope_family s in
  ["api_key:" +:+ scope_api_key_id s +:+ ":family:" +:+ family;
   "ip:" +:+ client_ip headers +:+ ":family:" +:+ family]
  ++ (match scope_project_id s with
      | Some project_id => ["project:" +:+ project_id +:+ ":family:" +:+ family]
      | None => []
      end)
  ++ (match scope_project_id s, scope_company_id s with
      | Some project_id, Some company_id =>
        ["company:" +:+ project_id +:+ "/" +:+ company_id +:+ ":family:" +:+ family]
      | _, _ => []
      end)
  ++ (match scope_resource_id s with
      | Some resource_id => ["resource:" +:+ family +:+ ":" +:+ resource_id]
      | None => []
      end).

Section channels.
Context `{Env}.

Definition enforce_rate_limit (headers : string → option string) (unix_seconds : Z)
    (scope : RateLimitScope) : M (result unit ApiError) := λ s,
  match check unix_seconds (rate_limit_keys headers scope) (scope_max_per_minute scope)
          (app_rate_limiter s) with
  | (Ok _, buckets) => (Ok tt, s <| app_rate_limiter := buckets |>)
  | (Err decision, buckets) =>
    (Err (RateLimited ("rate limit exceeded for " +:+ scope_family scope
                       +:+ "; retry after " +:+ fmt_Z (rd_retry_after_seconds decision)
                       +:+ " seconds")),
     s <| app_rate_limiter := buckets |>
       <| app_metrics ::= (λ m, m <| rm_rate_limited_total ::= (λ n, wrap_u64 (n + 1)) |>) |>)
  end.

(** ** Projects, companies, API keys, audit log *)
Definition upsert_project (id name : string) : M Value :=
  let! now := now_utc in
  let project := json! { "id" ~> id, "name" ~> name, "status" ~> "active"%string,
                         "created_at" ~> ts now, "updated_at" ~> ts now } in
  modify_inner (λ i, i <| st_projects ::= <[id := project]> |>);;;
  persist_locked;;;
  ret project.

Definition upsert_company (project_id company_id name : string) : M Value :=
  let! now := now_utc in
  let! config := get_config in
  let company := json! {
    "id" ~> company_id, "project_id" ~> project_id, "name" ~> name,
    "status" ~> "active"%string, "created_at" ~> ts now, "updated_at" ~> ts now,
    "privacy" ~> json! {
      "message_retention_days" ~> 365,
      "media_temp_retention_days" ~> cfg_media_temp_retention_days config,
      "media_permanent_retention_policy" ~> "manual"%string,
      "transcript_retention_days" ~> 365,
      "allow_message_text_in_logs" ~> false,
      "allow_transcript_storage" ~> true } } in
  modify_inner (λ i, i <| st_companies ::= <[(project_id, company_id) := company]> |>);;;
  persist_locked;;;
  ret company.

Definition store_api_key_metadata (project_id : string) (company_id : option string)
    (key_id key_hash : string) (scopes : list string) (name : string) : M Value :=
  let! now := now_utc in
  let metadata := json! {
    "id" ~> key_id, "project_id" ~> project_id, "company_id" ~> company_id,
    "name" ~> name, "key_hash" ~> key_hash, "scopes" ~> scopes,
    "status" ~> "active"%string, "created_at" ~> ts now, "revoked_at" ~> VNull } in
  modify_inner (λ i, i <| st_api_keys ::= <[key_id := metadata]> |>);;;
  persist_locked;;;
  ret metadata.

Definition audit_log (project_id company_id action resource_type : string)
    (resource_id : option string) (response : Value) : M Value :=
  let! now := now_utc in
  let! id := fresh_id "audit_" in
  let entry := json! {
    "id" ~> id, "project_id" ~> project_id, "company_id" ~> company_id,
    "actor_type" ~> "api_key"%string, "action" ~> action,
    "resource_type" ~> resource_type, "resource_id" ~> resource_id,
    "response_json" ~> response, "created_at" ~> ts now } in
  modify_inner (λ i, i <| st_audit_logs ::= (λ l, l ++ [entry]) |>);;;
  persist_locked;;;
  ret entry.

Definition company (inner : StoreInner) (project_id company_id : string) : Value :=
  unwrap_or (st_companies inner !! (project_id, company_id))
    (json! { "id" ~> company_id, "project_id" ~> project_id,
             "name" ~> "Development Company"%string, "status" ~> "active"%string }).

(** ** Channel records *)
Definition put_channel (channel_id : string) (channel : Value) (inner : StoreInner)
  : StoreInner := inner <| st_channels ::= <[channel_id := channel]> |>.
Definition put_qr (qr : QrState) (inner : StoreInner) : StoreInner :=
  inner <| st_qr ::= <[qr_channel_id qr := qr]> |>.

(** [channel["status"] = "disconnected"; connected_at = null; updated_at = now] *)
Definition disconnected_channel (now : time) (channel : Value) : Value :=
  index_set (index_set (index_set channel "status" (VString "disconnected"))
    "connected_at" VNull) "updated_at" (VString (ts now)).

Definition stored_status (inner : StoreInner) (channel_id : string) : option string :=
  st_channels inner !! channel_id ≫= λ channel, get_str channel "status".

Definition create_channel (project_id company_id : string) (id label phone_e164 : option string)
  : M (result Value ApiError) :=
  let! channel_id := match id with Some id => ret id | None => fresh_id "channel_" end in
  let! now := now_utc in
  let! inner := get_inner in
  match st_channels inner !! channel_id with
  | Some existing =>
    if negb (channel_belongs_to_company existing project_id company_id)
    then ret (Err (Conflict ("channel " +:+ channel_id
                             +:+ " already exists for another company")))
    else
      let existing := index_set existing "project_id" (VString project_id) in
      let existing := index_set existing "company_id" (VString company_id) in
      let existing := match label with
                      | Some label => index_set existing "label" (VString label)
                      | None => existing end in
      let existing := match phone_e164 with
                      | Some _ => index_set existing "phone_e164" (json phone_e164)
                      | None => existing end in
      let updated := index_set existing "updated_at" (VString (ts now)) in
      modify_inner (put_channel channel_id updated);;;
      persist_locked;;;
      ret (Ok updated)
  | None =>
    let channel := json! {
      "id" ~> channel_id, "project_id" ~> project_id, "company_id" ~> company_id,
      "provider" ~> "whatsapp-rust"%string, "phone_e164" ~> phone_e164,
      "label" ~> unwrap_or label "WhatsApp Dev"%string,
      "status" ~> "disconnected"%string, "connected_at" ~> VNull,
      "created_at" ~> ts now, "updated_at" ~> ts now } in
    modify_inner (put_channel channel_id channel);;;
    persist_locked;;;
    ret (Ok channel)
  end.

(** A channel stored as connected whose client is not is put right. *)
Definition reconcile_channel_runtime_status (channel_id : string) : M unit :=
  let! connected := gets (λ s, is_channel_connected channel_id (app_whatsapp s)) in
  if connected : bool then ret tt else
  let! inner := get_inner in
  match st_channels inner !! channel_id with
  | None => ret tt
  | Some channel =>
    if decide (get_str channel "status" ≠ Some "connected") then ret tt else
    let! now := now_utc in
    let project_id := unwrap_or (get_str channel "project_id") "unknown" in
    let company_id := unwrap_or (get_str channel "company_id") "unknown" in
    modify_inner (λ i, put_qr (mkQrState channel_id "disconnected" None now)
                         (put_channel channel_id (disconnected_channel now channel) i));;;
    persist_locked;;;
    let! event := make_event "channel.disconnected" project_id company_id (Some channel_id)
                    None None None (json! {}) in
    push_event event
  end.

Definition channel (channel_id : string) : M Value :=
  reconcile_channel_runtime_status channel_id;;;
  let! inner := get_inner in
  ret (unwrap_or (st_channels inner !! channel_id)
         (json! { "id" ~> channel_id, "status" ~> "disconnected"%string })).

Definition channel_for_company (project_id company_id channel_id : string)
  : M (result Value ApiError) :=
  reconcile_channel_runtime_status channel_id;;;
  let! inner := get_inner in
  ret (ok_or (opt_filter (λ channel, channel_belongs_to_company channel project_id company_id)
                (st_channels inner !! channel_id))
             (NotFound ("channel " +:+ channel_id +:+ " not found"))).

Definition channel_status (channel_id : string) : M (option string) :=
  reconcile_channel_runtime_status channel_id;;;
  let! inner := get_inner in
  ret (stored_status inner channel_id).

Definition channel_for_conversation (inner : StoreInner) (conversation_id : string)
  : option string :=
  conv_channel_account_id <$> st_conversations inner !! conversation_id.

Definition channel_connected_at (inner : StoreInner) (channel_id : string) : option time :=
  st_channels inner !! channel_id ≫= λ channel, get_str channel "connected_at"
    ≫= parse_rfc3339.

Definition set_channel_status (channel_id status : string) (connected_at : option time)
  : M Value :=
  let! now := now_utc in
  let! inner := get_inner in
  let channel := default (json! {
      "id" ~> channel_id, "project_id" ~> "unknown"%string, "company_id" ~> "unknown"%string,
      "provider" ~> "whatsapp-rust"%string, "label" ~> "WhatsApp"%string,
      "status" ~> "disconnected"%string, "connected_at" ~> VNull,
      "created_at" ~> ts now, "updated_at" ~> ts now })
    (st_channels inner !! channel_id) in
  let channel := index_set channel "status" (VString status) in
  let channel := index_set channel "updated_at" (VString (ts now)) in
  let updated :=
    match connected_at with
    | Some t => index_set channel "connected_at" (VString (ts t))
    | None => if decide (status ≠ "connected") then index_set channel "connected_at" VNull
              else channel
    end in
  modify_inner (put_channel channel_id updated);;;
  persist_locked;;;
  ret updated.

(** ** QR codes *)
Definition set_qr (channel_id status : string) (qr_code_text : option string)
    (expires_at : time) : M QrState :=
  let qr := mkQrState channel_id status qr_code_text expires_at in
  modify_inner (put_qr qr);;;
  persist_locked;;;
  ret qr.

Definition rotate_qr (channel_id status : string) : M QrState :=
  let! u := fresh_uuid in
  let! now := now_utc in
  set_qr channel_id status (Some ("rustzap-dev-qr-" +:+ channel_id +:+ "-" +:+ u))
    (now + seconds 20).

Definition qr_is_expired (now : time) (qr : QrState) : bool :=
  bool_decide (is_Some (qr_qr_code_text qr)) && bool_decide (qr_expires_at qr ≤ now).

Definition qr (channel_id : string) : M QrState :=
  reconcile_channel_runtime_status channel_id;;;
  let! now := now_utc in
  let! inner := get_inner in
  if decide (stored_status inner channel_id = Some "connected") then
    let! now := now_utc in ret (mkQrState channel_id "connected" None now)
  else
    match st_qr inner !! channel_id with
    | Some qr =>
      if qr_is_expired now qr then
        let expired := mkQrState channel_id "disconnected" None now in
        modify_inner (λ i,
          let i := put_qr expired i in
          match st_channels i !! channel_id with
          | Some channel =>
            if decide (get_str channel "status" = Some "connecting"
                       ∨ get_str channel "status" = Some "waiting_qr")
            then put_channel channel_id (disconnected_channel now channel) i else i
          | None => i
          end);;;
        persist_locked;;;
        ret expired
      else ret qr
    | None => let! now := now_utc in ret (mkQrState channel_id "disconnected" None now)
    end.

Definition qr_for_company (project_id company_id channel_id : string)
  : M (result QrState ApiError) :=
  try! _ := channel_for_company project_id company_id channel_id in
  let! q := qr channel_id in
  ret (Ok q).

(** ** Connecting and disconnecting *)
Definition disconnect_channel (channel_id : string) : M Value :=
  modify_whatsapp (set_desired channel_id false);;;
  modify_whatsapp (stop_channel channel_id);;;
  let! inner := get_inner in
  match st_channels inner !! channel_id with
  | Some channel =>
    let! now := now_utc in
    let channel := disconnected_channel now channel in
    modify_inner (put_channel channel_id channel);;;
    persist_locked;;;
    ret channel
  | None =>
    persist_locked;;;
    ret (json! { "id" ~> channel_id, "status" ~> "disconnected"%string })
  end.

Definition disconnect_channel_for_company (project_id company_id channel_id : string)
  : M (result Value ApiError) :=
  try! _ := channel_for_company project_id company_id channel_id in
  let! v := disconnect_channel channel_id in
  ret (Ok v).

Definition wipe_session_files (path : string) : M unit :=
  modify (λ s, s <| app_session_wipes ::= (λ l, l ++ [path]) |>).

(** Credentials that a logout made useless are wiped before the next start. *)
Definition reset_session_if_needed (project_id company_id channel_id session_path : string)
  : M unit :=
  let! current_status := gets (λ s, stored_status (app_inner s) channel_id) in
  let! reset := (λ s, let '(b, w) := take_needs_session_reset channel_id (app_whatsapp s) in
                      (b, s <| app_whatsapp := w |>)) in
  if (reset : bool) || bool_decide (current_status = Some "logged_out") then
    modify_whatsapp (stop_channel channel_id);;;
    wipe_session_files session_path;;;
    let! event := make_event "channel.session_reset" project_id company_id (Some channel_id)
      None None None (json! { "reason" ~> "logged_out_credentials_wiped"%string }) in
    push_event event
  else ret tt.

(** The end of [connect_channel]: a new client is started; [outcome] is what
    the client library answers. *)
Definition start_connection (outcome : result bool string) (runtime : ChannelRuntime)
  : M (result QrState ApiError) :=
  let channel_id := rt_channel_id runtime in
  let! now := now_utc in
  let! q := set_qr channel_id "connecting" None now in
  let! _ := set_channel_status channel_id "connecting" None in
  modify_whatsapp (set_desired channel_id true);;;
  let! started := (λ s, let '(r, w) := start_channel runtime outcome (app_whatsapp s) in
                        (r, s <| app_whatsapp := w |>)) in
  match started with
  | Ok _ => ret (Ok q)
  | Err err => ret (Err (Internal ("failed to start WhatsApp: " +:+ err)))
  end.

Definition connect_channel (outcome : result bool string)
    (project_id company_id channel_id : string) : M (result QrState ApiError) :=
  try! _ := channel_for_company project_id company_id channel_id in
  let! stored_connected := gets (λ s,
    bool_decide (stored_status (app_inner s) channel_id = Some "connected")) in
  let! client_connected := gets (λ s, is_channel_connected channel_id (app_whatsapp s)) in
  if (stored_connected : bool) && client_connected then
    let! now := now_utc in ret (Ok (mkQrState channel_id "connected" None now))
  else
    (if stored_connected then modify_whatsapp (mark_connected channel_id) else ret tt);;;
    let! now := now_utc in
    let! cached_qr := gets (λ s, st_qr (app_inner s) !! channel_id) in
    match opt_filter (λ q, bool_decide (is_Some (qr_qr_code_text q))
                           && bool_decide (now + seconds 2 < qr_expires_at q)) cached_qr with
    | Some q => ret (Ok q)
    | None =>
      (if is_some_and cached_qr (λ q, bool_decide (is_Some (qr_qr_code_text q))
                                      && bool_decide (qr_expires_at q ≤ now + seconds 2))
       then modify_whatsapp (stop_channel channel_id) else ret tt);;;
      let! config := get_config in
      let session_path := session_sqlite_path (cfg_wa_session_sqlite_dir config)
                            project_id company_id channel_id in
      reset_session_if_needed project_id company_id channel_id session_path;;;
      start_connection outcome (mkChannelRuntime project_id company_id channel_id session_path)
    end.
End channels.
