(* ===== verification/Bytes.v ===== *)
(** * The byte store (src/storage.rs)

    Media objects by key, in the file system or in R2.  The contents are part
    of the state; what the file system or the S3 service refuses is a
    parameter. *)
From S2P Require Import Prelude Text Json Errors Env Config Models Jid Records Store.

(** ** Where the local store puts an object

    [Path::components] of a relative key on Unix: empty and [.] components
    are dropped, [..] is a [ParentDir], a leading [/] a [RootDir], and a
    leading [.] a [CurDir]. *)
Inductive Component :=
| RootDir
| CurDir
| ParentDir
| Normal (name : string).

Definition component_of (part : string) : Component :=
  if decide (part = "..") then ParentDir else Normal part.

Definition components (path : string) : list Component :=
  let parts := split "/" path in
  let rest := component_of <$>
    retain_list (λ part, negb (bool_decide (part = "")) && negb (bool_decide (part = "."))) parts in
  if starts_with path "/" then RootDir :: rest
  else match parts with
       | "." :: _ => CurDir :: rest
       | _ => rest
       end.

(** [relative.push(part)] in order; anything but a [Normal] component stops. *)
Fixpoint collect_normal (cs : list Component) : option (list string) :=
  match cs with
  | [] => Some []
  | Normal name :: cs => cons name <$> collect_normal cs
  | _ :: _ => None
  end.

Definition push_path (base name : string) : string :=
  if decide (base = "") then name
  else if ends_with base "/" then base +:+ name else base +:+ "/" +:+ name.

Definition local_object_path (local_dir object_key : string) : result string string :=
  if is_blank object_key then Err "object key is empty"%string
  else match collect_normal (components object_key) with
       | None => Err "object key contains unsafe path components"%string
       | Some parts => Ok (foldl push_path local_dir parts)
       end.

(** ** The store: [MediaByteStore::from_config]

    The local provider keeps an object under its path, R2 under its key. *)
Definition bytes_location (config : AppConfig) (object_key : string) : result string string :=
  match cfg_storage_provider config with
  | LocalFs => local_object_path (cfg_local_storage_dir config) object_key
  | R2 => if can_upload (cfg_r2 config) then Ok object_key
          else Err "R2 storage is not configured"%string
  end.

(** The file system or the service, by location: [io_put] fails with an error
    and with what the failed write leaves there, if it changed anything;
    [io_ready] is the creation of the local directory. *)
Record ByteIo : Type := mkByteIo {
  io_put : string → option (string * option string);
  io_get : string → option string;
  io_delete : string → option string;
  io_ready : option string
}.

(** A store that never fails, for concrete runs. *)
Definition reliable_io : ByteIo := mkByteIo (λ _, None) (λ _, None) (λ _, None) None.

Definition bytes_put (io : ByteIo) (object_key bytes : string) : M (result unit string) := λ s,
  match bytes_location (app_config s) object_key with
  | Err err => (Err err, s)
  | Ok at_ =>
    match io_put io at_ with
    | Some (err, None) => (Err err, s)
    | Some (err, Some partial) => (Err err, s <| app_media_bytes ::= <[at_ := partial]> |>)
    | None => (Ok tt, s <| app_media_bytes ::= <[at_ := bytes]> |>)
    end
  end.

Definition missing_bytes (config : AppConfig) : string :=
  match cfg_storage_provider config with
  | LocalFs => "local media read failed: No such file or directory (os error 2)"
  | R2 => "R2 download returned 404 Not Found"
  end.
Definition bytes_get (io : ByteIo) (object_key : string) : M (result string string) := λ s,
  match bytes_location (app_config s) object_key with
  | Err err => (Err err, s)
  | Ok at_ =>
    match io_get io at_ with
    | Some err => (Err err, s)
    | None => (ok_or (app_media_bytes s !! at_) (missing_bytes (app_config s)), s)
    end
  end.

(** Deleting from an R2 that is not configured succeeds, and so does deleting
    a file that does not exist. *)
Definition bytes_delete (io : ByteIo) (object_key : string) : M (result unit string) := λ s,
  match bytes_location (app_config s) object_key with
  | Err err =>
    (if decide (cfg_storage_provider (app_config s) = R2) then Ok tt else Err err, s)
  | Ok at_ =>
    if bool_decide (cfg_storage_provider (app_config s) = LocalFs)
       && bool_decide (app_media_bytes s !! at_ = None) then (Ok tt, s)
    else match io_delete io at_ with
         | Some err => (Err err, s)
         | None => (Ok tt, s <| app_media_bytes ::= delete at_ |>)
         end
  end.

(** R2 copies on the server. *)
Definition bytes_copy (io : ByteIo) (source_object_key destination_object_key : string)
  : M (result unit string) :=
  let! config := get_config in
  match cfg_storage_provider config with
  | LocalFs =>
    try! bytes := bytes_get io source_object_key in
    bytes_put io destination_object_key bytes
  | R2 =>
    if negb (can_upload (cfg_r2 config)) then ret (Err "R2 storage is not configured"%string)
    else
      let! source := gets (λ s, app_media_bytes s !! source_object_key) in
      match source with
      | None => ret (Err "R2 copy returned 404 Not Found"%string)
      | Some bytes => bytes_put io destination_object_key bytes
      end
  end.

Definition readiness_key (config : AppConfig) (id : string) : string :=
  trim_matches "/" (r2_base_prefix (cfg_r2 config)) +:+ "/readiness/" +:+ id +:+ ".txt".
Definition ready_check `{Env} (io : ByteIo) (r2_write_check : bool)
  : M (result string string) :=
  let! config := get_config in
  match cfg_storage_provider config with
  | LocalFs =>
    ret match io_ready io with
        | Some err => Err ("local storage directory not ready: " +:+ err)
        | None => Ok ("local_fs ready at " +:+ cfg_local_storage_dir config)
        end
  | R2 =>
    if negb (can_upload (cfg_r2 config))
    then ret (Err "R2 endpoint/access key/secret/bucket missing"%string)
    else if r2_write_check then
      let! id := fresh_uuid in
      let object_key := readiness_key config id in
      try! _ := bytes_put io object_key "ok" in
      try! _ := bytes_delete io object_key in
      ret (Ok "r2 ready; write/delete check passed"%string)
    else ret (Ok "r2 configuration ready"%string)
  end.

(** ** The requests to R2

    The S3 client: what it sends, and what the service answers.  [r2s_endpoint]
    and [r2s_bucket]: the parsing of the endpoint and the check of the bucket by
    the libraries; [r2s_send]: the answer to a signed request, with the objects
    the service holds after it. *)
Inductive R2Request :=
| R2Put (key content_type bytes : string)
| R2Get (key : string)
| R2Copy (copy_source key : string)
| R2Delete (key : string).
Record R2Answer : Type := mkR2Answer {
  ra_status : string;
  ra_success : bool;
  ra_body : result string string
}.
Abbreviation Objects := (gmap string string).
Record R2Service : Type := mkR2Service {
  r2s_endpoint : string → result unit string;
  r2s_bucket : R2Config → result unit string;
  r2s_send : R2Request → Objects → result R2Answer string * Objects
}.

Section r2.
Context (service : R2Service) (config : R2Config).

(** The keys are there once [can_upload] holds. *)
Definition r2_bucket_and_credentials : result unit string :=
  let? _ := match r2s_endpoint service (unwrap_or (r2_endpoint config) "") with
            | Ok _ => Ok tt
            | Err err => Err ("invalid R2 endpoint: " +:+ err)
            end in
  match r2s_bucket service config with
  | Ok _ => Ok tt
  | Err err => Err ("invalid R2 bucket config: " +:+ err)
  end.
(** A request that is answered. *)
Definition r2_request (verb : string) (request : R2Request) : ST Objects (result R2Answer string) :=
  try! _ := ret r2_bucket_and_credentials in
  let! answer := r2s_send service request in
  ret match answer with
      | Ok answer => Ok answer
      | Err err => Err ("R2 " +:+ verb +:+ " request failed: " +:+ err)
      end.
(** An answer that is a success, or the error with its status. *)
Definition r2_success (verb : string) (answer : R2Answer) : result unit string :=
  if ra_success answer then Ok tt else Err ("R2 " +:+ verb +:+ " returned " +:+ ra_status answer).

Definition upload_r2_bytes (object_key content_type bytes : string)
  : ST Objects (result unit string) :=
  if negb (can_upload config) then ret (Ok tt)
  else
    try! answer := r2_request "upload" (R2Put object_key content_type bytes) in
    ret (if ra_success answer then Ok tt
         else let body := match ra_body answer with
                          | Ok body => body
                          | Err _ => "<body unavailable>"
                          end in
              Err ("R2 upload returned " +:+ ra_status answer +:+ ": " +:+ take_chars 256 body)).

Definition download_r2_bytes (object_key : string) : ST Objects (result string string) :=
  if negb (can_upload config) then ret (Err "R2 storage is not configured"%string)
  else
    try! answer := r2_request "download" (R2Get object_key) in
    ret (let? _ := r2_success "download" answer in
         match ra_body answer with
         | Ok bytes => Ok bytes
         | Err err => Err ("R2 download body failed: " +:+ err)
         end).

Definition copy_r2_object (source_object_key destination_object_key : string)
  : ST Objects (result unit string) :=
  if negb (can_upload config) then ret (Ok tt)
  else
    let copy_source := "/" +:+ r2_bucket config +:+ "/" +:+ source_object_key in
    try! answer := r2_request "copy" (R2Copy copy_source destination_object_key) in
    ret (r2_success "copy" answer).

Definition delete_r2_object (object_key : string) : ST Objects (result unit string) :=
  if negb (can_upload config) then ret (Ok tt)
  else
    try! answer := r2_request "delete" (R2Delete object_key) in
    ret (r2_success "delete" answer).

(** The service stores what it accepts under the key of the request and touches
    no other object; a read changes none and answers what is stored. *)
Record R2Laws : Prop := {
  put_stores k t b objects a objects' :
    r2s_send service (R2Put k t b) objects = (Ok a, objects') → ra_success a = true →
    objects' = <[k := b]> objects;
  put_local k t b objects r objects' :
    r2s_send service (R2Put k t b) objects = (r, objects') →
    objects' = objects ∨ ∃ v, objects' = <[k := v]> objects;
  get_reads k objects r objects' :
    r2s_send service (R2Get k) objects = (r, objects') → objects' = objects
    ∧ ∀ a bytes, r = Ok a → ra_success a = true → ra_body a = Ok bytes → objects !! k = Some bytes
}.
End r2.

(** ** Properties *)

(** A file name: not empty, not [.] or [..], without a separator. *)
Definition file_name (s : string) : Prop :=
  s ≠ "" ∧ s ≠ "." ∧ s ≠ ".." ∧ contains_char "/" s = false.

Lemma split_no_sep c s part : part ∈ split c s → contains_char c part = false.
Proof.
  revert part. induction s as [|a s IH]; simpl; intros part.
  - by intros ->%list_elem_of_singleton.
  - case_decide as E.
    + intros [->|Hp]%elem_of_cons; [done|by apply IH].
    + pose proof (split_not_nil c s). destruct (split c s) as [|p ps]; [done|].
      intros [->|Hp]%elem_of_cons.
      * simpl. rewrite bool_decide_eq_false_2 by done. apply IH. left.
      * apply IH. by right.
Qed.

Lemma collect_normal_names cs names :
  collect_normal cs = Some names → cs = Normal <$> names.
Proof.
  revert names. induction cs as [|c cs IH]; simpl; intros names; [by intros [= <-]|].
  destruct c; try done. intros (l & Hl & ->)%fmap_Some. simpl. by rewrite (IH l Hl).
Qed.

Lemma components_names path names :
  components path = Normal <$> names → Forall file_name names.
Proof.
  unfold components. set (rest := component_of <$> _). intros Hc.
  assert (Hr : rest = Normal <$> names).
  { destruct (starts_with path "/"); [by destruct names|].
    destruct (split "/" path) as [|p ps]; [done|].
    destruct (decide (p = ".")) as [->|]; [by destruct names|].
    destruct p as [|[[] [] [] [] [] [] [] []] [|]]; try done. }
  clear Hc. unfold rest in Hr. apply Forall_forall. intros n Hn.
  assert (Normal n ∈ rest) as (p & Hp & Hin)%list_elem_of_fmap.
  { unfold rest. rewrite Hr. apply list_elem_of_fmap. eauto. }
  apply elem_of_retain_list in Hin as [Hin Hf]. split_bools.
  unfold component_of in Hp. case_decide; simplify_eq.
  repeat split; eauto using split_no_sep.
Qed.

(** The path of an object in the local store is the storage directory
    followed by plain names: an object key cannot escape the directory. *)
Theorem local_object_path_contained local_dir object_key path :
  local_object_path local_dir object_key = Ok path →
  ∃ names, Forall file_name names ∧ components object_key = Normal <$> names
    ∧ path = foldl push_path local_dir names.
Proof.
  unfold local_object_path. destruct (is_blank object_key); [done|].
  destruct (collect_normal _) as [names|] eqn:E; [|done]. intros [= <-].
  apply collect_normal_names in E. exists names. eauto using components_names.
Qed.

Lemma local_object_path_contained_witness :
  ∃ names, Forall file_name names ∧ components "media/2026/a.bin" = Normal <$> names
    ∧ "/var/lib/rustzap/media/2026/a.bin"%string = foldl push_path "/var/lib/rustzap"%string names.
Proof.
  apply (local_object_path_contained "/var/lib/rustzap" "media/2026/a.bin").
  by vm_compute.
Defined.

(** Keys that climb out of the directory are refused. *)
Example traversal_refused :
  local_object_path "/data" "media/../../etc/passwd"
    = Err "object key contains unsafe path components"%string
  ∧ local_object_path "/data" "/etc/passwd"
    = Err "object key contains unsafe path components"%string
  ∧ local_object_path "/data" "./a" = Err "object key contains unsafe path components"%string.
Proof. by vm_compute. Qed.

(** ** The store over the service

    What [bytes_put] and [bytes_get] do for R2 is what the client does with a
    service that keeps its laws, for an outcome of the service. *)
Section over_r2.
Context (service : R2Service) (Hlaws : R2Laws service).

Lemma bytes_put_r2 key content_type bytes s :
  cfg_storage_provider (app_config s) = R2 → can_upload (cfg_r2 (app_config s)) = true →
  let '(r, objects) := upload_r2_bytes service (cfg_r2 (app_config s)) key content_type bytes
                         (app_media_bytes s) in
  ∃ io, bytes_put io key bytes s = (r, s <| app_media_bytes := objects |>).
Proof.
  intros Hp Hc. destruct (upload_r2_bytes _ _ _ _ _ _) as [r objects] eqn:E. revert E.
  unfold upload_r2_bytes, r2_request, bindR, bind, ret, bytes_put, bytes_location. rewrite Hp, Hc. cbn [negb].
  assert (Hfail : ∀ err, r = Err err → objects = app_media_bytes s ∨ (∃ v, objects = <[key := v]> (app_media_bytes s)) →
    ∃ io, (match io_put io key with
           | Some (err, None) => (Err err, s)
           | Some (err, Some partial) => (Err err, s <| app_media_bytes ::= <[key := partial]> |>)
           | None => (Ok tt, s <| app_media_bytes ::= <[key := bytes]> |>)
           end) = (r, s <| app_media_bytes := objects |>)).
  { intros err -> [->|[v ->]].
    - exists (mkByteIo (λ _, Some (err, None)) (λ _, None) (λ _, None) None). by destruct s.
    - exists (mkByteIo (λ _, Some (err, Some v)) (λ _, None) (λ _, None) None). by destruct s. }
  destruct (r2_bucket_and_credentials _ _) as [[]|e]; [|intros [= <- <-]; eauto].
  destruct (r2s_send _ _ _) as [[a|e] objects'] eqn:Es.
  - destruct (ra_success a) eqn:Ea; intros [= <- <-].
    + apply (put_stores service Hlaws) in Es as ->; [|done].
      exists (mkByteIo (λ _, None) (λ _, None) (λ _, None) None). by destruct s.
    + eapply Hfail; [done|]. by eapply put_local.
  - intros [= <- <-]. eapply Hfail; [done|]. by eapply put_local.
Qed.

Lemma bytes_get_r2 key s :
  cfg_storage_provider (app_config s) = R2 → can_upload (cfg_r2 (app_config s)) = true →
  let '(r, objects) := download_r2_bytes service (cfg_r2 (app_config s)) key (app_media_bytes s) in
  objects = app_media_bytes s ∧ ∃ io, bytes_get io key s = (r, s).
Proof.
  intros Hp Hc. destruct (download_r2_bytes _ _ _ _) as [r objects] eqn:E. revert E.
  unfold download_r2_bytes, r2_request, bindR, bind, ret, bytes_get, bytes_location. rewrite Hp, Hc. cbn [negb].
  assert (Hfail : ∀ err, r = Err err →
    ∃ io, (match io_get io key with
           | Some err => (Err err, s)
           | None => (ok_or (app_media_bytes s !! key) (missing_bytes (app_config s)), s)
           end) = (r, s)).
  { intros err ->. by exists (mkByteIo (λ _, None) (λ _, Some err) (λ _, None) None). }
  destruct (r2_bucket_and_credentials _ _) as [[]|e]; [|intros [= <- <-]; split; eauto].
  destruct (r2s_send _ _ _) as [[a|e] objects'] eqn:Es;
    destruct (get_reads service Hlaws _ _ _ _ Es) as [-> Hread]; [|intros [= <- <-]; split; eauto].
  unfold r2_success. destruct (ra_success a) eqn:Ea; [|intros [= <- <-]; split; eauto].
  destruct (ra_body a) as [bytes|err] eqn:Eb; intros [= <- <-]; split; eauto.
  exists (mkByteIo (λ _, None) (λ _, None) (λ _, None) None). simpl. by rewrite (Hread a bytes).
Qed.
End over_r2.
