(* ===== verification/Transcripts.v ===== *)
(** * Transcripts (src/transcription.rs, src/state.rs)

    The life of an audio transcript: requested, processed by the
    speech-to-text service, completed, failed or skipped. *)
From S2P Require Import Prelude Text Json Errors Env Config Models Jid Records.
From S2P Require Import EventBus Whatsapp Store Contacts Groups Conversations Messages.
From S2P Require Import Channels Bytes.

Record GroqTranscription : Type := mkGroqTranscription {
  groq_text : string;
  groq_raw_response_json : Value
}.
#[export] Instance eta_GroqTranscription : Eta GroqTranscription := λ r,
  mkGroqTranscription (groq_text r) (groq_raw_response_json r).

Inductive TranscriptLifecycle :=
| Pending
| Processing
| Completed
| Failed (error : string)
| SkippedSizeLimit
| SkippedUnsupportedType.

Definition lifecycle_status (l : TranscriptLifecycle) : string :=
  match l with
  | Pending => "pending"
  | Processing => "processing"
  | Completed => "completed"
  | Failed _ => "failed"
  | SkippedSizeLimit => "skipped_size_limit"
  | SkippedUnsupportedType => "skipped_unsupported_type"
  end.

(** [parse_groq_transcription_response]; [status] is the HTTP status as it is
    displayed, [success] whether it is a 2xx, [show] the display of a body. *)
Definition parse_groq_transcription_response (show : Value → string) (status : string)
    (success : bool) (body : Value) : result GroqTranscription string :=
  if negb success then Err ("Groq STT returned " +:+ status +:+ ": " +:+ show body)
  else let? text := ok_or (get_str body "text") "Groq STT response missing text"%string in
       Ok (mkGroqTranscription text body).

(** [transcribe_bytes]: the checks made before the request, and [respond],
    the service (with the preprocessing step, when it is enabled). *)
Definition transcribe_bytes (groq : GroqConfig)
    (respond : string → string → string → result GroqTranscription string)
    (filename mime_type bytes : string) : result GroqTranscription string :=
  if negb (starts_with mime_type "audio/") then Err "unsupported audio MIME type"%string
  else if decide (wrap_u64 (wrap_u64 (groq_stt_max_audio_mb groq * 1024) * 1024)
                  < Z.of_nat (String.length bytes))
  then Err "audio exceeds Groq STT size limit"%string
  else match groq_api_key groq with
       | None => Err "GROQ_API_KEY missing"%string
       | Some _ => respond filename mime_type bytes
       end.

Record CompanyPrivacyPolicy : Type := mkCompanyPrivacyPolicy {
  pol_message_retention_days : option Z;
  pol_media_temp_retention_days : option Z;
  pol_transcript_retention_days : option Z;
  pol_allow_transcript_storage : bool
}.
#[export] Instance eta_CompanyPrivacyPolicy : Eta CompanyPrivacyPolicy := λ r,
  mkCompanyPrivacyPolicy (pol_message_retention_days r) (pol_media_temp_retention_days
    r) (pol_transcript_retention_days r) (pol_allow_transcript_storage r).

Definition company_privacy_policy (company : Value) : CompanyPrivacyPolicy :=
  let privacy := index company "privacy" in
  let days := λ (key : string) (d : Z), opt_or (get privacy key ≫= as_u64) (Some d) in
  {| pol_message_retention_days := days "message_retention_days" 365;
     pol_media_temp_retention_days := days "media_temp_retention_days" 30;
     pol_transcript_retention_days := days "transcript_retention_days" 365;
     pol_allow_transcript_storage :=
       unwrap_or (get privacy "allow_transcript_storage" ≫= as_bool) true |}.

Definition redacted : Value := json! { "redacted" ~> true }.

Section transcripts.
Context `{Env}.

Definition mock_transcript (project_id company_id message_id : string)
    (media_id : option string) : M Transcript :=
  let! now := now_utc in
  let! id := fresh_id "tr_" in
  ret {| tr_id := id;
         tr_project_id := project_id;
         tr_company_id := company_id;
         tr_message_id := message_id;
         tr_media_id := media_id;
         tr_provider := "groq";
         tr_model := "whisper-large-v3-turbo";
         tr_language := "pt";
         tr_text := Some "Transcricao simulada para audio de desenvolvimento.";
         tr_raw_response_json := json! { "mock" ~> true };
         tr_status := "completed";
         tr_error_message := None;
         tr_created_at := now;
         tr_updated_at := now |}.

Definition transcript_with_lifecycle (project_id company_id message_id : string)
    (media_id : option string) (lifecycle : TranscriptLifecycle) (text : option string)
  : M Transcript :=
  let! now := now_utc in
  let! id := fresh_id "tr_" in
  ret {| tr_id := id;
         tr_project_id := project_id;
         tr_company_id := company_id;
         tr_message_id := message_id;
         tr_media_id := media_id;
         tr_provider := "groq";
         tr_model := "whisper-large-v3-turbo";
         tr_language := "pt";
         tr_text := text;
         tr_raw_response_json := json! { "lifecycle" ~> lifecycle_status lifecycle };
         tr_status := lifecycle_status lifecycle;
         tr_error_message := match lifecycle with Failed m => Some m | _ => None end;
         tr_created_at := now;
         tr_updated_at := now |}.

Definition groq_transcript_from_result (project_id company_id message_id : string)
    (media_id : option string) (result : GroqTranscription) : M Transcript :=
  let! t := transcript_with_lifecycle project_id company_id message_id media_id Completed
              (Some (groq_text result)) in
  ret (t <| tr_raw_response_json := groq_raw_response_json result |>).

Definition put_transcript (message_id : string) (t : Transcript) (inner : StoreInner)
  : StoreInner := inner <| st_transcripts ::= <[message_id := t]> |>.

Definition transcript (inner : StoreInner) (message_id : string)
  : result Transcript ApiError :=
  ok_or (st_transcripts inner !! message_id)
    (NotFound ("transcript for " +:+ message_id +:+ " not found")).

Definition create_transcript (project_id company_id message_id : string) : M Transcript :=
  let! t := mock_transcript project_id company_id message_id None in
  modify_inner (put_transcript message_id t);;;
  persist_locked;;;
  ret t.

Definition media_not_found (media_id : string) : ApiError :=
  NotFound ("media " +:+ media_id +:+ " not found").
Definition media (inner : StoreInner) (media_id : string) : result MediaObject ApiError :=
  ok_or (st_media inner !! media_id) (media_not_found media_id).
Definition media_for_company (inner : StoreInner) (project_id company_id media_id : string)
  : result MediaObject ApiError :=
  ok_or (opt_filter (λ m, media_of_tenant m project_id company_id)
           (st_media inner !! media_id)) (media_not_found media_id).

Definition company_allows_transcript_storage (inner : StoreInner)
    (project_id company_id : string) : bool :=
  pol_allow_transcript_storage
    (company_privacy_policy (company inner project_id company_id)).

Definition transcription_requested (m : Message) (media_id transcript_id : string) : M unit :=
  emit_message "audio.transcription.requested" m
    (json! { "message_id" ~> msg_id m, "media_id" ~> media_id,
             "transcript_id" ~> transcript_id }).

(** Statuses for which a new request returns the transcript there is. *)
Definition settled_or_running (status : string) : bool :=
  is_any status ["pending"; "processing"; "completed"; "skipped_size_limit";
                 "skipped_unsupported_type"]%string.

(** What is requested again when it is not: a failed transcript. *)
Definition request_transcript (project_id company_id message_id : string)
  : M (result Transcript ApiError) :=
  let! inner := get_inner in
  try! m := ret (message_for_company inner project_id company_id message_id) in
  match msg_media_id m with
  | None =>
    ret (Err (BadRequest ("message " +:+ message_id +:+ " has no media to transcribe")))
  | Some media_id_ =>
    try! media := ret (media_for_company inner project_id company_id media_id_) in
    if negb (starts_with (media_mime_type media) "audio/")
    then ret (Err (BadRequest ("media " +:+ media_id media +:+ " is not an audio object")))
    else
      match opt_filter (λ t, settled_or_running (tr_status t))
              (st_transcripts inner !! message_id) with
      | Some t => ret (Ok t)
      | None =>
        let! t := transcript_with_lifecycle project_id company_id message_id
                    (Some (media_id media)) Pending None in
        modify_inner (put_transcript message_id t);;;
        transcription_requested m (media_id media) (tr_id t);;;
        persist_locked;;;
        ret (Ok t)
      end
  end.

(** The transcript as it is stored: redacted when the company does not allow
    the text to be kept, and with the identity of the one it replaces. *)
Definition transcript_to_store (inner : StoreInner) (m : Message) (t : Transcript)
  : Transcript :=
  let t := if company_allows_transcript_storage inner (msg_project_id m) (msg_company_id m)
           then t
           else t <| tr_text := None |> <| tr_raw_response_json := redacted |> in
  match st_transcripts inner !! msg_id m with
  | Some existing => t <| tr_id := tr_id existing |> <| tr_created_at := tr_created_at existing |>
  | None => t
  end.

Definition set_transcript_lifecycle (m : Message) (media : MediaObject)
    (lifecycle : TranscriptLifecycle) (text : option string)
  : M (result Transcript ApiError) :=
  let! t := transcript_with_lifecycle (msg_project_id m) (msg_company_id m) (msg_id m)
              (Some (media_id media)) lifecycle text in
  let! inner := get_inner in
  let t := transcript_to_store inner m t in
  modify_inner (put_transcript (msg_id m) t);;;
  (if decide (tr_status t = "completed") then
     emit_message "audio.transcribed" m
       (json! { "message_id" ~> msg_id m, "media_id" ~> media_id media,
                "transcript_id" ~> tr_id t, "status" ~> tr_status t });;;
     mark_message_dirty m
   else ret tt);;;
  persist_locked;;;
  ret (Ok t).

Definition set_completed_groq_transcript (m : Message) (media : MediaObject)
    (result : GroqTranscription) : M (Prelude.result Transcript ApiError) :=
  let! t := groq_transcript_from_result (msg_project_id m) (msg_company_id m) (msg_id m)
              (Some (media_id media)) result in
  let! inner := get_inner in
  let t := transcript_to_store inner m t in
  let payload := json! { "message_id" ~> msg_id m, "media_id" ~> media_id media,
                         "transcript_id" ~> tr_id t } in
  modify_inner (put_transcript (msg_id m) t);;;
  emit_message "audio.transcribed" m payload;;;
  emit_message "transcript.completed" m payload;;;
  mark_message_dirty m;;;
  persist_locked;;;
  ret (Ok t).

(** [media_blob]: the record is found, then the bytes are read.  A missing
    object is not an error. *)
Definition media_blob_blocks (io : ByteIo) (media_id : string)
  : Async AppState (Prelude.result (option (MediaObject * string)) ApiError) :=
  do! found := gets (λ s, media (app_inner s) media_id) in
  match found with
  | Err e => Finish (Err e)
  | Ok m =>
    match opt_or (media_object_key m) (media_permanent_object_key m) with
    | None => Finish (Ok None)
    | Some object_key =>
      do! r := bytes_get io object_key in
      Finish match r with
             | Ok bytes => Ok (Some (m, bytes))
             | Err err =>
               if contains_str err "No such file" || contains_str err "not found"
                  || contains_str err "os error 2"
               then Ok None else Err (ProviderError err)
             end
    end
  end.
Definition media_blob (io : ByteIo) (media_id : string)
  : M (Prelude.result (option (MediaObject * string)) ApiError) :=
  run_async (media_blob_blocks io media_id).

(** Statuses after which a request event has nothing left to do. *)
Definition settled (status : string) : bool :=
  is_any status ["completed"; "skipped_size_limit"; "skipped_unsupported_type"]%string.

(** The part of [process_transcription_request] that reads the bytes and
    calls the service. *)
Definition transcribe_media (io : ByteIo)
    (respond : string → string → string → Prelude.result GroqTranscription string)
    (m : Message) (media : MediaObject) (media_id_ : string)
  : M (Prelude.result Transcript ApiError) :=
  let fail := λ error, set_transcript_lifecycle m media (Failed error) None in
  let! blob := media_blob io media_id_ in
  match blob with
  | Ok None => fail ("media " +:+ media_id_ +:+ " has no stored bytes available for STT")
  | Err err => fail (error_message err)
  | Ok (Some (_, bytes)) =>
    let! config := get_config in
    match transcribe_bytes (cfg_groq config) respond
            (unwrap_or (media_original_filename media) "audio.ogg"%string)
            (media_mime_type media) bytes with
    | Ok result => set_completed_groq_transcript m media result
    | Err error => fail error
    end
  end.

(** The identifier an event carries, in its payload or in its header. *)
Definition event_message_id (event : CommonEvent) : option string :=
  opt_or (get_str (ev_payload event) "message_id") (ev_message_id event).

Definition process_transcription_request (io : ByteIo)
    (respond : string → string → string → Prelude.result GroqTranscription string)
    (event : CommonEvent) : M (Prelude.result Transcript ApiError) :=
  modify (λ s, s <| app_metrics ::=
    (λ x, x <| rm_stt_requests_total ::= (λ n, wrap_u64 (n + 1)) |>) |>);;;
  try! message_id := ret (ok_or (event_message_id event)
                            (BadRequest "transcription event missing message_id")) in
  let! inner := get_inner in
  try! m := ret (message_for_company inner (ev_project_id event) (ev_company_id event)
                   message_id) in
  match opt_filter (λ t, settled (tr_status t)) (st_transcripts inner !! message_id) with
  | Some t => ret (Ok t)
  | None =>
    try! media_id_ := ret (ok_or
      (opt_or (get_str (ev_payload event) "media_id") (msg_media_id m))
      (BadRequest ("message " +:+ message_id +:+ " has no media to transcribe"))) in
    try! media := ret (media_for_company inner (ev_project_id event) (ev_company_id event)
                         media_id_) in
    if negb (starts_with (media_mime_type media) "audio/")
    then set_transcript_lifecycle m media SkippedUnsupportedType None
    else
      let! config := get_config in
      if decide (sat_mul_u64 (groq_stt_max_audio_mb (cfg_groq config)) (1024 * 1024)
                 < media_size_bytes media)
      then set_transcript_lifecycle m media SkippedSizeLimit None
      else
        try! _ := set_transcript_lifecycle m media Processing None in
        transcribe_media io respond m media media_id_
  end.
End transcripts.
