(* ===== verification/MediaOps.v ===== *)
(** * Stored media and retention (src/state.rs)

    Saving and deleting media objects, removing expired temporary media, and
    the retention pass that applies a company's privacy policy to its messages,
    media and transcripts. *)
From S2P Require Import Prelude Text Json Errors Env Config Models Jid Media Records.
From S2P Require Import EventBus Whatsapp Store Contacts Groups Conversations Messages.
From S2P Require Import Channels Bytes Transcripts.

Record RetentionSummary : Type := mkRetentionSummary {
  ret_messages_removed : nat;
  ret_transcripts_removed : nat;
  ret_transcripts_redacted : nat;
  ret_media_removed : nat
}.
#[export] Instance eta_RetentionSummary : Eta RetentionSummary := λ r,
  mkRetentionSummary (ret_messages_removed r) (ret_transcripts_removed r)
    (ret_transcripts_redacted r) (ret_media_removed r).
Definition empty_summary : RetentionSummary := mkRetentionSummary 0 0 0 0.
Definition add_summary (a b : RetentionSummary) : RetentionSummary :=
  {| ret_messages_removed := ret_messages_removed a + ret_messages_removed b;
     ret_transcripts_removed := ret_transcripts_removed a + ret_transcripts_removed b;
     ret_transcripts_redacted := ret_transcripts_redacted a + ret_transcripts_redacted b;
     ret_media_removed := ret_media_removed a + ret_media_removed b |}.

(** [now - Duration::days(days)].  A duration that does not fit its [i64] of
    seconds, or a date out of range, panics; the model has no such bound. *)
Definition retention_cutoff (now : time) (retention_days : option Z) : option time :=
  (λ d, now - days (Z.min d i64_max)) <$> retention_days.

Section media_ops.
Context `{Env}.

Definition put_media (media_id : string) (m : MediaObject) (inner : StoreInner)
  : StoreInner := inner <| st_media ::= <[media_id := m]> |>.

(** ** Saving and deleting *)
Definition saved_media (config : AppConfig) (now : time) (media_id : string)
    (object_key : string) (m : MediaObject) : MediaObject :=
  let m := m <| media_storage_status := "permanent" |>
             <| media_permanent_object_key := Some object_key |>
             <| media_public_url := public_object_url config object_key |> in
  let m := if decide (media_media_type m = "image")
           then m <| media_thumbnail_url :=
                       opt_or (media_public_url m)
                         (bool_then (cfg_dev_mode config) (dev_media_url config media_id)) |>
           else m in
  m <| media_saved_at := Some now |> <| media_updated_at := now |>.

Definition save_media_with_permanent_object_key (media_id entity_type entity_id : string)
    (permanent_object_key : option string) : M (result MediaObject ApiError) :=
  let! inner := get_inner in
  match st_media inner !! media_id with
  | None => ret (Err (media_not_found media_id))
  | Some m =>
    let! now := now_utc in
    let! config := get_config in
    let object_key := unwrap_or permanent_object_key (r2_object_key
      {| ki_base_prefix := r2_base_prefix (cfg_r2 config);
         ki_class := "permanent";
         ki_project_id := media_project_id m;
         ki_company_id := media_company_id m;
         ki_channel_id := "channel_dev";
         ki_conversation_id := Some (media_conversation_id m);
         ki_entity_type := Some entity_type;
         ki_entity_id := Some entity_id;
         ki_date := now;
         ki_media_id := media_id;
         ki_ext := "bin" |}) in
    let updated := saved_media config now media_id object_key m in
    modify_inner (put_media media_id updated);;;
    persist_locked;;;
    ret (Ok updated)
  end.

Definition save_media_for_company (project_id company_id media_id entity_type entity_id : string)
  : M (result MediaObject ApiError) :=
  try! _ := gets (λ s, media_for_company (app_inner s) project_id company_id media_id) in
  save_media_with_permanent_object_key media_id entity_type entity_id None.

Definition save_media_with_permanent_object_key_for_company
    (project_id company_id media_id entity_type entity_id permanent_object_key : string)
  : M (result MediaObject ApiError) :=
  try! _ := gets (λ s, media_for_company (app_inner s) project_id company_id media_id) in
  save_media_with_permanent_object_key media_id entity_type entity_id
    (Some permanent_object_key).

Definition delete_media_for_company (project_id company_id media_id : string)
  : M (result MediaObject ApiError) :=
  let! inner := get_inner in
  try! m := ret (media_for_company inner project_id company_id media_id) in
  let! now := now_utc in
  let updated := m <| media_storage_status := "deleted" |>
                   <| media_public_url := None |>
                   <| media_thumbnail_url := None |>
                   <| media_expires_at := None |>
                   <| media_updated_at := now |> in
  modify_inner (put_media media_id updated);;;
  persist_locked;;;
  ret (Ok updated).

(** ** Deleting bytes

    The store is not locked while bytes are deleted, and each deletion is a
    block of its own; what [.._blocks] names, the method of that name is the run
    of it that nothing else interrupts. *)
Definition delete_media_object_bytes_blocks (io : ByteIo) (m : MediaObject)
  : Async AppState bool :=
  do! first := match media_object_key m with
               | Some key => let! r := bytes_delete io key in ret (is_ok r)
               | None => ret true
               end in
  do! second := match media_permanent_object_key m with
                | Some key =>
                  if decide (media_object_key m = Some key) then ret true
                  else let! r := bytes_delete io key in ret (is_ok r)
                | None => ret true
                end in
  Finish (first && second).
Definition delete_media_object_bytes_best_effort (io : ByteIo) (m : MediaObject) : M bool :=
  run_async (delete_media_object_bytes_blocks io m).

(** The media of a list whose bytes could be deleted, and the others. *)
Fixpoint delete_bytes_blocks (io : ByteIo) (l : list MediaObject)
  : Async AppState (list MediaObject * list MediaObject) :=
  match l with
  | [] => Finish ([], [])
  | m :: l =>
    call! ok := delete_media_object_bytes_blocks io m in
    call! r := delete_bytes_blocks io l in
    Finish (if ok : bool then (m :: r.1, r.2) else (r.1, m :: r.2))
  end.
Definition delete_bytes_of (io : ByteIo) (l : list MediaObject)
  : M (list MediaObject * list MediaObject) := run_async (delete_bytes_blocks io l).

Definition is_temporary (m : MediaObject) : bool :=
  bool_decide (media_storage_status m ∈ ["temp"; "quarantine"; "outbound-temp"]%string).

Definition expired_temp (now : time) (m : MediaObject) : bool :=
  is_temporary m && is_some_and (media_expires_at m) (λ t, bool_decide (t ≤ now)).

Definition remove_media (gone : gset string) (inner : StoreInner) : StoreInner :=
  inner <| st_media ::= retain (λ id _, negb (bool_decide (id ∈ gone))) |>.

Definition cleanup_expired_temp_media_blocks (io : ByteIo) : Async AppState nat :=
  do! now := now_utc in
  do! inner := get_inner in
  call! r := delete_bytes_blocks io
               (retain_list (expired_temp now) (hm_values (st_media inner))) in
  let expired_ids : gset string := list_to_set (media_id <$> r.1) in
  do! _ := (modify_inner (remove_media expired_ids);;;
            if decide (expired_ids = ∅) then ret tt else persist_locked) in
  Finish (size expired_ids).
Definition cleanup_expired_temp_media (io : ByteIo) : M nat :=
  run_async (cleanup_expired_temp_media_blocks io).

(** ** Retention *)
Definition expired_message (project_id company_id : string) (cutoff : time) (m : Message)
  : bool :=
  message_of_tenant m project_id company_id && bool_decide (msg_created_at m ≤ cutoff).

Definition candidate_messages (project_id company_id : string) (cutoff : option time)
    (inner : StoreInner) : gset string :=
  match cutoff with
  | None => ∅
  | Some cutoff =>
    dom (retain (λ _ m, expired_message project_id company_id cutoff m)
           (st_messages_by_id inner))
  end.

Definition candidate_media (project_id company_id : string) (messages : gset string)
    (media_temp_cutoff : option time) (m : MediaObject) : bool :=
  is_some_and (media_message_id m) (λ id, bool_decide (id ∈ messages))
  || (is_temporary m && media_of_tenant m project_id company_id
      && is_some_and media_temp_cutoff (λ cutoff, bool_decide (media_created_at m ≤ cutoff))).

(** What the deletions allow to remove: a message whose media could not be
    deleted stays, with that media. *)
Definition failed_messages (failed : list MediaObject) : gset string :=
  list_to_set (failed ≫= λ m, some_list (media_message_id m)).
Definition removable_media (deleted : list MediaObject) (failed_ids : gset string)
  : gset string :=
  list_to_set (media_id <$> retain_list
    (λ m, is_none_or (media_message_id m) (λ id, negb (bool_decide (id ∈ failed_ids)))) deleted).

(** [messages_by_id.retain], [messages.retain] in every conversation,
    [transcripts.retain], [media.retain]. *)
Definition remove_expired (messages media : gset string) (inner : StoreInner) : StoreInner :=
  inner <| st_messages_by_id ::= retain (λ id _, negb (bool_decide (id ∈ messages))) |>
        <| st_messages_by_conversation ::=
             fmap (M:=gmap string)
               (retain_list (λ m, negb (bool_decide (msg_id m ∈ messages)))) |>
        <| st_transcripts ::= retain (λ id _, negb (bool_decide (id ∈ messages))) |>
        <| st_media ::= retain (λ id _, negb (bool_decide (id ∈ media))) |>.

Definition expired_transcript (project_id company_id : string) (cutoff : time)
    (t : Transcript) : bool :=
  transcript_of_tenant t project_id company_id && bool_decide (tr_updated_at t ≤ cutoff).

Definition needs_redaction (project_id company_id : string) (t : Transcript) : bool :=
  transcript_of_tenant t project_id company_id
  && (bool_decide (is_Some (tr_text t)) || negb (is_null (tr_raw_response_json t))).
Definition redact_transcript (now : time) (t : Transcript) : Transcript :=
  t <| tr_text := None |> <| tr_raw_response_json := redacted |> <| tr_updated_at := now |>.

(** Second step: transcripts past their own retention. *)
Definition expire_transcripts (project_id company_id : string) (cutoff : option time) : M nat :=
  match cutoff with
  | None => ret 0%nat
  | Some cutoff =>
    let! inner := get_inner in
    let kept := retain (λ _ t, negb (expired_transcript project_id company_id cutoff t))
                  (st_transcripts inner) in
    let removed := (size (st_transcripts inner) - size kept)%nat in
    modify_inner (λ i, i <| st_transcripts := kept |>);;;
    (if decide (removed = 0%nat) then ret tt else persist_locked);;;
    ret removed
  end.

(** Third step: the text of the others, when the policy forbids it. *)
Definition redact_transcripts (project_id company_id : string) (now : time) : M nat :=
  let! inner := get_inner in
  let redacted_count :=
    size (retain (λ _ t, needs_redaction project_id company_id t) (st_transcripts inner)) in
  modify_inner (λ i, i <| st_transcripts ::= fmap (M:=gmap string) (λ t,
    if needs_redaction project_id company_id t then redact_transcript now t else t) |>);;;
  (if decide (redacted_count = 0%nat) then ret tt else persist_locked);;;
  ret redacted_count.

(** The candidates are chosen, their bytes deleted one after the other, the
    records removed, the transcripts expired and redacted: a block for each. *)
Definition apply_company_retention_blocks (io : ByteIo) (project_id company_id : string)
    (policy : CompanyPrivacyPolicy) (now : time) : Async AppState RetentionSummary :=
  do! inner := get_inner in
  let messages := candidate_messages project_id company_id
    (retention_cutoff now (pol_message_retention_days policy)) inner in
  call! r := delete_bytes_blocks io (retain_list
    (candidate_media project_id company_id messages
       (retention_cutoff now (pol_media_temp_retention_days policy)))
    (hm_values (st_media inner))) in
  let failed := failed_messages r.2 in
  let gone_messages := messages ∖ failed in
  let gone_media := removable_media r.1 failed in
  do! _ := (if decide (gone_messages = ∅ ∧ gone_media = ∅) then ret tt
            else modify_inner (remove_expired gone_messages gone_media);;; persist_locked) in
  do! removed := expire_transcripts project_id company_id
    (retention_cutoff now (pol_transcript_retention_days policy)) in
  do! redacted_count :=
    (if pol_allow_transcript_storage policy then ret 0%nat
     else redact_transcripts project_id company_id now) in
  Finish {| ret_messages_removed := size gone_messages;
            ret_transcripts_removed := removed;
            ret_transcripts_redacted := redacted_count;
            ret_media_removed := size gone_media |}.
Definition apply_company_retention (io : ByteIo) (project_id company_id : string)
    (policy : CompanyPrivacyPolicy) (now : time) : M RetentionSummary :=
  run_async (apply_company_retention_blocks io project_id company_id policy now).

(** One company: its retention and, when it did something, an audit entry. *)
Definition retain_company (io : ByteIo) (now : time)
    (entry : key2 * Value) : Async AppState RetentionSummary :=
  let '((project_id, company_id), value) := entry in
  call! s := apply_company_retention_blocks io project_id company_id
               (company_privacy_policy value) now in
  do! _ :=
    (if decide (ret_messages_removed s + ret_transcripts_removed s
                + ret_transcripts_redacted s + ret_media_removed s = 0)%nat
     then ret VNull
     else audit_log project_id company_id "retention.apply" "company" (Some company_id)
            (json! { "messages_removed" ~> ret_messages_removed s,
                     "transcripts_removed" ~> ret_transcripts_removed s,
                     "transcripts_redacted" ~> ret_transcripts_redacted s,
                     "media_removed" ~> ret_media_removed s })) in
  Finish s.

Fixpoint retain_companies (io : ByteIo) (now : time) (l : list (key2 * Value))
    (summary : RetentionSummary) : Async AppState RetentionSummary :=
  match l with
  | [] => Finish summary
  | entry :: l =>
    call! s := retain_company io now entry in
    retain_companies io now l (add_summary summary s)
  end.

Definition apply_retention_blocks (io : ByteIo) : Async AppState RetentionSummary :=
  do! now := now_utc in
  do! inner := get_inner in
  call! summary := retain_companies io now (hm_iter (st_companies inner)) empty_summary in
  call! expired := cleanup_expired_temp_media_blocks io in
  Finish (summary <| ret_media_removed ::= Nat.add expired |>).
Definition apply_retention_once (io : ByteIo) : M RetentionSummary :=
  run_async (apply_retention_blocks io).
End media_ops.
