(* ===== verification/RetentionSpec.v ===== *)
(** * What retention promises

    Retention removes the messages of the company that are past their date,
    nothing else, and does not forget an object whose bytes are still stored,
    unless the byte store is an R2 without credentials. *)
From S2P Require Import Prelude Text Json Errors Env Config Models Jid Media Records.
From S2P Require Import EventBus Whatsapp Store Contacts Groups Conversations Messages Inbox.
From S2P Require Import MessageLog Demo Channels Bytes Transcripts MediaOps.

Section bytes.
Context `{Env}.

(** Deleting bytes: the store is left as it is, and bytes only go away. *)
Definition bytes_shrink (s s' : AppState) : Prop :=
  app_inner s' = app_inner s ∧ app_config s' = app_config s ∧
  ∀ at_, app_media_bytes s !! at_ = None → app_media_bytes s' !! at_ = None.

(** An R2 without credentials: it answers a deletion without deleting. *)
Definition unconfigured (config : AppConfig) : Prop :=
  cfg_storage_provider config = R2 ∧ can_upload (cfg_r2 config) = false.
(** The key has a place in the store, and no bytes are there. *)
Definition no_bytes_under (s : AppState) (key : string) : Prop :=
  ∃ at_, bytes_location (app_config s) key = Ok at_ ∧ app_media_bytes s !! at_ = None.
#[export] Instance unconfigured_dec config : Decision (unconfigured config).
Proof. unfold unconfigured. apply _. Defined.
Lemma unplaced_r2 config key err :
  bytes_location config key = Err err → cfg_storage_provider config = R2 → unconfigured config.
Proof.
  unfold bytes_location, unconfigured. intros He Hp. rewrite Hp in He. by destruct (can_upload _).
Qed.

Lemma bytes_delete_spec io key s :
  let '(r, s') := bytes_delete io key s in
  bytes_shrink s s' ∧ (is_ok r = true → ¬ unconfigured (app_config s) → no_bytes_under s' key).
Proof.
  unfold bytes_delete, no_bytes_under.
  destruct (bytes_location _ key) as [at_|err] eqn:Hl.
  2: { case_decide; (split; [done|]); [|done]. intros _ Hu. destruct Hu. by eapply unplaced_r2. }
  destruct (bool_decide _ && bool_decide (_ = None)) eqn:Hb;
    [|destruct (io_delete io at_); simpl; [by repeat split|]].
  - apply andb_true_iff in Hb as [_ Hn%bool_decide_eq_true]. split; [done|]. by exists at_.
  - split; [repeat split; simpl|].
    + intros k Hk. destruct (decide (at_ = k)) as [->|];
        [apply lookup_delete_eq|by rewrite lookup_delete_ne].
    + intros _ _. exists at_. split; [done|]. simpl. apply lookup_delete_eq.
Qed.

(** The keys an object's bytes are stored under. *)
Definition object_keys (m : MediaObject) : list string :=
  some_list (media_object_key m) ++ some_list (media_permanent_object_key m).
Definition no_bytes (s : AppState) (m : MediaObject) : Prop :=
  ∀ key, key ∈ object_keys m → no_bytes_under s key.

Lemma bytes_shrink_trans s1 s2 s3 : bytes_shrink s1 s2 → bytes_shrink s2 s3 → bytes_shrink s1 s3.
Proof. intros (E1 & C1 & H1) (E2 & C2 & H2). split_and!; [congruence..|]. auto. Qed.
Lemma no_bytes_under_shrink s s' key :
  bytes_shrink s s' → no_bytes_under s key → no_bytes_under s' key.
Proof.
  intros (_ & Hc & Hs) (a & Ha & Hn). exists a. rewrite Hc. split; [done|]. by apply Hs.
Qed.
Lemma no_bytes_shrink s s' m : bytes_shrink s s' → no_bytes s m → no_bytes s' m.
Proof. intros Hs Hm key Hk. eapply no_bytes_under_shrink; [done|]. by apply Hm. Qed.

Lemma bytes_shrink_refl s : bytes_shrink s s.
Proof. done. Qed.

(** Deleting the bytes under a key, as a test of success. *)
Lemma delete_key_spec io key s :
  let '(ok, s') := (let! r := bytes_delete io key in ret (is_ok r)) s in
  bytes_shrink s s' ∧ (ok = true → ¬ unconfigured (app_config s) → no_bytes_under s' key).
Proof.
  rewrite bind_run. pose proof (bytes_delete_spec io key s) as Hd. unfold value_of, state_of, ret.
  by destruct (bytes_delete io key s).
Qed.

Lemma delete_object_spec io m s :
  let '(ok, s') := delete_media_object_bytes_best_effort io m s in
  bytes_shrink s s' ∧ (ok = true → ¬ unconfigured (app_config s) → no_bytes s' m).
Proof.
  unfold delete_media_object_bytes_best_effort, delete_media_object_bytes_blocks.
  cbn [run_async]. rewrite bind_run.
  set (x1 := match media_object_key m with Some _ => _ | None => _ end).
  assert (H1 : let '(ok, s') := x1 s in bytes_shrink s s'
    ∧ (ok = true → ¬ unconfigured (app_config s) →
         ∀ key, media_object_key m = Some key → no_bytes_under s' key)).
  { unfold x1. destruct (media_object_key m) as [key|]; [|by repeat split].
    pose proof (delete_key_spec io key s) as Hd. destruct (bind _ _ s) as [ok s'].
    destruct Hd as [Hs Hk]. split; [done|]. by intros Hok Hu key' [= <-]; auto. }
  unfold value_of, state_of. destruct (x1 s) as [ok1 s1]. destruct H1 as [Hs1 Hk1].
  cbn [fst snd]. rewrite bind_run.
  set (x2 := match media_permanent_object_key m with Some _ => _ | None => _ end).
  assert (H2 : let '(ok, s') := x2 s1 in bytes_shrink s1 s'
    ∧ (ok1 && ok = true → ¬ unconfigured (app_config s) →
         ∀ key, media_permanent_object_key m = Some key → no_bytes_under s' key)).
  { unfold x2. destruct (media_permanent_object_key m) as [key|]; [|by intros; split].
    case_decide as Hsame.
    - split; [done|]. intros [Hok _]%andb_true_iff Hu key' [= <-]. by apply Hk1.
    - pose proof (delete_key_spec io key s1) as Hd. destruct (bind _ _ s1) as [ok s'].
      destruct Hd as [Hs Hk]. split; [done|]. intros [_ Hok]%andb_true_iff Hu key' [= <-].
      apply Hk; [done|]. destruct Hs1 as (_ & -> & _). done. }
  unfold value_of, state_of. destruct (x2 s1) as [ok2 s2]. destruct H2 as [Hs2 Hk2].
  cbn [fst snd]. unfold ret. split; [by eapply bytes_shrink_trans|]. intros Hok Hu key.
  pose proof Hok as [Hok1 _]%andb_true_iff. unfold object_keys.
  rewrite elem_of_app. intros [Hk|Hk].
  - destruct (media_object_key m); simpl in Hk; [|by apply elem_of_nil in Hk].
    apply list_elem_of_singleton in Hk as ->. eapply no_bytes_under_shrink; [exact Hs2|].
    by apply Hk1.
  - destruct (media_permanent_object_key m); simpl in Hk; [|by apply elem_of_nil in Hk].
    apply list_elem_of_singleton in Hk as ->. by apply Hk2.
Qed.

Lemma delete_bytes_cons io m l s :
  delete_bytes_of io (m :: l) s
  = (let! ok := delete_media_object_bytes_best_effort io m in
     let! r := delete_bytes_of io l in
     ret (if ok : bool then (m :: r.1, r.2) else (r.1, m :: r.2))) s.
Proof.
  unfold delete_bytes_of. cbn [delete_bytes_blocks]. rewrite run_call, bind_run, run_call.
  symmetry. rewrite bind_run. reflexivity.
Qed.
Lemma delete_bytes_spec io l s :
  let '(r, s') := delete_bytes_of io l s in
  bytes_shrink s s' ∧ r.1 ++ r.2 ≡ₚ l
  ∧ (¬ unconfigured (app_config s) → ∀ m, m ∈ r.1 → no_bytes s' m).
Proof.
  revert s. induction l as [|m l IH]; intros s.
  { repeat split; try done. by intros _ m ?%elem_of_nil. }
  rewrite delete_bytes_cons, bind_run. pose proof (delete_object_spec io m s) as Hm. unfold value_of, state_of.
  destruct (delete_media_object_bytes_best_effort io m s) as [ok s1]. destruct Hm as [Hs1 Hm].
  cbn [fst snd]. rewrite bind_run. specialize (IH s1). unfold value_of, state_of.
  destruct (delete_bytes_of io l s1) as [[dl fl] s2]. destruct IH as (Hs2 & Hp & Hd).
  cbn [fst snd] in *. unfold ret. split; [by eapply bytes_shrink_trans|].
  pose proof Hs1 as (_ & Hc1 & _). rewrite Hc1 in Hd. destruct ok; cbn [fst snd].
  - split; [by rewrite <- Hp|]. intros Hu x [->|Hx]%elem_of_cons; [|by apply Hd].
    eapply no_bytes_shrink; [exact Hs2|]. by apply Hm.
  - split; [|done]. rewrite <- Hp. by rewrite Permutation_middle.
Qed.

(** A store that does not fail deletes what it can address. *)
Definition deletable (config : AppConfig) (m : MediaObject) : Prop :=
  ∀ key, key ∈ object_keys m →
  cfg_storage_provider config = R2 ∨ is_ok (bytes_location config key) = true.

Lemma delete_reliable key s :
  cfg_storage_provider (app_config s) = R2 ∨ is_ok (bytes_location (app_config s) key) = true →
  is_ok (value_of (bytes_delete reliable_io key) s) = true
  ∧ app_config (state_of (bytes_delete reliable_io key) s) = app_config s.
Proof.
  unfold value_of, state_of, bytes_delete. intros Hd.
  destruct (bytes_location _ key) as [at_|err]; [by destruct (_ && _)|].
  destruct Hd as [->|]; [|done]. by rewrite decide_True.
Qed.

Lemma delete_object_reliable m s :
  deletable (app_config s) m →
  value_of (delete_media_object_bytes_best_effort reliable_io m) s = true.
Proof.
  intros Hd. unfold delete_media_object_bytes_best_effort, delete_media_object_bytes_blocks.
  cbn [run_async]. rewrite !value_of_bind.
  set (x1 := match media_object_key m with Some _ => _ | None => _ end).
  assert (H1 : value_of x1 s = true ∧ app_config (state_of x1 s) = app_config s).
  { unfold x1, deletable, object_keys in *. destruct (media_object_key m) as [key|]; [|done].
    destruct (delete_reliable key s) as [Hv Hc]; [apply Hd; left|].
    by rewrite value_of_bind, state_of_bind. }
  destruct H1 as [Hv1 Hc1]. change (value_of (ret ?x) _) with x. rewrite Hv1.
  destruct (media_permanent_object_key m) as [key|] eqn:Hp; [|done]. case_decide; [done|].
  destruct (delete_reliable key (state_of x1 s)) as [Hv Hc].
  - rewrite Hc1. apply Hd. unfold object_keys. rewrite Hp. apply elem_of_app. right. left.
  - by rewrite value_of_bind.
Qed.

Lemma delete_bytes_reliable l s :
  (∀ m, m ∈ l → deletable (app_config s) m) →
  (value_of (delete_bytes_of reliable_io l) s).2 = [].
Proof.
  revert s. induction l as [|m l IH]; intros s Hd; [done|].
  unfold value_of. rewrite delete_bytes_cons.
  match goal with |- (?m s).1.2 = [] => change ((m s).1) with (value_of m s) end.
  rewrite !value_of_bind, delete_object_reliable by (apply Hd; left).
  change (value_of (ret ?x) _) with x. cbn [fst snd]. apply IH. intros m' Hm.
  pose proof (delete_object_spec reliable_io m s) as Hs. unfold state_of.
  destruct (delete_media_object_bytes_best_effort reliable_io m s) as [ok s1].
  destruct Hs as [(_ & Hc & _) _]. cbn [snd]. rewrite Hc. apply Hd. by right.
Qed.
End bytes.

Section retention.
Context `{Env} (io : ByteIo) (p c : string) (policy : CompanyPrivacyPolicy) (now : time).

Abbreviation cutoff := (retention_cutoff now (pol_message_retention_days policy)).
Abbreviation temp_cutoff := (retention_cutoff now (pol_media_temp_retention_days policy)).

(** The parts of the state that the transcript steps leave alone. *)
Definition kept_part (s : AppState) : gmap string Message * gmap string MediaObject
    * gmap string string * AppConfig :=
  (st_messages_by_id (app_inner s), st_media (app_inner s), app_media_bytes s, app_config s).

Lemma persist_kept : frame kept_part persist_locked.
Proof. intros s. unfold persist_locked, state_of, modify. simpl. by destruct (app_has_sink s). Qed.
Hint Resolve persist_kept : frame.
Lemma expire_transcripts_kept cut : frame kept_part (expire_transcripts p c cut).
Proof. unfold expire_transcripts. cbv zeta. frame_tac. Qed.
Lemma redact_transcripts_kept : frame kept_part (redact_transcripts p c now).
Proof. unfold redact_transcripts. cbv zeta. frame_tac. Qed.
Hint Resolve expire_transcripts_kept redact_transcripts_kept : frame.

(** The media whose bytes a pass tries to delete. *)
Definition to_delete (i : StoreInner) : list MediaObject :=
  retain_list (candidate_media p c (candidate_messages p c cutoff i) temp_cutoff)
    (hm_values (st_media i)).

Definition keep_but {V} (gone : gset string) (m : gmap string V) : gmap string V :=
  retain (λ id _, negb (bool_decide (id ∈ gone))) m.

Lemma keep_but_none {V} gone (m : gmap string V) : gone = ∅ → keep_but gone m = m.
Proof.
  intros ->. apply map_eq. intros k. unfold keep_but.
  destruct (m !! k) as [v|] eqn:E; [apply lookup_retain_Some|apply lookup_retain_None; by left].
  split; [done|]. by rewrite bool_decide_eq_false_2 by set_solver.
Qed.

Lemma retention_run s :
  let s' := state_of (apply_company_retention io p c policy now) s in
  let '(r, s1) := delete_bytes_of io (to_delete (app_inner s)) s in
  let failed := failed_messages r.2 in
  kept_part s' = (keep_but (candidate_messages p c cutoff (app_inner s) ∖ failed)
                    (st_messages_by_id (app_inner s)),
                  keep_but (removable_media r.1 failed) (st_media (app_inner s)),
                  app_media_bytes s1, app_config s1).
Proof.
  cbv zeta. unfold apply_company_retention, apply_company_retention_blocks. cbn [run_async].
  rewrite state_of_bind.
  change (value_of get_inner s) with (app_inner s). change (state_of get_inner s) with s.
  cbv beta zeta. fold (to_delete (app_inner s)). unfold state_of at 1. rewrite run_call.
  fold (delete_bytes_of io (to_delete (app_inner s))). cbn [run_async].
  match goal with |- context [(bind ?m ?k ?x).2] =>
    change ((bind m k x).2) with (state_of (bind m k) x) end.
  rewrite state_of_bind.
  pose proof (delete_bytes_spec io (to_delete (app_inner s)) s) as Hd. unfold value_of.
  unfold state_of at 2. destruct (delete_bytes_of io (to_delete (app_inner s)) s) as [r s1].
  cbn [fst snd]. destruct Hd as ((Hi & _) & _ & _). rewrite state_of_bind.
  set (step1 := if decide _ then _ else _).
  match goal with |- kept_part (state_of ?tail ?x) = _ =>
    assert (Ht : frame kept_part tail) by frame_tac; rewrite (Ht x) end.
  unfold step1. case_decide as He.
  - destruct He as [He1 He2]. rewrite !keep_but_none by done. unfold kept_part.
    change (state_of (ret tt) s1) with s1. by rewrite Hi.
  - rewrite state_of_bind, persist_kept. unfold kept_part. simpl. by rewrite Hi.
Qed.

Lemma candidate_messages_elem i id :
  id ∈ candidate_messages p c cutoff i ↔
  ∃ m t, st_messages_by_id i !! id = Some m ∧ cutoff = Some t ∧ expired_message p c t m = true.
Proof.
  unfold candidate_messages. destruct cutoff as [t|]; [|set_solver].
  rewrite elem_of_dom. split.
  - intros [m Hm]. apply lookup_retain_Some in Hm as [Hm He]. eauto.
  - intros (m & t' & Hm & [= <-] & He). exists m. by apply lookup_retain_Some.
Qed.

(** C37. A retention pass of a company that nothing interrupts adds and changes no
    message: every message of the index is as it was, or is gone; and one that is
    gone was a message of that project and that company, whose policy keeps
    messages a number of days, and was created at least so many days before the
    pass. *)
Theorem retention_keeps_the_rest s id :
  let before := st_messages_by_id (app_inner s) !! id in
  let after := st_messages_by_id
    (app_inner (state_of (apply_company_retention io p c policy now) s)) !! id in
  after = before
  ∨ after = None ∧ ∃ m n, before = Some m ∧ msg_project_id m = p ∧ msg_company_id m = c
      ∧ pol_message_retention_days policy = Some n
      ∧ msg_created_at m ≤ now - days (Z.min n i64_max).
Proof.
  cbv zeta. pose proof (retention_run s) as Hr. cbv zeta in Hr.
  destruct (delete_bytes_of io (to_delete (app_inner s)) s) as [r s1].
  unfold kept_part in Hr. injection Hr as -> _ _ _. set (gone := _ ∖ _).
  destruct (decide (id ∈ gone)) as [Hg|Hg].
  - right. pose proof Hg as [(m & t & Hm & Ht & He)%candidate_messages_elem _]%elem_of_difference.
    split.
    + apply lookup_retain_None. right. exists m. split; [done|]. by rewrite bool_decide_eq_true_2.
    + unfold expired_message, message_of_tenant in He. split_bools. exists m.
      unfold retention_cutoff in Ht. destruct (pol_message_retention_days policy) as [n|]; [|done].
      simpl in Ht. injection Ht as <-. by exists n.
  - left. apply option_eq. intros m. unfold keep_but. rewrite lookup_retain_Some.
    rewrite bool_decide_eq_false_2 by done. naive_solver.
Qed.

(** C38. A retention pass of a company that nothing interrupts, over media filed
    under their identifiers (as they are in every reachable state), forgets a media
    object only when its bytes are gone: a record it removes has, under either of its
    keys, a place in the byte store where there are no bytes, unless the store is
    an R2 without credentials, which answers a deletion without deleting; and
    every other record is as it was. *)
Theorem retention_deletes_bytes_first s id media :
  (∀ k m, st_media (app_inner s) !! k = Some m → media_id m = k) →
  st_media (app_inner s) !! id = Some media →
  let s' := state_of (apply_company_retention io p c policy now) s in
  st_media (app_inner s') !! id = Some media
  ∨ st_media (app_inner s') !! id = None
    ∧ (unconfigured (app_config s)
       ∨ ∀ key, media_object_key media = Some key ∨ media_permanent_object_key media = Some key →
         ∃ at_, bytes_location (app_config s') key = Ok at_ ∧ app_media_bytes s' !! at_ = None).
Proof.
  intros Hkeyed Hm. cbv zeta. pose proof (retention_run s) as Hr. cbv zeta in Hr.
  pose proof (delete_bytes_spec io (to_delete (app_inner s)) s) as Hd.
  destruct (delete_bytes_of io (to_delete (app_inner s)) s) as [r s1].
  destruct Hd as (_ & Hp & Hnb). unfold kept_part in Hr. injection Hr as _ Hmedia Hbytes Hconfig.
  rewrite Hmedia, Hbytes, Hconfig. set (gone := removable_media _ _).
  destruct (decide (id ∈ gone)) as [Hg|Hg].
  - right. split.
    { apply lookup_retain_None. right. exists media. split; [done|].
      by rewrite bool_decide_eq_true_2. }
    unfold gone, removable_media in Hg. rewrite elem_of_list_to_set in Hg.
    apply list_elem_of_fmap in Hg as (m' & -> & [Hin _]%elem_of_retain_list).
    assert (media = m') as ->.
    { assert (Hv : m' ∈ to_delete (app_inner s)) by (rewrite <- Hp; apply elem_of_app; by left).
      apply elem_of_retain_list in Hv as [(k & Hk)%elem_of_hm_values _].
      pose proof (Hkeyed _ _ Hk). subst k. congruence. }
    destruct (decide (unconfigured (app_config s))) as [Hu|Hu]; [by left|right].
    intros key Hkey. apply (Hnb Hu m' Hin). unfold object_keys. apply elem_of_app.
    destruct Hkey as [-> | ->]; [left|right]; by left.
  - left. apply lookup_retain_Some. split; [done|]. by rewrite bool_decide_eq_false_2.
Qed.
End retention.

Section reliable.
Context `{Env} (p c : string) (policy : CompanyPrivacyPolicy) (now : time).

(** When the byte store works, the messages left after a retention pass are
    exactly those that are not expired messages of the company. *)
Theorem retention_removes_expired s t :
  (∀ id m, st_media (app_inner s) !! id = Some m → deletable (app_config s) m) →
  retention_cutoff now (pol_message_retention_days policy) = Some t →
  st_messages_by_id
    (app_inner (state_of (apply_company_retention reliable_io p c policy now) s))
  = retain (λ _ m, negb (expired_message p c t m)) (st_messages_by_id (app_inner s)).
Proof.
  intros Hdel Ht. pose proof (retention_run reliable_io p c policy now s) as Hr. cbv zeta in Hr.
  assert (Hno : (value_of (delete_bytes_of reliable_io (to_delete p c policy now (app_inner s)))
                   s).2 = []).
  { apply delete_bytes_reliable. intros m Hm.
    apply elem_of_retain_list in Hm as [(k & Hk)%elem_of_hm_values _]. by eapply Hdel. }
  unfold value_of in Hno.
  destruct (delete_bytes_of reliable_io (to_delete p c policy now (app_inner s)) s) as [r s1].
  cbn [fst] in Hno. rewrite Hno in Hr. unfold kept_part in Hr. injection Hr as -> _ _ _.
  unfold failed_messages. cbn. rewrite difference_empty_L. apply map_eq. intros id.
  apply option_eq. intros m. unfold keep_but. rewrite !lookup_retain_Some.
  split; intros [Hm Hk]; (split; [done|]).
  - apply negb_true_iff. apply negb_true_iff, bool_decide_eq_false in Hk.
    destruct (expired_message p c t m) eqn:He; [|done]. exfalso. apply Hk.
    apply candidate_messages_elem. eauto.
  - apply negb_true_iff, bool_decide_eq_false.
    intros (m' & t' & Hm' & Ht' & He)%candidate_messages_elem.
    assert (m' = m) by congruence. assert (t' = t) by congruence. subst.
    by rewrite He in Hk.
Qed.
End reliable.

(** What a pass redacts, the next pass redacts again: the marker it leaves is
    not null. *)
Lemma redaction_repeats p c now t :
  transcript_of_tenant t p c = true → needs_redaction p c (redact_transcript now t) = true.
Proof.
  intros Ht. unfold needs_redaction. rewrite orb_true_r, andb_true_r. exact Ht.
Qed.

(** ** A pass over the concrete run *)
Definition demo_media : MediaObject := {|
  media_id := "media_1"; media_project_id := "p"; media_company_id := "c";
  media_conversation_id := demo_customer; media_message_id := None; media_media_type := "image";
  media_mime_type := "image/png"; media_original_filename := None; media_size_bytes := 3;
  media_sha256 := ""; media_storage_status := "temp"; media_bucket := None;
  media_object_key := Some "temp/media_1.png"; media_permanent_object_key := None;
  media_public_url := None; media_thumbnail_url := None; media_width := None;
  media_height := None; media_duration_seconds := None; media_expires_at := None;
  media_saved_at := None; media_created_at := 0; media_updated_at := 0 |}%string.
Definition demo_stored : AppState :=
  demo_state <| app_inner ::= (λ i, i <| st_media := {["media_1"%string := demo_media]} |>) |>
             <| app_media_bytes := {["/tmp/rustzap/media/temp/media_1.png"%string := "png"%string]} |>.
Definition demo_policy : CompanyPrivacyPolicy := mkCompanyPrivacyPolicy
  (Some 0) (Some 0) (Some 0) true.
Definition demo_pass : M RetentionSummary :=
  @apply_company_retention demo_env reliable_io "p" "c" demo_policy (seconds 5000).

Lemma retention_deletes_bytes_first_witness :
  st_media (app_inner (state_of demo_pass demo_stored)) !! "media_1"%string = Some demo_media
  ∨ st_media (app_inner (state_of demo_pass demo_stored)) !! "media_1"%string = None
    ∧ (unconfigured (app_config demo_stored)
       ∨ ∀ key, media_object_key demo_media = Some key
                ∨ media_permanent_object_key demo_media = Some key →
         ∃ at_, bytes_location (app_config (state_of demo_pass demo_stored)) key = Ok at_
                ∧ app_media_bytes (state_of demo_pass demo_stored) !! at_ = None).
Proof.
  apply (@retention_deletes_bytes_first demo_env reliable_io "p" "c" demo_policy (seconds 5000)).
  - intros k m.
    change (st_media (app_inner demo_stored)) with ({["media_1"%string := demo_media]}
      : gmap string MediaObject).
    intros [<- <-]%lookup_singleton_Some. reflexivity.
  - vm_compute. reflexivity.
Defined.

(** An R2 without credentials: the record is forgotten, the bytes stay. *)
Definition demo_unconfigured : AppState :=
  demo_stored <| app_config ::= λ config, config <| cfg_storage_provider := R2 |>
                   <| cfg_r2 ::= λ r2, r2 <| r2_access_key_id := None |> |> |>.
Example unconfigured_forgets :
  let s' := state_of demo_pass demo_unconfigured in
  st_media (app_inner s') = ∅
  ∧ app_media_bytes s' = app_media_bytes demo_stored.
Proof. by vm_compute. Qed.

Lemma retention_removes_expired_witness :
  size (st_messages_by_id (app_inner demo_stored)) = 2%nat
  ∧ st_messages_by_id (app_inner (state_of demo_pass demo_stored))
    = retain (λ _ m, negb (expired_message "p" "c" (seconds 5000) m))
        (st_messages_by_id (app_inner demo_stored)).
Proof.
  split; [vm_compute; reflexivity|].
  apply (@retention_removes_expired demo_env "p" "c" demo_policy (seconds 5000)).
  - intros id m.
    change (st_media (app_inner demo_stored)) with ({["media_1"%string := demo_media]}
      : gmap string MediaObject).
    intros [<- <-]%lookup_singleton_Some key Hkey. right.
    apply list_elem_of_singleton in Hkey as ->. vm_compute. reflexivity.
  - vm_compute. reflexivity.
Defined.

(** In that pass everything is past its date. *)
Example demo_pass_result :
  value_of demo_pass demo_stored = mkRetentionSummary 2 0 0 1.
Proof. vm_compute. reflexivity. Qed.
