(* ===== verification/SpeechToText.v ===== *)
(** * The speech-to-text client (src/transcription.rs, [GroqSttClient])

    One request to the service: the checks, the conversion of the audio with
    ffmpeg through files of the temporary directory, the form that is posted and
    the reading of the answer. *)
From S2P Require Import Prelude Text Json Errors Env Config Models Store Channels Transcripts.

(** The temporary directory: the files by their paths. *)
Abbreviation Files := (gmap string string).

(** What the operating system, the HTTP client and the service answer.
    [sp_run program input output files]: the run of the program, with its
    success, its errors, and the files it leaves; [sp_read]: the reading of a
    path with what it holds; [sp_remove]: whether a file can be removed. *)
Record Speech : Type := mkSpeech {
  sp_temp_dir : string;
  sp_create_dir : option string;
  sp_write : string → option string;
  sp_run : string → string → string → Files → result (bool * string) string * Files;
  sp_read : string → option string → result string string;
  sp_remove : string → bool;
  sp_mime : string → option string;
  sp_post : list (string * string) → string → string → string → string →
    result (string * bool * result Value string) string;
  sp_show : Value → string
}.

Section speech.
Context (sp : Speech) (groq : GroqConfig).

Definition write_file (path bytes : string) : ST Files (result unit string) := λ files,
  match sp_write sp path with
  | Some err => (Err err, files)
  | None => (Ok tt, <[path := bytes]> files)
  end.
Definition remove_file (path : string) : ST Files unit := λ files,
  (tt, if sp_remove sp path then delete path files else files).
Definition run_ffmpeg (input output : string) : ST Files (result (bool * string) string) :=
  sp_run sp (groq_ffmpeg_path groq) input output.
Definition read_file (path : string) : ST Files (result string string) :=
  gets (λ files, sp_read sp path (files !! path)).

(** [r.map_err(|err| format!("{context}: {err}"))] *)
Definition with_context {A} (context : string) (r : result A string) : result A string :=
  match r with Ok a => Ok a | Err err => Err (context +:+ ": " +:+ err) end.

Definition input_ext (filename : string) : string :=
  unwrap_or (opt_filter (λ ext, negb (is_blank ext)) (snd <$> rsplit_once "." filename)) "audio".
Definition stt_dir : string := path_join (sp_temp_dir sp) "rustzap-stt".
Definition input_path (nonce filename : string) : string :=
  path_join stt_dir (nonce +:+ "." +:+ input_ext filename).
Definition output_path (nonce : string) : string := path_join stt_dir (nonce +:+ ".wav").

(** The name, the type and the bytes of the converted audio. *)
Definition preprocess_audio_with_ffmpeg (nonce filename bytes : string)
  : ST Files (result (string * string * string) string) :=
  match sp_create_dir sp with
  | Some err => ret (Err ("failed to create STT temp dir: " +:+ err))
  | None =>
    let input_path := input_path nonce filename in
    let output_path := output_path nonce in
    try! _ := (let! r := write_file input_path bytes in
               ret (with_context "failed to write STT temp input" r)) in
    try! output := (let! r := run_ffmpeg input_path output_path in
                    ret (with_context "failed to run ffmpeg for STT preprocessing" r)) in
    remove_file input_path;;;
    let '(success, stderr) := output in
    if negb success then
      remove_file output_path;;;
      ret (Err ("ffmpeg STT preprocessing failed: " +:+ trim stderr))
    else
      try! preprocessed := (let! r := read_file output_path in
                            ret (with_context "failed to read STT preprocessed audio" r)) in
      remove_file output_path;;;
      ret (Ok ("rustzap-stt.wav"%string, "audio/wav"%string, preprocessed))
  end.

(** The form of the request, besides the file. *)
Definition stt_form : list (string * string) :=
  [("model", groq_stt_model groq); ("language", groq_stt_language groq);
   ("response_format", groq_stt_response_format groq)]%string.

(** The request, after the checks. *)
Definition post_audio (nonce api_key filename mime_type bytes : string)
  : ST Files (result GroqTranscription string) :=
  try! upload := (if groq_stt_enable_preprocessing groq
                  then preprocess_audio_with_ffmpeg nonce filename bytes
                  else ret (Ok (filename, mime_type, bytes))) in
  let '(filename, mime_type, bytes) := upload in
  ret match sp_mime sp mime_type with
      | Some err => Err ("invalid audio MIME type: " +:+ err)
      | None =>
        let? answer := with_context "Groq STT request failed"
                         (sp_post sp stt_form api_key filename mime_type bytes) in
        let '(status, success, body) := answer in
        let? body := with_context "Groq STT response decode failed" body in
        parse_groq_transcription_response (sp_show sp) status success body
      end.

(** [GroqSttClient::transcribe_bytes] *)
Definition transcribe (nonce filename mime_type bytes : string)
  : ST Files (result GroqTranscription string) :=
  if negb (starts_with mime_type "audio/") then ret (Err "unsupported audio MIME type"%string)
  else if decide (wrap_u64 (wrap_u64 (groq_stt_max_audio_mb groq * 1024) * 1024)
                  < Z.of_nat (String.length bytes))
  then ret (Err "audio exceeds Groq STT size limit"%string)
  else match groq_api_key groq with
       | None => ret (Err "GROQ_API_KEY missing"%string)
       | Some api_key => post_audio nonce api_key filename mime_type bytes
       end.

(** ** What the worker sees of it *)
(** The client as the transcription worker calls it: [transcribe_bytes] with the
    answers of the service to this request. *)
Lemma transcribe_refines nonce filename mime_type bytes files :
  value_of (transcribe nonce filename mime_type bytes) files
  = transcribe_bytes groq
      (λ f m b, value_of (post_audio nonce (unwrap_or (groq_api_key groq) "") f m b) files)
      filename mime_type bytes.
Proof.
  unfold transcribe, transcribe_bytes. destruct (negb _); [done|]. case_decide; [done|].
  by destruct (groq_api_key groq).
Qed.

(** ** The temporary files *)
(** A run of ffmpeg writes its output and nothing else; files can be removed. *)
Definition output_only : Prop := ∀ program input output files r files',
  sp_run sp program input output files = (r, files') →
  ∀ p, p ≠ output → files' !! p = files !! p.
Definition removes : Prop := ∀ p, sp_remove sp p = true.

Lemma delete_output (files files' : Files) output :
  files !! output = None → (∀ p, p ≠ output → files' !! p = files !! p) → delete output files' = files.
Proof.
  intros Hn Hp. apply map_eq. intros p. destruct (decide (p = output)) as [->|Hne].
  - by rewrite lookup_delete_eq, Hn.
  - rewrite lookup_delete_ne by congruence. by apply Hp.
Qed.

(** With fresh names, nothing is left in the directory once ffmpeg has run and
    what it reports as written can be read. *)
Lemma preprocess_leaves_nothing nonce filename bytes files :
  output_only → removes →
  (∀ input output files, is_ok (sp_run sp (groq_ffmpeg_path groq) input output files).1 = true) →
  (∀ p b, is_ok (sp_read sp p b) = true) →
  files !! input_path nonce filename = None → files !! output_path nonce = None →
  state_of (preprocess_audio_with_ffmpeg nonce filename bytes) files = files.
Proof.
  intros Hout Hrm Hrun Hread Hi Ho. unfold preprocess_audio_with_ffmpeg.
  set (input := input_path _ _) in *. set (output := output_path _) in *.
  unfold state_of, bindR, bind, write_file, run_ffmpeg, read_file, remove_file, ret, gets.
  destruct (sp_create_dir sp); [done|]. destruct (sp_write sp input); [done|]. cbn [with_context].
  specialize (Hrun input output (<[input := bytes]> files)).
  destruct (sp_run _ _ _ _ _) as [[[success stderr]|err] files'] eqn:E; [|done]. cbn [with_context].
  apply Hout in E. rewrite !Hrm.
  assert (Hrest : delete output (delete input files') = files).
  { apply delete_output; [done|]. intros p Hp. destruct (decide (p = input)) as [->|Hne].
    - by rewrite lookup_delete_eq, Hi.
    - rewrite lookup_delete_ne, E, lookup_insert_ne by congruence. done. }
  destruct success; cbn [negb snd]; [|done].
  specialize (Hread output (delete input files' !! output)).
  by destruct (sp_read sp output _).
Qed.

Lemma rsplit_wav stem : rsplit_once "." (stem +:+ ".wav") = Some (stem, "wav"%string).
Proof. induction stem as [|a stem IH]; [done|]. simpl. by rewrite IH. Qed.

(** Audio that is already a [.wav] file is never converted: its two files are one
    path, which is removed as the input before it is read as the output. *)
Lemma wav_refused nonce stem bytes files :
  removes → (∀ p, is_ok (sp_read sp p None) = false) →
  is_ok (value_of (preprocess_audio_with_ffmpeg nonce (stem +:+ ".wav") bytes) files) = false.
Proof.
  intros Hrm Hread. unfold preprocess_audio_with_ffmpeg.
  assert (Hp : input_path nonce (stem +:+ ".wav") = output_path nonce).
  { unfold input_path, output_path, input_ext. by rewrite rsplit_wav. }
  rewrite Hp. set (output := output_path _) in *.
  unfold value_of, bindR, bind, write_file, run_ffmpeg, read_file, remove_file, ret, gets.
  destruct (sp_create_dir sp); [done|]. destruct (sp_write sp output); [done|]. cbn [with_context].
  destruct (sp_run _ _ _ _ _) as [[[[] stderr]|err] files'] eqn:E; cbn [with_context negb fst]; [|done..].
  rewrite !Hrm, lookup_delete_eq. specialize (Hread output). by destruct (sp_read sp output None).
Qed.
End speech.
