(* ===== verification/Dirty.v ===== *)
(** * Dirty conversations (src/state.rs)

    Consumers poll for conversations that changed, each with its own position
    ([consumer_state]); a listed conversation is leased to the consumer for a
    minute, and an acknowledgement under the lease moves the position.  The
    dirty mark goes away when every consumer that ever listed the conversation
    has caught up. *)
From S2P Require Import Prelude Text Json Errors Env Config Models Jid Records.
From S2P Require Import EventBus Whatsapp Store.

Section dirty.
Context `{Env}.

(** A consumer's position in a conversation. *)
Definition processed (inner : StoreInner) (key : key4) : Z :=
  unwrap_or (st_consumer_state inner !! key) 0.

Definition is_due (inner : StoreInner) (project_id company_id consumer_id : string)
    (entry : key3 * DirtyRecord) : bool :=
  let '((p, c, conversation_id), dirty) := entry in
  bool_decide (p = project_id) && bool_decide (c = company_id)
  && bool_decide (processed inner (project_id, company_id, consumer_id, conversation_id)
                  < dirty_max_seq dirty).

(** The loop over the map: entries that are not due are passed over, and the
    limit is tested after an entry was taken. *)
Fixpoint scan_dirty (due : key3 * DirtyRecord → bool) (limit taken : nat)
    (entries : list (key3 * DirtyRecord)) : list (key3 * DirtyRecord) :=
  match entries with
  | [] => []
  | e :: entries =>
    if due e then
      e :: (if decide (limit ≤ S taken)%nat then [] else scan_dirty due limit (S taken) entries)
    else scan_dirty due limit taken entries
  end.

Definition lease_duration : time := seconds 60.

Definition lease_one (now : time) (entry : key3 * DirtyRecord)
  : M (key3 * DirtyConversationItem) :=
  let! lease_token := fresh_id "lease_" in
  let dirty := entry.2 in
  ret (entry.1,
       {| ditem_conversation_id := dirty_conversation_id dirty;
          ditem_max_seq := dirty_max_seq dirty;
          ditem_reason := dirty_reason dirty;
          ditem_priority := dirty_priority dirty;
          ditem_available_at := dirty_available_at dirty;
          ditem_lease_token := lease_token;
          ditem_locked_until := now + lease_duration |}).

Fixpoint lease_all (now : time) (entries : list (key3 * DirtyRecord))
  : M (list (key3 * DirtyConversationItem)) :=
  match entries with
  | [] => ret []
  | e :: entries =>
    let! item := lease_one now e in
    let! items := lease_all now entries in
    ret (item :: items)
  end.

(** [dirty_leases.extend] and [consumer_state.entry(key).or_insert(processed)]. *)
Definition record_lease (project_id company_id consumer_id : string) (inner : StoreInner)
    (e : key3 * DirtyConversationItem) : StoreInner :=
  let '((_, _, conversation_id), item) := e in
  let key := (project_id, company_id, consumer_id, conversation_id) in
  inner <| st_dirty_leases ::= <[key := {| lease_lease_token := ditem_lease_token item;
                                           lease_locked_until := ditem_locked_until item;
                                           lease_max_seq := ditem_max_seq item |}]> |>
        <| st_consumer_state ::= (λ m,
             match m !! key with Some _ => m | None => <[key := processed inner key]> m end) |>.

Definition by_priority (a b : DirtyConversationItem) : bool :=
  if decide (ditem_priority a = ditem_priority b)
  then bool_decide (ditem_available_at a ≤ ditem_available_at b)
  else bool_decide (ditem_priority b < ditem_priority a).

Definition list_dirty (project_id company_id consumer_id : string) (limit : nat)
  : M (list DirtyConversationItem) :=
  let! now := now_utc in
  let! inner := get_inner in
  let entries := scan_dirty (is_due inner project_id company_id consumer_id) limit 0
                   (hm_iter (st_dirty inner)) in
  let! leased := lease_all now entries in
  modify_inner (λ i, foldl (record_lease project_id company_id consumer_id) i leased);;;
  persist_locked;;;
  ret (sort_by by_priority leased.*2).

(** Every consumer that ever listed the conversation has caught up. *)
Definition all_registered_consumers_done (inner : StoreInner)
    (project_id company_id conversation_id : string) (max_seq : Z) : bool :=
  forallb (λ '((p, c, _, conv), done),
    negb (bool_decide (p = project_id) && bool_decide (c = company_id)
          && bool_decide (conv = conversation_id))
    || bool_decide (max_seq ≤ done))
    (hm_iter (st_consumer_state inner)).

Definition check_ack (now : time) (project_id company_id conversation_id : string)
    (request : DirtyAckRequest) (inner : StoreInner) : result DirtyRecord ApiError :=
  let? dirty := ok_or (st_dirty inner !! (project_id, company_id, conversation_id))
                  (NotFound "dirty conversation not found") in
  let? lease := ok_or (st_dirty_leases inner !!
                         (project_id, company_id, ack_consumer_id request, conversation_id))
                  (Conflict "lease_token missing") in
  if decide (lease_lease_token lease ≠ ack_lease_token request)
  then Err (Conflict "lease_token mismatch")
  else if decide (lease_locked_until lease < now) then Err (Conflict "lease_token expired")
  else Ok dirty.

Definition record_ack (project_id company_id conversation_id : string)
    (request : DirtyAckRequest) (inner : StoreInner) : StoreInner :=
  let key := (project_id, company_id, ack_consumer_id request, conversation_id) in
  inner <| st_consumer_state ::= <[key := ack_processed_until_seq request]> |>
        <| st_dirty_leases ::= delete key |>.

Definition ack_done (project_id company_id conversation_id : string)
    (request : DirtyAckRequest) (dirty : DirtyRecord) (inner : StoreInner) : bool :=
  bool_decide (dirty_max_seq dirty ≤ ack_processed_until_seq request)
  && all_registered_consumers_done inner project_id company_id conversation_id
       (dirty_max_seq dirty).

Definition ack_dirty (project_id company_id conversation_id : string)
    (request : DirtyAckRequest) : M (result Value ApiError) :=
  let key := (project_id, company_id, conversation_id) in
  let! inner := get_inner in
  let! now := (if decide (is_Some (st_dirty inner !! key)
                          ∧ is_Some (st_dirty_leases inner !!
                              (project_id, company_id, ack_consumer_id request,
                               conversation_id)))
               then now_utc else ret 0) in
  match check_ack now project_id company_id conversation_id request inner with
  | Err e => ret (Err e)
  | Ok dirty =>
    modify_inner (record_ack project_id company_id conversation_id request);;;
    let! inner := get_inner in
    if ack_done project_id company_id conversation_id request dirty inner then
      modify_inner (λ i, i <| st_dirty ::= delete key |>);;;
      persist_locked;;;
      ret (Ok (json! { "acked" ~> true, "remaining_dirty" ~> false }))
    else
      persist_locked;;;
      ret (Ok (json! { "acked" ~> true, "remaining_dirty" ~> true,
                       "current_max_seq" ~> dirty_max_seq dirty }))
  end.
End dirty.
