(* ===== verification/DirtySpec.v ===== *)
(** * What polling promises

    A listed conversation is due and leased; nothing due is left out when the
    limit allows; an acknowledgement needs the lease, and the dirty mark goes
    away exactly when every registered consumer has caught up. *)
From S2P Require Import Prelude Text Json Errors Env Config Models Jid Records.
From S2P Require Import EventBus Whatsapp Store Dirty Demo.

Section scan.
Context (due : key3 * DirtyRecord → bool).

Lemma scan_dirty_sublist limit taken l : scan_dirty due limit taken l `sublist_of` l.
Proof.
  revert taken. induction l as [|e l IH]; intros taken; simpl; [constructor|].
  destruct (due e); [|by constructor]. constructor. case_decide; [apply sublist_nil_l|done].
Qed.

Lemma scan_dirty_due limit taken l e : e ∈ scan_dirty due limit taken l → due e = true.
Proof.
  revert taken. induction l as [|x l IH]; intros taken; simpl; [by intros ?%elem_of_nil|].
  destruct (due x) eqn:Hx; [|apply IH]. intros [->|He]%elem_of_cons; [done|].
  case_decide; [by apply elem_of_nil in He|]. by eapply IH.
Qed.

Lemma scan_dirty_all limit taken l e :
  (taken + length l ≤ limit)%nat → e ∈ l → due e = true → e ∈ scan_dirty due limit taken l.
Proof.
  revert taken. induction l as [|x l IH]; intros taken Hl; simpl in *; [by intros ?%elem_of_nil|].
  intros [->|He]%elem_of_cons Hd.
  - rewrite Hd. by left.
  - assert (Hne : (1 ≤ length l)%nat) by (destruct l; [by apply elem_of_nil in He|simpl; lia]).
    destruct (due x); [right|apply IH; [lia|done..]].
    rewrite decide_False by lia. apply IH; [lia|done..].
Qed.
End scan.

Section leases.
Context `{Env}.

(** What is listed for an entry. *)
Definition item_of (now : time) (e : key3 * DirtyRecord) (x : key3 * DirtyConversationItem)
  : Prop :=
  x.1 = e.1 ∧ ditem_conversation_id x.2 = dirty_conversation_id e.2
  ∧ ditem_max_seq x.2 = dirty_max_seq e.2 ∧ ditem_priority x.2 = dirty_priority e.2
  ∧ ditem_available_at x.2 = dirty_available_at e.2
  ∧ ditem_locked_until x.2 = now + lease_duration.

Lemma lease_all_items now l s : Forall2 (item_of now) l (value_of (lease_all now l) s).
Proof.
  revert s. induction l as [|e l IH]; intros s; [constructor|].
  cbn [lease_all]. rewrite !value_of_bind. constructor; [by repeat split|]. apply IH.
Qed.

Lemma lease_all_inner now l : frame (λ s, (app_inner s, app_clock s)) (lease_all now l).
Proof. induction l as [|e l IH]; cbn [lease_all]; frame_tac; done. Qed.

Context (p c consumer : string).
Abbreviation key cv := (p, c, consumer, cv).
Abbreviation lease_of item := (mkDirtyLeaseRecord (ditem_lease_token item) (ditem_locked_until item)
  (ditem_max_seq item)).

Definition cv_of (x : key3 * DirtyConversationItem) : string := x.1.2.

Lemma record_leases_other l i cv :
  cv ∉ cv_of <$> l →
  st_dirty_leases (foldl (record_lease p c consumer) i l) !! key cv = st_dirty_leases i !! key cv.
Proof.
  revert i. induction l as [|[[[p' c'] cv'] item] l IH]; intros i Hcv; [done|].
  simpl in Hcv. apply not_elem_of_cons in Hcv as [Hne Hcv]. simpl. rewrite IH by done. simpl.
  apply lookup_insert_ne. unfold cv_of in Hne. simpl in Hne. congruence.
Qed.

Lemma record_leases_lookup l i x :
  NoDup (cv_of <$> l) → x ∈ l →
  st_dirty_leases (foldl (record_lease p c consumer) i l) !! key (cv_of x) = Some (lease_of x.2).
Proof.
  revert i. induction l as [|y l IH]; intros i Hnd; [by intros ?%elem_of_nil|].
  simpl in Hnd. apply NoDup_cons in Hnd as [Hy Hnd]. intros [->|Hx]%elem_of_cons.
  - simpl. rewrite record_leases_other by done. destruct y as [[[p' c'] cv'] item]. simpl.
    apply lookup_insert_eq.
  - by apply IH.
Qed.

Lemma record_leases_dirty l i :
  st_dirty (foldl (record_lease p c consumer) i l) = st_dirty i.
Proof. revert i. induction l as [|[[[p' c'] cv'] item] l IH]; intros i; [done|]. simpl. by rewrite IH. Qed.

(** Listing registers the consumer but moves no position. *)
Lemma record_leases_processed l i k :
  processed (foldl (record_lease p c consumer) i l) k = processed i k.
Proof.
  revert i. induction l as [|[[[p' c'] cv'] item] l IH]; intros i; [done|]. simpl. rewrite IH.
  unfold processed at 1. simpl. destruct (st_consumer_state i !! key cv') eqn:E; [done|].
  destruct (decide (k = key cv')) as [->|]; [|by rewrite lookup_insert_ne].
  by rewrite lookup_insert_eq.
Qed.
End leases.

Section dirty_spec.
Context `{Env}.

Abbreviation lease_of item := (mkDirtyLeaseRecord (ditem_lease_token item)
  (ditem_locked_until item) (ditem_max_seq item)).

Lemma by_priority_total a b : by_priority a b = true ∨ by_priority b a = true.
Proof.
  unfold by_priority. repeat case_decide; rewrite ?bool_decide_eq_true; lia.
Qed.
Lemma by_priority_trans a b d :
  by_priority a b = true → by_priority b d = true → by_priority a d = true.
Proof.
  unfold by_priority. repeat case_decide; rewrite ?bool_decide_eq_true; lia.
Qed.

(** The entries a poll takes. *)
Definition polled (p c consumer : string) (limit : nat) (i : StoreInner)
  : list (key3 * DirtyRecord) :=
  scan_dirty (is_due i p c consumer) limit 0 (hm_iter (st_dirty i)).

Lemma polled_due p c consumer limit i e :
  e ∈ polled p c consumer limit i →
  ∃ cv, e.1 = (p, c, cv) ∧ st_dirty i !! (p, c, cv) = Some e.2
        ∧ processed i (p, c, consumer, cv) < dirty_max_seq e.2.
Proof.
  intros He. pose proof (scan_dirty_due _ _ _ _ _ He) as Hd.
  assert (Hin : e ∈ hm_iter (st_dirty i)).
  { eapply elem_of_sublist; [exact He|apply scan_dirty_sublist]. }
  destruct e as [[[p' c'] cv] d]. apply elem_of_hm_iter in Hin. unfold is_due in Hd.
  apply andb_true_iff in Hd as [Hd Hlt%bool_decide_eq_true].
  apply andb_true_iff in Hd as [->%bool_decide_eq_true ->%bool_decide_eq_true]. eauto.
Qed.

Lemma polled_NoDup p c consumer limit i :
  NoDup ((λ e : key3 * DirtyRecord, e.1.2) <$> polled p c consumer limit i).
Proof.
  assert (Hnd : NoDup ((polled p c consumer limit i).*1)).
  { eapply sublist_NoDup; [apply (hm_iter_NoDup (st_dirty i))|].
    apply fmap_sublist, scan_dirty_sublist. }
  pose proof (polled_due p c consumer limit i) as Hd. revert Hnd Hd.
  generalize (polled p c consumer limit i). intros l.
  induction l as [|e l IH]; simpl; intros Hnd Hd; [constructor|].
  apply NoDup_cons in Hnd as [Hn Hnd]. constructor.
  - intros (e' & He & Hin)%list_elem_of_fmap. apply Hn.
    destruct (Hd e) as (cv & E & _); [by left|]. destruct (Hd e') as (cv' & E' & _); [by right|].
    apply list_elem_of_fmap. exists e'. split; [|done]. rewrite E, E' in He |- *. simpl in He.
    by subst.
  - apply IH; [done|]. intros e' He'. apply Hd. by right.
Qed.

Lemma list_dirty_run p c consumer limit s :
  let now := now_utc_at (app_clock s) in
  let lease := lease_all now (polled p c consumer limit (app_inner s)) in
  let s1 := s <| app_clock ::= S |> in
  list_dirty p c consumer limit s =
    (sort_by by_priority (value_of lease s1).*2,
     state_of persist_locked (state_of (modify_inner (λ i,
       foldl (record_lease p c consumer) i (value_of lease s1))) (state_of lease s1))).
Proof. unfold list_dirty. cbv zeta. autorewrite with run. reflexivity. Qed.

Lemma lease_all_state now l s : app_inner (state_of (lease_all now l) s) = app_inner s.
Proof. pose proof (lease_all_inner now l s) as E. by simplify_eq E. Qed.

(** The store after a poll. *)
Lemma list_dirty_inner p c consumer limit s :
  let '(items, s') := list_dirty p c consumer limit s in
  ∃ leased, items = sort_by by_priority leased.*2
    ∧ Forall2 (item_of (now_utc_at (app_clock s)))
        (polled p c consumer limit (app_inner s)) leased
    ∧ app_inner s' = foldl (record_lease p c consumer) (app_inner s) leased
    ∧ app_clock s' = S (app_clock s).
Proof.
  rewrite list_dirty_run. eexists. split; [done|]. split; [apply lease_all_items|].
  rewrite persist_locked_inner, persist_locked_clock. simpl. rewrite lease_all_state. split; [done|].
  pose proof (lease_all_inner (now_utc_at (app_clock s))
    (polled p c consumer limit (app_inner s)) (s <| app_clock ::= S |>)) as E. by simplify_eq E.
Qed.

(** One item of a poll: its entry, and the lease it was given. *)
Lemma list_dirty_item p c consumer limit s leased item :
  Forall2 (item_of (now_utc_at (app_clock s))) (polled p c consumer limit (app_inner s)) leased →
  item ∈ leased.*2 →
  ∃ cv d, st_dirty (app_inner s) !! (p, c, cv) = Some d
    ∧ processed (app_inner s) (p, c, consumer, cv) < dirty_max_seq d
    ∧ item_of (now_utc_at (app_clock s)) ((p, c, cv), d) ((p, c, cv), item)
    ∧ st_dirty_leases (foldl (record_lease p c consumer) (app_inner s) leased)
        !! (p, c, consumer, cv) = Some (lease_of item).
Proof.
  intros HF ([k it] & -> & Hin)%list_elem_of_fmap. cbn [snd].
  apply list_elem_of_lookup in Hin as [n Hn].
  destruct (Forall2_lookup_r _ _ _ _ _ HF Hn) as ([k' d] & He & Hitem).
  destruct (polled_due p c consumer limit (app_inner s) (k', d)) as (cv & Hk & Hd & Hlt).
  { by eapply list_elem_of_lookup_2. }
  cbn [fst snd] in *. subst k'. pose proof (proj1 Hitem) as Hkey. cbn [fst snd] in Hkey. subst k.
  exists cv, d. repeat (split; [done|]).
  apply (record_leases_lookup p c consumer leased (app_inner s) ((p, c, cv), it)).
  - assert (E : cv_of <$> leased
      = (λ e : key3 * DirtyRecord, e.1.2) <$> polled p c consumer limit (app_inner s)).
    { clear -HF. induction HF as [|e x l l' Hx _ IH]; [done|]. simpl. f_equal; [|done].
      unfold cv_of. by rewrite (proj1 Hx). }
    rewrite E. apply polled_NoDup.
  - by eapply list_elem_of_lookup_2.
Qed.

(** C34. What a poll lists is sorted by priority; every listed conversation is
    dirty beyond the consumer's position and leased to it; when the limit covers
    all dirty conversations nothing due is left out; and polling moves no
    position and clears no mark. *)
Theorem list_dirty_spec p c consumer limit s :
  let '(items, s') := list_dirty p c consumer limit s in
  let now := now_utc_at (app_clock s) in
  StronglySorted (λ a b, by_priority a b = true) items
  ∧ (∀ item, item ∈ items → ∃ cv d,
       st_dirty (app_inner s) !! (p, c, cv) = Some d
       ∧ processed (app_inner s) (p, c, consumer, cv) < dirty_max_seq d
       ∧ item_of now ((p, c, cv), d) ((p, c, cv), item)
       ∧ st_dirty_leases (app_inner s') !! (p, c, consumer, cv) = Some (lease_of item))
  ∧ ((size (st_dirty (app_inner s)) ≤ limit)%nat → ∀ cv d,
       st_dirty (app_inner s) !! (p, c, cv) = Some d →
       processed (app_inner s) (p, c, consumer, cv) < dirty_max_seq d →
       ∃ item, item ∈ items ∧ item_of now ((p, c, cv), d) ((p, c, cv), item))
  ∧ st_dirty (app_inner s') = st_dirty (app_inner s)
  ∧ ∀ k, processed (app_inner s') k = processed (app_inner s) k.
Proof.
  pose proof (list_dirty_inner p c consumer limit s) as Hr.
  destruct (list_dirty p c consumer limit s) as [items s'].
  destruct Hr as (leased & -> & HF & Hi & _). cbv zeta. rewrite Hi.
  split; [|split; [|split; [|split]]].
  - apply sort_by_sorted; [|apply by_priority_trans].
    intros x y Hxy. destruct (by_priority_total x y); congruence.
  - intros item Hitem%elem_of_sort_by. by eapply list_dirty_item.
  - intros Hsize cv d Hd Hlt.
    assert (Hin : ((p, c, cv), d) ∈ polled p c consumer limit (app_inner s)).
    { apply scan_dirty_all; [by rewrite hm_iter_length|by apply elem_of_hm_iter|].
      unfold is_due. by rewrite !bool_decide_eq_true_2. }
    apply list_elem_of_lookup in Hin as [n Hn].
    destruct (Forall2_lookup_l _ _ _ _ _ HF Hn) as ([k it] & He & Hitem).
    pose proof (proj1 Hitem) as Hk. cbn [fst] in Hk. subst k.
    exists it. split; [|done]. apply elem_of_sort_by, list_elem_of_fmap.
    exists ((p, c, cv), it). split; [done|]. by eapply list_elem_of_lookup_2.
  - apply record_leases_dirty.
  - apply record_leases_processed.
Qed.

(** ** Acknowledging *)

(** Every consumer with a position in the conversation has reached [seq]. *)
Definition caught_up (i : StoreInner) (p c cv : string) (seq : Z) : Prop :=
  ∀ consumer pos, st_consumer_state i !! (p, c, consumer, cv) = Some pos → seq ≤ pos.

Lemma all_done_spec i p c cv seq :
  all_registered_consumers_done i p c cv seq = true ↔ caught_up i p c cv seq.
Proof.
  unfold all_registered_consumers_done. rewrite List.forallb_forall. split.
  - intros Hall consumer pos Hk%elem_of_hm_iter%list_elem_of_In.
    specialize (Hall _ Hk). simpl in Hall.
    rewrite !(bool_decide_eq_true_2 (_ = _)) in Hall by done. by apply bool_decide_eq_true in Hall.
  - intros Hc [[[[p' c'] k] cv'] pos] Hin%list_elem_of_In%elem_of_hm_iter.
    destruct (decide (p' = p ∧ c' = c ∧ cv' = cv)) as [(-> & -> & ->)|Hne].
    + rewrite (bool_decide_eq_true_2 (seq ≤ pos)) by eauto. by rewrite orb_true_r.
    + apply orb_true_iff. left. apply negb_true_iff.
      rewrite !andb_false_iff, !bool_decide_eq_false.
      destruct (decide (p' = p)), (decide (c' = c)), (decide (cv' = cv)); tauto.
Qed.

(** The lease an acknowledgement needs. *)
Definition holds_lease (now : time) (i : StoreInner) (p c cv : string) (r : DirtyAckRequest)
  : Prop :=
  ∃ lease, st_dirty_leases i !! (p, c, ack_consumer_id r, cv) = Some lease
    ∧ lease_lease_token lease = ack_lease_token r ∧ now ≤ lease_locked_until lease.

Lemma check_ack_spec now p c cv r i d :
  check_ack now p c cv r i = Ok d ↔
  st_dirty i !! (p, c, cv) = Some d ∧ holds_lease now i p c cv r.
Proof.
  unfold check_ack, holds_lease.
  destruct (st_dirty i !! (p, c, cv)) as [d'|]; simpl; [|naive_solver].
  destruct (st_dirty_leases i !! (p, c, ack_consumer_id r, cv)) as [l|]; simpl;
    [|split; [done|naive_solver]].
  repeat case_decide; split; try done.
  - intros (_ & l' & [= ->] & ? & _). congruence.
  - intros (_ & l' & [= ->] & _ & ?). lia.
  - intros [= ->]. split; [done|]. exists l. repeat split; [|lia].
    destruct (decide (lease_lease_token l = ack_lease_token r)); tauto.
  - by intros ([= ->] & _).
Qed.

(** The store after an accepted acknowledgement. *)
Definition acked (p c cv : string) (r : DirtyAckRequest) (d : DirtyRecord) (i : StoreInner)
  : StoreInner :=
  let i' := record_ack p c cv r i in
  if ack_done p c cv r d i' then i' <| st_dirty ::= delete (p, c, cv) |> else i'.

Lemma ack_dirty_run p c cv r s :
  let now := now_utc_at (app_clock s) in
  let '(res, s') := ack_dirty p c cv r s in
  match check_ack now p c cv r (app_inner s) with
  | Ok d => app_inner s' = acked p c cv r d (app_inner s) ∧ ∃ v, res = Ok v
  | Err e => app_inner s' = app_inner s ∧ res = Err e
  end.
Proof.
  cbv zeta. unfold ack_dirty. cbv zeta. rewrite bind_run, value_of_inner, state_of_inner.
  cbv beta. case_decide as Hsome.
  - rewrite bind_run, value_of_now, state_of_now. cbv beta.
    destruct (check_ack _ p c cv r (app_inner s)) as [d|e]; [|done].
    autorewrite with run. unfold acked. cbv zeta.
    change (app_inner (s <| app_clock ::= S |> <| app_inner ::= ?f |>)) with (f (app_inner s)).
    destruct (ack_done _ _ _ _ _ _); autorewrite with run; (split; [|by eexists]).
    + by rewrite persist_locked_inner.
    + by rewrite persist_locked_inner.
  - rewrite bind_run. change (value_of (ret 0) s) with 0. change (state_of (ret 0) s) with s.
    assert (Herr : ∀ now, check_ack now p c cv r (app_inner s) = check_ack 0 p c cv r (app_inner s)
              ∧ ∀ d, check_ack now p c cv r (app_inner s) ≠ Ok d).
    { intros now. unfold check_ack. destruct (st_dirty _ !! _); [|done].
      destruct (st_dirty_leases _ !! _); [|done]. exfalso. apply Hsome. split; by eexists. }
    destruct (Herr (now_utc_at (app_clock s))) as [-> Hno].
    destruct (check_ack 0 p c cv r (app_inner s)) as [d|e] eqn:E; [|done].
    exfalso. destruct (Herr 0) as [_ Hno']. by apply (Hno' d).
Qed.

Lemma acked_consumers p c cv r d i :
  st_consumer_state (acked p c cv r d i)
    = <[(p, c, ack_consumer_id r, cv) := ack_processed_until_seq r]> (st_consumer_state i)
  ∧ st_dirty_leases (acked p c cv r d i)
    = delete (p, c, ack_consumer_id r, cv) (st_dirty_leases i).
Proof. unfold acked. by destruct (ack_done _ _ _ _ _ _). Qed.

Lemma ack_done_spec p c cv r d i :
  ack_done p c cv r d (record_ack p c cv r i) = true
  ↔ caught_up (acked p c cv r d i) p c cv (dirty_max_seq d).
Proof.
  assert (E : st_consumer_state (acked p c cv r d i) = st_consumer_state (record_ack p c cv r i))
    by apply acked_consumers.
  unfold caught_up. rewrite E. fold (caught_up (record_ack p c cv r i) p c cv (dirty_max_seq d)).
  unfold ack_done. rewrite andb_true_iff, bool_decide_eq_true, all_done_spec.
  split; [tauto|]. intros Hc. split; [|done]. apply (Hc (ack_consumer_id r)).
  apply lookup_insert_eq.
Qed.

(** C33. An acknowledgement is refused, the store unchanged, unless the
    conversation is dirty and the consumer holds an unexpired lease with the
    token it names; otherwise the consumer's position is the acknowledged one,
    the lease is gone, and the dirty mark is removed exactly when every consumer
    registered for the conversation has caught up with it. *)
Theorem ack_dirty_spec p c cv r s :
  let now := now_utc_at (app_clock s) in
  let '(res, s') := ack_dirty p c cv r s in
  match res with
  | Err _ => app_inner s' = app_inner s
             ∧ (st_dirty (app_inner s) !! (p, c, cv) = None
                ∨ ¬ holds_lease now (app_inner s) p c cv r)
  | Ok _ => ∃ d, st_dirty (app_inner s) !! (p, c, cv) = Some d
    ∧ holds_lease now (app_inner s) p c cv r
    ∧ st_consumer_state (app_inner s') = <[(p, c, ack_consumer_id r, cv) :=
        ack_processed_until_seq r]> (st_consumer_state (app_inner s))
    ∧ st_dirty_leases (app_inner s')
      = delete (p, c, ack_consumer_id r, cv) (st_dirty_leases (app_inner s))
    ∧ (caught_up (app_inner s') p c cv (dirty_max_seq d) →
       st_dirty (app_inner s') = delete (p, c, cv) (st_dirty (app_inner s)))
    ∧ (¬ caught_up (app_inner s') p c cv (dirty_max_seq d) →
       st_dirty (app_inner s') = st_dirty (app_inner s))
  end.
Proof.
  cbv zeta. pose proof (ack_dirty_run p c cv r s) as Hr. cbv zeta in Hr.
  destruct (ack_dirty p c cv r s) as [res s'].
  destruct (check_ack _ p c cv r (app_inner s)) as [d|e] eqn:E; destruct Hr as [Hi Hres].
  - destruct Hres as [v ->]. apply check_ack_spec in E as [Hd Hl]. exists d.
    rewrite Hi. destruct (acked_consumers p c cv r d (app_inner s)) as [-> ->].
    repeat (split; [done|]). rewrite <- ack_done_spec. unfold acked.
    destruct (ack_done _ _ _ _ _ _); done.
  - subst res. split; [done|].
    destruct (st_dirty (app_inner s) !! (p, c, cv)) as [d|] eqn:Hd; [right|by left].
    intros Hl. assert (Hok : check_ack (now_utc_at (app_clock s)) p c cv r (app_inner s) = Ok d)
      by (by apply check_ack_spec). congruence.
Qed.

(** The record of a dirty conversation names it. *)
Definition dirty_keyed (i : StoreInner) : Prop :=
  ∀ p c cv d, st_dirty i !! (p, c, cv) = Some d → dirty_conversation_id d = cv.

Lemma mark_dirty_keyed now p c cv seq i :
  dirty_keyed i → dirty_keyed (mark_dirty_record now p c cv seq i).
Proof.
  intros Hi p' c' cv' d. unfold mark_dirty_record. simpl.
  destruct (decide ((p, c, cv) = (p', c', cv'))) as [[= <- <- <-]|Hne].
  - rewrite lookup_insert_eq. intros [= <-].
    destruct (st_dirty i !! (p, c, cv)) as [d0|] eqn:E; simpl; [by eapply Hi|done].
  - rewrite lookup_insert_ne by done. apply Hi.
Qed.

(** A consumer that acknowledges a listed conversation with the token it
    was given, before the lease ends, succeeds. *)
Theorem listed_can_be_acked p c consumer limit s item seq :
  dirty_keyed (app_inner s) →
  now_utc_at (S (app_clock s)) ≤ now_utc_at (app_clock s) + lease_duration →
  item ∈ value_of (list_dirty p c consumer limit) s →
  ∃ v, value_of (ack_dirty p c (ditem_conversation_id item)
                   (mkDirtyAckRequest consumer seq (ditem_lease_token item)))
         (state_of (list_dirty p c consumer limit) s) = Ok v.
Proof.
  intros Hk Hnow Hitem. pose proof (list_dirty_inner p c consumer limit s) as Hl.
  unfold value_of, state_of in *. destruct (list_dirty p c consumer limit s) as [items s'].
  cbn [fst snd] in *. destruct Hl as (leased & -> & HF & Hi & Hc).
  apply elem_of_sort_by in Hitem.
  destruct (list_dirty_item _ _ _ _ _ _ _ HF Hitem) as (cv & d & Hd & _ & Hio & Hlease).
  destruct Hio as (_ & Hcv & _ & _ & _ & Hlock). cbn [fst snd] in *.
  rewrite (Hk _ _ _ _ Hd) in Hcv. rewrite Hcv.
  set (r := mkDirtyAckRequest _ _ _). pose proof (ack_dirty_run p c cv r s') as Ha.
  cbv zeta in Ha. destruct (ack_dirty p c cv r s') as [res s2].
  assert (Hok : check_ack (now_utc_at (app_clock s')) p c cv r (app_inner s') = Ok d).
  { apply check_ack_spec. rewrite Hi, record_leases_dirty. split; [done|].
    exists (lease_of item). repeat split; [done|]. simpl. by rewrite Hc, Hlock. }
  rewrite Hok in Ha. by destruct Ha.
Qed.
End dirty_spec.

Definition demo_dirty : AppState :=
  demo_start <| app_inner := mark_dirty_record 0 "p" "c" "conv" 3 (app_inner demo_start) |>.

Lemma listed_can_be_acked_witness :
  ∃ item v, item ∈ value_of (@list_dirty demo_env "p" "c" "crm" 10) demo_dirty
    ∧ value_of (@ack_dirty demo_env "p" "c" (ditem_conversation_id item)
                  (mkDirtyAckRequest "crm" 3 (ditem_lease_token item)))
        (state_of (@list_dirty demo_env "p" "c" "crm" 10) demo_dirty) = Ok v.
Proof.
  set (items := value_of (@list_dirty demo_env "p" "c" "crm" 10) demo_dirty).
  assert (Hitems : ∃ item, items = [item]) by (vm_compute; by eexists).
  destruct Hitems as [item Hitems].
  assert (Hin : item ∈ items) by (rewrite Hitems; by left).
  destruct (@listed_can_be_acked demo_env "p" "c" "crm" 10 demo_dirty item 3) as [v Hv].
  - apply mark_dirty_keyed. intros p c cv d. simpl. by rewrite lookup_empty.
  - vm_compute. discriminate.
  - exact Hin.
  - exists item, v. by split.
Defined.
