(* ===== verification/Net.v ===== *)
(** * IP addresses

    [std::net::IpAddr] as far as src/state.rs uses it: parsing text and the
    classes of addresses. *)
From S2P Require Import Prelude Text.

Inductive IpAddr :=
| V4 (o0 o1 o2 o3 : Z)
| V6 (segments : list Z).

(** ** Parsing

    A parser takes the text that is left and answers what it read and what
    then is left. *)
Definition parser (A : Type) : Type := string → option (A * string).

Definition read_char (c : ascii) : parser unit := λ s,
  match s with
  | String a s' => if decide (a = c) then Some (tt, s') else None
  | EmptyString => None
  end.

Definition digit_of (radix : Z) (a : ascii) : option Z :=
  let n := Z.of_nat (nat_of_ascii a) in
  let d := if in_range 48 57 a then Some (n - 48)
           else if in_range 97 102 a then Some (n - 87)
           else if in_range 65 70 a then Some (n - 55)
           else None in
  opt_filter (λ d, bool_decide (d < radix)) d.

(** [read_number(radix, max_digits, allow_zero_prefix)], with values up to
    [max]: digits are taken while there are any; more than [max_digits] of
    them, or too large a value, is a failure. *)
Fixpoint read_digits (radix max : Z) (digits : nat) (max_digits : nat) (acc : Z) (s : string)
  : option (Z * nat * string) :=
  match s with
  | String a s' =>
    match digit_of radix a with
    | Some d =>
      let acc := acc * radix + d in
      if decide (max < acc) then None
      else if decide (max_digits < S digits)%nat then None
      else read_digits radix max (S digits) max_digits acc s'
    | None => Some (acc, digits, s)
    end
  | EmptyString => Some (acc, digits, s)
  end.

Definition read_number (radix max : Z) (max_digits : nat) (allow_zero_prefix : bool)
  : parser Z := λ s,
  let has_leading_zero := starts_with s "0" in
  match read_digits radix max 0 max_digits 0 s with
  | Some (n, digits, s') =>
    if decide (digits = 0%nat) then None
    else if negb allow_zero_prefix && has_leading_zero && bool_decide (1 < digits)%nat then None
    else Some (n, s')
  | None => None
  end.

(** [read_separator(sep, index, inner)]: the separator comes before all but
    the first. *)
Definition read_separated {A} (sep : ascii) (first : bool) (p : parser A) : parser A := λ s,
  if first then p s
  else match read_char sep s with Some (_, s') => p s' | None => None end.

Definition read_octet (first : bool) : parser Z :=
  read_separated "." first (read_number 10 255 3 false).

Definition read_ipv4 : parser (Z * Z * Z * Z) := λ s,
  match read_octet true s with
  | None => None
  | Some (o0, s) =>
    match read_octet false s with
    | None => None
    | Some (o1, s) =>
      match read_octet false s with
      | None => None
      | Some (o2, s) =>
        match read_octet false s with
        | None => None
        | Some (o3, s) => Some ((o0, o1, o2, o3), s)
        end
      end
    end
  end.

(** [read_groups]: up to [limit] groups of an IPv6 address; the last two may
    be written as an IPv4 address.  [true] says that they were. *)
Fixpoint read_groups (limit : nat) (first : bool) (s : string) : list Z * bool * string :=
  match limit with
  | O => ([], false, s)
  | S limit' =>
    match (if decide (limit' = 0%nat) then None
           else read_separated ":" first read_ipv4 s) with
    | Some ((a, b, c, d), s') => ([a * 256 + b; c * 256 + d], true, s')
    | None =>
      match read_separated ":" first (read_number 16 65535 4 true) s with
      | Some (g, s') =>
        let '(gs, v4, s'') := read_groups limit' false s' in (g :: gs, v4, s'')
      | None => ([], false, s)
      end
    end
  end.

Definition read_ipv6 : parser (list Z) := λ s,
  let '(head, head_ipv4, s) := read_groups 8 true s in
  if decide (length head = 8%nat) then Some (head, s)
  else if head_ipv4 then None
  else
    match read_char ":" s with
    | None => None
    | Some (_, s) =>
      match read_char ":" s with
      | None => None
      | Some (_, s) =>
        let '(tail, _, s) := read_groups (8 - (length head + 1)) true s in
        Some (head ++ replicate (8 - length head - length tail) 0 ++ tail, s)
      end
    end.

(** [host.parse::<IpAddr>()]: all of the text. *)
Definition parse_ip (s : string) : option IpAddr :=
  match read_ipv4 s with
  | Some ((a, b, c, d), EmptyString) => Some (V4 a b c d)
  | _ =>
    match read_ipv6 s with
    | Some (segments, EmptyString) => Some (V6 segments)
    | _ => None
    end
  end.

(** ** Classes of addresses *)
Definition is_unspecified (ip : IpAddr) : bool :=
  match ip with
  | V4 a b c d => bool_decide (a = 0) && bool_decide (b = 0) && bool_decide (c = 0)
                  && bool_decide (d = 0)
  | V6 segments => forallb (λ x, bool_decide (x = 0)) segments
  end.
Definition is_multicast (ip : IpAddr) : bool :=
  match ip with
  | V4 a _ _ _ => bool_decide (224 ≤ a ≤ 239)
  | V6 segments => bool_decide (Z.land (default 0 (head segments)) 65280 = 65280)
  end.
Definition is_loopback (ip : IpAddr) : bool :=
  match ip with
  | V4 a _ _ _ => bool_decide (a = 127)
  | V6 segments => bool_decide (segments = [0; 0; 0; 0; 0; 0; 0; 1])
  end.
Definition is_broadcast (a b c d : Z) : bool :=
  bool_decide (a = 255) && bool_decide (b = 255) && bool_decide (c = 255)
  && bool_decide (d = 255).
Definition is_private (a b : Z) : bool :=
  bool_decide (a = 10) || (bool_decide (a = 172) && bool_decide (16 ≤ b ≤ 31))
  || (bool_decide (a = 192) && bool_decide (b = 168)).
Definition is_link_local (a b : Z) : bool :=
  bool_decide (a = 169) && bool_decide (b = 254).

Example parses :
  parse_ip "127.0.0.1" = Some (V4 127 0 0 1)
  ∧ parse_ip "::1" = Some (V6 [0; 0; 0; 0; 0; 0; 0; 1])
  ∧ parse_ip "fe80::1:2" = Some (V6 [65152; 0; 0; 0; 0; 0; 1; 2])
  ∧ parse_ip "::ffff:10.0.0.1" = Some (V6 [0; 0; 0; 0; 0; 65535; 2560; 1])
  ∧ parse_ip "127.0.0.01" = None ∧ parse_ip "256.1.1.1" = None
  ∧ parse_ip "1:2:3:4:5:6:7:8" = Some (V6 [1; 2; 3; 4; 5; 6; 7; 8])
  ∧ parse_ip "example.com" = None ∧ parse_ip "1.2.3" = None.
Proof. by vm_compute. Qed.

(** A host in brackets is not an address. *)
Lemma parse_ip_bracket s : parse_ip (String "[" s) = None.
Proof. reflexivity. Qed.
