(* ===== verification/Callbacks.v ===== *)
(** * Consumer callbacks and webhook delivery (src/state.rs)

    The registration of callbacks (with the checks on their URL), and the
    delivery of events to them: which deliveries are due, what is sent, how an
    attempt is recorded and when it is retried. *)
From S2P Require Import Prelude Text Json Errors Env Config Models Jid Net Secrets Security Records.
From S2P Require Import EventBus Whatsapp Store Channels.

(** ** Callback URLs

    [parse_url] is [reqwest::Url::parse]: the scheme and the host of a URL.
    As documented, an IPv6 host is given in brackets. *)
Record Url : Type := mkUrl {
  url_scheme : string;
  url_host_str : option string
}.
#[export] Instance eta_Url : Eta Url := λ r,
  mkUrl (url_scheme r) (url_host_str r).

Definition callback_host_is_localhost (host : string) : bool :=
  let normalized := to_ascii_lowercase (trim_end_matches "." host) in
  bool_decide (normalized = "localhost") || ends_with normalized ".localhost".

Definition callback_ip_is_disallowed (ip : IpAddr) (dev_mode : bool) : bool :=
  match ip with
  | V4 a b c d =>
    is_unspecified ip || is_broadcast a b c d || is_multicast ip
    || (negb dev_mode && (is_loopback ip || is_private a b || is_link_local a b))
  | V6 segments =>
    let first_segment := default 0 (head segments) in
    let unique_local := bool_decide (Z.land first_segment 65024 = 64512) in
    let link_local := bool_decide (Z.land first_segment 65472 = 65152) in
    is_unspecified ip || is_multicast ip
    || (negb dev_mode && (is_loopback ip || unique_local || link_local))
  end.

Section callbacks.
Context `{Env} `{Crypto}.
Context (parse_url : string → result Url string).

Definition validate_callback_url (url : string) (dev_mode : bool) : result unit ApiError :=
  let not_allowed := BadRequest "callback url host is not allowed outside dev mode" in
  let? parsed := match parse_url url with
                 | Ok u => Ok u
                 | Err err => Err (BadRequest ("invalid callback url: " +:+ err))
                 end in
  let? _ := (if decide (url_scheme parsed = "https") then Ok tt
             else if decide (url_scheme parsed = "http") then
               if dev_mode then Ok tt
               else Err (BadRequest "callback url must use https outside dev mode")
             else Err (BadRequest "callback url scheme must be https")) in
  let? host := ok_or (url_host_str parsed) (BadRequest "callback url must include a host") in
  if callback_host_is_localhost host && negb dev_mode then Err not_allowed
  else if is_some_and (parse_ip host) (λ ip, callback_ip_is_disallowed ip dev_mode)
  then Err not_allowed
  else Ok tt.

(** ** Registration *)
Definition sanitize_callback (callback : Value) : Value :=
  match callback with
  | VObject o => VObject (obj_remove "encrypted_secret" (obj_remove "secret" o))
  | _ => callback
  end.

Definition callback_belongs_to_company (callback : Value) (project_id company_id : string)
  : bool :=
  bool_decide (get_str callback "project_id" = Some project_id)
  && bool_decide (get_str callback "company_id" = Some company_id).

(** The order of [Option<&str>], ascending. *)
Definition by_id (a b : Value) : bool :=
  match get_str a "id", get_str b "id" with
  | None, _ => true
  | Some _, None => false
  | Some x, Some y => str_le x y
  end.

Definition list_callbacks (inner : StoreInner) (project_id company_id : string)
  : list Value :=
  sort_by by_id (sanitize_callback <$>
    retain_list (λ c, callback_belongs_to_company c project_id company_id)
      (hm_values (st_callbacks inner))).

Definition callback_not_found (callback_id : string) : ApiError :=
  NotFound ("callback " +:+ callback_id +:+ " not found").

Definition webhook_signal_enabled (config : AppConfig) : bool :=
  match cfg_consumer_signal_mode config with
  | SigWebhook | SigWebhookAndPolling => true
  | _ => false
  end.

(** [nonce] is what the random source gives to the encryption. *)
Definition encrypt_callback_secret (config : AppConfig) (nonce : option string)
    (secret : string) : result string ApiError :=
  let? key := ok_or (cfg_secret_master_key config)
    (BadRequest "RUSTZAP_SECRET_MASTER_KEY is required to store webhook secrets") in
  match encrypt_secret nonce key secret with
  | Ok envelope => Ok envelope
  | Err err => Err (Internal ("failed to encrypt webhook secret: " +:+ secret_error err))
  end.

Definition decrypt_callback_secret (config : AppConfig) (encrypted_secret : string)
  : result string ApiError :=
  let? key := ok_or (cfg_secret_master_key config)
    (Internal "RUSTZAP_SECRET_MASTER_KEY is required to deliver webhook secrets") in
  match decrypt_secret key encrypted_secret with
  | Ok secret => Ok secret
  | Err err => Err (Internal ("failed to decrypt webhook secret: " +:+ secret_error err))
  end.

(** The secret of the callback: given, kept, upgraded, or generated. *)
Definition callback_secret (config : AppConfig) (nonce : option string) (body : Value)
    (existing : option Value) : M (result (option string) ApiError) :=
  let encrypt := λ secret, ret (map_result Some (encrypt_callback_secret config nonce secret)) in
  match get_str body "secret" with
  | Some secret => encrypt secret
  | None =>
    match existing ≫= λ e, get_str e "encrypted_secret" with
    | Some existing_secret => ret (Ok (Some existing_secret))
    | None =>
      match existing ≫= λ e, get_str e "secret" with
      | Some legacy_secret => encrypt legacy_secret
      | None =>
        match cfg_secret_master_key config with
        | Some _ => let! u := fresh_uuid in encrypt ("whsec_" +:+ u)
        | None =>
          ret (if webhook_delivery_enabled (cfg_webhook config) && webhook_signal_enabled config
               then Err (BadRequest
                 "RUSTZAP_SECRET_MASTER_KEY is required for webhook delivery secrets")
               else Ok None)
        end
      end
    end
  end.

Definition callback_record (config : AppConfig) (now : time)
    (project_id company_id callback_id url created_at : string)
    (encrypted_secret : option string) (body : Value) : Value :=
  json! {
    "id" ~> callback_id,
    "project_id" ~> project_id,
    "company_id" ~> company_id,
    "url" ~> url,
    "encrypted_secret" ~> encrypted_secret,
    "enabled" ~> unwrap_or (get body "enabled" ≫= as_bool) true,
    "events" ~> unwrap_or (get body "events") (json ["conversation.dirty"%string]),
    "max_batch_size" ~> unwrap_or (get body "max_batch_size" ≫= as_u64)
                          (webhook_max_batch_size (cfg_webhook config)),
    "timeout_seconds" ~> unwrap_or (get body "timeout_seconds" ≫= as_u64)
                           (webhook_timeout_seconds (cfg_webhook config)),
    "created_at" ~> created_at,
    "updated_at" ~> ts now
  }.

Definition upsert_callback (nonce : option string) (project_id company_id : string)
    (callback_id : option string) (body : Value) : M (result Value ApiError) :=
  let! now := now_utc in
  let! callback_id := match callback_id with Some id => ret id
                                           | None => fresh_id "callback_" end in
  let! inner := get_inner in
  let! config := get_config in
  let existing := st_callbacks inner !! callback_id in
  if is_some_and existing (λ c, negb (callback_belongs_to_company c project_id company_id))
  then ret (Err (callback_not_found callback_id))
  else
    let created_at := unwrap_or (existing ≫= λ e, get_str e "created_at") (ts now) in
    let url := unwrap_or (opt_or (get_str body "url") (existing ≫= λ e, get_str e "url"))
                 "http://localhost:3000/webhook"%string in
    try! _ := ret (validate_callback_url url (cfg_dev_mode config)) in
    try! encrypted_secret := callback_secret config nonce body existing in
    let callback := callback_record config now project_id company_id callback_id url created_at
                      encrypted_secret body in
    modify_inner (λ i, i <| st_callbacks ::= <[callback_id := callback]> |>);;;
    persist_locked;;;
    let! _ := audit_log project_id company_id "callback.upsert" "consumer_callback"
                (get_str callback "id") (json! { "enabled" ~> index callback "enabled" }) in
    ret (Ok (sanitize_callback callback)).

Definition delete_callback (project_id company_id callback_id : string)
  : M (result Value ApiError) :=
  let! inner := get_inner in
  match opt_filter (λ c, callback_belongs_to_company c project_id company_id)
          (st_callbacks inner !! callback_id) with
  | None => ret (Err (callback_not_found callback_id))
  | Some callback =>
    modify_inner (λ i, i <| st_callbacks ::= delete callback_id |>);;;
    persist_locked;;;
    let! _ := audit_log project_id company_id "callback.delete" "consumer_callback"
                (Some callback_id) (json! { "deleted" ~> true }) in
    ret (Ok (json! { "deleted" ~> true, "callback" ~> sanitize_callback callback }))
  end.

(** [upgrade_legacy_callback_secrets]: one callback. *)
Definition upgrade_callback (nonce : option string) (key : SecretMasterKey) (callback : Value)
  : Value :=
  match callback with
  | VObject o =>
    match get_str callback "encrypted_secret" with
    | Some _ => VObject (obj_remove "secret" o)
    | None =>
      match get_str callback "secret" with
      | Some legacy =>
        match encrypt_secret nonce key legacy with
        | Ok envelope => VObject (obj_remove "secret" (obj_insert "encrypted_secret"
                                                         (VString envelope) o))
        | Err _ => callback
        end
      | None => callback
      end
    end
  | _ => callback
  end.

(** Whether the legacy secret of the callback is encrypted by the upgrade. *)
Definition upgrades (nonce : option string) (key : SecretMasterKey) (callback : Value) : bool :=
  match get_str callback "encrypted_secret", get_str callback "secret" with
  | None, Some legacy => is_ok (encrypt_secret nonce key legacy)
  | _, _ => false
  end.

(** Each callback draws a nonce of its own. *)
Definition upgrade_legacy_callback_secrets (nonce : string → option string) : M unit :=
  let! config := get_config in
  match cfg_secret_master_key config with
  | None => ret tt
  | Some key =>
    let! inner := get_inner in
    modify_inner (λ i,
      i <| st_callbacks ::= map_imap (λ id callback,
             Some (upgrade_callback (nonce id) key callback)) |>);;;
    if existsb (λ '(id, callback), upgrades (nonce id) key callback)
         (hm_iter (st_callbacks inner))
    then persist_locked else ret tt
  end.

(** ** What is sent *)
Definition private_key (key : string) : bool :=
  bool_decide (key ∈ ["text"; "caption"; "bytes"; "raw_response_json"; "transcript";
                      "media"]%string).

Fixpoint compact_payload (value : Value) : Value :=
  match value with
  | VObject o =>
    VObject ((fix go (o : list (string * Value)) : list (string * Value) :=
      match o with
      | [] => []
      | (k, v) :: o => if private_key k then go o else (k, compact_payload v) :: go o
      end) o)
  | VArray l => VArray ((fix go (l : list Value) : list Value :=
      match l with [] => [] | v :: l => compact_payload v :: go l end) l)
  | other => other
  end.

Definition compact_webhook_event (event : CommonEvent) : Value :=
  json! {
    "event_id" ~> ev_event_id event,
    "event_type" ~> ev_event_type event,
    "project_id" ~> ev_project_id event,
    "company_id" ~> ev_company_id event,
    "channel_id" ~> ev_channel_id event,
    "conversation_id" ~> ev_conversation_id event,
    "message_id" ~> ev_message_id event,
    "conversation_seq" ~> ev_conversation_seq event,
    "occurred_at" ~> ts (ev_occurred_at event),
    "payload" ~> compact_payload (ev_payload event)
  }.

(** ** Which deliveries are due *)
Record WebhookDeliveryJob : Type := mkWebhookDeliveryJob {
  job_callback : Value;
  job_event : CommonEvent;
  job_attempt : Z;
  job_first_failed_at : option time
}.

Definition callback_subscribes_to_event (callback : Value) (event_type : string) : bool :=
  is_none_or (get callback "events" ≫= as_array)
    (existsb (λ event, is_some_and (as_str event)
       (λ name, bool_decide (name = "*") || bool_decide (name = event_type)))).

Definition callback_str (callback : Value) (key : string) : string :=
  unwrap_or (get_str callback key) "".

Definition attempts_of (inner : StoreInner) (callback_id event_id : string)
  : list WebhookDeliveryAttempt :=
  retain_list (λ a, bool_decide (att_callback_id a = callback_id)
                    && bool_decide (att_event_id a = event_id))
    (st_webhook_delivery_attempts inner).

(** [iter().max_by_key(|a| a.attempt)]: the last of the greatest. *)
Fixpoint last_attempt (l : list WebhookDeliveryAttempt) : option WebhookDeliveryAttempt :=
  match l with
  | [] => None
  | a :: l =>
    match last_attempt l with
    | Some b => if decide (att_attempt a ≤ att_attempt b) then Some b else Some a
    | None => Some a
    end
  end.

Definition pending_job (config : AppConfig) (now : time) (inner : StoreInner)
    (callback : Value) (event : CommonEvent) : option WebhookDeliveryJob :=
  if negb (bool_decide (ev_project_id event = callback_str callback "project_id")
           && bool_decide (ev_company_id event = callback_str callback "company_id"))
  then None
  else if negb (callback_subscribes_to_event callback (ev_event_type event)) then None
  else
    let attempts := attempts_of inner (callback_str callback "id") (ev_event_id event) in
    if existsb (λ a, bool_decide (att_status a = "success")) attempts then None
    else
      match last_attempt attempts with
      | None => Some (mkWebhookDeliveryJob callback event 1 None)
      | Some a =>
        if decide (webhook_max_retries (cfg_webhook config) ≤ att_attempt a) then None
        else if is_some_and (att_next_retry_at a) (λ t, bool_decide (now < t)) then None
        else Some (mkWebhookDeliveryJob callback event (sat_add_u32 (att_attempt a) 1)
                     (opt_or (att_first_failed_at a) (Some (att_created_at a))))
      end.

Definition callback_enabled (callback : Value) : bool :=
  bool_decide (get callback "enabled" ≫= as_bool = Some true).

Definition pending_webhook_jobs (config : AppConfig) (now : time) (inner : StoreInner)
  : list WebhookDeliveryJob :=
  retain_list callback_enabled (hm_values (st_callbacks inner)) ≫= λ callback,
    omap (pending_job config now inner callback) (st_events inner).

(** ** Recording an attempt *)
Definition webhook_delay (attempt retry_base_seconds retry_max_seconds : Z) : Z :=
  let exponent := Z.min (sat_sub_u32 attempt 1) 16 in
  let multiplier := Z.shiftl 1 exponent in
  Z.min (sat_mul_u64 retry_base_seconds multiplier) (Z.max retry_max_seconds 1).

Definition next_webhook_retry_at (attempt retry_base_seconds retry_max_seconds : Z) : M time :=
  let! now := now_utc in
  ret (now + seconds (Z.min (webhook_delay attempt retry_base_seconds retry_max_seconds)
                        i64_max)).

Definition record_webhook_attempt (callback_id : string) (event : CommonEvent) (attempt : Z)
    (success : bool) (http_status : option Z) (error_message : option string)
    (first_failed_at next_retry_at : option time) : M unit :=
  let! now := now_utc in
  modify (λ s, s <| app_metrics ::= (λ m,
    let m := m <| rm_webhook_delivery_attempts_total ::= (λ n, wrap_u64 (n + 1)) |> in
    if success
    then m <| rm_webhook_delivery_successes_total ::= (λ n, wrap_u64 (n + 1)) |>
    else m) |>);;;
  let! id := fresh_uuid_hyphenated in
  modify_inner (λ i, i <| st_webhook_delivery_attempts ::= (λ l, l ++
    [{| att_id := id;
        att_project_id := ev_project_id event;
        att_company_id := ev_company_id event;
        att_callback_id := callback_id;
        att_event_id := ev_event_id event;
        att_attempt := attempt;
        att_status := if success then "success" else "failed";
        att_http_status := http_status;
        att_error_message := error_message;
        att_first_failed_at := if success then None else opt_or first_failed_at (Some now);
        att_last_failed_at := bool_then (negb success) now;
        att_next_retry_at := next_retry_at;
        att_created_at := now |}]) |>);;;
  persist_locked.

(** What is sent to a receiver, and what the HTTP client makes of it: a status
    (with its display), an error of the request, or of building the client. *)
Record WebhookRequest : Type := mkWebhookRequest {
  wreq_url : string;
  wreq_timeout_seconds : Z;
  wreq_headers : list (string * string);
  wreq_body : string
}.
Inductive Response :=
| Status (code : Z) (shown : string)
| NoResponse (err : string)
| NoClient (err : string).

Definition is_success (code : Z) : bool := bool_decide (200 ≤ code < 300).

(** [unix_timestamp]: whole seconds, rounded down. *)
Definition unix_timestamp (t : time) : Z := t / 10 ^ 9.

Definition webhook_body (event : CommonEvent) : result string ApiError :=
  match json_to_vec (json! { "events" ~> VArray [compact_webhook_event event] }) with
  | Ok body => Ok body
  | Err err => Err (Internal ("failed to encode webhook body: " +:+ err))
  end.

Definition webhook_request (wh : WebhookConfig) (callback : Value) (event : CommonEvent)
    (url secret body : string) (now : time) : WebhookRequest :=
  let timestamp := fmt_Z (unix_timestamp now) in
  {| wreq_url := url;
     wreq_timeout_seconds :=
       Z.max (unwrap_or (get callback "timeout_seconds" ≫= as_u64)
                (webhook_timeout_seconds wh)) 1;
     wreq_headers :=
       [("content-type", "application/json");
        (webhook_signing_header wh, webhook_signature secret timestamp body);
        (webhook_timestamp_header wh, timestamp);
        (webhook_event_id_header wh, ev_event_id event)];
     wreq_body := body |}.

Definition deliver_webhook_job (http : WebhookRequest → Response) (job : WebhookDeliveryJob)
  : M (result unit ApiError) :=
  let! config := get_config in
  let callback := job_callback job in
  let callback_id := callback_str callback "id" in
  try! url := ret (ok_or (get_str callback "url") (BadRequest "callback url is required")) in
  try! encrypted_secret := ret (ok_or (get_str callback "encrypted_secret")
    (Internal ("callback " +:+ callback_id +:+ " is missing encrypted_secret"))) in
  try! secret := ret (decrypt_callback_secret config encrypted_secret) in
  try! body := ret (webhook_body (job_event job)) in
  let! now := now_utc in
  let wh := cfg_webhook config in
  let failed := λ http_status err,
    let! retry := next_webhook_retry_at (job_attempt job) (webhook_retry_base_seconds wh)
                    (webhook_retry_max_seconds wh) in
    record_webhook_attempt callback_id (job_event job) (job_attempt job) false http_status
      (Some err) (job_first_failed_at job) (Some retry);;; ret (Ok tt) in
  match http (webhook_request wh callback (job_event job) url secret body now) with
  | Status code shown =>
    if is_success code
    then record_webhook_attempt callback_id (job_event job) (job_attempt job) true
           (Some code) None None None;;; ret (Ok tt)
    else failed (Some code) ("webhook returned " +:+ shown)
  | NoResponse err => failed None err
  | NoClient err => ret (Err (Internal ("failed to build webhook client: " +:+ err)))
  end.

Fixpoint deliver_jobs (http : WebhookRequest → Response) (jobs : list WebhookDeliveryJob)
    (delivered : nat) : M (result nat ApiError) :=
  match jobs with
  | [] => ret (Ok delivered)
  | job :: jobs =>
    try! _ := deliver_webhook_job http job in
    deliver_jobs http jobs (S delivered)
  end.

Definition deliver_pending_webhooks_once (http : WebhookRequest → Response)
  : M (result nat ApiError) :=
  let! config := get_config in
  if negb (webhook_delivery_enabled (cfg_webhook config)) || negb (webhook_signal_enabled config)
  then ret (Ok 0%nat)
  else
    let! now := now_utc in
    let! inner := get_inner in
    deliver_jobs http (pending_webhook_jobs config now inner) 0.
End callbacks.
