(* ===== verification/CallbackSpec.v ===== *)
(** * What callbacks promise

    Outside development mode a callback goes to an HTTPS host that is not a
    private IPv4 address; what is sent carries no private field; a delivery is
    tried a bounded number of times, after growing delays, and not again once
    it succeeded. *)
From S2P Require Import Prelude Text Json Errors Env Config Models Jid Records.
From S2P Require Import EventBus Whatsapp Store Net Secrets Callbacks Demo.

(** ** Addresses *)

(** [Ipv4Addr::to_string] *)
Definition dotted (a b c d : nat) : string :=
  fmt_nat a +:+ String "." (fmt_nat b +:+ String "." (fmt_nat c +:+ String "." (fmt_nat d +:+ ""))).

Lemma read_octet_dot n r :
  (n ≤ 255)%nat →
  read_number 10 255 3 false (fmt_nat n +:+ String "." r) = Some (Z.of_nat n, String "." r).
Proof. intros Hn. do 256 (destruct n as [|n]; [reflexivity|]). lia. Qed.
Lemma read_octet_end n :
  (n ≤ 255)%nat → read_number 10 255 3 false (fmt_nat n +:+ "") = Some (Z.of_nat n, ""%string).
Proof. intros Hn. do 256 (destruct n as [|n]; [reflexivity|]). lia. Qed.

Lemma parse_ip_dotted a b c d :
  (a ≤ 255)%nat → (b ≤ 255)%nat → (c ≤ 255)%nat → (d ≤ 255)%nat →
  parse_ip (dotted a b c d) = Some (V4 (Z.of_nat a) (Z.of_nat b) (Z.of_nat c) (Z.of_nat d)).
Proof.
  intros Ha Hb Hc Hd. unfold parse_ip, read_ipv4, dotted, read_octet, read_separated.
  rewrite read_octet_dot by done. cbn [read_char]. rewrite decide_True by done.
  rewrite read_octet_dot by done. cbn [read_char]. rewrite decide_True by done.
  rewrite read_octet_dot by done. cbn [read_char]. rewrite decide_True by done.
  by rewrite read_octet_end.
Qed.

(** ** Where callbacks may go *)
Section urls.
Context (parse_url : string → result Url string).

(** Outside development mode an accepted callback URL is an HTTPS URL with
    a host that is not localhost, nor a loopback, private, link-local,
    multicast, unspecified or broadcast IPv4 address. *)
Theorem production_callback_url url :
  validate_callback_url parse_url url false = Ok tt →
  ∃ u host, parse_url url = Ok u ∧ url_scheme u = "https"%string ∧ url_host_str u = Some host
    ∧ callback_host_is_localhost host = false
    ∧ ∀ a b c d, (a ≤ 255)%nat → (b ≤ 255)%nat → (c ≤ 255)%nat → (d ≤ 255)%nat →
      host = dotted a b c d →
      a ≠ 127%nat ∧ a ≠ 10%nat ∧ (a, b) ≠ (192, 168)%nat ∧ (a, b) ≠ (169, 254)%nat
      ∧ ¬ (a = 172 ∧ 16 ≤ b ≤ 31)%nat ∧ ¬ (224 ≤ a ≤ 239)%nat
      ∧ (a, b, c, d) ≠ (0, 0, 0, 0)%nat ∧ (a, b, c, d) ≠ (255, 255, 255, 255)%nat.
Proof.
  unfold validate_callback_url. cbv zeta. destruct (parse_url url) as [u|e]; [|done].
  repeat case_decide; try done. destruct (url_host_str u) as [host|] eqn:Hh; simpl; [|done].
  destruct (callback_host_is_localhost host) eqn:Hl; [done|]. cbn [andb].
  intros Hok. exists u, host. repeat (split; [done|]). intros a b c d Ha Hb Hc Hd ->.
  rewrite parse_ip_dotted in Hok by done. simpl in Hok.
  destruct (_ || _) eqn:Hip in Hok; [done|]. clear Hok.
  rewrite !orb_false_iff in Hip. unfold is_broadcast, is_private, is_link_local in Hip.
  rewrite !orb_false_iff, !andb_false_iff, !bool_decide_eq_false in Hip.
  destruct Hip as (((H0 & H1) & H2) & (H3 & (H4 & H5) & H6) & H7).
  repeat split; try lia; intros [=]; subst; lia.
Qed.
End urls.

(** The host of a URL is all the URL has here: enough to run the check. *)
Definition demo_parse_url (url : string) : result Url string := Ok (mkUrl "https" (Some url)).

Lemma production_callback_url_witness :
  ∃ u host, demo_parse_url "203.0.113.7" = Ok u ∧ url_scheme u = "https"%string
    ∧ url_host_str u = Some host ∧ callback_host_is_localhost host = false
    ∧ ∀ a b c d, (a ≤ 255)%nat → (b ≤ 255)%nat → (c ≤ 255)%nat → (d ≤ 255)%nat →
      host = dotted a b c d →
      a ≠ 127%nat ∧ a ≠ 10%nat ∧ (a, b) ≠ (192, 168)%nat ∧ (a, b) ≠ (169, 254)%nat
      ∧ ¬ (a = 172 ∧ 16 ≤ b ≤ 31)%nat ∧ ¬ (224 ≤ a ≤ 239)%nat
      ∧ (a, b, c, d) ≠ (0, 0, 0, 0)%nat ∧ (a, b, c, d) ≠ (255, 255, 255, 255)%nat.
Proof. apply (production_callback_url demo_parse_url "203.0.113.7"). vm_compute. reflexivity. Defined.

(** An IPv6 host comes in brackets, which [parse::<IpAddr>] does not accept:
    the loopback address passes the check. *)
Example ipv6_loopback_accepted :
  validate_callback_url demo_parse_url "[::1]" false = Ok tt
  ∧ callback_ip_is_disallowed (V6 [0; 0; 0; 0; 0; 0; 0; 1]) false = true.
Proof. by vm_compute. Qed.

(** ** What is sent *)

(** No object in the value, at any depth, has a private key. *)
Fixpoint no_private (v : Value) : bool :=
  match v with
  | VObject o => (fix go (o : list (string * Value)) : bool :=
      match o with [] => true | (k, v) :: o => negb (private_key k) && no_private v && go o end) o
  | VArray l => (fix go (l : list Value) : bool :=
      match l with [] => true | v :: l => no_private v && go l end) l
  | _ => true
  end.

Lemma compact_payload_clean v : no_private (compact_payload v) = true.
Proof.
  induction v as [| | | |l IH|o IH] using value_ind'; try done.
  - induction IH as [|v l Hv _ IHl]; [done|]. simpl in *. by rewrite Hv.
  - induction IH as [|[k v] o Hv _ IHo]; [done|]. simpl in *.
    destruct (private_key k) eqn:Hk; [done|]. simpl. by rewrite Hk, Hv.
Qed.

Lemma compact_payload_id v : no_private v = true → compact_payload v = v.
Proof.
  induction v as [| | | |l IH|o IH] using value_ind'; try done; intros Hc.
  - induction IH as [|v l Hv _ IHl]; [done|]. simpl in *.
    apply andb_true_iff in Hc as [Hv' Hl]. specialize (IHl Hl). rewrite Hv by done.
    by injection IHl as ->.
  - induction IH as [|[k v] o Hv _ IHo]; [done|]. simpl in *.
    apply andb_true_iff in Hc as [[Hk Hv']%andb_true_iff Ho].
    apply negb_true_iff in Hk. specialize (IHo Ho). rewrite Hk, Hv by done.
    by injection IHo as ->.
Qed.

Lemma no_private_object o :
  no_private (VObject o) = true
  ↔ Forall (λ kv : string * Value, private_key kv.1 = false ∧ no_private kv.2 = true) o.
Proof.
  induction o as [|[k v] o IH]; [done|]. rewrite Forall_cons, <- IH. simpl.
  rewrite !andb_true_iff, negb_true_iff. tauto.
Qed.

Lemma no_private_insert k v o :
  private_key k = false → no_private v = true → no_private (VObject o) = true →
  no_private (VObject (obj_insert k v o)) = true.
Proof.
  rewrite !no_private_object, !Forall_forall. intros Hk Hv Ho kv [->|Hin]%obj_insert_elem; auto.
Qed.

(** The body of a webhook has no private field at any depth, compacting it
    again changes nothing, and a payload without private fields is sent as it
    is. *)
Theorem webhook_body_private `{Env} event :
  no_private (compact_webhook_event event) = true
  ∧ compact_payload (compact_webhook_event event) = compact_webhook_event event
  ∧ (no_private (ev_payload event) = true →
     get (compact_webhook_event event) "payload" = Some (ev_payload event)).
Proof.
  assert (Hc : no_private (compact_webhook_event event) = true).
  { assert (Ho : ∀ o : option string, no_private (json o) = true) by (by intros []).
    assert (Hz : ∀ o : option Z, no_private (json o) = true) by (by intros []).
    unfold compact_webhook_event, obj_of. cbn [foldl fst snd].
    repeat (apply no_private_insert; [reflexivity| |]); eauto using compact_payload_clean. }
  split; [done|]. split; [by apply compact_payload_id|].
  intros Hp. unfold compact_webhook_event, obj_of. cbn [get foldl fst snd]. rewrite obj_get_insert, decide_True by done.
  f_equal. by apply compact_payload_id.
Qed.

(** ** How often a delivery is tried *)
Definition att_key (a : WebhookDeliveryAttempt) : string * string :=
  (att_callback_id a, att_event_id a).
Definition job_key (j : WebhookDeliveryJob) : string * string :=
  (callback_str (job_callback j) "id", ev_event_id (job_event j)).

(** The attempts made for one callback and one event: numbered from 1, at most
    [max] of them, and none after a success. *)
Record attempts_ok (max : Z) (l : list WebhookDeliveryAttempt) : Prop := {
  attempts_numbered : att_attempt <$> l = seqZ 1 (Z.of_nat (length l));
  attempts_bounded : Z.of_nat (length l) ≤ max;
  success_last l1 a l2 : l = l1 ++ a :: l2 → att_status a = "success"%string → l2 = []
}.

Lemma seqZ_snoc n : seqZ 1 (Z.of_nat (S n)) = seqZ 1 (Z.of_nat n) ++ [Z.of_nat (S n)].
Proof. rewrite seqZ_S. do 2 f_equal. lia. Qed.

(** [max_by_key] of attempts in order is the last one. *)
Lemma last_attempt_sorted l :
  StronglySorted Z.lt (att_attempt <$> l) → last_attempt l = last l.
Proof.
  induction l as [|a l IH]; [done|]. cbn [last_attempt fmap list_fmap]. intros [Hs Ha]%StronglySorted_inv.
  rewrite IH, last_cons by done. destruct (last l) as [d|] eqn:E; [|done].
  rewrite decide_True; [done|]. rewrite Forall_forall in Ha.
  apply last_Some_elem_of in E. apply Z.lt_le_incl, Ha, list_elem_of_fmap. eauto.
Qed.

Lemma seqZ_sorted n : StronglySorted Z.lt (seqZ 1 (Z.of_nat n)).
Proof.
  induction n as [|n IH]; [constructor|]. rewrite seqZ_snoc.
  apply StronglySorted_app_2; [|done|repeat constructor].
  intros x y Hx%elem_of_seqZ ->%list_elem_of_singleton. lia.
Qed.

Lemma attempts_ok_last max l : attempts_ok max l → last_attempt l = last l.
Proof. intros Hl. apply last_attempt_sorted. rewrite (attempts_numbered _ _ Hl). apply seqZ_sorted. Qed.

Lemma attempts_ok_last_number max l a :
  attempts_ok max l → last l = Some a → att_attempt a = Z.of_nat (length l).
Proof.
  intros Hl Ha. pose proof (attempts_numbered _ _ Hl) as Hn.
  destruct l as [|b l _] using rev_ind; [done|]. rewrite last_snoc in Ha. injection Ha as <-.
  rewrite length_app, Nat.add_1_r, seqZ_snoc, fmap_app in Hn.
  apply app_inj_tail in Hn as [_ Hn]. rewrite length_app, Nat.add_1_r. exact Hn.
Qed.

(** One more attempt after [n] failed ones. *)
Lemma attempts_ok_snoc max l a :
  attempts_ok max l → (∀ b, b ∈ l → att_status b ≠ "success"%string) →
  att_attempt a = Z.of_nat (S (length l)) → Z.of_nat (S (length l)) ≤ max →
  attempts_ok max (l ++ [a]).
Proof.
  intros [Hn Hb Hs] Hf Ha Hm. constructor.
  - rewrite fmap_app, length_app, Nat.add_1_r, seqZ_snoc, Hn. simpl. by rewrite Ha.
  - by rewrite length_app, Nat.add_1_r.
  - intros l1 b l2 E Hb'. destruct l2 as [|d l2 _] using rev_ind; [done|].
    rewrite app_comm_cons, app_assoc in E. apply app_inj_tail in E as [E _].
    exfalso. apply (Hf b); [|done]. rewrite E. apply elem_of_app. right. by left.
Qed.

Section attempts.
Context `{Env} `{Crypto}.
Abbreviation attempts s := (st_webhook_delivery_attempts (app_inner s)).

Definition attempt_of (j : WebhookDeliveryJob) (a : WebhookDeliveryAttempt) : Prop :=
  att_key a = job_key j ∧ att_attempt a = job_attempt j.

(** The attempt that follows the ones made so far. *)
Lemma pending_job_next config now i callback event j max :
  pending_job config now i callback event = Some j →
  webhook_max_retries (cfg_webhook config) = max → 0 ≤ max ≤ u32_max →
  let l := attempts_of i (callback_str callback "id") (ev_event_id event) in
  attempts_ok (Z.max 1 max) l →
  job_key j = (callback_str callback "id", ev_event_id event)
  ∧ (∀ b, b ∈ l → att_status b ≠ "success"%string)
  ∧ job_attempt j = Z.of_nat (S (length l)) ∧ Z.of_nat (S (length l)) ≤ Z.max 1 max.
Proof.
  intros Hj Hmax Hm l Hl. unfold pending_job in Hj. rewrite Hmax in Hj.
  destruct (negb (_ && _)); [done|]. destruct (negb (callback_subscribes_to_event _ _)); [done|].
  cbv zeta in Hj. fold l in Hj. destruct (existsb _ l) eqn:Hex; [done|].
  assert (Hf : ∀ b, b ∈ l → att_status b ≠ "success"%string).
  { intros b Hb E. apply not_true_iff_false in Hex. apply Hex, existsb_exists. exists b.
    rewrite <- list_elem_of_In. split; [done|]. by apply bool_decide_eq_true. }
  rewrite (attempts_ok_last _ _ Hl) in Hj. destruct (last l) as [a|] eqn:Ha.
  - pose proof (attempts_ok_last_number _ _ _ Hl Ha) as Hn.
    case_decide; [done|]. destruct (is_some_and _ _); [done|]. injection Hj as <-.
    unfold job_key. simpl. split; [done|]. split; [done|].
    assert (att_attempt a + 1 ≤ max) by lia. unfold sat_add_u32. lia.
  - injection Hj as <-. apply last_None in Ha. rewrite Ha. simpl. repeat split; [|lia].
    by rewrite <- Ha.
Qed.

Lemma record_attempt_appends cb event n ok st err ff nr s :
  ∃ a, attempts (state_of (record_webhook_attempt cb event n ok st err ff nr) s) = attempts s ++ [a]
    ∧ att_key a = (cb, ev_event_id event) ∧ att_attempt a = n.
Proof.
  unfold record_webhook_attempt. rewrite !state_of_bind, persist_locked_inner. simpl.
  by eexists.
Qed.

Lemma next_retry_inner n b m s :
  app_inner (state_of (next_webhook_retry_at n b m) s) = app_inner s.
Proof. done. Qed.

Lemma deliver_job_appends http j s :
  let '(r, s') := deliver_webhook_job http j s in
  match r with
  | Err _ => attempts s' = attempts s
  | Ok _ => ∃ a, attempts s' = attempts s ++ [a] ∧ attempt_of j a
  end.
Proof.
  unfold deliver_webhook_job, get_config. rewrite bind_run.
  change (value_of (gets app_config) s) with (app_config s).
  change (state_of (gets app_config) s) with s. cbv beta zeta. rewrite bindR_ret.
  destruct (get_str (job_callback j) "url"); [|done]. cbn [ok_or]. rewrite bindR_ret.
  destruct (get_str (job_callback j) "encrypted_secret") as [secret|]; [|done].
  cbn [ok_or]. rewrite bindR_ret.
  destruct (decrypt_callback_secret (app_config s) secret); [|done]. rewrite bindR_ret.
  destruct (webhook_body (job_event j)) as [body|]; [|done].
  rewrite bind_run, state_of_now. cbv beta.
  set (s1 := s <| app_clock ::= S |>).
  change (attempts s) with (attempts s1).
  destruct (http _) as [code shown|err|]; [destruct (is_success code)| |done];
    rewrite ?bind_run; unfold ret at 1.
  { apply record_attempt_appends. }
  all: rewrite <- (next_retry_inner (job_attempt j)
      (webhook_retry_base_seconds (cfg_webhook (app_config s)))
      (webhook_retry_max_seconds (cfg_webhook (app_config s))) s1);
    apply record_attempt_appends.
Qed.

(** A round appends one attempt for each job it got to. *)
Lemma deliver_jobs_appends http jobs n s :
  ∃ k new, attempts (state_of (deliver_jobs http jobs n) s) = attempts s ++ new
           ∧ Forall2 attempt_of (take k jobs) new.
Proof.
  revert n s. induction jobs as [|j jobs IH]; intros n s; cbn [deliver_jobs].
  { exists 0%nat, []. by rewrite app_nil_r. }
  unfold bindR. rewrite state_of_bind. pose proof (deliver_job_appends http j s) as Hj.
  unfold value_of, state_of at 2. destruct (deliver_webhook_job http j s) as [[u|e] s1].
  - cbn [fst snd]. destruct Hj as (a & Ha & Hat). destruct (IH (S n) s1) as (k & new & Hn & HF).
    exists (S k), (a :: new). rewrite Hn, Ha, <- app_assoc. split; [done|]. by constructor.
  - cbn [fst snd]. exists 0%nat, []. rewrite app_nil_r. split; [exact Hj|constructor].
Qed.

(** A list of attempts with distinct keys has at most one for each key. *)
Lemma one_of_key cb ev (new : list WebhookDeliveryAttempt) :
  NoDup (att_key <$> new) →
  let mine := retain_list (λ a, bool_decide (att_callback_id a = cb)
                                && bool_decide (att_event_id a = ev)) new in
  mine = [] ∨ ∃ a, mine = [a] ∧ a ∈ new ∧ att_key a = (cb, ev).
Proof.
  cbv zeta. induction new as [|a new IH]; [by left|]. cbn [fmap list_fmap].
  intros [Hn Hnd]%NoDup_cons. unfold retain_list. rewrite filter_cons.
  fold (retain_list (λ a, bool_decide (att_callback_id a = cb)
                          && bool_decide (att_event_id a = ev)) new).
  case_decide as Hk.
  - apply andb_true_iff in Hk as [Hc%bool_decide_eq_true He%bool_decide_eq_true].
    right. exists a. split; [|split; [by left|unfold att_key; by rewrite Hc, He]].
    f_equal. destruct (IH Hnd) as [->|(b & _ & Hb & Hkb)]; [done|]. exfalso. apply Hn.
    apply list_elem_of_fmap. exists b. split; [|done]. rewrite Hkb. unfold att_key.
    by rewrite Hc, He.
  - destruct (IH Hnd) as [->|(b & -> & Hb & Hkb)]; [by left|]. right. exists b.
    split; [done|]. split; [by right|done].
Qed.

Lemma pending_jobs_elem config now i j :
  j ∈ pending_webhook_jobs config now i →
  ∃ callback event, pending_job config now i callback event = Some j.
Proof.
  unfold pending_webhook_jobs. intros (callback & Hj & _)%list_elem_of_bind.
  apply list_elem_of_omap in Hj as (event & _ & Hj). eauto.
Qed.

(** C36. The delivery pass never tries an event on a callback more than
    [webhook_max_retries] times, and once where that limit is zero (the first
    attempt is made without looking at it): the recorded attempts stay numbered
    from one and within the limit, and none follows a success, when the events and
    the callbacks of the pass have distinct identifiers. *)
Theorem webhook_attempts_bounded http s :
  let max := webhook_max_retries (cfg_webhook (app_config s)) in
  0 ≤ max ≤ u32_max →
  NoDup (job_key <$> pending_webhook_jobs (app_config s) (now_utc_at (app_clock s))
                       (app_inner s)) →
  (∀ cb ev, attempts_ok (Z.max 1 max) (attempts_of (app_inner s) cb ev)) →
  ∀ cb ev, attempts_ok (Z.max 1 max)
    (attempts_of (app_inner (state_of (deliver_pending_webhooks_once http) s)) cb ev).
Proof.
  intros max Hm Hnd Hok cb ev. unfold deliver_pending_webhooks_once, get_config.
  rewrite state_of_bind. change (value_of (gets app_config) s) with (app_config s).
  change (state_of (gets app_config) s) with s. cbv beta. destruct (_ || _); [apply Hok|].
  rewrite !state_of_bind, value_of_now, state_of_now. cbv beta. 
  change (value_of get_inner ?x) with (app_inner x). change (state_of get_inner ?x) with x.
  change (app_inner (s <| app_clock ::= S |>)) with (app_inner s).
  set (jobs := pending_webhook_jobs _ _ _) in *.
  destruct (deliver_jobs_appends http jobs 0 (s <| app_clock ::= S |>)) as (k & new & Hn & HF).
  unfold attempts_of. rewrite Hn, retain_list_app.
  change (attempts (s <| app_clock ::= S |>)) with (attempts s).
  fold (attempts_of (app_inner s) cb ev).
  assert (Hkeys : att_key <$> new = job_key <$> take k jobs).
  { clear -HF. induction HF as [|j a l l' Ha _ IH]; [done|]. simpl. f_equal; [apply Ha|done]. }
  destruct (one_of_key cb ev new) as [->|(a & -> & Ha & Hka)].
  { rewrite Hkeys. eapply sublist_NoDup; [exact Hnd|]. apply fmap_sublist, sublist_take. }
  { rewrite app_nil_r. apply Hok. }
  apply list_elem_of_lookup in Ha as [n Ha].
  destruct (Forall2_lookup_r _ _ _ _ _ HF Ha) as (j & Hj & Hja & Hjn).
  assert (Hin : j ∈ jobs).
  { eapply elem_of_sublist; [by eapply list_elem_of_lookup_2|apply sublist_take]. }
  destruct (pending_jobs_elem _ _ _ _ Hin) as (callback & event & Hp).
  destruct (pending_job_next _ _ _ _ _ _ max Hp eq_refl Hm (Hok _ _)) as (Hk & Hf & Hat & Hle).
  rewrite Hka in Hja. rewrite Hk in Hja. injection Hja as -> ->.
  apply attempts_ok_snoc; [apply Hok|done| |done]. congruence.
Qed.

(** The delay before a retry doubles with each attempt, for sixteen
    doublings at most, is capped by the configured maximum, and does not
    decrease from one attempt to the next. *)
Theorem webhook_delay_spec attempt base max :
  0 ≤ base → 1 ≤ attempt → base * 2 ^ 16 ≤ u64_max →
  webhook_delay attempt base max = Z.min (base * 2 ^ Z.min (attempt - 1) 16) (Z.max max 1)
  ∧ webhook_delay attempt base max ≤ webhook_delay (attempt + 1) base max.
Proof.
  intros Hb Ha Hm.
  assert (E : ∀ n, 1 ≤ n → webhook_delay n base max
            = Z.min (base * 2 ^ Z.min (n - 1) 16) (Z.max max 1)).
  { intros n Hn. unfold webhook_delay, sat_sub_u32, sat_mul_u64. cbv zeta.
    rewrite (Z.max_l (n - 1) 0) by lia. rewrite Z.shiftl_1_l. f_equal. apply Z.min_l.
    pose proof (Z.pow_le_mono_r 2 (Z.min (n - 1) 16) 16). nia. }
  rewrite !E by lia. split; [done|]. apply Z.min_le_compat_r.
  apply Z.mul_le_mono_nonneg_l; [done|]. apply Z.pow_le_mono_r; lia.
Qed.
End attempts.

(** ** A failing receiver *)
Definition demo_callback : Value :=
  json! { "id" ~> "cb"%string, "project_id" ~> "p"%string, "company_id" ~> "c"%string,
          "url" ~> "https://example.com/hook"%string, "enabled" ~> true,
          "encrypted_secret" ~> ("rzsec:v1:" +:+ toy_encode "nonce-twelve" +:+ ":"
                                 +:+ toy_encode "nonce-twelvewhsec_1")%string }.
Definition demo_config : AppConfig :=
  default_config <| cfg_consumer_signal_mode := SigWebhook |>
    <| cfg_secret_master_key := Some "k"%string |>
    <| cfg_webhook ::= (λ w, w <| webhook_delivery_enabled := true |>) |>.
Definition demo_hooked : AppState :=
  demo_state <| app_config := demo_config |>
    <| app_inner ::= (λ i, i <| st_callbacks := {["cb"%string := demo_callback]} |>) |>.
Definition demo_round : M (result nat ApiError) :=
  @deliver_pending_webhooks_once demo_env toy_crypto (λ _, NoResponse "down").

Lemma webhook_attempts_bounded_witness :
  value_of demo_round demo_hooked = Ok 4%nat
  ∧ ∀ cb ev, attempts_ok 8 (attempts_of (app_inner (state_of demo_round demo_hooked)) cb ev).
Proof.
  split; [vm_compute; reflexivity|].
  apply (@webhook_attempts_bounded demo_env toy_crypto (λ _, NoResponse "down") demo_hooked).
  - vm_compute. split; discriminate.
  - apply (bool_decide_unpack _). vm_compute. exact I.
  - intros cb ev. replace (attempts_of (app_inner demo_hooked) cb ev)
      with (@nil WebhookDeliveryAttempt) by reflexivity.
    constructor; [done|vm_compute; discriminate|]. by intros [|].
Defined.

(** A limit of zero retries still makes the first attempt. *)
Example zero_retries_tried_once :
  let s := demo_hooked <| app_config ::= λ config,
             config <| cfg_webhook ::= λ w, w <| webhook_max_retries := 0 |> |> |> in
  value_of demo_round s = Ok 4%nat ∧ value_of demo_round (state_of demo_round s) = Ok 0%nat.
Proof. by vm_compute. Qed.

Lemma webhook_delay_spec_witness :
  webhook_delay 3 5 3600 = 20 ∧ webhook_delay 3 5 3600 ≤ webhook_delay 4 5 3600.
Proof. apply (webhook_delay_spec 3 5 3600); vm_compute; discriminate. Defined.
