(* ===== verification/Sending.v ===== *)
(** * Sending and receiving (src/state.rs)

    Outbound messages: the idempotent preparation of a send request, its
    dispatch to WhatsApp and what becomes of the message; inbound media; and
    the worker that consumes the work events the store emits. *)
From S2P Require Import Prelude Text Json Errors Env Secrets Config Security Models.
From S2P Require Import Jid Media Records EventBus Whatsapp Store Contacts Groups Conversations Messages Inbox.
From S2P Require Import Channels Bytes Transcripts MediaOps.

Record SendMessageOutcome : Type := mkSendMessageOutcome {
  out_message : Message;
  out_should_dispatch : bool
}.
#[export] Instance eta_SendMessageOutcome : Eta SendMessageOutcome := λ r,
  mkSendMessageOutcome (out_message r) (out_should_dispatch r).

Section sending.
Context `{Env} `{Crypto}.

(** ** Preparing a send request *)

(** The media of the request: of the same tenant and conversation, and not
    refused at upload. *)
Definition request_media (inner : StoreInner) (project_id company_id conversation_id : string)
    (request : SendMessageRequest) : result (option MediaObject) ApiError :=
  match sreq_media_id request with
  | None => Ok None
  | Some id =>
    let? m := ok_or (st_media inner !! id) (media_not_found id) in
    if negb (media_of_tenant m project_id company_id) then Err (media_not_found id)
    else if decide (media_conversation_id m ≠ conversation_id)
    then Err (BadRequest ("media " +:+ id +:+ " belongs to conversation "
                          +:+ media_conversation_id m))
    else if decide (media_storage_status m = "rejected")
    then Err (PayloadTooLarge ("media " +:+ id +:+ " was rejected by the upload policy"))
    else Ok (Some m)
  end.

(** A request whose key was used before: the same message again, or a
    conflict when the body differs. *)
Definition replay (inner : StoreInner) (record : IdempotencyRecord) (hash : string)
  : result SendMessageOutcome ApiError :=
  if decide (idem_request_hash record = hash) then
    let? m := ok_or (st_messages_by_id inner !! idem_message_id record)
      (Internal ("cached idempotency message " +:+ idem_message_id record +:+ " missing")) in
    Ok (mkSendMessageOutcome m false)
  else Err (IdempotencyConflict "same Idempotency-Key used with different request body").

(** The media of the message: marked as used by it, and attached. *)
Definition attach_request_media (m : Message) (media : MediaObject) : M Message :=
  let! inner := get_inner in
  let! media :=
    match st_media inner !! media_id media with
    | Some stored =>
      let! now := now_utc in
      let stored := stored <| media_message_id := Some (msg_id m) |>
                           <| media_updated_at := now |> in
      modify_inner (put_media (media_id media) stored);;;
      ret stored
    | None => ret media
    end in
  let! attached := attach_media_to_message_inner (msg_id m) media in
  ret (unwrap_or attached m).

Definition outbound_args (inner : StoreInner) (project_id company_id conversation_id : string)
    (request : SendMessageRequest) (media : option MediaObject) (actor : option string)
  : RecordArgs := {|
  rec_project_id := project_id;
  rec_company_id := company_id;
  rec_conversation_id := conversation_id;
  rec_direction := "outbound";
  rec_message_type := match media with
                      | Some m => media_media_type m
                      | None => sreq_message_type request end;
  rec_text := opt_or (sreq_text request) (sreq_caption request);
  rec_status := "queued";
  rec_quoted_message_id := sreq_quoted_message_id request;
  rec_channel_account_id :=
    opt_or (conv_channel_account_id <$> st_conversations inner !! conversation_id)
           (connected_channel_for_project_company inner project_id company_id);
  rec_sender_contact_id := None;
  rec_sender_display_name := None;
  rec_sender_profile_picture_url := None;
  rec_sent_by_external_user_id := actor
|}.

(** A new send: the message is queued, the key remembered, the work event
    emitted. *)
Definition queue_message (key : key3) (hash : string) (args : RecordArgs)
    (media : option MediaObject) : M Message :=
  let! m := record_message_inner args in
  let! m := match media with
            | Some media => attach_request_media m media
            | None => ret m
            end in
  modify_inner (λ i, i <| st_idempotency ::=
    <[key := {| idem_request_hash := hash; idem_message_id := msg_id m |}]> |>);;;
  emit "outbound.send.requested" (rec_project_id args) (rec_company_id args)
    (Some (msg_channel_account_id m)) (Some (rec_conversation_id args)) (Some (msg_id m))
    (Some (msg_conversation_seq m))
    (json! { "message_id" ~> msg_id m, "media_id" ~> msg_media_id m,
             "message_type" ~> msg_message_type m });;;
  persist_locked;;;
  ret m.

Definition prepare_send_message_with_actor (project_id company_id conversation_id
    idempotency_key : string) (request : SendMessageRequest) (actor : option string)
  : M (result SendMessageOutcome ApiError) :=
  try! hash := ret (sha256_json request) in
  let key := (project_id, company_id, idempotency_key) in
  let! inner := get_inner in
  let conversation_id :=
    resolve_conversation_id_inner inner project_id company_id conversation_id in
  match st_idempotency inner !! key with
  | Some record => ret (replay inner record hash)
  | None =>
    match request_media inner project_id company_id conversation_id request with
    | Err e => ret (Err e)
    | Ok media =>
      let! m := queue_message key hash
                  (outbound_args inner project_id company_id conversation_id request media actor)
                  media in
      ret (Ok (mkSendMessageOutcome m true))
    end
  end.

Definition send_message (project_id company_id conversation_id idempotency_key : string)
    (request : SendMessageRequest) : M (result Message ApiError) :=
  try! outcome := prepare_send_message_with_actor project_id company_id conversation_id
                    idempotency_key request None in
  ret (Ok (out_message outcome)).

(** ** Dispatch *)
Definition outbound_send_target_jid (inner : StoreInner) (m : Message) : string :=
  if is_group_jid (msg_conversation_id m) then msg_conversation_id m else
  match opt_filter (λ c, conversation_matches_tenant c (msg_project_id m) (msg_company_id m))
          (st_conversations inner !! msg_conversation_id m) with
  | Some c =>
    if decide (conv_conversation_type c = "group") then conv_id c
    else match conversation_phone_number_for_inner inner c with
         | Some phone_number => phone_to_jid phone_number
         | None => msg_conversation_id m
         end
  | None => msg_conversation_id m
  end.

(** What the client library answers to a send: the WhatsApp id, an error, or
    nothing in time. *)
Abbreviation SendAnswer := (option (result string string)).

(** The two statuses are written one after the other. *)
Definition mark_channel_disconnected_blocks (channel_id : string) : Async AppState unit :=
  do! _ := set_channel_status channel_id "disconnected" None in
  do! now := now_utc in
  do! _ := set_qr channel_id "disconnected" None now in
  Finish tt.
Definition mark_channel_disconnected (channel_id : string) : M unit :=
  run_async (mark_channel_disconnected_blocks channel_id).

Definition not_connected (channel_id : string) : string :=
  "WhatsApp channel " +:+ channel_id +:+ " is not connected".

(** The message becomes failed, with the error; sent, with its identifier. *)
Definition dispatch_failed (m : Message) (error : string)
  : Async AppState (result Message ApiError) :=
  do! r := update_outbound_after_dispatch (msg_id m) None "failed" (Some error) in Finish r.

(** The state of the message after the library answered. *)
Definition record_send_answer (channel_id : string) (m : Message) (answer : SendAnswer)
  : Async AppState (result Message ApiError) :=
  match answer with
  | Some (Ok wa_message_id) =>
    do! r := update_outbound_after_dispatch (msg_id m) (Some wa_message_id)
               "sent_to_whatsapp" None in
    Finish r
  | Some (Err err) =>
    if contains_str err "is not connected" then
      call! _ := mark_channel_disconnected_blocks channel_id in dispatch_failed m err
    else dispatch_failed m err
  | None => dispatch_failed m "WhatsApp send timed out"
  end.

Definition outbound_media_message (m : Message) (media : MediaObject) (bytes : string)
  : OutboundMediaMessage := {|
  omm_media_type := media_media_type media;
  omm_mime_type := media_mime_type media;
  omm_filename := media_original_filename media;
  omm_caption := msg_text m;
  omm_bytes := bytes;
  omm_ptt := bool_decide (msg_message_type m = "audio")
|}.

(** A block per call: the state is free between them, and while the bytes are
    read and the library sends.  [send_media channel jid payload] and
    [send_text channel jid text]: what the client library answers. *)
Definition dispatch_blocks (io : ByteIo)
    (send_media : string → string → OutboundMediaMessage → SendAnswer)
    (send_text : string → string → string → SendAnswer)
    (outcome : SendMessageOutcome) (request_text : option string)
  : Async AppState (result Message ApiError) :=
  let m := out_message outcome in
  if negb (out_should_dispatch outcome) then Finish (Ok m) else
  do! channel := gets (λ s, channel_for_conversation (app_inner s) (msg_conversation_id m)) in
  let channel_id := unwrap_or channel (msg_channel_account_id m) in
  do! status := channel_status channel_id in
  if decide (status ≠ Some "connected"%string)
  then dispatch_failed m (not_connected channel_id) else
  do! connected := gets (λ s, is_channel_connected channel_id (app_whatsapp s)) in
  if negb connected then
    call! _ := mark_channel_disconnected_blocks channel_id in
    dispatch_failed m (not_connected channel_id)
  else
    do! jid := gets (λ s, outbound_send_target_jid (app_inner s) m) in
    match msg_media_id m, request_text with
    | Some media_id, _ =>
      call! blob := media_blob_blocks io media_id in
      match blob with
      | Ok (Some (media, bytes)) =>
        do! answer := ret (send_media channel_id jid (outbound_media_message m media bytes)) in
        record_send_answer channel_id m answer
      | Ok None => dispatch_failed m ("media " +:+ media_id +:+ " has no upload bytes available")
      | Err err => dispatch_failed m (error_message err)
      end
    | None, Some text =>
      do! answer := ret (send_text channel_id jid text) in
      record_send_answer channel_id m answer
    | None, None => Finish (Ok m)
    end.

(** The run that nothing else interrupts. *)
Definition dispatch_prepared_message (io : ByteIo)
    (send_media : string → string → OutboundMediaMessage → SendAnswer)
    (send_text : string → string → string → SendAnswer)
    (outcome : SendMessageOutcome) (request_text : option string)
  : M (result Message ApiError) :=
  run_async (dispatch_blocks io send_media send_text outcome request_text).

Definition process_outbound_send_request (io : ByteIo)
    (send_media : string → string → OutboundMediaMessage → SendAnswer)
    (send_text : string → string → string → SendAnswer)
    (event : CommonEvent) : M (result Message ApiError) :=
  try! message_id := ret (ok_or (event_message_id event)
                            (BadRequest "outbound send event missing message_id")) in
  try! m := gets (λ s, message_for_company (app_inner s) (ev_project_id event)
                         (ev_company_id event) message_id) in
  if decide (msg_status m = "sent_to_whatsapp" ∨ msg_status m = "failed") then ret (Ok m)
  else
    dispatch_prepared_message io send_media send_text (mkSendMessageOutcome m true)
      (opt_or (get_str (ev_payload event) "text") (msg_text m)).

(** ** Inbound media *)
Definition inbound_media_object (config : AppConfig) (now : time) (media_id : string)
    (project_id company_id channel_id conversation_id media_type mime_type : string)
    (size_bytes : Z) (request : SimulateInboundMediaRequest) (message_id : string)
  : MediaObject :=
  let decision := classify
    (mkMediaLimits (cfg_media_quick_delete_threshold_mb config)
                   (cfg_media_reject_threshold_mb config)) size_bytes in
  let status := match decision with
                | MdTemp => "temp"%string
                | MdQuarantine => "quarantine"%string
                | MdRejected => "rejected"%string end in
  let ext := unwrap_or (imreq_filename request ≫= λ name, snd <$> rsplit_once "." name)
               "bin"%string in
  let object_key :=
    if decide (decision = MdRejected) then None
    else Some (r2_object_key
      {| ki_base_prefix := r2_base_prefix (cfg_r2 config);
         ki_class := status;
         ki_project_id := project_id;
         ki_company_id := company_id;
         ki_channel_id := channel_id;
         ki_conversation_id := Some conversation_id;
         ki_entity_type := None;
         ki_entity_id := None;
         ki_date := now;
         ki_media_id := media_id;
         ki_ext := ext |}) in
  let public_url := object_key ≫= public_object_url config in
  let dev_preview_url := bool_then (cfg_dev_mode config && bool_decide (media_type = "image"))
                           (dev_media_url config media_id) in
  let thumbnail_url :=
    if decide (media_type = "image")
    then if can_upload (cfg_r2 config) then opt_or public_url dev_preview_url
         else opt_or dev_preview_url public_url
    else None in
  {| media_id := media_id;
     media_project_id := project_id;
     media_company_id := company_id;
     media_conversation_id := conversation_id;
     media_message_id := Some message_id;
     media_media_type := media_type;
     media_mime_type := mime_type;
     media_original_filename := imreq_filename request;
     media_size_bytes := size_bytes;
     media_sha256 := hex_encode (sha256 (media_id +:+ ":" +:+ fmt_Z size_bytes));
     media_storage_status := status;
     media_bucket := Some (r2_bucket (cfg_r2 config));
     media_object_key := object_key;
     media_permanent_object_key := None;
     media_public_url := public_url;
     media_thumbnail_url := thumbnail_url;
     media_width := None;
     media_height := None;
     media_duration_seconds := None;
     media_expires_at := Some (now + days (cfg_media_temp_retention_days config));
     media_saved_at := None;
     media_created_at := now;
     media_updated_at := now |}.

(** *** The bytes stored for a simulated object

    The literals are written with single quotes for double ones. *)
Definition double_quotes (s : string) : string :=
  replace_char "039" (String "034" "") s.
Definition newline : string := String "010" "".

Definition xml_escape (value : string) : string :=
  replace_char "034" "&quot;" (replace_char ">" "&gt;"
    (replace_char "<" "&lt;" (replace_char "&" "&amp;" value))).

Definition dev_preview_svg (media : MediaObject) (m : Message) : string :=
  let title := xml_escape (unwrap_or (media_original_filename media) (media_media_type media)) in
  let subtitle := xml_escape (unwrap_or (opt_filter (λ v, negb (bool_decide (v = "")))
                                           (msg_text m)) (media_mime_type media)) in
  double_quotes "<svg xmlns='http://www.w3.org/2000/svg' viewBox='0 0 960 540' role='img' aria-label='"
  +:+ title +:+ double_quotes "'>" +:+ newline
  +:+ double_quotes "<defs><linearGradient id='g' x1='0' x2='1' y1='0' y2='1'><stop stop-color='#128c7e'/><stop offset='1' stop-color='#f5c542'/></linearGradient></defs>"
  +:+ newline
  +:+ double_quotes "<rect width='960' height='540' fill='url(#g)'/>" +:+ newline
  +:+ double_quotes "<rect x='72' y='72' width='816' height='396' rx='24' fill='rgba(255,255,255,.82)'/>"
  +:+ newline
  +:+ double_quotes "<circle cx='214' cy='222' r='74' fill='#075e54'/>" +:+ newline
  +:+ double_quotes "<path d='M332 352 452 236l82 72 70-62 142 106z' fill='#25d366'/>" +:+ newline
  +:+ double_quotes "<text x='92' y='438' font-family='Arial, sans-serif' font-size='34' font-weight='700' fill='#111b21'>"
  +:+ title +:+ "</text>" +:+ newline
  +:+ double_quotes "<text x='92' y='484' font-family='Arial, sans-serif' font-size='24' fill='#34443f'>"
  +:+ subtitle +:+ "</text>" +:+ newline +:+ "</svg>".

Definition dev_png : string :=
  "iVBORw0KGgoAAAANSUhEUgAAAAEAAAABCAQAAAC1HAwCAAAAC0lEQVR42mP8/x8AAwMCAO+/p9sAAAAASUVORK5CYII=".

Definition dev_media_bytes (media : MediaObject) (m : Message) : string :=
  let mime_type := trim (unwrap_or (head (split ";" (media_mime_type media)))
                           (media_mime_type media)) in
  if decide (mime_type = "image/png") then unwrap_or (unb64 dev_png) (dev_preview_svg media m)
  else if decide (mime_type = "image/svg+xml") then dev_preview_svg media m
  else if bool_decide (mime_type = "audio/ogg") || bool_decide (mime_type = "audio/webm")
  then "OggS" +:+ String "000" (String "002" "rustzap-dev-audio:") +:+ media_id media
  else if decide (mime_type = "application/pdf")
  then "%PDF-1.4" +:+ newline +:+ "% RustZap dev media " +:+ media_id media +:+ newline
       +:+ "1 0 obj<</Type/Catalog>>endobj" +:+ newline +:+ "%%EOF" +:+ newline
  else "RustZap dev media " +:+ media_id media +:+ newline
       +:+ "message=" +:+ msg_id m +:+ newline.

(** The bytes of an accepted object are written first; nothing is written
    for a refused one. *)
Definition store_inbound_bytes (io : ByteIo) (media : MediaObject) (m : Message)
  : M (result unit string) :=
  match media_object_key media with
  | Some object_key =>
    if decide (media_storage_status media = "rejected") then ret (Ok tt)
    else bytes_put io object_key (dev_media_bytes media m)
  | None => ret (Ok tt)
  end.

Definition finish_inbound_media (media : MediaObject) (m : Message)
  : M (Message * MediaObject * option Transcript) :=
  modify_inner (put_media (media_id media) media);;;
  let! attached := attach_media_to_message_inner (msg_id m) media in
  let m := unwrap_or attached m in
  let! t :=
    (if bool_decide (media_media_type media = "audio")
        && negb (bool_decide (media_storage_status media = "rejected")) then
       let! t := transcript_with_lifecycle (media_project_id media) (media_company_id media)
                   (msg_id m) (Some (media_id media)) Pending None in
       modify_inner (put_transcript (msg_id m) t);;;
       transcription_requested m (media_id media) (tr_id t);;;
       ret (Some t)
     else ret None) in
  persist_locked;;;
  ret (m, media, t).

Definition try_receive_inbound_media (io : ByteIo) (project_id company_id : string)
    (request : SimulateInboundMediaRequest)
  : M (result (Message * MediaObject * option Transcript) ApiError) :=
  let conversation_id := unwrap_or (imreq_conversation_id request) "conv_dev"%string in
  let media_type := unwrap_or (imreq_media_type request) "image"%string in
  let size_bytes := unwrap_or (imreq_size_bytes request) 512000 in
  let mime_type := unwrap_or (imreq_mime_type request) "application/octet-stream"%string in
  let channel_id := unwrap_or (imreq_channel_id request) "channel_dev"%string in
  let sender_contact_id :=
    unwrap_or (phone_to_jid <$> imreq_from_phone_e164 request) conversation_id in
  let! m := record_message_inner
    {| rec_project_id := project_id;
       rec_company_id := company_id;
       rec_conversation_id := conversation_id;
       rec_direction := "inbound";
       rec_message_type := media_type;
       rec_text := imreq_caption request;
       rec_status := "received";
       rec_quoted_message_id := None;
       rec_channel_account_id := Some channel_id;
       rec_sender_contact_id := Some sender_contact_id;
       rec_sender_display_name := imreq_sender_name request;
       rec_sender_profile_picture_url := imreq_profile_picture_url request;
       rec_sent_by_external_user_id := None |} in
  persist_locked;;;
  let! config := get_config in
  let! now := now_utc in
  let! id := fresh_id "media_" in
  let media := inbound_media_object config now id project_id company_id channel_id
                 conversation_id media_type mime_type size_bytes request (msg_id m) in
  let! stored := store_inbound_bytes io media m in
  match stored with
  | Err err =>
    (match media_object_key media with
     | Some object_key => let! _ := bytes_delete io object_key in ret tt
     | None => ret tt end);;;
    emit "media.storage_failed" project_id company_id (Some channel_id) (Some conversation_id)
      (Some (msg_id m)) (Some (msg_conversation_seq m))
      (json! { "message_id" ~> msg_id m, "media_id" ~> media_id media,
               "code" ~> "byte_store_put_failed"%string, "error" ~> err });;;
    persist_locked;;;
    ret (Err (ProviderError err))
  | Ok _ =>
    let! r := finish_inbound_media media m in
    ret (Ok r)
  end.

(** ** The internal worker *)
Definition internal_work_event_type (event_type : string) : bool :=
  is_any event_type ["outbound.send.requested"; "audio.transcription.requested"]%string.

(** [HashSet::insert]: [true] the first time. *)
Definition claim_internal_event (event : CommonEvent) : M bool := λ s,
  let seen := st_internal_processed_event_ids (app_inner s) in
  (negb (bool_decide (ev_event_id event ∈ seen)),
   s <| app_inner ::= (λ i, i <| st_internal_processed_event_ids := {[ev_event_id event]} ∪ seen |>) |>).

Section worker.
Context (io : ByteIo)
  (send_media : string → string → OutboundMediaMessage → SendAnswer)
  (send_text : string → string → string → SendAnswer)
  (respond : string → string → string → result GroqTranscription string).

Definition handle_internal_work_event (event : CommonEvent) : M (result unit ApiError) :=
  if decide (ev_event_type event = "outbound.send.requested") then
    let! r := process_outbound_send_request io send_media send_text event in
    ret (map_result (λ _, tt) r)
  else if decide (ev_event_type event = "audio.transcription.requested") then
    let! r := process_transcription_request io respond event in
    ret (map_result (λ _, tt) r)
  else ret (Ok tt).

(** A failure is only logged. *)
Definition process_internal_work_event (event : CommonEvent) : M unit :=
  if negb (internal_work_event_type (ev_event_type event)) then ret tt else
  let! claimed := claim_internal_event event in
  if negb claimed then ret tt else
  let! _ := handle_internal_work_event event in
  ret tt.
End worker.
End sending.
