(* ===== verification/SendingSpec.v ===== *)
(** * What sending promises

    An idempotency key stands for one message; a work event is handled at
    most once; a dispatched message ends up sent or failed, and is sent only
    when the client library accepted it. *)
From S2P Require Import Prelude Text Json Errors Env Secrets Config Security Models.
From S2P Require Import Jid Media Records EventBus Whatsapp Store Contacts Groups Conversations Messages Inbox.
From S2P Require Import MessageLog Channels Bytes Transcripts MediaOps Sending Demo.

(** ** Frames *)

(** A part [ρ] of the store that neither events, nor channels and their QR
    codes, nor dirty marks belong to. *)
Class Apart {X} (ρ : StoreInner → X) := {
  apart_events f i : ρ (i <| st_events ::= f |>) = ρ i;
  apart_channels f i : ρ (i <| st_channels ::= f |>) = ρ i;
  apart_qr f i : ρ (i <| st_qr ::= f |>) = ρ i;
  apart_dirty f i : ρ (i <| st_dirty ::= f |>) = ρ i
}.
Definition claims (i : StoreInner) : gset string := st_internal_processed_event_ids i.
#[export] Instance claims_apart : Apart claims.
Proof. by constructor. Qed.
#[export] Instance messages_apart : Apart st_messages_by_id.
Proof. by constructor. Qed.
#[export] Instance idempotency_apart : Apart st_idempotency.
Proof. by constructor. Qed.

Section frames.
Context `{Env} {X} (ρ : StoreInner → X) `{!Apart ρ}.
Abbreviation π := (λ s, ρ (app_inner s)).

Lemma frame_now : frame π now_utc.
Proof. by intros s. Qed.
Lemma frame_uuid : frame π fresh_uuid.
Proof. by intros s. Qed.
Lemma frame_id pre : frame π (fresh_id pre).
Proof. by intros s. Qed.
Lemma frame_inner : frame π get_inner.
Proof. by intros s. Qed.
Lemma frame_config : frame π get_config.
Proof. by intros s. Qed.
Lemma frame_persist : frame π persist_locked.
Proof. intros s. unfold persist_locked, state_of, modify. simpl. by destruct (app_has_sink s). Qed.
Lemma frame_push e : frame π (push_event_inner e).
Proof. intros s. apply apart_events. Qed.
Hint Resolve frame_now frame_uuid frame_id frame_inner frame_config frame_persist frame_push
  : frame.
Lemma frame_make_event t p c ch cv m q v : frame π (make_event t p c ch cv m q v).
Proof. unfold make_event. frame_tac. Qed.
Hint Resolve frame_make_event : frame.
Lemma frame_emit t p c ch cv m q v : frame π (emit t p c ch cv m q v).
Proof. unfold emit. frame_tac. Qed.
Lemma frame_push_event e : frame π (push_event e).
Proof. unfold push_event. frame_tac. Qed.
Lemma frame_put_channel id v : frame π (modify_inner (put_channel id v)).
Proof. intros s. apply apart_channels. Qed.
Lemma frame_put_qr q : frame π (modify_inner (put_qr q)).
Proof. intros s. apply apart_qr. Qed.
Hint Resolve frame_emit frame_push_event frame_put_channel frame_put_qr : frame.
Lemma frame_mark_dirty p c cv q ch : frame π (mark_dirty_inner p c cv q ch).
Proof.
  unfold mark_dirty_inner, dirty_signal. frame_tac. intros s. apply apart_dirty.
Qed.
Lemma frame_reconcile id : frame π (reconcile_channel_runtime_status id).
Proof.
  unfold reconcile_channel_runtime_status. frame_tac. intros s. simpl.
  unfold put_qr, put_channel. by rewrite apart_qr, apart_channels.
Qed.
Hint Resolve frame_mark_dirty frame_reconcile : frame.
Lemma frame_channel_status id : frame π (channel_status id).
Proof. unfold channel_status. frame_tac. Qed.
Lemma frame_set_status id st t : frame π (set_channel_status id st t).
Proof. unfold set_channel_status. cbv zeta. frame_tac. Qed.
Lemma frame_set_qr id st q t : frame π (set_qr id st q t).
Proof. unfold set_qr. cbv zeta. frame_tac. Qed.
Hint Resolve frame_set_status frame_set_qr : frame.
Lemma frame_mark_disconnected id : all_frame π (mark_channel_disconnected_blocks id).
Proof. unfold mark_channel_disconnected_blocks. frame_tac. Qed.
Lemma frame_bytes_get io key : frame π (bytes_get io key).
Proof. intros s. unfold state_of, bytes_get. by repeat case_match. Qed.
Hint Resolve frame_bytes_get : frame.
Lemma frame_media_blob_blocks io id : all_frame π (media_blob_blocks io id).
Proof. unfold media_blob_blocks. frame_tac. Qed.
Hint Resolve frame_media_blob_blocks : frame.
Lemma frame_media_blob io id : frame π (media_blob io id).
Proof. unfold media_blob. frame_tac. Qed.
End frames.
#[export] Hint Resolve frame_now frame_uuid frame_id frame_inner frame_config frame_persist
  frame_push frame_make_event frame_emit frame_push_event frame_put_channel frame_put_qr
  frame_mark_dirty frame_reconcile frame_channel_status frame_set_status frame_set_qr
  frame_mark_disconnected frame_media_blob_blocks frame_media_blob claims_apart messages_apart idempotency_apart : frame.

(** ** Work events are handled once *)
Section claims_frame.
Context `{Env}.
Abbreviation π := (λ s, claims (app_inner s)).

Lemma claims_update_message id f : frame π (update_message id f).
Proof. unfold update_message. frame_tac. Qed.
Hint Resolve claims_update_message : frame.
Lemma claims_update_outbound id wa st err : frame π (update_outbound_after_dispatch id wa st err).
Proof.
  unfold update_outbound_after_dispatch, require_message, mark_message_dirty, emit_message.
  cbv zeta. frame_tac.
Qed.
Hint Resolve claims_update_outbound : frame.
Lemma claims_send_answer id m a : all_frame π (record_send_answer id m a).
Proof. unfold record_send_answer, dispatch_failed. frame_tac. Qed.
Hint Resolve claims_send_answer : frame.
Lemma claims_dispatch io sm st o t : frame π (dispatch_prepared_message io sm st o t).
Proof. unfold dispatch_prepared_message, dispatch_blocks, dispatch_failed. cbv zeta. frame_tac. Qed.
Hint Resolve claims_dispatch : frame.
Lemma claims_outbound io sm st e : frame π (process_outbound_send_request io sm st e).
Proof. unfold process_outbound_send_request. frame_tac. Qed.
Lemma claims_transcript_new p c m md l t : frame π (transcript_with_lifecycle p c m md l t).
Proof. unfold transcript_with_lifecycle. frame_tac. Qed.
Lemma claims_groq p c m md r : frame π (groq_transcript_from_result p c m md r).
Proof. unfold groq_transcript_from_result. frame_tac. Qed.
Hint Resolve claims_transcript_new claims_groq : frame.
Lemma claims_set_transcript m md l t : frame π (set_transcript_lifecycle m md l t).
Proof.
  unfold set_transcript_lifecycle, mark_message_dirty, emit_message. cbv zeta. frame_tac.
Qed.
Lemma claims_set_completed m md r : frame π (set_completed_groq_transcript m md r).
Proof.
  unfold set_completed_groq_transcript, mark_message_dirty, emit_message. cbv zeta. frame_tac.
Qed.
Hint Resolve claims_set_transcript claims_set_completed : frame.
Lemma claims_transcription io rs e : frame π (process_transcription_request io rs e).
Proof. unfold process_transcription_request, transcribe_media. cbv zeta. frame_tac. Qed.
Hint Resolve claims_outbound claims_transcription : frame.
Lemma claims_handle io sm st rs e : frame π (handle_internal_work_event io sm st rs e).
Proof. unfold handle_internal_work_event. frame_tac. Qed.

Lemma work_event_claimed io sm st rs event s :
  internal_work_event_type (ev_event_type event) = true →
  ev_event_id event ∈ claims (app_inner
    (state_of (process_internal_work_event io sm st rs event) s)).
Proof.
  intros Ht. unfold process_internal_work_event. rewrite Ht. cbn [negb].
  rewrite state_of_bind.
  assert (Hin : ev_event_id event
                ∈ claims (app_inner (state_of (claim_internal_event event) s))).
  { unfold claims, claim_internal_event, state_of. simpl. apply elem_of_union_l. set_solver. }
  destruct (value_of (claim_internal_event event) s); cbn [negb]; [|done].
  rewrite state_of_bind. change (state_of (ret tt) ?x) with x. by rewrite claims_handle.
Qed.

Lemma claimed_event_ignored io sm st rs event s :
  ev_event_id event ∈ claims (app_inner s) →
  process_internal_work_event io sm st rs event s = (tt, s).
Proof.
  intros Hin. unfold process_internal_work_event.
  destruct (internal_work_event_type (ev_event_type event)); cbn [negb]; [|done].
  rewrite bind_run. unfold claim_internal_event, value_of, state_of. unfold claims in Hin.
  cbv zeta. cbn [fst snd]. rewrite bool_decide_eq_true_2 by done. cbn [negb]. unfold ret.
  f_equal. rewrite subseteq_union_1_L by set_solver. by destruct s as [? [] ].
Qed.

(** A work event handed to the internal worker a second time has no
    effect, whatever the outside answers. *)
Theorem work_event_handled_once io sm st rs io' sm' st' rs' event s :
  let s' := state_of (process_internal_work_event io sm st rs event) s in
  process_internal_work_event io' sm' st' rs' event s' = (tt, s').
Proof.
  cbv zeta. destruct (internal_work_event_type (ev_event_type event)) eqn:Ht.
  - by apply claimed_event_ignored, work_event_claimed.
  - unfold process_internal_work_event. by rewrite Ht.
Qed.
End claims_frame.

(** ** One message for an idempotency key *)
Section idempotent.
Context `{Env}.

(** The message is found under its identifier. *)
Definition stored (m : Message) (s : AppState) : Prop :=
  st_messages_by_id (app_inner s) !! msg_id m = Some m.

Lemma stored_frame {A} m (x : M A) :
  frame (λ s, st_messages_by_id (app_inner s)) x → triple (stored m) x (λ _, stored m).
Proof. intros Hf s Hs. unfold stored. by rewrite Hf. Qed.

Lemma record_message_stored a : triple (λ _, True) (record_message_inner a) stored.
Proof.
  intros s _. unfold value_of, state_of. rewrite record_message_run. cbn [fst snd].
  unfold stored. destruct (record_contact _ a (app_inner s)) as [contact i'].
  set (m := recorded_message _ _ _ _ _ _).
  assert (Hl : ∀ t v s0, st_messages_by_id (app_inner (state_of (log_message m t v) s0))
           = <[msg_id m := m]> (st_messages_by_id (app_inner s0))) by reflexivity.
  rewrite Hl. apply lookup_insert_eq.
Qed.

Lemma update_message_stored id f m :
  (∀ t, msg_id (f t m) = msg_id m) → id = msg_id m →
  triple (stored m) (update_message id f)
    (λ r s, ∃ t, let m' := f t m <| msg_updated_at := t |> in r = Some m' ∧ stored m' s).
Proof.
  intros Hf -> s Hs. unfold update_message. rewrite value_of_bind, state_of_bind.
  autorewrite with run. unfold stored in Hs. rewrite Hs.
  exists (now_utc_at (app_clock s)). split; [done|]. unfold stored. simpl. rewrite Hf.
  apply lookup_insert_eq.
Qed.

Lemma attach_media_stored m media :
  triple (stored m) (attach_media_to_message_inner (msg_id m) media)
    (λ r s, ∃ m', r = Some m' ∧ stored m' s).
Proof.
  intros s Hs. unfold attach_media_to_message_inner.
  destruct (update_message_stored (msg_id m) (λ _, attach_media media) m) with (s := s)
    as (t & Hr & Hm); [done..|]. eauto.
Qed.

Lemma attach_request_stored m media :
  triple (stored m) (attach_request_media m media) stored.
Proof.
  unfold attach_request_media. eapply triple_bind; [apply stored_frame; frame_tac|].
  intros inner. eapply triple_bind; [apply stored_frame; frame_tac|].
  intros md. eapply triple_bind; [apply attach_media_stored|].
  intros r. apply triple_ret. by intros s (m' & -> & ?).
Qed.

(** What queueing leaves: the message and the key that stands for it. *)
Definition remembered (key : key3) (hash : string) (m : Message) (s : AppState) : Prop :=
  stored m s ∧ st_idempotency (app_inner s) !! key = Some (mkIdempotencyRecord hash (msg_id m)).

Lemma remembered_frame {A} key hash m (x : M A) :
  frame (λ s, st_messages_by_id (app_inner s)) x → frame (λ s, st_idempotency (app_inner s)) x →
  triple (remembered key hash m) x (λ _, remembered key hash m).
Proof. intros Hm Hi s [Hs Hk]. split; [by apply stored_frame|]. by rewrite Hi. Qed.

Lemma queue_message_remembered key hash args media :
  triple (λ _, True) (queue_message key hash args media) (remembered key hash).
Proof.
  unfold queue_message. eapply triple_bind; [apply record_message_stored|]. intros m.
  eapply triple_bind with (R := stored).
  { destruct media as [md|]; [apply attach_request_stored|by apply triple_ret]. }
  intros m'. eapply triple_bind with (R := λ _, remembered key hash m').
  { intros s Hs. split; [exact Hs|]. apply lookup_insert_eq. }
  intros ?. eapply triple_bind; [apply remembered_frame; frame_tac|].
  intros ?. eapply triple_bind; [apply remembered_frame; frame_tac|].
  intros ?. by apply triple_ret.
Qed.

Lemma remembered_replay key hash m s hash' :
  remembered key hash m s →
  replay (app_inner s) (mkIdempotencyRecord hash (msg_id m)) hash'
  = if decide (hash = hash') then Ok (mkSendMessageOutcome m false)
    else Err (IdempotencyConflict "same Idempotency-Key used with different request body").
Proof. intros [Hs _]. unfold replay. simpl. unfold stored in Hs. by rewrite Hs. Qed.

Abbreviation prepare := prepare_send_message_with_actor.
Definition conflict : ApiError :=
  IdempotencyConflict "same Idempotency-Key used with different request body".

Lemma ok_inj_iff (x y : string) : x = y ↔ (Ok x : result string ApiError) = Ok y.
Proof. split; congruence. Qed.

(** A request under a known key only reads. *)
Lemma prepare_replay p c cv key r actor s record :
  st_idempotency (app_inner s) !! (p, c, key) = Some record →
  prepare p c cv key r actor s =
    (match sha256_json r with
     | Ok hash => replay (app_inner s) record hash
     | Err e => Err e
     end, s).
Proof.
  intros Hk. unfold prepare_send_message_with_actor. cbv zeta. rewrite bindR_ret.
  destruct (sha256_json r); [|done]. autorewrite with run. by rewrite Hk.
Qed.

(** A request under a new key: refused, or a new message the key stands for. *)
Lemma prepare_new p c cv key r actor s :
  st_idempotency (app_inner s) !! (p, c, key) = None →
  let '(res, s') := prepare p c cv key r actor s in
  match res with
  | Err _ => s' = s
  | Ok o => ∃ hash, sha256_json r = Ok hash ∧ out_should_dispatch o = true
            ∧ remembered (p, c, key) hash (out_message o) s'
  end.
Proof.
  intros Hk. unfold prepare_send_message_with_actor. cbv zeta. rewrite bindR_ret.
  destruct (sha256_json r) as [hash|]; [|done]. autorewrite with run. rewrite Hk. destruct (request_media _ _ _ _ _) as [media|e]; [|done].
  autorewrite with run. exists hash. repeat (split; [done|]). by apply queue_message_remembered.
Qed.

(** C9. Preparing a send under an idempotency key asks for a dispatch exactly
    when the key was not used before; afterwards every request under the key
    gets the same message without another dispatch when its body has the same
    digest, and a conflict otherwise, the state unchanged.  A refused request
    leaves the state as it was. *)
Theorem send_idempotent p c cv key r actor s :
  let '(res, s') := prepare p c cv key r actor s in
  match res with
  | Err _ => s' = s
  | Ok o =>
    (out_should_dispatch o = true ↔ st_idempotency (app_inner s) !! (p, c, key) = None)
    ∧ ∀ cv' r' actor', prepare p c cv' key r' actor' s' =
        (match sha256_json r' with
         | Ok hash => if decide (sha256_json r = Ok hash)
                      then Ok (mkSendMessageOutcome (out_message o) false) else Err conflict
         | Err e => Err e
         end, s')
  end.
Proof.
  destruct (st_idempotency (app_inner s) !! (p, c, key)) as [record|] eqn:Hk.
  - rewrite (prepare_replay _ _ _ _ _ _ _ _ Hk).
    destruct (sha256_json r) as [hash|] eqn:Hr; [|done]. unfold replay.
    destruct (decide (idem_request_hash record = hash)) as [Hh|]; [|done].
    destruct (st_messages_by_id (app_inner s) !! idem_message_id record) as [m|] eqn:Hm; [|done].
    split; [done|]. intros cv' r' actor'. rewrite (prepare_replay _ _ _ _ _ _ _ _ Hk).
    unfold replay. rewrite Hm, Hh. destruct (sha256_json r') as [hash'|]; [|done].
    by rewrite (decide_ext _ _ _ _ (ok_inj_iff hash hash')).
  - pose proof (prepare_new p c cv key r actor s Hk) as Hn.
    destruct (prepare p c cv key r actor s) as [[o|e] s']; [|done].
    destruct Hn as (hash & Hh & Hd & Hr). split; [done|]. intros cv' r' actor'.
    rewrite (prepare_replay _ _ _ _ _ _ _ _ (proj2 Hr)), Hh.
    destruct (sha256_json r') as [hash'|]; [|done].
    rewrite (remembered_replay _ _ _ _ _ Hr).
    by rewrite (decide_ext _ _ _ _ (ok_inj_iff hash hash')).
Qed.
End idempotent.

(** ** What becomes of a dispatched message *)
Section dispatch.
Context `{Env} (io : ByteIo).
Context (send_media : string → string → OutboundMediaMessage → option (result string string))
  (send_text : string → string → string → option (result string string)).

(** The outcomes of a dispatch over the channel [ch]: the library accepted
    the text or the media and named the message [wa]; or the message failed
    and says why; or there was nothing to send. *)
Inductive dispatched (connected : string → Prop) (text : option string) (m m' : Message)
  : Prop :=
| sent_text ch jid body wa :
    connected ch → msg_media_id m = None → text = Some body →
    send_text ch jid body = Some (Ok wa) →
    msg_status m' = "sent_to_whatsapp" → msg_wa_message_id m' = Some wa →
    msg_error_message m' = None → dispatched connected text m m'
| sent_media ch jid id media bytes wa :
    connected ch → msg_media_id m = Some id →
    send_media ch jid (outbound_media_message m media bytes) = Some (Ok wa) →
    msg_status m' = "sent_to_whatsapp" → msg_wa_message_id m' = Some wa →
    msg_error_message m' = None → dispatched connected text m m'
| send_failed err :
    msg_status m' = "failed" → msg_error_message m' = Some err →
    msg_wa_message_id m' = msg_wa_message_id m → dispatched connected text m m'
| nothing_to_send :
    msg_media_id m = None → text = None → m' = m → dispatched connected text m m'.

Definition is_answer (m : Message) (Q : Message → Prop) (r : result Message ApiError)
    (s : AppState) : Prop :=
  ∃ m', r = Ok m' ∧ msg_id m' = msg_id m ∧ stored m' s ∧ Q m'.

Lemma update_outbound_answer m wa st err :
  triple (stored m) (update_outbound_after_dispatch (msg_id m) wa st err)
    (is_answer m (λ m', msg_status m' = st ∧ msg_error_message m' = err
                        ∧ msg_wa_message_id m' = opt_or wa (msg_wa_message_id m))).
Proof.
  unfold update_outbound_after_dispatch, require_message. unfold bindR at 1.
  set (f := λ (_ : time) (x : Message), _).
  eapply triple_bind with (R := λ r s, ∃ m', r = Ok m' ∧ stored m' s ∧ msg_id m' = msg_id m
      ∧ msg_status m' = st ∧ msg_error_message m' = err
      ∧ msg_wa_message_id m' = opt_or wa (msg_wa_message_id m)).
  { eapply triple_bind; [by apply (update_message_stored (msg_id m) f m)|].
    intros r. apply triple_ret. intros s (t & -> & Hs). by eexists. }
  intros r s (m' & -> & Hs & Hid & HQ). cbv zeta.
  exists m'. split; [by rewrite !value_of_bind|]. split; [done|]. split; [|done].
  refine (stored_frame m' _ _ s Hs). unfold mark_message_dirty, emit_message. frame_tac.
Qed.

Lemma fail_answer connected text m err :
  triple (stored m) (update_outbound_after_dispatch (msg_id m) None "failed" (Some err))
    (is_answer m (dispatched connected text m)).
Proof.
  intros s Hs. destruct (update_outbound_answer m None "failed" (Some err) s Hs)
    as (m' & Hr & Hid & Hs' & Hst & He & Hw).
  exists m'. repeat (split; [done|]). by eapply send_failed.
Qed.

(** Channel bookkeeping before the outcome is recorded. *)
Lemma failed_answer connected text m err :
  triple (stored m) (run_async (dispatch_failed m err)) (is_answer m (dispatched connected text m)).
Proof. eapply triple_bind; [apply fail_answer|]. intros r. by apply triple_ret. Qed.

Lemma stored_then {A B} m (x : M A) (k : A → M B) Q :
  frame (λ s, st_messages_by_id (app_inner s)) x → (∀ a, triple (stored m) (k a) Q) →
  triple (stored m) (bind x k) Q.
Proof. intros Hx Hk. eapply triple_bind; [by apply stored_frame|done]. Qed.

#[local] Opaque update_outbound_after_dispatch.
Lemma send_answer_spec connected text m ch answer :
  (∀ wa m', answer = Some (Ok wa) → msg_status m' = "sent_to_whatsapp" →
     msg_wa_message_id m' = Some wa → msg_error_message m' = None →
     dispatched connected text m m') →
  triple (stored m) (run_async (record_send_answer ch m answer)) (is_answer m (dispatched connected text m)).
Proof.
  intros Hok. unfold record_send_answer. destruct answer as [[wa|err]|].
  - eapply triple_bind; [|intros r; by apply triple_ret]. intros s Hs.
    destruct (update_outbound_answer m (Some wa) "sent_to_whatsapp" None s Hs)
      as (m' & Hr & Hid & Hs' & Hst & He & Hw).
    exists m'. repeat (split; [done|]). by eapply Hok.
  - destruct (contains_str _ _); [|apply failed_answer].
    eapply triple_call; [apply stored_frame; frame_tac|]. intros ?. apply failed_answer.
  - apply failed_answer.
Qed.

#[local] Transparent update_outbound_after_dispatch.

Lemma channel_status_whatsapp id : frame app_whatsapp (channel_status id).
Proof.
  assert (Hp : frame app_whatsapp persist_locked).
  { intros s. unfold persist_locked, state_of, modify. simpl. by destruct (app_has_sink s). }
  unfold channel_status, reconcile_channel_runtime_status, push_event. frame_tac; exact Hp.
Qed.

(** C10. Dispatching a prepared message, when nothing interrupts it, always answers
    with the stored message, which ends up sent, with the identifier the client library gave
    it, or failed; it is sent only when the channel has a live client and the
    library accepted it, and left as it was only when it has neither text nor
    media. *)
Theorem dispatch_outcome o text s :
  out_should_dispatch o = true → stored (out_message o) s →
  let '(r, s') := dispatch_prepared_message io send_media send_text o text s in
  ∃ m', r = Ok m' ∧ msg_id m' = msg_id (out_message o) ∧ stored m' s'
    ∧ dispatched (λ ch, is_channel_connected ch (app_whatsapp s) = true) text (out_message o) m'.
Proof.
  intros Hd Hs. set (m := out_message o) in *. set (conn := λ ch, _ = true).
  apply (triple_run (λ x, x = s) _ (is_answer m (dispatched conn text m))); [|done].
  unfold dispatch_prepared_message, dispatch_blocks. rewrite Hd. cbn [negb]. cbv zeta. fold m.
  cbn [run_async].
  apply triple_gets. intros s0 ->. set (ch := unwrap_or _ (msg_channel_account_id m)).
  assert (H0 : triple (λ x, x = s) (channel_status ch)
            (λ _ x, stored m x ∧ app_whatsapp x = app_whatsapp s)).
  { intros ? ->. split; [by apply stored_frame; [frame_tac|]|]. apply channel_status_whatsapp. }
  refine (triple_bind _ _ _ _ _ H0 _ s eq_refl). clear H0. intros status.
  assert (Hf : ∀ err, triple (λ x, stored m x ∧ app_whatsapp x = app_whatsapp s)
     (run_async (dispatch_failed m err)) (is_answer m (dispatched conn text m)))
    by (intros err x [Hx _]; by apply failed_answer).
  case_decide; [apply Hf|]. cbn [run_async]. apply triple_gets. intros x [Hx Hw].
  destruct (is_channel_connected ch (app_whatsapp x)) eqn:Hc; cbn [negb].
  2:{ refine (triple_call (stored m) (λ _, stored m) _ _ _ _ _ x Hx);
        [apply stored_frame; frame_tac|]. intros ?. apply failed_answer. }
  rewrite Hw in Hc. revert x Hx Hw Hc. intros x Hx _ Hc.
  refine (_ x Hx). clear x Hx. apply stored_then; [frame_tac|]. intros jid.
  destruct (msg_media_id m) as [id|] eqn:Hm.
  - eapply triple_call; [apply stored_frame; frame_tac|].
    intros [[[media bytes]|]|e]; try apply failed_answer. cbn [run_async].
    apply triple_ret_bind, send_answer_spec. intros. by eapply sent_media.
  - destruct text as [body|].
    + cbn [run_async]. apply triple_ret_bind, send_answer_spec. intros. by eapply sent_text.
    + apply triple_ret. intros x Hx. exists m. repeat (split; [done|]). by apply nothing_to_send.
Qed.
End dispatch.

(** ** A send over a connected channel *)
Definition demo_connected : AppState :=
  state_of (@set_channel_status demo_env "channel_dev" "connected" None) demo_state
    <| app_whatsapp := mkWhatsappManager {["channel_dev" := mkChannelSupervisor false true]} ∅ |>.
Definition demo_request : SendMessageRequest :=
  mkSendMessageRequest "text" (Some "welcome") None None None None None.
Definition demo_prepared : result SendMessageOutcome ApiError * AppState :=
  @prepare_send_message_with_actor demo_env
    "p" "c" demo_customer "key" demo_request None demo_connected.
Definition demo_outcome : SendMessageOutcome :=
  match demo_prepared.1 with
  | Ok o => o
  | Err _ => mkSendMessageOutcome (recorded_message 0
      (mkRecordArgs "" "" "" "" "" None "" None None None None None None) None 0 "" "") false
  end%string.
Definition demo_library : string → string → string → option (result string string) :=
  λ _ _ _, Some (Ok "wamid"%string).

Lemma dispatch_outcome_witness :
  let '(r, s') := @dispatch_prepared_message demo_env reliable_io (λ _ _ _, None)
                    demo_library demo_outcome (Some "welcome"%string) demo_prepared.2 in
  map_result msg_status r = Ok "sent_to_whatsapp"%string
  ∧ ∃ m', r = Ok m' ∧ msg_id m' = msg_id (out_message demo_outcome) ∧ stored m' s'
    ∧ dispatched (λ _ _ _, None) demo_library
        (λ ch, is_channel_connected ch (app_whatsapp demo_prepared.2) = true)
        (Some "welcome"%string) (out_message demo_outcome) m'.
Proof.
  pose proof (@dispatch_outcome demo_env reliable_io (λ _ _ _, None) demo_library
    demo_outcome (Some "welcome"%string) demo_prepared.2) as Hd.
  assert (Hs : map_result msg_status (@dispatch_prepared_message demo_env reliable_io
      (λ _ _ _, None) demo_library demo_outcome (Some "welcome"%string) demo_prepared.2).1
    = Ok "sent_to_whatsapp"%string) by (vm_compute; reflexivity).
  destruct (@dispatch_prepared_message demo_env reliable_io (λ _ _ _, None)
              demo_library demo_outcome (Some "welcome"%string) demo_prepared.2) as [r s'].
  split; [exact Hs|]. apply Hd; vm_compute; reflexivity.
Defined.
