(* ===== verification/Uploads.v ===== *)
(** * Media uploads (src/state.rs)

    The upload of a media object by a client: the staging file, the byte store,
    the record; and the table that makes an upload idempotent under a key
    supplied by the client.  An upload awaits the byte store, so it is a
    sequence of blocks, between which other methods run; each block is one
    definition, and [UploadSpec] interleaves them. *)
From S2P Require Import Prelude Text Json Errors Env Config Security Models Jid Media Records.
From S2P Require Import EventBus Whatsapp Store Contacts Conversations Messages Bytes Transcripts.
From S2P Require Import MediaOps.

Record OutboundMediaUpload : Type := mkOutboundMediaUpload {
  omu_conversation_id : string;
  omu_media_type : option string;
  omu_mime_type : option string;
  omu_filename : option string;
  omu_caption : option string;
  omu_bytes : string
}.
#[export] Instance eta_OutboundMediaUpload : Eta OutboundMediaUpload := λ r,
  mkOutboundMediaUpload (omu_conversation_id r) (omu_media_type r) (omu_mime_type r)
    (omu_filename r) (omu_caption r) (omu_bytes r).

(** The temporary directory: each call by its path.  A failed write leaves what
    [sg_write] says; [sg_stat] answers the length it reads, given the length
    of the file. *)
Record StagingIo : Type := mkStagingIo {
  sg_create_dir : nat → string → option string;
  sg_write : string → option (string * option string);
  sg_stat : string → Z → result Z string;
  sg_remove : string → option string;
  sg_read_dir : option string
}.
Definition reliable_staging : StagingIo :=
  mkStagingIo (λ _ _, None) (λ _, None) (λ _ n, Ok n) (λ _, None) None.

Section uploads.
Context `{Env}.

(** ** Staging *)
Definition staging_dir (config : AppConfig) : string :=
  push_path (cfg_media_local_temp_dir config) "staging".
Definition remove_staging (sg : StagingIo) (path : string) : M unit := modify (λ s,
  match sg_remove sg path with
  | Some _ => s
  | None => s <| app_staging ::= delete path |>
  end).
Definition put_staging (path bytes : string) : M unit :=
  modify (λ s, s <| app_staging ::= <[path := bytes]> |>).

Definition stage_media_bytes (sg : StagingIo) (media_id bytes : string)
  : M (result string ApiError) :=
  let! config := get_config in
  let dir := staging_dir config in
  let dir_error := λ err,
    Internal ("failed to create media staging directory " +:+ dir +:+ ": " +:+ err) in
  match sg_create_dir sg 0 dir with
  | Some err => ret (Err (dir_error err))
  | None =>
    match sg_create_dir sg 1 dir with
    | Some err => ret (Err (dir_error err))
    | None =>
      let path := push_path dir (media_id +:+ ".upload") in
      match sg_write sg path with
      | Some (err, partial) =>
        (match partial with Some bytes => put_staging path bytes | None => ret tt end);;;
        ret (Err (Internal ("failed to write media staging file " +:+ path +:+ ": " +:+ err)))
      | None =>
        put_staging path bytes;;;
        match sg_stat sg path (str_len bytes) with
        | Err err =>
          ret (Err (Internal ("failed to stat media staging file " +:+ path +:+ ": " +:+ err)))
        | Ok written =>
          if decide (written ≠ str_len bytes) then
            remove_staging sg path;;;
            ret (Err (Internal "staged media size does not match upload size"))
          else ret (Ok path)
        end
      end
    end
  end.

(** The files left behind by failures and restarts. *)
Definition is_staged (config : AppConfig) (path : string) : bool :=
  starts_with path (staging_dir config +:+ "/").
Definition cleanup_staging_files (sg : StagingIo) : M nat :=
  match sg_read_dir sg with
  | Some _ => ret 0%nat
  | None =>
    let! config := get_config in
    let removed := λ path,
      is_staged config path && bool_decide (sg_remove sg path = None) in
    let! n := gets (λ s, size (retain (λ path _, removed path) (app_staging s))) in
    modify (λ s, s <| app_staging ::= retain (λ path _, negb (removed path)) |>);;;
    ret n
  end.

(** ** One upload *)
Definition normalize_media_type (value : string) : result string ApiError :=
  let normalized := to_ascii_lowercase (trim value) in
  if is_any normalized ["image"; "audio"; "document"]%string then Ok normalized
  else if is_any normalized ["file"; "application"]%string then Ok "document"%string
  else if decide (normalized = "") then Err (BadRequest "media type is empty")
  else Err (BadRequest ("unsupported outbound media type " +:+ normalized)).

Definition config_limits (config : AppConfig) : MediaLimits :=
  mkMediaLimits (cfg_media_quick_delete_threshold_mb config)
    (cfg_media_reject_threshold_mb config).

(** What an upload holds while the byte store works. *)
Record UploadPlan : Type := mkUploadPlan {
  up_media : MediaObject;
  up_object_key : string;
  up_channel_id : string;
  up_staging_path : string
}.

Definition uploaded_media_type (upload : OutboundMediaUpload) (mime_type : string)
  : result string ApiError :=
  match omu_media_type upload with
  | Some value => normalize_media_type value
  | None => Ok (infer_media_type mime_type)
  end.

(** The class of the object key, and the status of the record. *)
Definition outbound_class (decision : MediaDecision) : string :=
  match decision with MdTemp => "outbound-temp" | _ => "quarantine" end.

Definition uploaded_media (config : AppConfig) (now : time)
    (project_id company_id conversation_id channel_id media_id mime_type media_type : string)
    (upload : OutboundMediaUpload) (decision : MediaDecision) : MediaObject * string :=
  let filename := non_blank (trim <$> omu_filename upload) in
  let ext := unwrap_or (filename ≫= file_extension) (extension_for_mime mime_type) in
  let object_key := r2_object_key
    {| ki_base_prefix := r2_base_prefix (cfg_r2 config);
       ki_class := outbound_class decision;
       ki_project_id := project_id;
       ki_company_id := company_id;
       ki_channel_id := channel_id;
       ki_conversation_id := Some conversation_id;
       ki_entity_type := None;
       ki_entity_id := None;
       ki_date := now;
       ki_media_id := media_id;
       ki_ext := ext |} in
  let dev_url := bool_then (cfg_dev_mode config) (dev_media_url config media_id) in
  ({| media_id := media_id;
      media_project_id := project_id;
      media_company_id := company_id;
      media_conversation_id := conversation_id;
      media_message_id := None;
      media_media_type := media_type;
      media_mime_type := mime_type;
      media_original_filename := filename;
      media_size_bytes := str_len (omu_bytes upload);
      media_sha256 := sha256_hex (omu_bytes upload);
      media_storage_status := outbound_class decision;
      media_bucket := Some (r2_bucket (cfg_r2 config));
      media_object_key := Some object_key;
      media_permanent_object_key := None;
      media_public_url := dev_url;
      media_thumbnail_url := if decide (media_type = "image") then dev_url else None;
      media_width := None;
      media_height := None;
      media_duration_seconds := None;
      media_expires_at := Some (now + days (cfg_media_temp_retention_days config));
      media_saved_at := None;
      media_created_at := now;
      media_updated_at := now |}, object_key).

(** Up to the call of the byte store. *)
Definition upload_prepare (sg : StagingIo) (project_id company_id : string)
    (upload : OutboundMediaUpload) : M (result UploadPlan ApiError) :=
  if decide (omu_bytes upload = "") then ret (Err (BadRequest "upload file is empty")) else
  let conversation_id := trim (omu_conversation_id upload) in
  if decide (conversation_id = "") then ret (Err (BadRequest "conversation_id is required")) else
  let! inner := get_inner in
  let conversation_id :=
    resolve_conversation_id_inner inner project_id company_id conversation_id in
  let! config := get_config in
  let decision := classify (config_limits config) (str_len (omu_bytes upload)) in
  if decide (decision = MdRejected) then
    ret (Err (PayloadTooLarge ("media upload is larger than "
                +:+ pretty (cfg_media_reject_threshold_mb config) +:+ " MB")))
  else
    let mime_type := unwrap_or (non_blank (trim <$> omu_mime_type upload))
                       "application/octet-stream"%string in
    try! media_type := ret (uploaded_media_type upload mime_type) in
    let! now := now_utc in
    let! media_id := fresh_id "media_" in
    try! path := stage_media_bytes sg media_id (omu_bytes upload) in
    if cfg_media_sniff_magic_bytes config
       && negb (magic_matches_mime (Some mime_type) (omu_bytes upload)) then
      remove_staging sg path;;;
      ret (Err (BadRequest ("upload magic bytes do not match declared MIME type "
                            +:+ mime_type)))
    else
      let! inner := get_inner in
      let channel_id := unwrap_or
        (opt_or (conv_channel_account_id <$> st_conversations inner !! conversation_id)
           (connected_channel_for_project_company inner project_id company_id))
        "channel_dev"%string in
      let '(media, object_key) := uploaded_media config now project_id company_id
        conversation_id channel_id media_id mime_type media_type upload decision in
      ret (Ok (mkUploadPlan media object_key channel_id path)).

(** The byte store, and what is undone when it fails. *)
Definition upload_put (io : ByteIo) (sg : StagingIo) (upload : OutboundMediaUpload)
    (plan : UploadPlan) : M (result unit ApiError) :=
  let! r := bytes_put io (up_object_key plan) (omu_bytes upload) in
  match r with
  | Ok _ => ret (Ok tt)
  | Err err =>
    remove_staging sg (up_staging_path plan);;;
    let! _ := bytes_delete io (up_object_key plan) in
    ret (Err (ProviderError err))
  end.

(** The record, once the bytes are stored. *)
Definition upload_commit (sg : StagingIo) (project_id company_id : string) (plan : UploadPlan)
  : M MediaObject :=
  let media := up_media plan in
  ensure_conversation_inner project_id company_id (media_conversation_id media)
    (up_channel_id plan) "manual";;;
  modify_inner (put_media (media_id media) media);;;
  persist_locked;;;
  remove_staging sg (up_staging_path plan);;;
  ret media.

Definition upload_outbound_media (io : ByteIo) (sg : StagingIo) (project_id company_id : string)
    (upload : OutboundMediaUpload) : M (result MediaObject ApiError) :=
  try! plan := upload_prepare sg project_id company_id upload in
  try! _ := upload_put io sg upload plan in
  let! media := upload_commit sg project_id company_id plan in
  ret (Ok media).

(** ** Under an idempotency key *)
Definition outbound_media_upload_request_hash (upload : OutboundMediaUpload)
  : result string ApiError :=
  sha256_json (json! {
    "conversation_id" ~> omu_conversation_id upload,
    "media_type" ~> omu_media_type upload,
    "mime_type" ~> omu_mime_type upload,
    "filename" ~> omu_filename upload,
    "caption" ~> omu_caption upload,
    "bytes_sha256" ~> sha256_hex (omu_bytes upload) }).

Definition different_upload : ApiError :=
  IdempotencyConflict "same Idempotency-Key used with different upload body".
(** The object of an earlier upload. *)
Definition cached_media (inner : StoreInner) (id : string) : result MediaObject ApiError :=
  ok_or (st_media inner !! id)
    (Internal ("cached idempotency media " +:+ id +:+ " missing")).

Definition set_inflight (key : key3) (hash : string) (inner : StoreInner) : StoreInner :=
  inner <| st_media_upload_idempotency_inflight ::= <[key := hash]> |>.
Definition clear_inflight (key : key3) (inner : StoreInner) : StoreInner :=
  inner <| st_media_upload_idempotency_inflight ::= delete key |>.

(** One turn of the loop: the answer is known, or another request is at work,
    or this one goes ahead, and has entered the table. *)
Inductive UploadTurn :=
| TurnReturn (r : result MediaObject ApiError)
| TurnWait
| TurnGo.

Definition upload_turn (key : key3) (request_hash : string) : M UploadTurn :=
  let! inner := get_inner in
  match st_media_upload_idempotency inner !! key with
  | Some record =>
    ret (TurnReturn (if decide (mui_request_hash record = request_hash)
                     then cached_media inner (mui_media_id record)
                     else Err different_upload))
  | None =>
    match st_media_upload_idempotency_inflight inner !! key with
    | Some inflight_hash =>
      ret (if decide (inflight_hash = request_hash) then TurnWait
           else TurnReturn (Err different_upload))
    | None =>
      modify_inner (set_inflight key request_hash);;;
      ret TurnGo
    end
  end.

(** [wait_attempts > 12_000] *)
Definition MAX_WAIT_ATTEMPTS : Z := 12000.
Definition still_in_progress : ApiError :=
  IdempotencyConflict "same Idempotency-Key upload is still in progress".

(** [MediaUploadInflightGuard::drop]: a request that goes away before it is
    done leaves the table, unless the entry is another's. *)
Definition drop_guard (key : key3) (request_hash : string) : M unit :=
  modify_inner (λ inner,
    if decide (st_media_upload_idempotency_inflight inner !! key = Some request_hash)
    then clear_inflight key inner else inner).

(** After the upload, with the guard disarmed on every path. *)
Definition record_upload (key : key3) (request_hash : string)
    (media_result : result MediaObject ApiError) : M (result MediaObject ApiError) :=
  let! inner := get_inner in
  match media_result with
  | Err err =>
    modify_inner (clear_inflight key);;;
    ret (Err err)
  | Ok media =>
    match st_media_upload_idempotency inner !! key with
    | Some record =>
      modify_inner (clear_inflight key);;;
      ret (if decide (mui_request_hash record = request_hash)
           then cached_media inner (mui_media_id record)
           else Err different_upload)
    | None =>
      modify_inner (λ inner,
        clear_inflight key (inner <| st_media_upload_idempotency ::=
          <[key := mkMediaUploadIdempotencyRecord request_hash (media_id media)]> |>));;;
      persist_locked;;;
      ret (Ok media)
    end
  end.

(** The request when nothing else runs: it may wait [waits] turns more. *)
Fixpoint upload_loop (io : ByteIo) (sg : StagingIo) (project_id company_id : string)
    (key : key3) (request_hash : string) (upload : OutboundMediaUpload) (waits : nat)
  : M (result MediaObject ApiError) :=
  let! turn := upload_turn key request_hash in
  match turn with
  | TurnReturn r => ret r
  | TurnWait =>
    match waits with
    | O => ret (Err still_in_progress)
    | S waits => upload_loop io sg project_id company_id key request_hash upload waits
    end
  | TurnGo =>
    let! r := upload_outbound_media io sg project_id company_id upload in
    record_upload key request_hash r
  end.

Definition upload_outbound_media_idempotent (io : ByteIo) (sg : StagingIo)
    (project_id company_id idempotency_key : string) (upload : OutboundMediaUpload)
  : M (result MediaObject ApiError) :=
  try! request_hash := ret (outbound_media_upload_request_hash upload) in
  upload_loop io sg project_id company_id (project_id, company_id, idempotency_key)
    request_hash upload (Z.to_nat MAX_WAIT_ATTEMPTS).

(** ** Bytes, for the handlers *)
Definition provider_err {A} (r : result A string) : result A ApiError :=
  match r with Ok a => Ok a | Err err => Err (ProviderError err) end.
Definition copy_media_bytes (io : ByteIo)
    (source_object_key destination_object_key content_type : string)
  : M (result unit ApiError) :=
  let! r := bytes_copy io source_object_key destination_object_key in ret (provider_err r).
Definition delete_media_bytes (io : ByteIo) (object_key : string)
  : M (result unit ApiError) :=
  let! r := bytes_delete io object_key in ret (provider_err r).
End uploads.
