(* ===== verification/UploadSpec.v ===== *)
(** * What uploads promise

    Requests under one idempotency key, interleaved block by block with each
    other and with everything else the process does, cancelled at any moment:
    at most one of them uploads at a time, all that succeed name one object,
    and none is left waiting. *)
From S2P Require Import Prelude Text Json Errors Env Config Security Models Jid Media Records.
From S2P Require Import EventBus Whatsapp Store Contacts Conversations Messages Bytes Transcripts.
From S2P Require Import MediaOps SendingSpec Uploads Demo.

(** ** Requests as sequences of blocks *)
Record UploadRequest : Type := mkUploadRequest {
  ur_project_id : string;
  ur_company_id : string;
  ur_idempotency_key : string;
  ur_upload : OutboundMediaUpload
}.
Definition ur_key (r : UploadRequest) : key3 :=
  (ur_project_id r, ur_company_id r, ur_idempotency_key r).

(** Where a request of [upload_outbound_media_idempotent] stands; [h] is the
    digest of its body.  From [Entered] to [Uploaded] it holds the guard. *)
Inductive Phase :=
| Started
| Waiting (h : string) (attempts : Z)
| Entered (h : string)
| Prepared (h : string) (plan : UploadPlan)
| Stored (h : string) (plan : UploadPlan)
| Uploaded (h : string) (r : result MediaObject ApiError)
| Finished (r : result MediaObject ApiError)
| Dropped.

Section machine.
Context `{Env}.

Definition request_hash (req : UploadRequest) : result string ApiError :=
  outbound_media_upload_request_hash (ur_upload req).

Definition after_turn (h : string) (attempts : Z) (turn : UploadTurn) : Phase :=
  match turn with
  | TurnReturn r => Finished r
  | TurnWait => if decide (MAX_WAIT_ATTEMPTS < attempts + 1)
                then Finished (Err still_in_progress) else Waiting h (attempts + 1)
  | TurnGo => Entered h
  end.

(** The next block of a request. *)
Definition advance (io : ByteIo) (sg : StagingIo) (req : UploadRequest) (ph : Phase)
  : M Phase :=
  match ph with
  | Started =>
    ret match request_hash req with Ok h => Waiting h 0 | Err e => Finished (Err e) end
  | Waiting h attempts =>
    let! turn := upload_turn (ur_key req) h in
    ret (after_turn h attempts turn)
  | Entered h =>
    let! r := upload_prepare sg (ur_project_id req) (ur_company_id req) (ur_upload req) in
    ret match r with Ok plan => Prepared h plan | Err e => Uploaded h (Err e) end
  | Prepared h plan =>
    let! r := upload_put io sg (ur_upload req) plan in
    ret match r with Ok _ => Stored h plan | Err e => Uploaded h (Err e) end
  | Stored h plan =>
    let! media := upload_commit sg (ur_project_id req) (ur_company_id req) plan in
    ret (Uploaded h (Ok media))
  | Uploaded h r =>
    let! r := record_upload (ur_key req) h r in ret (Finished r)
  | Finished _ | Dropped => ret ph
  end.

(** The request is dropped: its guard, if armed, clears the table. *)
Definition cancel (req : UploadRequest) (ph : Phase) : M Phase :=
  match ph with
  | Entered h | Prepared h _ | Stored h _ | Uploaded h _ =>
    drop_guard (ur_key req) h;;; ret Dropped
  | Finished _ => ret ph
  | _ => ret Dropped
  end.

Definition tables (i : StoreInner)
  : gmap key3 MediaUploadIdempotencyRecord * gmap key3 string :=
  (st_media_upload_idempotency i, st_media_upload_idempotency_inflight i).
Definition media_keyed (i : StoreInner) : Prop :=
  ∀ id m, st_media i !! id = Some m → media_id m = id.

(** The process: requests arrive, move on, are dropped; anything else may
    happen between two blocks that leaves the two tables alone. *)
Abbreviation Requests := (gmap nat (UploadRequest * Phase)).
Inductive upload_step : AppState * Requests → AppState * Requests → Prop :=
| us_arrive i req s reqs :
    reqs !! i = None → upload_step (s, reqs) (s, <[i := (req, Started)]> reqs)
| us_advance io sg i req ph s reqs :
    reqs !! i = Some (req, ph) →
    upload_step (s, reqs)
      (state_of (advance io sg req ph) s,
       <[i := (req, value_of (advance io sg req ph) s)]> reqs)
| us_cancel i req ph s reqs :
    reqs !! i = Some (req, ph) →
    upload_step (s, reqs)
      (state_of (cancel req ph) s, <[i := (req, value_of (cancel req ph) s)]> reqs)
| us_other s s' reqs :
    tables (app_inner s') = tables (app_inner s) → media_keyed (app_inner s') →
    upload_step (s, reqs) (s', reqs).

(** ** What the blocks do to the tables *)
#[local] Instance tables_apart : Apart tables.
Proof. by constructor. Qed.
#[local] Instance media_apart : Apart st_media.
Proof. by constructor. Qed.

Section frames.
Context {X} (ρ : StoreInner → X) `{!Apart ρ}.
Abbreviation π := (λ s, ρ (app_inner s)).
Lemma frame_put_staging path b : frame π (put_staging path b).
Proof. by intros s. Qed.
Lemma frame_remove_staging sg path : frame π (remove_staging sg path).
Proof. intros s. unfold remove_staging, state_of, modify. simpl. by case_match. Qed.
Hint Resolve frame_put_staging frame_remove_staging : frame.
Lemma frame_stage sg id b : frame π (stage_media_bytes sg id b).
Proof. unfold stage_media_bytes. cbv zeta. frame_tac. Qed.
Lemma frame_bytes_put io key b : frame π (bytes_put io key b).
Proof. intros s. unfold state_of, bytes_put. by repeat case_match. Qed.
Lemma frame_bytes_delete io key : frame π (bytes_delete io key).
Proof. intros s. unfold state_of, bytes_delete. by repeat case_match. Qed.
Hint Resolve frame_stage frame_bytes_put frame_bytes_delete : frame.
Lemma frame_prepare sg p c u : frame π (upload_prepare sg p c u).
Proof. unfold upload_prepare. cbv zeta. frame_tac. Qed.
Lemma frame_put io sg u plan : frame π (upload_put io sg u plan).
Proof. unfold upload_put. frame_tac. Qed.
End frames.
Hint Resolve frame_put_staging frame_remove_staging frame_stage frame_bytes_put
  frame_bytes_delete frame_prepare frame_put : frame.

Lemma frame_ensure_conversation {X} (ρ : StoreInner → X) p c id ch mode :
  (∀ i f, ρ (i <| st_contacts ::= f |>) = ρ i) →
  (∀ i f, ρ (i <| st_conversations ::= f |>) = ρ i) →
  frame (λ s, ρ (app_inner s)) (ensure_conversation_inner p c id ch mode).
Proof.
  intros Hcontacts Hconv s. unfold ensure_conversation_inner.
  rewrite state_of_bind. case_decide; [done|]. rewrite state_of_bind.
  destruct (is_group_jid id).
  - unfold state_of, modify_inner, modify. simpl. apply Hconv.
  - unfold upsert_contact_inner. simpl. unfold put_conversation. rewrite Hconv.
    apply Hcontacts.
Qed.

Lemma commit_tables sg p c plan : frame (λ s, tables (app_inner s)) (upload_commit sg p c plan).
Proof.
  unfold upload_commit. cbv zeta. apply frame_bind; [by apply frame_ensure_conversation|].
  frame_tac.
Qed.
Lemma commit_media sg p c plan s :
  value_of (upload_commit sg p c plan) s = up_media plan
  ∧ st_media (app_inner (state_of (upload_commit sg p c plan) s))
    = <[media_id (up_media plan) := up_media plan]> (st_media (app_inner s)).
Proof.
  unfold upload_commit. cbv zeta. set (ec := ensure_conversation_inner _ _ _ _ _). split.
  { by rewrite !value_of_bind. }
  rewrite state_of_bind. set (s1 := state_of ec s).
  assert (Hs1 : st_media (app_inner s1) = st_media (app_inner s))
    by (by apply (frame_ensure_conversation st_media)).
  rewrite !state_of_bind. change (state_of (ret ?x) ?t) with t.
  rewrite (frame_remove_staging st_media), (frame_persist st_media). simpl. by rewrite Hs1.
Qed.

(** ** The invariant *)
Abbreviation records i := (st_media_upload_idempotency i).
Abbreviation inflight i := (st_media_upload_idempotency_inflight i).

Definition guard_hash (ph : Phase) : option string :=
  match ph with
  | Entered h | Prepared h _ | Stored h _ | Uploaded h _ => Some h
  | _ => None
  end.
(** What the tables say of a request. *)
Definition phase_ok (i : StoreInner) (req : UploadRequest) (ph : Phase) : Prop :=
  (∀ h, guard_hash ph = Some h →
     request_hash req = Ok h ∧ inflight i !! ur_key req = Some h
     ∧ records i !! ur_key req = None)
  ∧ (∀ h n, ph = Waiting h n → request_hash req = Ok h ∧ 0 ≤ n ≤ MAX_WAIT_ATTEMPTS)
  ∧ (∀ m, ph = Finished (Ok m) → ∃ r, records i !! ur_key req = Some r
       ∧ request_hash req = Ok (mui_request_hash r) ∧ mui_media_id r = media_id m).
Record uploads_ok (s : AppState) (reqs : Requests) : Prop := {
  uo_media : media_keyed (app_inner s);
  uo_phase n req ph : reqs !! n = Some (req, ph) → phase_ok (app_inner s) req ph;
  uo_entry key h : inflight (app_inner s) !! key = Some h →
    ∃ n req ph, reqs !! n = Some (req, ph) ∧ ur_key req = key ∧ guard_hash ph = Some h;
  uo_unique n n' req ph req' ph' :
    reqs !! n = Some (req, ph) → reqs !! n' = Some (req', ph') →
    is_Some (guard_hash ph) → is_Some (guard_hash ph') → ur_key req = ur_key req' → n = n'
}.

(** Only the entries of its own key matter to a request. *)
Lemma phase_ok_same_key i i' req ph :
  records i' !! ur_key req = records i !! ur_key req →
  inflight i' !! ur_key req = inflight i !! ur_key req →
  phase_ok i req ph → phase_ok i' req ph.
Proof. unfold phase_ok. by intros -> ->. Qed.
(** Without a guard and a record, the tables do not matter. *)
Lemma phase_ok_idle i i' req ph :
  guard_hash ph = None → records i !! ur_key req = None →
  phase_ok i req ph → phase_ok i' req ph.
Proof.
  intros Hg Hr (_ & Hw & Hf). split_and!; [congruence|done|].
  intros m Hm. destruct (Hf m Hm) as (r & ? & _). congruence.
Qed.

(** A block that leaves the tables alone, and the guard with its request. *)
Lemma uploads_ok_quiet s s' reqs n req ph ph' :
  uploads_ok s reqs → reqs !! n = Some (req, ph) →
  tables (app_inner s') = tables (app_inner s) → media_keyed (app_inner s') →
  guard_hash ph' = guard_hash ph → phase_ok (app_inner s') req ph' →
  uploads_ok s' (<[n := (req, ph')]> reqs).
Proof.
  intros [_ Hp He Hu] Hn [= Hr Hf] Hm Hg Hok. split; [done| | |].
  - intros k req0 ph0 [[<- [= <- <-]]|[_ Hk]]%lookup_insert_Some; [done|].
    eapply phase_ok_same_key; [by rewrite Hr|by rewrite Hf|by eapply Hp].
  - intros key h. rewrite Hf. intros (k & req0 & ph0 & Hk & Hkey & Hh)%He.
    destruct (decide (k = n)) as [->|Hne].
    + exists n, req, ph'. rewrite lookup_insert_eq. rewrite Hn in Hk. injection Hk as <- <-.
      by rewrite Hg.
    + exists k, req0, ph0. by rewrite lookup_insert_ne.
  - assert (Hback : ∀ k req0 ph0, <[n := (req, ph')]> reqs !! k = Some (req0, ph0) →
      ∃ ph1, reqs !! k = Some (req0, ph1) ∧ guard_hash ph1 = guard_hash ph0).
    { intros k req0 ph0 [[<- [= <- <-]]|[_ Hk]]%lookup_insert_Some; [exists ph; split; [exact Hn|by rewrite Hg]|eauto]. }
    intros k k' req1 ph1 req2 ph2 (ph1' & H1 & G1)%Hback (ph2' & H2 & G2)%Hback.
    rewrite <- G1, <- G2. by eapply Hu.
Qed.

(** Entering the table. *)
Lemma uploads_ok_enter s s' reqs n req ph h :
  uploads_ok s reqs → reqs !! n = Some (req, ph) → request_hash req = Ok h →
  records (app_inner s) !! ur_key req = None → inflight (app_inner s) !! ur_key req = None →
  records (app_inner s') = records (app_inner s) →
  inflight (app_inner s') = <[ur_key req := h]> (inflight (app_inner s)) →
  media_keyed (app_inner s') →
  uploads_ok s' (<[n := (req, Entered h)]> reqs).
Proof.
  intros [_ Hp He Hu] Hn Hh Hr Hf Hr' Hf' Hm.
  assert (Hidle : ∀ k req0 ph0, reqs !! k = Some (req0, ph0) → ur_key req0 = ur_key req →
    guard_hash ph0 = None).
  { intros k req0 ph0 Hk Hkey. destruct (guard_hash ph0) as [h0|] eqn:Hg; [|done].
    destruct (Hp _ _ _ Hk) as (Hg0 & _). destruct (Hg0 h0 Hg) as (_ & Hin & _). congruence. }
  split; [done| | |].
  - intros k req0 ph0 [[<- [= <- <-]]|[_ Hk]]%lookup_insert_Some.
    + split_and!; [|done..]. intros ? [= <-]. by rewrite Hf', lookup_insert_eq, Hr'.
    + destruct (decide (ur_key req0 = ur_key req)) as [Hkey|Hkey].
      * eapply phase_ok_idle; [by eapply Hidle| |by eapply Hp]. by rewrite Hkey.
      * eapply phase_ok_same_key; [by rewrite Hr'| |by eapply Hp].
        by rewrite Hf', lookup_insert_ne.
  - intros key h0. rewrite Hf'. intros [[<- <-]|[Hne Hin]]%lookup_insert_Some.
    + exists n, req, (Entered h). by rewrite lookup_insert_eq.
    + destruct (He _ _ Hin) as (k & req0 & ph0 & Hk & Hkey & Hg). exists k, req0, ph0.
      rewrite lookup_insert_ne; [done|]. intros <-. congruence.
  - intros k k' req1 ph1 req2 ph2 [[<- [= <- <-]]|[N1 Hk]]%lookup_insert_Some
      [[<- [= <- <-]]|[N2 Hk']]%lookup_insert_Some [h1 G1] [h2 G2] Hkey; [done| | |].
    + by rewrite (Hidle _ _ _ Hk') in G2.
    + by rewrite (Hidle _ _ _ Hk) in G1.
    + by eapply Hu; eauto.
Qed.

(** Leaving it, with or without a record. *)
Lemma uploads_ok_leave s s' reqs n req ph h ph' :
  uploads_ok s reqs → reqs !! n = Some (req, ph) → guard_hash ph = Some h →
  (∀ key, key ≠ ur_key req → records (app_inner s') !! key = records (app_inner s) !! key) →
  inflight (app_inner s') = delete (ur_key req) (inflight (app_inner s)) →
  media_keyed (app_inner s') → guard_hash ph' = None → phase_ok (app_inner s') req ph' →
  uploads_ok s' (<[n := (req, ph')]> reqs).
Proof.
  intros [_ Hp He Hu] Hn Hg Hr' Hf' Hm Hg' Hok.
  destruct (Hp _ _ _ Hn) as (Hgn & _). destruct (Hgn h Hg) as (_ & _ & Hr).
  split; [done| | |].
  - intros k req0 ph0 [[<- [= <- <-]]|[Hne Hk]]%lookup_insert_Some; [done|].
    destruct (decide (ur_key req0 = ur_key req)) as [Hkey|Hkey].
    + eapply phase_ok_idle; [|by rewrite Hkey|by eapply Hp].
      destruct (guard_hash ph0) eqn:G; [|done]. destruct Hne.
      eapply Hu; [exact Hn|exact Hk|by rewrite Hg|by rewrite G|done].
    + eapply phase_ok_same_key; [by apply Hr'| |by eapply Hp].
      by rewrite Hf', lookup_delete_ne.
  - intros key h0. rewrite Hf'. intros [Hne Hin]%lookup_delete_Some.
    destruct (He _ _ Hin) as (k & req0 & ph0 & Hk & Hkey & G). exists k, req0, ph0.
    rewrite lookup_insert_ne; [done|]. intros <-. congruence.
  - intros k k' req1 ph1 req2 ph2 [[<- [= <- <-]]|[N1 Hk]]%lookup_insert_Some
      [[<- [= <- <-]]|[N2 Hk']]%lookup_insert_Some [h1 G1] [h2 G2] Hkey;
      [done|congruence..|by eapply Hu; eauto].
Qed.

(** ** Every block keeps it *)
Lemma uploads_ok_still s reqs n req ph ph' :
  uploads_ok s reqs → reqs !! n = Some (req, ph) →
  guard_hash ph' = guard_hash ph → phase_ok (app_inner s) req ph' →
  uploads_ok s (<[n := (req, ph')]> reqs).
Proof.
  intros Hok Hn Hg Hp.
  eapply uploads_ok_quiet; [exact Hok|exact Hn|done|apply (uo_media _ _ Hok)|exact Hg|exact Hp].
Qed.

Lemma phase_ok_failed i req e : phase_ok i req (Finished (Err e)).
Proof. by split_and!. Qed.

(** What a cached answer names. *)
Lemma cached_media_ok i id m : media_keyed i → cached_media i id = Ok m → media_id m = id.
Proof.
  unfold cached_media. intros Hk. destruct (st_media i !! id) as [m'|] eqn:E; [|done].
  intros [= <-]. by apply Hk.
Qed.

Lemma turn_ok s reqs n req h attempts :
  uploads_ok s reqs → reqs !! n = Some (req, Waiting h attempts) →
  uploads_ok (state_of (upload_turn (ur_key req) h) s)
    (<[n := (req, after_turn h attempts (value_of (upload_turn (ur_key req) h) s))]> reqs).
Proof.
  intros Hok Hn. destruct (uo_phase _ _ Hok _ _ _ Hn) as (_ & Hw & _).
  destruct (Hw _ _ eq_refl) as [Hh Ha]. unfold upload_turn. rewrite !value_of_bind, !state_of_bind.
  change (value_of get_inner s) with (app_inner s). change (state_of get_inner s) with s.
  destruct (records (app_inner s) !! ur_key req) as [r|] eqn:Hr.
  - apply (uploads_ok_still _ _ _ _ _ _ Hok Hn); [done|].
    change (value_of (ret ?x) _) with x. cbn [after_turn].
    case_decide as Hd; [|apply phase_ok_failed].
    destruct (cached_media _ _) as [m|e] eqn:Hc; [|apply phase_ok_failed].
    split_and!; [done..|]. intros m' [= <-]. exists r. split_and!; [done|by rewrite Hd|].
    by rewrite (cached_media_ok _ _ _ (uo_media _ _ Hok) Hc).
  - destruct (inflight (app_inner s) !! ur_key req) as [h'|] eqn:Hf.
    + change (value_of (ret ?x) _) with x. change (state_of (ret ?x) s) with s.
      case_decide; cbn [after_turn]; [|by apply (uploads_ok_still _ _ _ _ _ _ Hok Hn);
                                        [|apply phase_ok_failed]].
      case_decide; [by apply (uploads_ok_still _ _ _ _ _ _ Hok Hn); [|apply phase_ok_failed]|].
      apply (uploads_ok_still _ _ _ _ _ _ Hok Hn); [done|].
      split_and!; [done| |done]. intros ?? [= <- <-]. split; [done|lia].
    + rewrite value_of_bind, state_of_bind.
      eapply uploads_ok_enter; [exact Hok|exact Hn|exact Hh|exact Hr|exact Hf|done|done|].
      apply (uo_media _ _ Hok).
Qed.

Lemma keyed_same i i' : st_media i' = st_media i → media_keyed i → media_keyed i'.
Proof. unfold media_keyed. by intros ->. Qed.

(** A block of the upload proper, which keeps the guard. *)
Lemma guarded_ok s s' reqs n req ph ph' h :
  uploads_ok s reqs → reqs !! n = Some (req, ph) → guard_hash ph = Some h →
  tables (app_inner s') = tables (app_inner s) → media_keyed (app_inner s') →
  guard_hash ph' = Some h → uploads_ok s' (<[n := (req, ph')]> reqs).
Proof.
  intros Hok Hn Hg Ht Hm Hg'. eapply uploads_ok_quiet; [done..|by rewrite Hg|].
  destruct (uo_phase _ _ Hok _ _ _ Hn) as (Hp & _). injection Ht as Hr Hf. split_and!.
  - intros h' Hh'. rewrite Hr, Hf. apply Hp. congruence.
  - by intros ?? ->.
  - by intros ? ->.
Qed.

Lemma record_ok s reqs n req h r :
  uploads_ok s reqs → reqs !! n = Some (req, Uploaded h r) →
  uploads_ok (state_of (record_upload (ur_key req) h r) s)
    (<[n := (req, Finished (value_of (record_upload (ur_key req) h r) s))]> reqs).
Proof.
  intros Hok Hn. destruct (uo_phase _ _ Hok _ _ _ Hn) as (Hp & _).
  destruct (Hp h eq_refl) as (Hh & _ & Hr). unfold record_upload.
  rewrite value_of_bind, state_of_bind.
  change (value_of get_inner s) with (app_inner s). change (state_of get_inner s) with s.
  destruct r as [m|e].
  - rewrite Hr, !value_of_bind, !state_of_bind.
    change (value_of (ret ?x) _) with x. change (state_of (ret ?x) ?t) with t.
    set (s1 := state_of (modify_inner _) s).
    assert (Hi : app_inner (state_of persist_locked s1) = app_inner s1)
      by apply persist_locked_inner.
    eapply uploads_ok_leave; [done|done|done|..]; rewrite ?Hi; [| |apply (uo_media _ _ Hok)|done|].
    + intros key Hne. simpl. by rewrite lookup_insert_ne.
    + done.
    + split_and!; [done..|]. intros m' [= <-]. simpl. rewrite lookup_insert_eq. eauto.
  - rewrite value_of_bind, state_of_bind. eapply uploads_ok_leave; [done|done|done|..];
      [done|done|apply (uo_media _ _ Hok)|done|apply phase_ok_failed].
Qed.

Lemma advance_ok io sg s reqs n req ph :
  uploads_ok s reqs → reqs !! n = Some (req, ph) →
  uploads_ok (state_of (advance io sg req ph) s)
    (<[n := (req, value_of (advance io sg req ph) s)]> reqs).
Proof.
  intros Hok Hn. pose proof (uo_media _ _ Hok) as Hm.
  destruct ph as [|h a|h|h plan|h plan|h r|r|]; cbn [advance].
  - change (value_of (ret ?x) _) with x. change (state_of (ret ?x) ?t) with t.
    apply (uploads_ok_still _ _ _ _ _ _ Hok Hn); [by destruct (request_hash req)|].
    destruct (request_hash req) as [h|e] eqn:Hh; [|apply phase_ok_failed].
    split_and!; [done| |done]. intros ?? [= <- <-]. split; [done|by unfold MAX_WAIT_ATTEMPTS].
  - pose proof (turn_ok s reqs n req h a Hok Hn) as Ht.
    rewrite state_of_bind, value_of_bind. exact Ht.
  - rewrite state_of_bind, value_of_bind. change (value_of (ret ?x) _) with x.
    change (state_of (ret ?x) ?t) with t. eapply guarded_ok; [done|done|done|..].
    + apply (frame_prepare tables).
    + eapply keyed_same, Hm. apply (frame_prepare st_media).
    + by case_match.
  - rewrite state_of_bind, value_of_bind. change (value_of (ret ?x) _) with x.
    change (state_of (ret ?x) ?t) with t. eapply guarded_ok; [done|done|done|..].
    + apply (frame_put tables).
    + eapply keyed_same, Hm. apply (frame_put st_media).
    + by case_match.
  - rewrite state_of_bind, value_of_bind. change (value_of (ret ?x) _) with x.
    change (state_of (ret ?x) ?t) with t. eapply guarded_ok; [done|done|done|..]; [| |done].
    + apply commit_tables.
    + intros id m. destruct (commit_media sg (ur_project_id req) (ur_company_id req) plan s)
        as [_ ->].
      intros [[<- <-]|[_ Hin]]%lookup_insert_Some; [done|by apply Hm].
  - pose proof (record_ok s reqs n req h r Hok Hn) as Hr.
    rewrite state_of_bind, value_of_bind. exact Hr.
  - by rewrite insert_id.
  - by rewrite insert_id.
Qed.

Lemma dropped_ok i req : phase_ok i req Dropped.
Proof. by split_and!. Qed.

Lemma cancel_ok s reqs n req ph :
  uploads_ok s reqs → reqs !! n = Some (req, ph) →
  uploads_ok (state_of (cancel req ph) s)
    (<[n := (req, value_of (cancel req ph) s)]> reqs).
Proof.
  intros Hok Hn. pose proof (uo_media _ _ Hok) as Hm.
  assert (Hguard : ∀ h, guard_hash ph = Some h →
    uploads_ok (state_of (drop_guard (ur_key req) h) s) (<[n := (req, Dropped)]> reqs)).
  { intros h Hg. destruct (uo_phase _ _ Hok _ _ _ Hn) as (Hp & _).
    destruct (Hp h Hg) as (_ & Hf & _). unfold drop_guard.
    change (state_of (modify_inner ?f) s) with (s <| app_inner ::= f |>).
    eapply uploads_ok_leave; [exact Hok|exact Hn|exact Hg|..];
      [..|done|apply dropped_ok]; simpl; rewrite decide_True by done; done. }
  destruct ph as [|h a|h|h plan|h plan|h r|r|]; cbn [cancel guard_hash] in *;
    try (rewrite state_of_bind, value_of_bind; by apply Hguard).
  - by apply (uploads_ok_still _ _ _ _ _ _ Hok Hn); [|apply dropped_ok].
  - by apply (uploads_ok_still _ _ _ _ _ _ Hok Hn); [|apply dropped_ok].
  - by rewrite insert_id.
  - by apply (uploads_ok_still _ _ _ _ _ _ Hok Hn); [|apply dropped_ok].
Qed.

(** ** What follows *)
(** A process that has just started: no upload is under way. *)
Definition upload_start (s : AppState) : Prop :=
  media_keyed (app_inner s) ∧ inflight (app_inner s) = ∅.

Lemma reachable_uploads_ok s0 s reqs :
  upload_start s0 → rtc upload_step (s0, ∅) (s, reqs) → uploads_ok s reqs.
Proof.
  intros [Hm Hf] Hsteps.
  assert (Hgen : ∀ sr, rtc upload_step (s0, ∅) sr → uploads_ok sr.1 sr.2); [|by apply (Hgen (_, _))].
  apply (rtc_ind_r (R := upload_step) (λ sr, uploads_ok sr.1 sr.2)).
  { split; [done|by intros ???|by intros ??; simpl; rewrite Hf|by intros ??????]. }
  intros [s1 r1] [s2 r2] _ Hstep Hok.
  inversion Hstep as [i req ? ? Hi|io sg i req ph ? ? Hi|i req ph ? ? Hi|? ? ? Ht Hk]; subst;
    simpl in *.
  - destruct Hok as [Hm' Hp He Hu]. split; [done| | |].
    + intros k req0 ph0 [[<- [= <- <-]]|[_ Hk]]%lookup_insert_Some; [by split_and!|by eapply Hp].
    + intros key h (k & req0 & ph0 & Hk & Hrest)%He. exists k, req0, ph0.
      by rewrite lookup_insert_ne by congruence.
    + intros k k' req1 ph1 req2 ph2 [[<- [= <- <-]]|[N1 Hk]]%lookup_insert_Some
        [[<- [= <- <-]]|[N2 Hk']]%lookup_insert_Some [h1 G1] [h2 G2] Hkey; [done..|].
      by eapply Hu; eauto.
  - by apply advance_ok.
  - by apply cancel_ok.
  - destruct Hok as [Hm' Hp He Hu]. injection Ht as Hr Hf'. split; [done| | |done].
    + intros n req ph Hn. eapply phase_ok_same_key; [by rewrite Hr|by rewrite Hf'|by eapply Hp].
    + intros key h. rewrite Hf'. apply He.
Qed.

(** C31. Uploads under one key exclude each other, and leave no trace when they are
    given up: in every interleaving of requests, with cancellations and any
    other activity of the process, at most one request under a key is uploading,
    and the key is marked as taken exactly while one is. *)
Theorem upload_exclusive s0 s reqs :
  upload_start s0 → rtc upload_step (s0, ∅) (s, reqs) →
  (∀ n n' req ph req' ph', reqs !! n = Some (req, ph) → reqs !! n' = Some (req', ph') →
     ur_key req = ur_key req' →
     is_Some (guard_hash ph) → is_Some (guard_hash ph') → n = n')
  ∧ ∀ key, is_Some (inflight (app_inner s) !! key) ↔
      ∃ n req ph, reqs !! n = Some (req, ph) ∧ ur_key req = key ∧ is_Some (guard_hash ph).
Proof.
  intros Hs Hsteps. pose proof (reachable_uploads_ok _ _ _ Hs Hsteps) as [_ Hp He Hu].
  split; [intros; by eapply Hu|]. intros key. split.
  - intros [h (n & req & ph & Hn & Hk & Hg)%He]. eauto 6.
  - intros (n & req & ph & Hn & <- & [h Hg]). destruct (Hp _ _ _ Hn) as (Hgn & _).
    destruct (Hgn h Hg) as (_ & Hf & _). eauto.
Qed.

(** C32. Requests under one idempotency key that succeed have the same body and
    name the same media object, in every interleaving. *)
Theorem upload_once s0 s reqs n n' req req' m m' :
  upload_start s0 → rtc upload_step (s0, ∅) (s, reqs) →
  reqs !! n = Some (req, Finished (Ok m)) → reqs !! n' = Some (req', Finished (Ok m')) →
  ur_key req = ur_key req' →
  media_id m = media_id m' ∧ request_hash req = request_hash req'.
Proof.
  intros Hs Hsteps Hn Hn' Hkey.
  pose proof (reachable_uploads_ok _ _ _ Hs Hsteps) as [_ Hp _ _].
  destruct (Hp _ _ _ Hn) as (_ & _ & Hf), (Hp _ _ _ Hn') as (_ & _ & Hf').
  destruct (Hf _ eq_refl) as (r & Hr & Hh & <-), (Hf' _ eq_refl) as (r' & Hr' & Hh' & <-).
  rewrite Hkey, Hr' in Hr. injection Hr as <-. split; [done|]. congruence.
Qed.

(** ** One request, whatever happens between its blocks *)
Fixpoint serve (env : list (ByteIo * StagingIo * (AppState → AppState))) (req : UploadRequest)
    (ph : Phase) (s : AppState) : Phase * AppState :=
  match env with
  | [] => (ph, s)
  | (io, sg, between) :: env =>
    serve env req (value_of (advance io sg req ph) s)
      (between (state_of (advance io sg req ph) s))
  end.

Definition rank (ph : Phase) : nat :=
  match ph with
  | Started => Z.to_nat MAX_WAIT_ATTEMPTS + 6
  | Waiting _ n => Z.to_nat (MAX_WAIT_ATTEMPTS - n) + 5
  | Entered _ => 4
  | Prepared _ _ => 3
  | Stored _ _ => 2
  | Uploaded _ _ => 1
  | Finished _ | Dropped => 0
  end.
Definition waits_ok (ph : Phase) : Prop :=
  match ph with Waiting _ n => 0 ≤ n ≤ MAX_WAIT_ATTEMPTS | Dropped => False | _ => True end.

Lemma advance_rank io sg req ph s :
  waits_ok ph →
  let ph' := value_of (advance io sg req ph) s in
  waits_ok ph' ∧ (rank ph' ≤ pred (rank ph))%nat.
Proof.
  intros Hw. cbv zeta.
  destruct ph as [|h a|h|h plan|h plan|h r|r|]; cbn [advance]; rewrite ?value_of_bind;
    change (value_of (ret ?x) _) with x; try done.
  - destruct (request_hash req); simpl; unfold MAX_WAIT_ATTEMPTS in *; split; lia || done.
  - simpl in Hw. destruct (value_of (upload_turn _ _) s); simpl; [split; lia || done| |split; lia || done].
    case_decide; simpl; split; lia || done.
  - case_match; simpl; split; lia || done.
  - case_match; simpl; split; lia || done.
Qed.

Lemma serve_finishes env req ph s :
  waits_ok ph → (rank ph ≤ length env)%nat → ∃ r, (serve env req ph s).1 = Finished r.
Proof.
  revert ph s. induction env as [|[[io sg] between] env IH]; intros ph s Hw Hr; simpl in *.
  - destruct ph; simpl in *; try lia; eauto.
  - destruct (advance_rank io sg req ph s Hw) as [Hw' Hr']. apply IH; [done|lia].
Qed.

(** Every request is answered: whatever the failures of the byte store and of
    the temporary directory, and whatever other requests do between its blocks,
    12,006 blocks of a request are enough. *)
Theorem upload_answered env req s :
  12006 ≤ Z.of_nat (length env) → ∃ r, (serve env req Started s).1 = Finished r.
Proof. intros Hl. apply serve_finishes; [done|]. simpl. unfold MAX_WAIT_ATTEMPTS. lia. Qed.

(** ** Alone, the blocks are the method *)
Abbreviation alone io sg n := (replicate n (io, sg, λ s : AppState, s)).

Lemma serve_finished io sg n req r s :
  serve (alone io sg n) req (Finished r) s = (Finished r, s).
Proof. by induction n. Qed.

Lemma serve_S io sg n req ph s :
  serve (alone io sg (S n)) req ph s
  = serve (alone io sg n) req (value_of (advance io sg req ph) s)
      (state_of (advance io sg req ph) s).
Proof. done. Qed.

#[local] Ltac run :=
  unfold bindR; do 3 rewrite ?value_of_bind, ?state_of_bind;
  change (value_of (ret ?x) _) with x; change (state_of (ret ?x) ?t) with t.

Lemma serve_upload io sg n req h s :
  let m := let! r := upload_outbound_media io sg (ur_project_id req) (ur_company_id req)
                       (ur_upload req) in
           record_upload (ur_key req) h r in
  serve (alone io sg (4 + n)) req (Entered h) s = (Finished (value_of m s), state_of m s).
Proof.
  cbv zeta. unfold upload_outbound_media. change (4 + n)%nat with (S (S (S (S n)))).
  rewrite serve_S. cbn [advance]. run.
  destruct (value_of (upload_prepare _ _ _ _) s) as [plan|e];
    [|rewrite serve_S; cbn [advance]; run; apply serve_finished].
  set (s1 := state_of (upload_prepare _ _ _ _) s). rewrite serve_S. cbn [advance]. run.
  destruct (value_of (upload_put _ _ _ _) s1) as [u|e];
    [|rewrite serve_S; cbn [advance]; run; apply serve_finished].
  rewrite serve_S. cbn [advance]. run. rewrite serve_S. cbn [advance]. run. apply serve_finished.
Qed.

Lemma serve_loop io sg req h waits n s :
  Z.of_nat waits ≤ MAX_WAIT_ATTEMPTS →
  let m := upload_loop io sg (ur_project_id req) (ur_company_id req) (ur_key req) h
             (ur_upload req) waits in
  serve (alone io sg (waits + 5 + n)) req
    (Waiting h (MAX_WAIT_ATTEMPTS - Z.of_nat waits)) s
  = (Finished (value_of m s), state_of m s).
Proof.
  revert s. induction waits as [|waits IH]; intros s Hw; cbv zeta.
  - change (0 + 5 + n)%nat with (S (4 + n)). rewrite serve_S. cbn [advance upload_loop].
    run. destruct (value_of (upload_turn _ _) s) as [r| |]; cbn [after_turn].
    + apply serve_finished.
    + rewrite decide_True by lia. apply serve_finished.
    + apply serve_upload.
  - change (S waits + 5 + n)%nat with (S (waits + 5 + n)). rewrite serve_S.
    cbn [advance upload_loop].
    run. destruct (value_of (upload_turn _ _) s) as [r| |]; cbn [after_turn].
    + apply serve_finished.
    + rewrite decide_False by lia.
      replace (MAX_WAIT_ATTEMPTS - Z.of_nat (S waits) + 1)
        with (MAX_WAIT_ATTEMPTS - Z.of_nat waits) by lia.
      apply IH. lia.
    + replace (waits + 5 + n)%nat with (4 + (waits + 1 + n))%nat by lia. apply serve_upload.
Qed.

(** The blocks compose to the method: a request served alone answers what
    [upload_outbound_media_idempotent] answers and leaves the state it leaves. *)
Theorem upload_blocks_compose io sg req n s :
  12006 ≤ Z.of_nat n →
  let m := upload_outbound_media_idempotent io sg (ur_project_id req) (ur_company_id req)
             (ur_idempotency_key req) (ur_upload req) in
  serve (alone io sg n) req Started s = (Finished (value_of m s), state_of m s).
Proof.
  intros Hn. cbv zeta. unfold upload_outbound_media_idempotent.
  set (k := Z.to_nat (Z.of_nat n - 12006)).
  replace n with (S (Z.to_nat MAX_WAIT_ATTEMPTS + 5 + k)) by (unfold MAX_WAIT_ATTEMPTS, k; lia).
  rewrite serve_S. cbn [advance]. unfold request_hash. run.
  destruct (outbound_media_upload_request_hash _) as [h|e]; [|apply serve_finished].
  pose proof (serve_loop io sg req h (Z.to_nat MAX_WAIT_ATTEMPTS) k s) as Hl.
  rewrite Z2Nat.id in Hl by (by unfold MAX_WAIT_ATTEMPTS). rewrite Z.sub_diag in Hl.
  apply Hl. done.
Qed.
End machine.

(** ** What one upload does *)
Section upload.
Context `{Env} (io : ByteIo) (sg : StagingIo) (p c : string) (upload : OutboundMediaUpload).

Abbreviation π := (λ s, (app_media_bytes s, app_config s)).
Lemma stored_frame_now : frame π now_utc.
Proof. by intros s. Qed.
Lemma stored_frame_id pre : frame π (fresh_id pre).
Proof. by intros s. Qed.
Lemma stored_frame_inner : frame π get_inner.
Proof. by intros s. Qed.
Lemma stored_frame_config : frame π get_config.
Proof. by intros s. Qed.
Lemma stored_frame_persist : frame π persist_locked.
Proof. intros s. unfold persist_locked, state_of, modify. simpl. by destruct (app_has_sink s). Qed.
Lemma stored_frame_put_staging path b : frame π (put_staging path b).
Proof. by intros s. Qed.
Lemma stored_frame_remove_staging path : frame π (remove_staging sg path).
Proof. intros s. unfold remove_staging, state_of, modify. simpl. by case_match. Qed.
Hint Resolve stored_frame_now stored_frame_id stored_frame_inner stored_frame_config
  stored_frame_persist stored_frame_put_staging stored_frame_remove_staging : frame.
Lemma stored_frame_stage id b : frame π (stage_media_bytes sg id b).
Proof. unfold stage_media_bytes. cbv zeta. frame_tac. Qed.
Hint Resolve stored_frame_stage : frame.
Lemma stored_frame_prepare : frame π (upload_prepare sg p c upload).
Proof. unfold upload_prepare. cbv zeta. frame_tac. Qed.
Lemma stored_frame_commit plan : frame π (upload_commit sg p c plan).
Proof. unfold upload_commit, ensure_conversation_inner. cbv zeta. frame_tac. Qed.

(** The record a plan holds. *)
Definition plan_ok (config : AppConfig) (plan : UploadPlan) : Prop :=
  let m := up_media plan in
  media_project_id m = p ∧ media_company_id m = c
  ∧ media_object_key m = Some (up_object_key plan)
  ∧ media_size_bytes m = str_len (omu_bytes upload)
  ∧ media_size_bytes m ≤ mb_to_bytes (cfg_media_reject_threshold_mb config)
  ∧ media_sha256 m = sha256_hex (omu_bytes upload).

(** A block whose answer is what the next test reads. *)
Lemma prepare_ok s plan :
  value_of (upload_prepare sg p c upload) s = Ok plan → plan_ok (app_config s) plan.
Proof.
  unfold upload_prepare. case_decide; [done|]. cbv zeta. case_decide; [done|].
  rewrite value_of_bind. change (state_of get_inner s) with s.
  rewrite value_of_bind. change (value_of get_config s) with (app_config s).
  case_decide as Hrej; [done|]. unfold bindR. rewrite value_of_bind.
  change (value_of (ret ?x) _) with x.
  destruct (uploaded_media_type _ _) as [mt|]; [|done]. rewrite !value_of_bind.
  destruct (value_of (stage_media_bytes _ _ _) _) as [path|]; [|done].
  destruct (_ && _); [done|]. rewrite value_of_bind.
  change (value_of (ret ?x) _) with x. unfold uploaded_media. intros [= <-]. unfold plan_ok. simpl.
  split_and!; [done..| |done].
  unfold classify, config_limits in Hrej. simpl in Hrej.
  repeat case_decide; try done; lia.
Qed.

Lemma bytes_put_ok key b s u :
  value_of (bytes_put io key b) s = Ok u →
  ∃ at_, bytes_location (app_config s) key = Ok at_
    ∧ app_media_bytes (state_of (bytes_put io key b) s) !! at_ = Some b
    ∧ app_config (state_of (bytes_put io key b) s) = app_config s.
Proof.
  unfold value_of, state_of, bytes_put. destruct (bytes_location _ key) as [at_|]; [|done].
  destruct (io_put io at_) as [[e [|]]|]; [done..|]. intros _. exists at_. split_and!; [done| |done].
  apply lookup_insert_eq.
Qed.

(** An upload is recorded when its bytes are stored, and only then: an accepted
    one leaves its bytes under the object key of a record of the tenant, with
    their length, within the limit, and their digest; a refused one leaves the
    records as they were. *)
Theorem upload_outcome s :
  let m := upload_outbound_media io sg p c upload in
  let s' := state_of m s in
  match value_of m s with
  | Ok media =>
    st_media (app_inner s') = <[media_id media := media]> (st_media (app_inner s))
    ∧ media_project_id media = p ∧ media_company_id media = c
    ∧ media_size_bytes media = str_len (omu_bytes upload)
    ∧ media_size_bytes media ≤ mb_to_bytes (cfg_media_reject_threshold_mb (app_config s))
    ∧ media_sha256 media = sha256_hex (omu_bytes upload)
    ∧ ∃ key at_, media_object_key media = Some key
        ∧ bytes_location (app_config s') key = Ok at_
        ∧ app_media_bytes s' !! at_ = Some (omu_bytes upload)
  | Err _ => st_media (app_inner s') = st_media (app_inner s)
  end.
Proof.
  cbv zeta. unfold upload_outbound_media, bindR. rewrite value_of_bind, state_of_bind.
  set (s1 := state_of (upload_prepare sg p c upload) s).
  assert (Hm1 : st_media (app_inner s1) = st_media (app_inner s)) by apply (frame_prepare st_media).
  destruct (value_of (upload_prepare sg p c upload) s) as [plan|e] eqn:Hplan; [|done].
  pose proof (prepare_ok s plan Hplan) as (Hp & Hc & Hk & Hsz & Hle & Hsha).
  rewrite value_of_bind, state_of_bind.
  set (s2 := state_of (upload_put io sg upload plan) s1).
  assert (Hm2 : st_media (app_inner s2) = st_media (app_inner s))
    by (rewrite <- Hm1; apply (frame_put st_media)).
  destruct (value_of (upload_put io sg upload plan) s1) as [u|e] eqn:Hput; [|done].
  rewrite value_of_bind, state_of_bind. change (value_of (ret ?x) _) with x.
  change (state_of (ret ?x) ?t) with t.
  destruct (commit_media sg p c plan s2) as [-> ->]. rewrite Hm2. split_and!; [done..|].
  assert (Hb : ∃ at_, bytes_location (app_config s1) (up_object_key plan) = Ok at_
    ∧ app_media_bytes s2 !! at_ = Some (omu_bytes upload) ∧ app_config s2 = app_config s1).
  { subst s2. revert Hput. unfold upload_put. rewrite value_of_bind, state_of_bind.
    destruct (value_of (bytes_put _ _ _) s1) as [u'|] eqn:Hb; [|by rewrite !value_of_bind].
    intros _. by apply (bytes_put_ok _ _ _ u'). }
  destruct Hb as (at_ & Hl & Hb & Hcfg). exists (up_object_key plan), at_.
  pose proof (stored_frame_commit plan s2) as [= Hb' Hc']. rewrite Hb', Hc', Hcfg. done.
Qed.
End upload.

(** ** A concrete interleaving: two requests under one key *)
Section schedule.
Context `{Env} (io : ByteIo) (sg : StagingIo).

Definition serve_block (sr : AppState * gmap nat (UploadRequest * Phase)) (i : nat)
  : AppState * gmap nat (UploadRequest * Phase) :=
  match sr.2 !! i with
  | Some (req, ph) => (state_of (advance io sg req ph) sr.1,
                       <[i := (req, value_of (advance io sg req ph) sr.1)]> sr.2)
  | None => sr
  end.

Lemma serve_blocks_reachable l sr : rtc upload_step sr (foldl serve_block sr l).
Proof.
  revert sr. induction l as [|i l IH]; intros [s reqs]; [done|]. simpl.
  trans (serve_block (s, reqs) i); [|apply IH]. unfold serve_block. simpl.
  destruct (reqs !! i) as [[req ph]|] eqn:Hi; [|done]. by apply rtc_once, us_advance.
Qed.
End schedule.

Definition demo_upload : OutboundMediaUpload :=
  mkOutboundMediaUpload demo_customer None (Some "text/plain") (Some "a.txt") None "abc".
Definition demo_request : UploadRequest := mkUploadRequest "p" "c" "key" demo_upload.
Definition demo_requests : gmap nat (UploadRequest * Phase) :=
  <[1%nat := (demo_request, Started)]> (<[0%nat := (demo_request, Started)]> ∅).
(** The second request waits for the first, and then gets its object. *)
Definition demo_uploads : AppState * gmap nat (UploadRequest * Phase) :=
  foldl (@serve_block demo_env reliable_io reliable_staging) (demo_state, demo_requests)
    [0; 1; 0; 1; 0; 0; 0; 1; 0; 1]%nat.

Lemma demo_uploads_reachable :
  rtc (@upload_step demo_env) (demo_state, ∅) demo_uploads.
Proof.
  eapply rtc_l; [by apply (us_arrive 0%nat demo_request)|].
  eapply rtc_l; [by apply (us_arrive 1%nat demo_request)|].
  apply (@serve_blocks_reachable demo_env).
Qed.
Lemma demo_upload_start : upload_start demo_state.
Proof.
  split; [|by vm_compute]. intros id m.
  replace (st_media (app_inner demo_state)) with (∅ : gmap string MediaObject)
    by (vm_compute; reflexivity).
  by rewrite lookup_empty.
Qed.

Lemma upload_once_witness :
  ∃ m m', demo_uploads.2 !! 0%nat = Some (demo_request, Finished (Ok m))
    ∧ demo_uploads.2 !! 1%nat = Some (demo_request, Finished (Ok m'))
    ∧ media_id m = media_id m'.
Proof.
  assert (Hm : ∃ m m', demo_uploads.2 !! 0%nat = Some (demo_request, Finished (Ok m))
    ∧ demo_uploads.2 !! 1%nat = Some (demo_request, Finished (Ok m')))
    by (vm_compute; eexists _, _; split; reflexivity).
  destruct Hm as (m & m' & Hm & Hm'). exists m, m'. split; [exact Hm|]. split; [exact Hm'|].
  exact (proj1 (@upload_once demo_env demo_state demo_uploads.1 demo_uploads.2 0%nat 1%nat
    demo_request demo_request m m' demo_upload_start
    (eq_rect _ (rtc upload_step (demo_state, ∅)) demo_uploads_reachable _
       (surjective_pairing demo_uploads)) Hm Hm' eq_refl)).
Defined.

Lemma upload_exclusive_witness :
  (is_Some (st_media_upload_idempotency_inflight (app_inner demo_uploads.1)
              !! ur_key demo_request) ↔
   ∃ n req ph, demo_uploads.2 !! n = Some (req, ph) ∧ ur_key req = ur_key demo_request
     ∧ is_Some (guard_hash ph)).
Proof.
  exact (proj2 (@upload_exclusive demo_env demo_state demo_uploads.1 demo_uploads.2
    demo_upload_start
    (eq_rect _ (rtc upload_step (demo_state, ∅)) demo_uploads_reachable _
       (surjective_pairing demo_uploads))) (ur_key demo_request)).
Defined.

Definition demo_blocks : list (ByteIo * StagingIo * (AppState → AppState)) :=
  replicate (Z.to_nat 12006) (reliable_io, reliable_staging, λ s, s).
Lemma upload_answered_witness :
  ∃ r, (@serve demo_env demo_blocks demo_request Started demo_state).1 = Finished r.
Proof.
  apply (@upload_answered demo_env). unfold demo_blocks. rewrite length_replicate. lia.
Defined.

Lemma upload_blocks_compose_witness :
  let m := @upload_outbound_media_idempotent demo_env reliable_io reliable_staging "p" "c" "key"
             demo_upload in
  @serve demo_env demo_blocks demo_request Started demo_state
  = (Finished (value_of m demo_state), state_of m demo_state).
Proof.
  apply (@upload_blocks_compose demo_env reliable_io reliable_staging demo_request
           (Z.to_nat 12006) demo_state). lia.
Defined.
