(* ===== verification/InboundMedia.v ===== *)
(** * Media of received messages, and profile pictures (src/state.rs)

    The download of the media of a WhatsApp message, its record, the
    transcription it asks for; and the pictures of contacts and groups, which
    are fetched over HTTP and kept for good. *)
From S2P Require Import Prelude Text Json Errors Env Secrets Config Security Models Jid Media.
From S2P Require Import Records EventBus Whatsapp Store Contacts Messages Bytes Transcripts.
From S2P Require Import MediaOps Callbacks Uploads.

Record InboundMediaRecordInput : Type := mkInboundMediaRecordInput {
  imi_runtime : ChannelRuntime;
  imi_message : Message;
  imi_conversation_id : string;
  imi_descriptor : InboundMediaDescriptor;
  imi_media_id : string;
  imi_size_bytes : Z;
  imi_sha256 : string;
  imi_storage_status : string;
  imi_object_key : option string
}.

Section inbound_media.
Context `{Env} `{Crypto}.

(** The digest the sender announced, empty when it is not Base64. *)
Definition descriptor_sha256_hex (descriptor : InboundMediaDescriptor) : string :=
  unwrap_or (hex_encode <$> unb64 (imd_file_sha256_b64 descriptor)) "".

(** ** The record *)
Definition inbound_record (config : AppConfig) (now : time) (input : InboundMediaRecordInput)
  : MediaObject :=
  let d := imi_descriptor input in
  let rejected := bool_decide (imi_storage_status input = "rejected") in
  let media_type := normalize_inbound_media_type (imd_media_type d) (imd_mime_type d) in
  let public_url := opt_or (imi_object_key input ≫= public_object_url config)
    (bool_then (cfg_dev_mode config && negb rejected)
       (dev_media_url config (imi_media_id input))) in
  {| media_id := imi_media_id input;
     media_project_id := rt_project_id (imi_runtime input);
     media_company_id := rt_company_id (imi_runtime input);
     media_conversation_id := imi_conversation_id input;
     media_message_id := Some (msg_id (imi_message input));
     media_media_type := media_type;
     media_mime_type := trim (imd_mime_type d);
     media_original_filename := imd_filename d;
     media_size_bytes := imi_size_bytes input;
     media_sha256 := imi_sha256 input;
     media_storage_status := imi_storage_status input;
     media_bucket := (λ _, r2_bucket (cfg_r2 config)) <$> imi_object_key input;
     media_object_key := imi_object_key input;
     media_permanent_object_key := None;
     media_public_url := public_url;
     media_thumbnail_url := if decide (media_type = "image") then public_url else None;
     media_width := imd_width d;
     media_height := imd_height d;
     media_duration_seconds := imd_duration_seconds d;
     media_expires_at := bool_then (negb rejected)
                           (now + days (cfg_media_temp_retention_days config));
     media_saved_at := None;
     media_created_at := now;
     media_updated_at := now |}.

(** An event of the channel, about a message. *)
Definition emit_inbound (runtime : ChannelRuntime) (conversation_id event_type : string)
    (m : Message) (payload : Value) : M unit :=
  emit event_type (rt_project_id runtime) (rt_company_id runtime)
    (Some (rt_channel_id runtime)) (Some conversation_id) (Some (msg_id m))
    (Some (msg_conversation_seq m)) payload.

Definition record_inbound_media_object (input : InboundMediaRecordInput)
  : M (result MediaObject ApiError) :=
  let! now := now_utc in
  let! config := get_config in
  let media := inbound_record config now input in
  let runtime := imi_runtime input in
  let accepted := negb (bool_decide (media_storage_status media = "rejected")) in
  modify_inner (put_media (media_id media) media);;;
  let! attached := attach_media_to_message_inner (msg_id (imi_message input)) media in
  let m := unwrap_or attached (imi_message input) in
  (if accepted then
     emit_inbound runtime (imi_conversation_id input) "media.stored" m
       (json! { "message_id" ~> msg_id m, "media_id" ~> media_id media,
                "media_type" ~> media_media_type media,
                "mime_type" ~> media_mime_type media,
                "storage_status" ~> media_storage_status media,
                "size_bytes" ~> media_size_bytes media })
   else ret tt);;;
  (if bool_decide (media_media_type media = "audio") && accepted then
     let! t := transcript_with_lifecycle (rt_project_id runtime) (rt_company_id runtime)
                 (msg_id m) (Some (media_id media)) Pending None in
     modify_inner (put_transcript (msg_id m) t);;;
     emit_inbound runtime (imi_conversation_id input) "audio.transcription.requested" m
       (json! { "message_id" ~> msg_id m, "media_id" ~> media_id media,
                "transcript_id" ~> tr_id t })
   else ret tt);;;
  persist_locked;;;
  ret (Ok media).

Definition record_media_storage_failed_event (runtime : ChannelRuntime) (m : Message)
    (conversation_id media_id code error : string) : M unit :=
  emit_inbound runtime conversation_id "media.storage_failed" m
    (json! { "message_id" ~> msg_id m, "media_id" ~> media_id, "code" ~> code,
             "error" ~> error });;;
  persist_locked.

(** ** Storing what was downloaded *)
Definition inbound_class (decision : MediaDecision) : string :=
  match decision with MdTemp => "temp" | _ => "quarantine" end.

Definition inbound_object_key (config : AppConfig) (now : time) (runtime : ChannelRuntime)
    (conversation_id media_id storage_status : string) (descriptor : InboundMediaDescriptor)
  : string :=
  r2_object_key
    {| ki_base_prefix := r2_base_prefix (cfg_r2 config);
       ki_class := storage_status;
       ki_project_id := rt_project_id runtime;
       ki_company_id := rt_company_id runtime;
       ki_channel_id := rt_channel_id runtime;
       ki_conversation_id := Some conversation_id;
       ki_entity_type := None;
       ki_entity_id := None;
       ki_date := now;
       ki_media_id := media_id;
       ki_ext := unwrap_or (imd_filename descriptor ≫= file_extension)
                   (extension_for_mime (imd_mime_type descriptor)) |}.

Definition store_downloaded_inbound_media (io : ByteIo) (sg : StagingIo)
    (runtime : ChannelRuntime) (m : Message) (conversation_id : string)
    (descriptor : InboundMediaDescriptor) (bytes : string)
  : M (result MediaObject ApiError) :=
  if decide (bytes = "") then ret (Err (BadRequest "downloaded WhatsApp media is empty")) else
  let size_bytes := str_len bytes in
  let! config := get_config in
  let decision := classify (config_limits config) size_bytes in
  let input := λ media_id storage_status object_key,
    mkInboundMediaRecordInput runtime m conversation_id descriptor media_id size_bytes
      (sha256_hex bytes) storage_status object_key in
  if decide (decision = MdRejected) then
    let! media_id := fresh_id "media_" in
    record_inbound_media_object (input media_id "rejected"%string None)
  else
    let! media_id := fresh_id "media_" in
    try! path := stage_media_bytes sg media_id bytes in
    if cfg_media_sniff_magic_bytes config
       && negb (magic_matches_mime (Some (imd_mime_type descriptor)) bytes) then
      remove_staging sg path;;;
      ret (Err (BadRequest
        ("downloaded WhatsApp media magic bytes do not match declared MIME type "
         +:+ imd_mime_type descriptor)))
    else
      let storage_status := inbound_class decision in
      let! now := now_utc in
      let object_key := inbound_object_key config now runtime conversation_id media_id
                          storage_status descriptor in
      let! stored := bytes_put io object_key bytes in
      match stored with
      | Err err =>
        remove_staging sg path;;;
        let! _ := bytes_delete io object_key in
        record_media_storage_failed_event runtime m conversation_id media_id
          "byte_store_put_failed" err;;;
        ret (Err (ProviderError err))
      | Ok _ =>
        let! media := record_inbound_media_object
                        (input media_id storage_status (Some object_key)) in
        remove_staging sg path;;;
        ret media
      end.

(** [download channel descriptor]: the client library. *)
Definition download_and_store_inbound_media (io : ByteIo) (sg : StagingIo)
    (download : string → InboundMediaDescriptor → result string string)
    (runtime : ChannelRuntime) (m : Message) (conversation_id : string)
    (descriptor : InboundMediaDescriptor) : M (result MediaObject ApiError) :=
  let! config := get_config in
  let! media_id := fresh_id "media_" in
  if decide (classify (config_limits config) (imd_file_length descriptor) = MdRejected) then
    record_inbound_media_object
      (mkInboundMediaRecordInput runtime m conversation_id descriptor media_id
         (imd_file_length descriptor) (descriptor_sha256_hex descriptor) "rejected" None)
  else
    match download (rt_channel_id runtime) descriptor with
    | Err err =>
      ret (Err (Internal ("failed to download WhatsApp media: " +:+ err)))
    | Ok bytes =>
      store_downloaded_inbound_media io sg runtime m conversation_id descriptor bytes
    end.

(** ** Profile pictures *)
Definition PROFILE_PICTURE_MAX_BYTES : Z := 8 * 1024 * 1024.
Definition picture_too_large : ApiError :=
  PayloadTooLarge ("profile picture image is larger than "
    +:+ pretty ((PROFILE_PICTURE_MAX_BYTES `div` 1024) `div` 1024) +:+ " MB").
Definition picture_failed : ApiError := ProviderError "profile picture download failed".

(** A response: its chunks, [None] for one that could not be read. *)
Record PictureResponse : Type := mkPictureResponse {
  pr_status : Z;
  pr_content_length : option Z;
  pr_chunks : list (option string)
}.

Fixpoint read_chunks (bytes : string) (chunks : list (option string))
  : result string ApiError :=
  match chunks with
  | [] => Ok bytes
  | None :: _ => Err picture_failed
  | Some chunk :: chunks =>
    if decide (PROFILE_PICTURE_MAX_BYTES < str_len bytes + str_len chunk)
    then Err picture_too_large
    else read_chunks (bytes +:+ chunk) chunks
  end.
Definition read_profile_picture_response_bytes (response : PictureResponse)
  : result string ApiError :=
  if is_some_and (pr_content_length response)
       (λ n, bool_decide (PROFILE_PICTURE_MAX_BYTES < n))
  then Err picture_too_large else read_chunks "" (pr_chunks response).

Definition sniff_profile_picture_mime (bytes : string) : result string ApiError :=
  match opt_filter (λ mime, is_any mime ["image/jpeg"; "image/png"; "image/webp"]%string)
          (sniff_mime_from_magic bytes) with
  | Some mime => Ok mime
  | None => Err (BadRequest "profile picture image has unsupported magic bytes")
  end.

Definition profile_picture_record (config : AppConfig) (now : time)
    (project_id company_id entity_id media_id mime_type object_key bytes : string)
  : MediaObject :=
  let dev_url := bool_then (cfg_dev_mode config) (dev_media_url config media_id) in
  let public_url := opt_or (public_object_url config object_key) dev_url in
  {| media_id := media_id;
     media_project_id := project_id;
     media_company_id := company_id;
     media_conversation_id := entity_id;
     media_message_id := None;
     media_media_type := "image";
     media_mime_type := mime_type;
     media_original_filename := None;
     media_size_bytes := str_len bytes;
     media_sha256 := sha256_hex bytes;
     media_storage_status := "permanent";
     media_bucket := Some (r2_bucket (cfg_r2 config));
     media_object_key := Some object_key;
     media_permanent_object_key := Some object_key;
     media_public_url := public_url;
     media_thumbnail_url := opt_or public_url dev_url;
     media_width := None;
     media_height := None;
     media_duration_seconds := None;
     media_expires_at := None;
     media_saved_at := Some now;
     media_created_at := now;
     media_updated_at := now |}.

Definition store_profile_picture_media_bytes (io : ByteIo)
    (project_id company_id channel_id entity_type entity_id bytes : string)
  : M (result MediaObject ApiError) :=
  if decide (bytes = "") then ret (Err (BadRequest "profile picture image is empty")) else
  try! mime_type := ret (sniff_profile_picture_mime bytes) in
  let! media_id := fresh_id "media_" in
  let! now := now_utc in
  let! config := get_config in
  let object_key := r2_object_key
    {| ki_base_prefix := r2_base_prefix (cfg_r2 config);
       ki_class := "permanent";
       ki_project_id := project_id;
       ki_company_id := company_id;
       ki_channel_id := channel_id;
       ki_conversation_id := None;
       ki_entity_type := Some entity_type;
       ki_entity_id := Some entity_id;
       ki_date := now;
       ki_media_id := media_id;
       ki_ext := extension_for_mime mime_type |} in
  let! stored := bytes_put io object_key bytes in
  match stored with
  | Err err =>
    let! _ := bytes_delete io object_key in
    ret (Err (ProviderError ("profile picture storage failed: " +:+ err)))
  | Ok _ =>
    let media := profile_picture_record config now project_id company_id entity_id media_id
                   mime_type object_key bytes in
    modify_inner (put_media media_id media);;;
    emit "media.stored" project_id company_id (Some channel_id) (Some entity_id) None None
      (json! { "media_id" ~> media_id, "media_type" ~> "image"%string,
               "storage_status" ~> "permanent"%string, "entity_type" ~> entity_type });;;
    persist_locked;;;
    ret (Ok media)
  end.

(** [http_get url]: the response, or nothing when the client cannot be built
    or the request fails.  The answer is the new value of the target. *)
Definition attach_profile_picture_media_id (io : ByteIo)
    (parse_url : string → result Url string) (http_get : string → option PictureResponse)
    (project_id company_id channel_id entity_type entity_id : string)
    (target profile_picture_url : option string)
  : M (result (option string) ApiError) :=
  match target, non_blank (trim <$> profile_picture_url) with
  | Some _, _ | _, None => ret (Ok target)
  | None, Some url =>
    match parse_url url with
    | Err _ => ret (Err (BadRequest "profile picture URL is invalid"))
    | Ok parsed =>
      if negb (is_any (url_scheme parsed) ["http"; "https"]%string)
      then ret (Err (BadRequest "profile picture URL must use http or https"))
      else match http_get url with
           | None => ret (Err picture_failed)
           | Some response =>
             if negb (bool_decide (200 ≤ pr_status response ≤ 299))
             then ret (Err (ProviderError ("profile picture download returned HTTP "
                              +:+ pretty (pr_status response))))
             else
               try! bytes := ret (read_profile_picture_response_bytes response) in
               try! media := store_profile_picture_media_bytes io project_id company_id
                               channel_id entity_type entity_id bytes in
               ret (Ok (Some (media_id media)))
           end
    end
  end.
End inbound_media.
