(* ===== verification/WhatsappEvents.v ===== *)
(** * The event loop of a WhatsApp channel (src/state.rs)

    What the process does with an event of the client library: the status of
    the channel, the message and its media, receipts, groups; and the tasks it
    spawns, which run later, after any other activity. *)
From S2P Require Import Prelude Text Json Errors Env Secrets Config Models Jid Records.
From S2P Require Import EventBus Whatsapp WhatsappClient Store Contacts Groups Conversations.
From S2P Require Import Messages Inbox Channels Bytes Callbacks Uploads InboundMedia.

(** What [tokio::spawn] is given. *)
Inductive Task :=
| ContactEnrichment (runtime : ChannelRuntime) (conversation_id contact_id : string)
    (alt_jid push_name : option string)
| GroupEnrichment (runtime : ChannelRuntime) (group_id : string)
| LogoutWipe (channel_id session_path : string)
| Reconnect (runtime : ChannelRuntime) (delay_secs : Z).

(** The answers of the outside to the tasks and to the downloads of an event. *)
Record Outside : Type := mkOutside {
  ow_io : ByteIo;
  ow_staging : StagingIo;
  ow_download : string → InboundMediaDescriptor → result string string;
  ow_contact_profile : string → string → result ContactProfile string;
  ow_group_profile : string → string → result GroupProfile string;
  ow_parse_url : string → result Url string;
  ow_http_get : string → option PictureResponse;
  ow_start : result bool string;
  ow_from_unix : Z → option time
}.

(** The derived codec of [RawWhatsappEventEnvelope], without the session path. *)
Class RawCodec := {
  raw_to_value : string * string * string → WhatsappEvent → result Value string;
  raw_from_value : Value → result (string * string * string * WhatsappEvent) string
}.
Class RawCodecLaws `{RawCodec} := {
  raw_from_value_to_value k e v : raw_to_value k e = Ok v → raw_from_value v = Ok (k, e)
}.

Section events.
Context `{Env} `{Crypto} `{RawCodec}.

(** ** Enrichment of contacts and groups *)
(** The reservation; the lookup is a task. *)
Definition spawn_contact_enrichment (runtime : ChannelRuntime)
    (conversation_id contact_id : string) (alt_jid push_name : option string)
  : M (list Task) :=
  let! r := reserve_contact_profile_refresh (rt_project_id runtime) (rt_company_id runtime)
              contact_id false in
  ret match r with
      | Ok true => [ContactEnrichment runtime conversation_id contact_id alt_jid push_name]
      | _ => []
      end.

Definition spawn_group_enrichment (runtime : ChannelRuntime) (group_id : string)
    (force : bool) : M (list Task) :=
  if negb (ends_with group_id "@g.us") then ret [] else
  let! reserved := reserve_group_profile_refresh runtime group_id force in
  ret (if reserved : bool then [GroupEnrichment runtime group_id] else []).

(** The picture of a profile; a failure only leaves the target as it was. *)
Definition attach_picture (o : Outside) (runtime : ChannelRuntime)
    (entity_type entity_id : string) (target url : option string) : M (option string) :=
  let! r := attach_profile_picture_media_id (ow_io o) (ow_parse_url o) (ow_http_get o)
              (rt_project_id runtime) (rt_company_id runtime) (rt_channel_id runtime)
              entity_type entity_id target url in
  ret match r with Ok target => target | Err _ => target end.

Definition enrich_contact (o : Outside) (runtime : ChannelRuntime)
    (conversation_id contact_id : string) (alt_jid push_name : option string) : M unit :=
  let p := rt_project_id runtime in
  let c := rt_company_id runtime in
  let channel_id := rt_channel_id runtime in
  match ow_contact_profile o channel_id contact_id with
  | Ok profile =>
    let profile := merge_contact_profile_alt profile alt_jid in
    let! media := attach_picture o runtime "contact_profile_picture" contact_id
                    (cp_profile_picture_media_id profile) (cp_profile_picture_url profile) in
    apply_contact_profile p c channel_id conversation_id contact_id push_name
      (profile <| cp_profile_picture_media_id := media |>) true
  | Err _ =>
    match contact_profile_from_alt contact_id alt_jid with
    | Some profile =>
      record_contact_profile_lookup_failure p c contact_id;;;
      apply_contact_profile p c channel_id conversation_id contact_id push_name profile false
    | None => record_contact_profile_lookup_failure p c contact_id
    end
  end.

Definition enrich_group (o : Outside) (runtime : ChannelRuntime) (group_id : string) : M unit :=
  match ow_group_profile o (rt_channel_id runtime) group_id with
  | Ok profile =>
    let! media := attach_picture o runtime "group_profile_picture" group_id
                    (gprof_profile_picture_media_id profile)
                    (gprof_profile_picture_url profile) in
    apply_group_profile (ow_from_unix o) (rt_project_id runtime) (rt_company_id runtime)
      (rt_channel_id runtime) group_id
      (profile <| gprof_profile_picture_media_id := media |>)
  | Err _ => ret tt
  end.

(** ** Tasks *)
Definition run_task (o : Outside) (task : Task) : M unit :=
  match task with
  | ContactEnrichment runtime conversation_id contact_id alt_jid push_name =>
    enrich_contact o runtime conversation_id contact_id alt_jid push_name
  | GroupEnrichment runtime group_id => enrich_group o runtime group_id
  | LogoutWipe channel_id session_path =>
    let! desired := gets (λ s, is_desired channel_id (app_whatsapp s)) in
    if desired : bool then ret tt
    else modify_whatsapp (stop_channel channel_id);;; wipe_session_files session_path
  | Reconnect runtime _ =>
    let channel_id := rt_channel_id runtime in
    let! skip := gets (λ s, negb (is_desired channel_id (app_whatsapp s))
                            || is_channel_active channel_id (app_whatsapp s)) in
    if skip : bool then ret tt
    else
      let! _ := connect_channel (ow_start o) (rt_project_id runtime) (rt_company_id runtime)
                  channel_id in
      ret tt
  end.

(** ** Events of a channel *)
(** [push_event(new_event(..))] about the channel. *)
Definition channel_event (runtime : ChannelRuntime) (event_type : string)
    (conversation_id : option string) (payload : Value) : M unit :=
  let! event := make_event event_type (rt_project_id runtime) (rt_company_id runtime)
    (Some (rt_channel_id runtime)) conversation_id None None payload in
  push_event event.
Definition message_event (runtime : ChannelRuntime) (event_type conversation_id : string)
    (m : Message) (payload : Value) : M unit :=
  let! event := make_event event_type (rt_project_id runtime) (rt_company_id runtime)
    (Some (rt_channel_id runtime)) (Some conversation_id) (Some (msg_id m))
    (Some (msg_conversation_seq m)) payload in
  push_event event.
Definition updates_ignored (runtime : ChannelRuntime) : M (list Task) :=
  channel_event runtime "whatsapp_updates.ignored" None
    (json! { "reason" ~> "updates_surface"%string });;;
  ret [].

Definition on_qr_code (runtime : ChannelRuntime) (code : string) (timeout : time)
  : M (list Task) :=
  let! _ := set_channel_status (rt_channel_id runtime) "waiting_qr" None in
  let! now := now_utc in
  let! _ := set_qr (rt_channel_id runtime) "waiting_qr" (Some code) (qr_expiry now timeout) in
  channel_event runtime "channel.qr" None (json! { "status" ~> "waiting_qr"%string });;;
  ret [].

Definition on_connected (runtime : ChannelRuntime) : M (list Task) :=
  let! connected_at := now_utc in
  modify_whatsapp (mark_connected (rt_channel_id runtime));;;
  let! _ := set_channel_status (rt_channel_id runtime) "connected" (Some connected_at) in
  channel_event runtime "channel.connected" None
    (json! { "connected_at" ~> ts connected_at });;;
  ret [].

(** A logout stays visible when the client then reports its disconnection. *)
Definition on_disconnected (runtime : ChannelRuntime) : M (list Task) :=
  let! status := gets (λ s, stored_status (app_inner s) (rt_channel_id runtime)) in
  (if decide (status = Some "logged_out"%string) then ret tt
   else let! _ := set_channel_status (rt_channel_id runtime) "disconnected" None in ret tt);;;
  channel_event runtime "channel.disconnected" None (json! { });;;
  ret [].

Definition on_logged_out (runtime : ChannelRuntime) (reason : string) : M (list Task) :=
  let channel_id := rt_channel_id runtime in
  modify_whatsapp (set_desired channel_id false);;;
  modify_whatsapp (mark_needs_session_reset channel_id);;;
  let! _ := set_channel_status channel_id "logged_out" None in
  channel_event runtime "channel.logged_out" None (json! { "reason" ~> reason });;;
  ret [LogoutWipe channel_id (rt_session_path runtime)].

(** ** Messages *)
Definition wa_message_input (runtime : ChannelRuntime) (wa_message_id chat_jid sender_jid : string)
    (sender_alt_jid push_name text : option string) (message_type : string)
    (created_at_wa : time) (is_from_me : bool) (contact_alt_jid : option string)
  : WhatsappMessageInput :=
  let is_group := ends_with chat_jid "@g.us" in
  {| wmi_project_id := rt_project_id runtime;
     wmi_company_id := rt_company_id runtime;
     wmi_channel_id := rt_channel_id runtime;
     wmi_conversation_id := chat_jid;
     wmi_contact_id := bool_then (negb is_group) chat_jid;
     wmi_contact_alt_jid := if is_group then None else contact_alt_jid;
     wmi_contact_name := if negb is_group && negb is_from_me then push_name else None;
     wmi_direction := if is_from_me then "outbound" else "inbound";
     wmi_message_type := message_type;
     wmi_text := text;
     wmi_status := if is_from_me then "sent_to_whatsapp" else "received";
     wmi_wa_message_id := Some wa_message_id;
     wmi_sender_contact_id := bool_then (negb is_from_me) sender_jid;
     wmi_sender_alt_jid := sender_alt_jid;
     wmi_sender_name := if is_from_me then None else push_name;
     wmi_created_at_wa := created_at_wa |}.

(** The media of a recorded message. *)
Definition fetch_media (o : Outside) (runtime : ChannelRuntime) (chat_jid : string)
    (m : Message) (descriptor : InboundMediaDescriptor) (descriptor_json : Value) : M unit :=
  message_event runtime "media.download.requested" chat_jid m
    (json! { "message_id" ~> msg_id m, "media" ~> descriptor_json });;;
  let! r := download_and_store_inbound_media (ow_io o) (ow_staging o) (ow_download o) runtime m
              chat_jid descriptor in
  match r with
  | Ok _ => ret tt
  | Err err =>
    message_event runtime "media.download.failed" chat_jid m
      (json! { "message_id" ~> msg_id m, "error" ~> error_message err })
  end.

(** [#[derive(Serialize)]] on [InboundMediaDescriptor]. *)
Definition descriptor_to_value (d : InboundMediaDescriptor) : Value := json! {
  "media_type" ~> imd_media_type d, "mime_type" ~> imd_mime_type d,
  "filename" ~> imd_filename d, "caption" ~> imd_caption d,
  "direct_path" ~> imd_direct_path d, "media_key_b64" ~> imd_media_key_b64 d,
  "file_sha256_b64" ~> imd_file_sha256_b64 d,
  "file_enc_sha256_b64" ~> imd_file_enc_sha256_b64 d,
  "file_length" ~> imd_file_length d, "width" ~> imd_width d, "height" ~> imd_height d,
  "duration_seconds" ~> imd_duration_seconds d }.

Definition on_message (o : Outside) (runtime : ChannelRuntime)
    (wa_message_id chat_jid sender_jid : string)
    (sender_alt_jid recipient_jid recipient_alt_jid push_name text : option string)
    (message_type : string) (media : option InboundMediaDescriptor)
    (created_at_wa : time) (is_from_me : bool) : M (list Task) :=
  if is_updates_event_surface chat_jid sender_jid sender_alt_jid recipient_jid recipient_alt_jid
  then updates_ignored runtime else
  if is_empty_system message_type text then
    channel_event runtime "message.system_ignored" (Some chat_jid)
      (json! { "wa_message_id" ~> wa_message_id });;;
    ret []
  else
    let! connected_at := gets (λ s, channel_connected_at (app_inner s) (rt_channel_id runtime)) in
    match opt_filter (λ t, bool_decide (created_at_wa < t)) connected_at with
    | Some connected_at =>
      channel_event runtime "ignored_old_message" (Some chat_jid)
        (json! { "wa_message_id" ~> wa_message_id, "created_at_wa" ~> ts created_at_wa,
                 "connected_at" ~> ts connected_at });;;
      ret []
    | None =>
      let is_group := ends_with chat_jid "@g.us" in
      let direct_alt :=
        if is_from_me
        then opt_or recipient_alt_jid
               (opt_filter (λ jid, bool_decide (is_Some (phone_from_jid jid))) recipient_jid)
        else sender_alt_jid in
      let! m := record_whatsapp_message
        (wa_message_input runtime wa_message_id chat_jid sender_jid sender_alt_jid push_name
           text message_type created_at_wa is_from_me direct_alt) in
      match media with
      | Some descriptor =>
        fetch_media o runtime chat_jid m descriptor (descriptor_to_value descriptor)
      | None => ret tt
      end;;;
      let contact := if is_group then bool_then (negb is_from_me) sender_jid
                     else Some chat_jid in
      let alt := if is_group then (if is_from_me then None else sender_alt_jid)
                 else direct_alt in
      let! tasks := match non_blank contact with
                    | Some contact_id =>
                      spawn_contact_enrichment runtime chat_jid contact_id alt
                        (if is_from_me then None else push_name)
                    | None => ret []
                    end in
      let! group_tasks := (if is_group then spawn_group_enrichment runtime chat_jid false
                           else ret []) in
      ret (tasks ++ group_tasks)
    end.

Definition on_receipt (runtime : ChannelRuntime) (wa_message_ids : list string)
    (receipt_type chat_jid : string) (created_at_wa : time) : M (list Task) :=
  if is_updates_surface_jid chat_jid then updates_ignored runtime
  else
    for_each (λ wa_message_id,
      let! _ := update_receipt_by_wa_id_with_context wa_message_id receipt_type
                  (Some created_at_wa) in
      ret tt) wa_message_ids;;;
    ret [].

Definition on_group_update (runtime : ChannelRuntime) (group_jid : string)
    (subject : option string) (created_at_wa : time) : M (list Task) :=
  if is_updates_surface_jid group_jid then updates_ignored runtime
  else
    match subject with
    | Some subject =>
      apply_group_subject (rt_project_id runtime) (rt_company_id runtime)
        (rt_channel_id runtime) group_jid subject created_at_wa
    | None => ret tt
    end;;;
    spawn_group_enrichment runtime group_jid true.

(** ** Diagnostics: a refused connection, the end of the client's task *)
Definition on_connect_failure (runtime : ChannelRuntime) (payload : Value) : M unit :=
  let channel_id := rt_channel_id runtime in
  let logged_out := contains_str (unwrap_or (get_str payload "reason") "") "LoggedOut" in
  (if logged_out then
     modify_whatsapp (set_desired channel_id false);;;
     modify_whatsapp (mark_needs_session_reset channel_id)
   else ret tt);;;
  let status := if logged_out then "logged_out"%string else "disconnected"%string in
  let! _ := set_channel_status channel_id status None in
  let! now := now_utc in
  let! _ := set_qr channel_id status None now in
  ret tt.

Definition on_diagnostic (runtime : ChannelRuntime) (event_type : string) (payload : Value)
  : M (list Task) :=
  let channel_id := rt_channel_id runtime in
  (if decide (event_type = "channel.connect_failure") then on_connect_failure runtime payload
   else ret tt);;;
  let! respawn := gets (λ s, bool_decide (event_type = "channel.runtime_stopped")
                             && should_reconnect channel_id (app_whatsapp s)) in
  channel_event runtime event_type None payload;;;
  if respawn : bool then
    let! delay_secs := (λ s,
      let '(d, w) := next_reconnect_delay_secs channel_id (app_whatsapp s) in
      (d, s <| app_whatsapp := w |>)) in
    channel_event runtime "channel.reconnect_scheduled" None
      (json! { "delay_secs" ~> delay_secs });;;
    ret [Reconnect runtime delay_secs]
  else ret [].

Definition process_whatsapp_event (o : Outside) (runtime : ChannelRuntime)
    (event : WhatsappEvent) : M (list Task) :=
  match event with
  | EvPairingQrCode code timeout => on_qr_code runtime code timeout
  | EvConnected => on_connected runtime
  | EvDisconnected => on_disconnected runtime
  | EvLoggedOut reason => on_logged_out runtime reason
  | EvHistorySyncIgnored =>
    channel_event runtime "history_sync.ignored" None
      (json! { "reason" ~> "skip_history_sync"%string });;;
    ret []
  | EvMessage wa_message_id chat_jid sender_jid sender_alt_jid recipient_jid recipient_alt_jid
      push_name text message_type media created_at_wa is_from_me =>
    on_message o runtime wa_message_id chat_jid sender_jid sender_alt_jid recipient_jid
      recipient_alt_jid push_name text message_type media created_at_wa is_from_me
  | EvReceipt wa_message_ids receipt_type chat_jid created_at_wa =>
    on_receipt runtime wa_message_ids receipt_type chat_jid created_at_wa
  | EvGroupUpdate group_jid subject created_at_wa =>
    on_group_update runtime group_jid subject created_at_wa
  | EvDiagnostic event_type payload => on_diagnostic runtime event_type payload
  end.

(** ** By way of Kafka *)
Definition raw_whatsapp_event_must_stay_inline (event : WhatsappEvent) : bool :=
  match event with EvPairingQrCode _ _ => true | _ => false end.

(** [metadata_db]: there is a handle on the database. *)
Definition kafka_worker_mode_enabled (config : AppConfig) (metadata_db : bool) : bool :=
  bool_decide (cfg_event_bus config = BusKafka)
  && bool_decide (cfg_metadata_db config = DbPostgres) && metadata_db.

Definition enqueue_whatsapp_raw_event (runtime : ChannelRuntime) (event : WhatsappEvent)
  : M (result CommonEvent ApiError) :=
  if raw_whatsapp_event_must_stay_inline event
  then ret (Err (BadRequest "sensitive WhatsApp control event cannot be enqueued to Kafka"))
  else
    match raw_to_value (rt_project_id runtime, rt_company_id runtime, rt_channel_id runtime)
            event with
    | Err err => ret (Err (Internal ("failed to encode WhatsApp event: " +:+ err)))
    | Ok payload =>
      let! raw_event := make_event "whatsapp.raw.inbound" (rt_project_id runtime)
        (rt_company_id runtime) (Some (rt_channel_id runtime)) None None None payload in
      push_event raw_event;;;
      ret (Ok raw_event)
    end.

Definition handle_whatsapp_event (o : Outside) (metadata_db : bool) (runtime : ChannelRuntime)
    (event : WhatsappEvent) : M (list Task) :=
  let! config := get_config in
  let! enqueued := (if kafka_worker_mode_enabled config metadata_db
                       && negb (raw_whatsapp_event_must_stay_inline event)
                    then let! r := enqueue_whatsapp_raw_event runtime event in ret (is_ok r)
                    else ret false) in
  if enqueued : bool then ret [] else process_whatsapp_event o runtime event.

(** The worker's side: the session path is not known there. *)
Definition process_whatsapp_raw_event (o : Outside) (event : CommonEvent)
  : M (result (list Task) ApiError) :=
  match raw_from_value (ev_payload event) with
  | Err err => ret (Err (BadRequest ("invalid WhatsApp raw event: " +:+ err)))
  | Ok ((p, c, channel_id), raw) =>
    let! tasks := process_whatsapp_event o (mkChannelRuntime p c channel_id "") raw in
    ret (Ok tasks)
  end.
End events.
