(* ===== verification/EventSpec.v ===== *)
(** * What the event loop of a channel promises

    An event delivered twice records its message once; a pairing code stays in
    the process; credentials that a logout made useless are wiped before a new
    client starts with them. *)
From S2P Require Import Prelude Text Json Errors Env Secrets Config Models Jid Records.
From S2P Require Import EventBus Whatsapp WhatsappClient Store Contacts Groups Conversations.
From S2P Require Import Messages Inbox MessageLog MessageSpec Channels Bytes Transcripts MediaOps.
From S2P Require Import Callbacks SendingSpec Uploads UploadSpec InboundMedia WhatsappEvents Demo.

(** ** A message event delivered twice *)

(** A message without what the arrival of its media changes: the identifier, the
    addresses, the file name and the type of the media, and the time of the last
    update. Everything else is kept. *)
Definition but_media (m : Message) : Message :=
  m <| msg_media_id := None |> <| msg_media_url := None |> <| msg_thumbnail_url := None |>
    <| msg_mime_type := None |> <| msg_file_name := None |> <| msg_updated_at := 0 |>.
Definition identities (i : StoreInner) : gmap string Message :=
  but_media <$> st_messages_by_id i.
#[export] Instance identities_apart : Apart identities.
Proof. by constructor. Qed.

#[export] Hint Resolve identities_apart : frame.

Lemma state_of_gets {S A B} (f : S → A) (k : A → ST S B) s :
  state_of (bind (gets f) k) s = state_of (k (f s)) s.
Proof. done. Qed.

Lemma state_of_ret {S A B} (a : A) (k : A → ST S B) s :
  state_of (bind (ret a) k) s = state_of (k a) s.
Proof. done. Qed.
Lemma state_of_then_ret {S A B} (m : ST S A) (x : B) s :
  state_of (bind m (λ _, ret x)) s = state_of m s.
Proof. by rewrite state_of_bind. Qed.

Section delivery.
Context `{Env} `{Crypto}.
Abbreviation π := (λ s, identities (app_inner s)).

Lemma identities_update id f :
  (∀ t m, but_media (f t m) = but_media m) → frame π (update_message id f).
Proof.
  intros Hf s. unfold update_message. rewrite state_of_bind.
  change (value_of get_inner s) with (app_inner s). change (state_of get_inner s) with s.
  destruct (st_messages_by_id (app_inner s) !! id) as [m|] eqn:Hm; [|done].
  rewrite !state_of_bind. change (state_of (ret ?x) ?t) with t.
  set (u := f _ m <| msg_updated_at := _ |>). simpl. unfold identities. simpl.
  rewrite fmap_insert. apply insert_id. rewrite lookup_fmap, Hm. simpl. f_equal.
  unfold u. by rewrite <- (Hf (value_of now_utc s)).
Qed.
Lemma identities_attach id media : frame π (attach_media_to_message_inner id media).
Proof. by apply identities_update. Qed.
Lemma identities_transcript p c m md l t : frame π (transcript_with_lifecycle p c m md l t).
Proof. unfold transcript_with_lifecycle. frame_tac. Qed.
Hint Resolve identities_attach identities_transcript frame_stage frame_remove_staging
  frame_bytes_put frame_bytes_delete : frame.
Lemma identities_record_media input : frame π (record_inbound_media_object input).
Proof. unfold record_inbound_media_object, emit_inbound. cbv zeta. frame_tac. Qed.
Lemma identities_storage_failed r m cv id code e :
  frame π (record_media_storage_failed_event r m cv id code e).
Proof. unfold record_media_storage_failed_event, emit_inbound. frame_tac. Qed.
Hint Resolve identities_record_media identities_storage_failed : frame.
Lemma identities_store io sg r m cv d b :
  frame π (store_downloaded_inbound_media io sg r m cv d b).
Proof. unfold store_downloaded_inbound_media. cbv zeta. frame_tac. Qed.
Hint Resolve identities_store : frame.
Lemma identities_download io sg dl r m cv d :
  frame π (download_and_store_inbound_media io sg dl r m cv d).
Proof. unfold download_and_store_inbound_media. frame_tac. Qed.
Lemma identities_channel_event r t cv v : frame π (channel_event r t cv v).
Proof. unfold channel_event. frame_tac. Qed.
Lemma identities_message_event r t cv m v : frame π (message_event r t cv m v).
Proof. unfold message_event. frame_tac. Qed.
Hint Resolve identities_download identities_channel_event identities_message_event : frame.
Lemma identities_fetch o r cj m d v : frame π (fetch_media o r cj m d v).
Proof. unfold fetch_media. frame_tac. Qed.
Lemma identities_spawn_contact r cv id a n : frame π (spawn_contact_enrichment r cv id a n).
Proof. unfold spawn_contact_enrichment, reserve_contact_profile_refresh. cbv zeta. frame_tac. Qed.
Lemma identities_spawn_group r g f : frame π (spawn_group_enrichment r g f).
Proof. unfold spawn_group_enrichment, reserve_group_profile_refresh. cbv zeta. frame_tac. Qed.
Hint Resolve identities_fetch identities_spawn_contact identities_spawn_group : frame.

(** Recording depends on the identities only. *)
Lemma known_identities input i i' :
  identities i = identities i' → is_Some (known_wa_message input i) →
  is_Some (known_wa_message input i').
Proof.
  unfold known_wa_message. intros Hi [k Hk]. destruct (wmi_wa_message_id input) as [wa|]; [|done].
  simpl in *. apply find_Some in Hk as [Hin Hsame]. apply elem_of_hm_values in Hin as [id Hid].
  assert (Hx : identities i' !! id = Some (but_media k)).
  { rewrite <- Hi. unfold identities. by rewrite lookup_fmap, Hid. }
  unfold identities in Hx. rewrite lookup_fmap in Hx.
  apply fmap_Some in Hx as (m' & Hm' & Hidm). destruct (find _ _) eqn:Hf; [done|].
  exfalso. assert (Hno : same_wa_message input wa m' = false).
  { eapply find_None; [exact Hf|]. apply elem_of_hm_values. eauto. }
  revert Hsame. unfold same_wa_message in *.
  assert (Hc : msg_channel_account_id k = msg_channel_account_id m')
    by exact (f_equal msg_channel_account_id Hidm).
  assert (Hw : msg_wa_message_id k = msg_wa_message_id m')
    by exact (f_equal msg_wa_message_id Hidm).
  assert (Hd : msg_direction k = msg_direction m') by exact (f_equal msg_direction Hidm).
  rewrite Hc, Hw, Hd. congruence.
Qed.

Lemma channels_channel_event r t cv v :
  frame (λ s, st_channels (app_inner s)) (channel_event r t cv v).
Proof.
  unfold channel_event, push_event. apply frame_bind; [by intros s|]. intros e.
  apply frame_bind; [by intros s|]. intros _ s. by rewrite persist_locked_inner.
Qed.

Section message.
Context (runtime : ChannelRuntime) (wa chat sender : string)
  (sender_alt recipient recipient_alt name text : option string) (type : string)
  (media : option InboundMediaDescriptor) (at_ : time) (from_me : bool).
Abbreviation deliver o := (process_whatsapp_event o runtime
  (EvMessage wa chat sender sender_alt recipient recipient_alt name text type media at_ from_me)).

(** Neither of a status, nor empty, nor older than the connection. *)
Definition accepted (s : AppState) : bool :=
  negb (is_updates_event_surface chat sender sender_alt recipient recipient_alt)
  && negb (is_empty_system type text)
  && bool_decide (opt_filter (λ t, bool_decide (at_ < t))
                    (channel_connected_at (app_inner s) (rt_channel_id runtime)) = None).

(** What is recorded of an accepted one. *)
Definition event_input : WhatsappMessageInput :=
  wa_message_input runtime wa chat sender sender_alt name text type at_ from_me
    (if from_me
     then opt_or recipient_alt
            (opt_filter (λ jid, bool_decide (is_Some (phone_from_jid jid))) recipient)
     else sender_alt).

Lemma deliver_cases o s :
  if accepted s
  then π (state_of (deliver o) s) = π (state_of (record_whatsapp_message event_input) s)
  else π (state_of (deliver o) s) = π s
       ∧ st_channels (app_inner (state_of (deliver o) s)) = st_channels (app_inner s).
Proof.
  assert (Hev : ∀ t cv v, π (state_of (channel_event runtime t cv v;;; ret (@nil Task)) s) = π s
    ∧ st_channels (app_inner (state_of (channel_event runtime t cv v;;; ret (@nil Task)) s))
      = st_channels (app_inner s)).
  { intros t cv v. rewrite state_of_then_ret.
    split; [apply identities_channel_event|apply channels_channel_event]. }
  unfold accepted. cbn [process_whatsapp_event]. unfold on_message.
  destruct (is_updates_event_surface _ _ _ _ _); [apply Hev|].
  destruct (is_empty_system type text); [apply Hev|]. cbn [negb andb].
  rewrite state_of_gets.
  destruct (opt_filter (λ t, bool_decide (at_ < t))
              (channel_connected_at (app_inner s) (rt_channel_id runtime))) as [t|]; [apply Hev|].
  rewrite bool_decide_eq_true_2 by done.
  cbv zeta. rewrite state_of_bind. fold event_input.
  match goal with |- identities (app_inner (state_of ?tail ?x)) = _ =>
    assert (Ht : frame π tail) by frame_tac; exact (Ht x) end.
Qed.

(** C8. In a well-formed log, a WhatsApp message delivered again is not recorded
    again: whatever the outside answered the first time and answers now, the second delivery leaves
    the index of the messages as it is: the same identifiers, and under each the
    same message, reaction, status and flags included; only the fields of its media
    (identifier, addresses, file name, type) and the time of its last update may
    differ. *)
Theorem message_event_once {EL : EnvLaws} o o' s :
  WF s → Z.of_nat (app_uuids s) < i64_max →
  let s1 := state_of (deliver o) s in
  identities (app_inner (state_of (deliver o') s1)) = identities (app_inner s1).
Proof.
  intros Hs Hb s1. pose proof (deliver_cases o s) as H1. fold s1 in H1.
  pose proof (deliver_cases o' s1) as H2.
  assert (Hacc : accepted s = false → accepted s1 = false).
  { intros Ha. rewrite Ha in H1. destruct H1 as [_ Hch]. unfold accepted, channel_connected_at in *.
    by rewrite Hch. }
  destruct (accepted s1) eqn:E1; [|apply H2].
  destruct (accepted s) eqn:E; [|by specialize (Hacc eq_refl)].
  destruct (recorded_known event_input wa s Hs Hb eq_refl) as (k & Hk & _).
  assert (Hk1 : is_Some (known_wa_message event_input (app_inner s1))).
  { eapply known_identities; [symmetry; exact H1|]. by exists k. }
  destruct Hk1 as [k1 Hk1]. rewrite H2. unfold state_of. by rewrite (record_whatsapp_known _ _ _ Hk1).
Qed.
End message.
End delivery.

(** ** A pairing code stays in the process *)
Section qr.
Context `{Env} `{Crypto} `{RawCodec}.

(** What leaves the process: the events broadcast, kept, and given to the bus. *)
Definition published (s : AppState) : list CommonEvent * list CommonEvent * EventBusHandle :=
  (app_events_tx s, st_events (app_inner s), app_event_bus s).

(** What the next event is made of. *)
Definition next_event (s : AppState)
  : list CommonEvent * list CommonEvent * EventBusHandle * nat * nat :=
  (published s, app_clock s, app_uuids s).

Lemma persist_next : frame next_event persist_locked.
Proof. intros s. unfold persist_locked, state_of, modify. simpl. by destruct (app_has_sink s). Qed.

Lemma channel_event_next runtime t cv v s s' :
  next_event s = next_event s' →
  published (state_of (channel_event runtime t cv v) s)
  = published (state_of (channel_event runtime t cv v) s').
Proof.
  intros Hn. unfold channel_event, push_event. rewrite !state_of_bind.
  assert (Hp : ∀ x, published (state_of persist_locked x) = published x).
  { intros x. exact (f_equal (λ k, k.1.1) (persist_next x)). }
  rewrite !Hp. destruct s, s'. unfold next_event, published in Hn. simpl in Hn.
  injection Hn as -> He -> -> ->. unfold published, state_of, value_of, push_event_inner, modify.
  simpl. by rewrite He.
Qed.

Lemma set_qr_next id st code e : frame next_event (set_qr id st code e).
Proof.
  unfold set_qr. cbv zeta. apply frame_bind; [by intros s|]. intros _.
  apply frame_bind; [apply persist_next|]. intros _. by intros s.
Qed.

(** The code that pairs a phone never leaves the process in an event: what is
    published when it arrives does not depend on it, with or without Kafka. *)
Theorem qr_code_not_published o metadata_db runtime code code' timeout s :
  published (state_of (handle_whatsapp_event o metadata_db runtime
                         (EvPairingQrCode code timeout)) s)
  = published (state_of (handle_whatsapp_event o metadata_db runtime
                           (EvPairingQrCode code' timeout)) s).
Proof.
  assert (Hinline : ∀ c, state_of (handle_whatsapp_event o metadata_db runtime
      (EvPairingQrCode c timeout)) s = state_of (on_qr_code runtime c timeout) s).
  { intros c. unfold handle_whatsapp_event, get_config. rewrite state_of_gets.
    cbn [raw_whatsapp_event_must_stay_inline negb]. rewrite andb_false_r, state_of_ret.
    reflexivity. }
  rewrite !Hinline. unfold on_qr_code. rewrite !(state_of_bind (set_channel_status _ _ _)).
  set (s1 := state_of (set_channel_status _ _ _) s). rewrite !(state_of_bind now_utc).
  set (s2 := state_of now_utc s1). rewrite !(state_of_bind (set_qr _ _ _ _)), !state_of_then_ret.
  apply channel_event_next. by rewrite !set_qr_next.
Qed.
End qr.

(** ** A message of the demonstration channel *)
Definition demo_outside : Outside := {|
  ow_io := reliable_io;
  ow_staging := reliable_staging;
  ow_download := λ _ _, Err "no media"%string;
  ow_contact_profile := λ _ _, Err "offline"%string;
  ow_group_profile := λ _ _, Err "offline"%string;
  ow_parse_url := λ _, Err "not a URL"%string;
  ow_http_get := λ _, None;
  ow_start := Ok true;
  ow_from_unix := λ n, Some (seconds n) |}.
(** A codec that refuses every raw event. *)
Definition no_raw_events : RawCodec :=
  Build_RawCodec (λ _ _, Err "refused"%string) (λ _, Err "refused"%string).
Definition demo_runtime : ChannelRuntime :=
  mkChannelRuntime "p" "c" "channel_dev" "/sessions/p/c/channel_dev/session.sqlite".
Definition demo_event : WhatsappEvent :=
  EvMessage "wa9" demo_customer demo_customer None None None (Some "Ana"%string)
    (Some "hello"%string) "text" None (seconds 5000) false.
Definition demo_handle : M (list Task) :=
  @process_whatsapp_event demo_env toy_crypto demo_outside demo_runtime demo_event.

(** The event records a message, the second delivery none. *)
Lemma message_event_once_witness :
  size (identities (app_inner demo_state)) = 2%nat
  ∧ size (identities (app_inner (state_of demo_handle demo_state))) = 3%nat
  ∧ identities (app_inner (state_of demo_handle (state_of demo_handle demo_state)))
    = identities (app_inner (state_of demo_handle demo_state)).
Proof.
  split; [vm_compute; reflexivity|]. split; [vm_compute; reflexivity|].
  exact (@message_event_once demo_env toy_crypto demo_runtime "wa9" demo_customer demo_customer
    None None None (Some "Ana"%string) (Some "hello"%string) "text" None (seconds 5000) false
    demo_env_laws demo_outside demo_outside demo_state demo_state_wf eq_refl).
Defined.
