(* ===== verification/Outbox.v ===== *)
(** * Durable events (src/eventbus.rs, src/state.rs)

    A deployment with a metadata database: the application state, the tables
    and the Kafka broker.  The publisher that moves outbox rows to Kafka, the
    drainer that handles them in the process, the background publisher of a
    deployment without database, and the consumer with its inbox. *)
From S2P Require Import Prelude Text Json Errors Env Secrets Config Models Records EventBus.
From S2P Require Import Codec Tables Database Relational Whatsapp Store Bytes Transcripts Sending.

(** What was written to a topic. *)
Record KafkaRecord : Type := mkKafkaRecord {
  kr_topic : string;
  kr_key : string;
  kr_payload : string
}.
#[export] Instance kafka_record_eq_dec : EqDecision KafkaRecord.
Proof. solve_decision. Defined.

(** [bk_log]: the records the broker keeps; [bk_committed]: the next offset of
    each consumer group, topic and partition; [bk_sends], [bk_commits]: the
    requests made so far. *)
Record Broker : Type := mkBroker {
  bk_log : list KafkaRecord;
  bk_committed : gmap (string * string * Z) Z;
  bk_sends : nat;
  bk_commits : nat
}.
#[export] Instance eta_Broker : Eta Broker := λ r,
  mkBroker (bk_log r) (bk_committed r) (bk_sends r) (bk_commits r).

Record World : Type := mkWorld {
  w_app : AppState;
  w_db : Db;
  w_kafka : Broker
}.
#[export] Instance eta_World : Eta World := λ r, mkWorld (w_app r) (w_db r) (w_kafka r).
Abbreviation W A := (ST World A).

(** The Kafka client: what becomes of the [n]-th produced record (a record can
    be written although its producer sees an error) and whether the [n]-th
    offset commit fails. *)
Inductive Delivery :=
| Delivered (partition offset : Z)
| NotDelivered (err : string)
| Unacknowledged (err : string).
Class KafkaClient := {
  kafka_send : nat → Delivery;
  kafka_commit : nat → option string
}.

(** A message as the consumer receives it. *)
Record KafkaMessage : Type := mkKafkaMessage {
  km_topic : string;
  km_partition : Z;
  km_offset : Z;
  km_payload : option string
}.
(** [KafkaConsumerMessage] *)
Record KafkaConsumerMessage : Type := mkKafkaConsumerMessage {
  kcm_event : CommonEvent;
  kcm_source : EventSourceOffset
}.

Section outbox.
Context `{Env} `{Crypto} `{Serde} `{Postgres} `{KafkaClient}.

Definition on_app {A} (m : M A) : W A := λ w,
  let '(a, s) := m (w_app w) in (a, w <| w_app := s |>).
Definition on_db {A} (m : D A) : W (result A string) := λ w,
  let '(a, d) := m (w_db w) in (a, w <| w_db := d |>).

(** [metrics.lock()] *)
Definition with_metrics (f : EventBusRuntimeMetrics → EventBusRuntimeMetrics) : W unit :=
  on_app (modify (λ s, s <| app_event_bus ::= λ b, b <| bus_metrics ::= f |> |>)).
Definition kafka_config : W KafkaConfig := gets (λ w, cfg_kafka (app_config (w_app w))).

(** ** Producing *)
Definition publish_payload (topic key payload : string) : W (result PublishAck EventBusError) :=
  λ w,
  let k := w_kafka w <| bk_sends ::= S |> in
  let written := k <| bk_log ::= λ l, l ++ [mkKafkaRecord topic key payload] |> in
  match kafka_send (bk_sends (w_kafka w)) with
  | Delivered partition offset =>
    (Ok (mkPublishAck topic partition offset key), w <| w_kafka := written |>)
  | NotDelivered err => (Err (Kafka err), w <| w_kafka := k |>)
  | Unacknowledged err => (Err (Kafka err), w <| w_kafka := written |>)
  end.

Definition publish (event : CommonEvent) : W (result PublishAck EventBusError) :=
  let! kafka := kafka_config in
  match encode_event_for_kafka event_to_vec kafka event with
  | Err e => ret (Err e)
  | Ok payload =>
    publish_payload (topic_for_event kafka (ev_event_type event)) (partition_key event) payload
  end.
Definition publish_deadletter (envelope : DeadLetterEnvelope)
  : W (result PublishAck EventBusError) :=
  let! kafka := kafka_config in
  match encode_deadletter_for_kafka deadletter_to_vec kafka envelope with
  | Err e => ret (Err e)
  | Ok payload =>
    publish_payload (deadletter_topic kafka) (partition_key (dl_event envelope)) payload
  end.

Definition make_deadletter (event : CommonEvent) (retry_count : Z) (error : string)
  : W DeadLetterEnvelope :=
  let! now := on_app now_utc in ret (deadletter_envelope now event retry_count error).

Definition count_attempt (topic : string) (m : EventBusRuntimeMetrics) : EventBusRuntimeMetrics :=
  m <| bm_publish_attempts ::= λ n, wrap_u64 (n + 1) |> <| bm_last_topic := Some topic |>.
Definition count_success (m : EventBusRuntimeMetrics) : EventBusRuntimeMetrics :=
  m <| bm_publish_successes ::= λ n, wrap_u64 (n + 1) |> <| bm_last_error := None |>.
Definition count_failure (error : string) (m : EventBusRuntimeMetrics) : EventBusRuntimeMetrics :=
  m <| bm_publish_failures ::= λ n, wrap_u64 (n + 1) |> <| bm_last_error := Some error |>.
Definition count_deadletter (m : EventBusRuntimeMetrics) : EventBusRuntimeMetrics :=
  m <| bm_deadletter_attempts ::= λ n, wrap_u64 (n + 1) |>.
Definition count_deadletter_success (m : EventBusRuntimeMetrics) : EventBusRuntimeMetrics :=
  m <| bm_deadletter_successes ::= λ n, wrap_u64 (n + 1) |>.
(** The last twenty dead letters. *)
Definition keep_deadletter (envelope : DeadLetterEnvelope) (m : EventBusRuntimeMetrics)
  : EventBusRuntimeMetrics :=
  m <| bm_recent_deadletters ::= λ l,
    (if decide (20 ≤ length l)%nat then tail l else l) ++ [envelope] |>.

(** ** The background publisher, without a database *)
Definition publish_from_channel (event : CommonEvent) : W unit :=
  let! kafka := kafka_config in
  with_metrics (count_attempt (topic_for_event kafka (ev_event_type event)));;;
  let! r := publish event in
  match r with
  | Ok _ => with_metrics count_success
  | Err err =>
    let error := bus_error_message err in
    with_metrics (count_failure error);;;
    let! envelope := make_deadletter event 1 error in
    with_metrics (keep_deadletter envelope ∘ count_deadletter);;;
    let! r := publish_deadletter envelope in
    if is_ok r then with_metrics count_deadletter_success else ret tt
  end.

(** One turn of the task: [rx.recv()] takes the first event of the channel. *)
Definition spawn_kafka_publisher_step : W unit := λ w,
  match bus_tx (app_event_bus (w_app w)) with
  | Some (alive, event :: rest) =>
    publish_from_channel event
      (w <| w_app ::= λ s, s <| app_event_bus ::= λ b, b <| bus_tx := Some (alive, rest) |> |> |>)
  | _ => (tt, w)
  end.

(** ** The publisher of the outbox *)

(** [5 * 2 ^ min(attempts, 6)] seconds, saturating. *)
Definition retry_backoff (attempts : Z) : Z :=
  sat_mul_i64 5 (Z.min (2 ^ wrap_u32 (Z.min attempts 6)) i64_max).

(** A failure of the broker: dead-lettered at the configured number of
    attempts, tried again later before. *)
Definition publish_failed (record : OutboxRecord) (event : CommonEvent) (err : EventBusError)
  : Async World unit :=
  do! kafka := kafka_config in
  let error := bus_error_message err in
  let attempts := sat_add_i32 (or_attempt_count record) 1 in
  if decide (kafka_retry_max_attempts kafka ≤ wrap_u32 attempts) then
    do! envelope := make_deadletter event (wrap_u32 attempts) error in
    do! _ := on_db (insert_kafka_deadletter envelope (Some (or_topic record))
                       (or_partition_key record)) in
    do! r := publish_deadletter envelope in
    do! _ := (if is_ok r then with_metrics count_deadletter_success else ret tt) in
    do! _ := on_db (mark_event_outbox_deadlettered (or_event_id record) error) in
    do! _ := with_metrics (count_failure error ∘ count_deadletter) in Finish tt
  else
    do! _ := on_db (mark_event_outbox_failed (or_event_id record) error
                       (retry_backoff attempts)) in
    do! _ := with_metrics (count_failure error) in Finish tt.

(** Each statement and each record sent is a block: the statements of other
    workers come in between. *)
Definition publish_outbox_blocks (record : OutboxRecord) : Async World unit :=
  do! _ := with_metrics (count_attempt (or_topic record)) in
  do! kafka := kafka_config in
  match event_from_value (or_payload_json record) with
  | Err err =>
    do! _ := on_db (mark_event_outbox_failed (or_event_id record) err 60) in
    do! _ := with_metrics (count_failure err) in Finish tt
  | Ok event =>
    match encode_event_for_kafka event_to_vec kafka event with
    | Err err =>
      let error := bus_error_message err in
      do! _ := on_db (mark_event_outbox_deadlettered (or_event_id record) error) in
      do! envelope := make_deadletter event (wrap_u32 (wrap_u32 (or_attempt_count record) + 1))
                         error in
      do! _ := on_db (insert_kafka_deadletter envelope (Some (or_topic record))
                         (or_partition_key record)) in
      do! _ := with_metrics (count_failure error ∘ count_deadletter) in Finish tt
    | Ok payload =>
      do! r := publish_payload (or_topic record) (or_partition_key record) payload in
      match r with
      | Ok ack =>
        do! _ := on_db (mark_event_outbox_published (or_event_id record)
                           (ack_partition ack) (ack_offset ack)) in
        do! _ := with_metrics count_success in Finish tt
      | Err err => publish_failed record event err
      end
    end
  end.

(** The run that no other worker interrupts. *)
Definition publish_outbox_record (record : OutboxRecord) : W unit :=
  run_async (publish_outbox_blocks record).

(** One turn of the loop of [spawn_outbox_publisher]. *)
Definition spawn_outbox_publisher_blocks (worker_id : string) : Async World unit :=
  do! r := on_db (claim_event_outbox_batch worker_id 100 30) in
  match r with
  | Err err => do! _ := with_metrics (λ m, m <| bm_last_error := Some err |>) in Finish tt
  | Ok records => call_each publish_outbox_blocks records
  end.
Definition spawn_outbox_publisher_step (worker_id : string) : W unit :=
  run_async (spawn_outbox_publisher_blocks worker_id).

(** ** The drainer of a Postgres event bus (state.rs) *)
Section drainer.
Context (io : ByteIo)
  (send_media : string → string → OutboundMediaMessage → option (result string string))
  (send_text : string → string → string → option (result string string))
  (respond : string → string → string → result GroqTranscription string).

Definition drain_failed (record : OutboxRecord) (error : string) : W unit :=
  let! kafka := kafka_config in
  let attempts := sat_add_i32 (or_attempt_count record) 1 in
  let! _ := on_db (if decide (kafka_retry_max_attempts kafka ≤ wrap_u32 attempts)
                   then mark_event_outbox_deadlettered (or_event_id record) error
                   else mark_event_outbox_failed (or_event_id record) error
                          (retry_backoff attempts)) in
  ret tt.

Definition process_postgres_outbox_record (record : OutboxRecord) : W unit :=
  match event_from_value (or_payload_json record) with
  | Err err =>
    let! _ := on_db (mark_event_outbox_deadlettered (or_event_id record) err) in ret tt
  | Ok event =>
    if negb (internal_work_event_type (ev_event_type event)) then
      let! _ := on_db (mark_event_outbox_published (or_event_id record) (-1) (-1)) in ret tt
    else
      let! result := on_app (handle_internal_work_event io send_media send_text respond event) in
      match result with
      | Ok _ =>
        let! _ := on_db (mark_event_outbox_published (or_event_id record) (-1) (-1)) in ret tt
      | Err err => drain_failed record (error_message err)
      end
  end.

(** One turn of the loop of [spawn_postgres_event_drainer]. *)
Definition spawn_postgres_event_drainer_step (worker_id : string) : W unit :=
  let! r := on_db (claim_event_outbox_batch worker_id 50 30) in
  match r with
  | Err _ => ret tt
  | Ok records => for_each process_postgres_outbox_record records
  end.
End drainer.

(** ** Persistence: the task that writes the latest snapshot (state.rs)

    The channel holds the last snapshot only ([app_persisted]). *)
Definition persist_latest_snapshot : W (result unit string) := λ w,
  match app_persisted (w_app w) with
  | None => (Ok tt, w)
  | Some store =>
    (let! now := on_app now_utc in
     on_db (persist_store store (cfg_kafka (app_config (w_app w))) now)) w
  end.

(** ** The consumer *)

(** [consumer.commit_message]: the group's next offset of the partition. *)
Definition commit_message (consumer_group : string) (source : EventSourceOffset)
  : W (result unit EventBusError) := λ w,
  let k := w_kafka w <| bk_commits ::= S |> in
  match kafka_commit (bk_commits (w_kafka w)) with
  | Some err => (Err (Kafka err), w <| w_kafka := k |>)
  | None =>
    (Ok tt, w <| w_kafka := k <| bk_committed ::=
       <[(consumer_group, src_topic source, src_partition source) := src_offset source + 1]> |> |>)
  end.

Definition kafka_err {A} (r : result A string) : result A EventBusError :=
  match r with Ok a => Ok a | Err e => Err (Kafka e) end.

(** The rest of [consume_one_message_with_inbox], once the message is decoded. *)
Definition consume_event (consumer_group : string)
    (handler : KafkaConsumerMessage → W (result ConsumerHandlerStatus EventBusError))
    (source : EventSourceOffset) (event : CommonEvent)
  : W (result ConsumerCommitDecision EventBusError) :=
  let! already := on_db (event_inbox_processed consumer_group event (src_topic source)
                           (src_partition source) (src_offset source)) in
  match kafka_err already with
  | Err e => ret (Err e)
  | Ok already_processed =>
    let! result := (if already_processed then ret (Ok Duplicate)
                    else handler (mkKafkaConsumerMessage event source)) in
    match from_handler_result result with
    | DoNotCommit => ret (Ok DoNotCommit)
    | Commit =>
      try! _ := (if already_processed then ret (Ok tt)
                 else let! r := on_db (mark_event_inbox_processed consumer_group event
                                         (src_topic source) (src_partition source)
                                         (src_offset source)) in
                      ret (kafka_err r)) in
      try! _ := commit_message consumer_group source in
      ret (Ok Commit)
    end
  end.

(** [message]: what [consumer.recv()] answers. *)
Definition consume_one_message_with_inbox (consumer_group : string)
    (message : result KafkaMessage string)
    (handler : KafkaConsumerMessage → W (result ConsumerHandlerStatus EventBusError))
  : W (result ConsumerCommitDecision EventBusError) :=
  match kafka_err message with
  | Err e => ret (Err e)
  | Ok message =>
    let source := mkEventSourceOffset (km_topic message) (km_partition message)
                    (km_offset message) in
    match km_payload message with
    | None => ret (Err (Kafka "Kafka message payload missing"))
    | Some payload =>
      match event_from_slice payload with
      | Err e => ret (Err (Codec e))
      | Ok event => consume_event consumer_group handler source event
      end
    end
  end.
End outbox.

(** ** Topics and start-up *)
Record NewTopic : Type := mkNewTopic {
  nt_name : string;
  nt_partitions : Z;
  nt_replication : Z;
  nt_config : list (string * string)
}.

Section topics.
Context `{Env}.

(** [fetch_metadata]'s topics, or its error. *)
Context (existing_topics : result (list string) EventBusError).

Definition missing_specs (kafka : KafkaConfig) (existing : list string) : list TopicSpec :=
  retain_list (λ spec, negb (bool_decide (spec_name spec ∈ existing)))
    (required_topic_specs kafka).

Definition new_topic (kafka : KafkaConfig) (spec : TopicSpec) : NewTopic := {|
  nt_name := spec_name spec;
  nt_partitions := spec_partitions spec;
  nt_replication := spec_replication_factor spec;
  nt_config := [("retention.ms", fmt_Z (spec_retention_ms spec));
                ("max.message.bytes", fmt_Z (kafka_message_max_bytes kafka))]%string
|}.

(** The first failure that is not [TopicAlreadyExists]. *)
Fixpoint topic_results (results : list (result string (string * RdkafkaErrorCodeView)))
  : result unit EventBusError :=
  match results with
  | [] => Ok tt
  | (Ok _ | Err (_, TopicAlreadyExists)) :: results => topic_results results
  | Err (topic, OtherCode code) :: _ => Err (KafkaTopicCreate topic (OtherCode code))
  end.

(** [create_topics]: the admin client's answer, topic by topic. *)
Definition ensure_topics (kafka : KafkaConfig)
    (create_topics : list NewTopic →
       result (list (result string (string * RdkafkaErrorCodeView))) EventBusError)
  : result unit EventBusError :=
  let? existing := existing_topics in
  let missing := missing_specs kafka existing in
  if decide (missing = []) then Ok tt
  else if negb (kafka_enable_auto_create_topics kafka)
  then Err (MissingTopics (String.concat ", " (spec_name <$> missing)))
  else
    let? results := create_topics (new_topic kafka <$> missing) in
    topic_results results.

Definition kafka_health (kafka : KafkaConfig) : result EventBusHealth EventBusError :=
  let? existing := existing_topics in
  let missing := missing_specs kafka existing in
  if decide (missing = []) then
    Ok (mkEventBusHealth true ("kafka ready at " +:+ unwrap_or (kafka_brokers kafka) ""))
  else
    Ok (mkEventBusHealth false ("Kafka missing required topics: "
                                +:+ String.concat ", " (spec_name <$> missing))).

(** [EventBusHandle::health]: of the broker, when the handle has one. *)
Definition bus_health (h : EventBusHandle) (has_kafka : bool) : EventBusHealth :=
  if has_kafka then
    match kafka_health (bus_kafka_config h) with
    | Ok health => health
    | Err err => mkEventBusHealth false (bus_error_message err)
    end
  else health_check (bus_mode h) (bus_kafka_config h).

(** [KafkaEventBus::connect]: the client is created by the library. *)
Definition kafka_connect (kafka : KafkaConfig) (create_client : string → result unit string)
  : result unit EventBusError :=
  match opt_filter (λ value, negb (is_blank value)) (kafka_brokers kafka) with
  | None => Err MissingBrokers
  | Some brokers => match create_client brokers with Ok _ => Ok tt | Err e => Err (Kafka e) end
  end.

(** [from_config_with_outbox]: with a database the outbox publisher runs and
    there is no channel. *)
Definition from_config_with_outbox (mode : EventBusMode) (kafka : KafkaConfig)
    (has_outbox_db : bool) (create_client : string → result unit string)
    (create_topics : list NewTopic →
       result (list (result string (string * RdkafkaErrorCodeView))) EventBusError)
  : result EventBusHandle EventBusError :=
  match mode with
  | BusKafka =>
    let? _ := kafka_connect kafka create_client in
    let? _ := ensure_topics kafka create_topics in
    Ok (mkEventBusHandle mode kafka (if has_outbox_db then None else Some (true, []))
          default_metrics has_outbox_db)
  | BusInMemory | BusPostgres => Ok (local_handle mode kafka)
  end.
End topics.

Record EventBusRuntimeSnapshot : Type := mkEventBusRuntimeSnapshot {
  ebs_mode : string;
  ebs_kafka_required : bool;
  ebs_brokers_configured : bool;
  ebs_required_topics : list string;
  ebs_metrics : EventBusRuntimeMetrics;
  ebs_durable_outbox : bool
}.

(** [format!("{:?}", self.mode)] *)
Definition mode_debug (mode : EventBusMode) : string :=
  match mode with BusInMemory => "InMemory" | BusPostgres => "Postgres" | BusKafka => "Kafka" end.
Definition bus_snapshot (h : EventBusHandle) : EventBusRuntimeSnapshot := {|
  ebs_mode := mode_debug (bus_mode h);
  ebs_kafka_required := bool_decide (bus_mode h = BusKafka);
  ebs_brokers_configured :=
    is_some_and (kafka_brokers (bus_kafka_config h)) (λ value, negb (is_blank value));
  ebs_required_topics := spec_name <$> required_topic_specs (bus_kafka_config h);
  ebs_metrics := bus_metrics h;
  ebs_durable_outbox := bus_durable_outbox h
|}.

(** Running a database computation in the deployment. *)
Lemma on_db_run {A} (m : D A) w :
  state_of (on_db m) w = w <| w_db := state_of m (w_db w) |>
  ∧ value_of (on_db m) w = value_of m (w_db w).
Proof. unfold state_of, value_of, on_db. by destruct (m (w_db w)). Qed.
Lemma on_app_run {A} (m : M A) w :
  state_of (on_app m) w = w <| w_app := state_of m (w_app w) |>
  ∧ value_of (on_app m) w = value_of m (w_app w).
Proof. unfold state_of, value_of, on_app. by destruct (m (w_app w)). Qed.
