(* ===== verification/Workers.v ===== *)
(** * The Kafka workers (src/workers.rs)

    With a Kafka event bus and a Postgres metadata database, three consumers,
    one per topic of work, hand each event to [AppState]. *)
From S2P Require Import Prelude Text Json Errors Env Secrets Config Models Records EventBus.
From S2P Require Import Codec Tables Database Whatsapp Store Bytes Transcripts Sending WhatsappEvents Outbox.

Section workers.
Context `{Env} `{Crypto} `{RawCodec} `{Serde} `{Postgres} `{KafkaClient}.

(** [kafka::spawn]: the consumer group and the topics of each worker. *)
Definition worker (config : AppConfig) (worker_name event_type : string)
  : string * list string :=
  (kafka_consumer_group (cfg_kafka config) +:+ "." +:+ worker_name,
   [topic_for_event (cfg_kafka config) event_type]).
Definition spawn (config : AppConfig) (metadata_db : bool) : list (string * list string) :=
  if decide (cfg_event_bus config ≠ BusKafka ∨ cfg_metadata_db config ≠ DbPostgres) then []
  else if negb metadata_db then []
  else
    [worker config "raw-inbound" "whatsapp.raw.inbound";
     worker config "outbound-send" "outbound.send.requested";
     worker config "audio-transcription" "audio.transcription.requested"].

(** What WhatsApp, the byte store and the speech-to-text service answer. *)
Context (o : Outside) (io : ByteIo)
  (send_media : string → string → OutboundMediaMessage → option (result string string))
  (send_text : string → string → string → option (result string string))
  (respond : string → string → string → result GroqTranscription string).

(** The operation of [AppState] for the event. *)
Definition work (event : CommonEvent) : M (result unit ApiError) :=
  if decide (ev_event_type event = "whatsapp.raw.inbound") then
    let! r := process_whatsapp_raw_event o event in ret (map_result (λ _, tt) r)
  else if decide (ev_event_type event = "outbound.send.requested") then
    let! r := process_outbound_send_request io send_media send_text event in
    ret (map_result (λ _, tt) r)
  else if decide (ev_event_type event = "audio.transcription.requested") then
    let! r := process_transcription_request io respond event in ret (map_result (λ _, tt) r)
  else ret (Ok tt).

(** A failure is dead-lettered; when it cannot be, the message is not committed. *)
Definition handle_message (message : KafkaConsumerMessage)
  : W (result ConsumerHandlerStatus EventBusError) :=
  let event := kcm_event message in
  let! result := on_app (work event) in
  match result with
  | Ok _ => ret (Ok Processed)
  | Err err =>
    let! envelope := make_deadletter event 1 (error_message err) in
    let! inserted := on_db (insert_kafka_deadletter envelope
                              (Some (src_topic (kcm_source message)))
                              (partition_key (dl_event envelope))) in
    match inserted with
    | Err insert_err => ret (Err (Kafka insert_err))
    | Ok _ => ret (Ok DeadLettered)
    end
  end.

(** One turn of the loop of [spawn_worker]; an error is logged and waited out. *)
Definition spawn_worker_step (group_id : string) (message : result KafkaMessage string) : W unit :=
  let! _ := consume_one_message_with_inbox group_id message handle_message in
  ret tt.
End workers.
