(* ===== verification/Startup.v ===== *)
(** * Starting and restarting a process (src/state.rs, src/main.rs)

    [AppState::from_config]: the event bus, the snapshot and the upgrade of the
    legacy secrets; then the WhatsApp sessions found on disk are connected. *)
From S2P Require Import Prelude Text Json Errors Env Secrets Config Models Records Snapshot EventBus.
From S2P Require Import Codec Database Store Callbacks Channels Outbox.

(** The file system: the readable entries of a directory, if it can be read. *)
Class Directories := {
  read_dir : string → option (list string);
  is_dir : string → bool;
  path_exists : string → bool
}.

(** What [from_config] is told by the outside: environment variables, files,
    the text of a snapshot, the pool and the migrations, the Kafka client. *)
Record Host : Type := mkHost {
  host_var : string → option string;
  host_read : string → option string;
  host_parse_store : string → result PersistedStore string;
  host_connect : string → result unit string;
  host_migrate : D unit;
  host_existing_topics : result (list string) EventBusError;
  host_create_client : string → result unit string;
  host_create_topics :
    list NewTopic → result (list (result string (string * RdkafkaErrorCodeView))) EventBusError;
  host_nonce : string → option string
}.

Section startup.
Context `{Env} `{Crypto} `{Serde} `{Postgres}.

(** ** The snapshot file *)
Definition dev_state_path (var : string → option string) (config : AppConfig) : option string :=
  if decide (cfg_metadata_db config ≠ DbInMemory) then None
  else
    opt_or (opt_filter (λ value, negb (bool_decide (value = "")))
              (trim <$> var "RUSTZAP_DEV_STATE_PATH"))
      (Some (path_join (cfg_wa_session_sqlite_dir config) "dev-metadata.json")).
Definition load_dev_state (h : Host) (path : string) : option PersistedStore :=
  match host_read h path with
  | None => None
  | Some bytes => match host_parse_store h bytes with Ok store => Some store | Err _ => None end
  end.

(** ** [AppState::from_config] *)
Definition connect (h : Host) (config : AppConfig) : result unit string :=
  match cfg_database_url config with
  | None => Err "DATABASE_URL is required when RUSTZAP_METADATA_DB=postgres"%string
  | Some database_url =>
    match host_connect h database_url with
    | Ok _ => Ok tt
    | Err _ => Err "failed to connect to metadata Postgres"%string
    end
  end.
Definition bus_of (h : Host) (config : AppConfig) (has_outbox_db : bool)
  : result EventBusHandle string :=
  match from_config_with_outbox (host_existing_topics h) (cfg_event_bus config) (cfg_kafka config)
          has_outbox_db (host_create_client h) (host_create_topics h) with
  | Ok bus => Ok bus
  | Err e => Err (bus_error_message e)
  end.
(** The process [new] takes the place of the one before. *)
Definition begin_process (h : Host) (new : AppState) : W unit := λ w,
  on_app (upgrade_legacy_callback_secrets (host_nonce h)) (w <| w_app ::= λ old, outlives old new |>).

Definition from_config (h : Host) (config : AppConfig) : W (result unit string) :=
  if decide (cfg_metadata_db config ≠ DbPostgres) then
    match bus_of h config false with
    | Err e => ret (Err e)
    | Ok bus =>
      let path := dev_state_path (host_var h) config in
      begin_process h
        (app_with config (bool_decide (is_Some path)) bus (path ≫= load_dev_state h));;;
      ret (Ok tt)
    end
  else
    match connect h config with
    | Err e => ret (Err e)
    | Ok _ =>
      try! _ := on_db (host_migrate h) in
      match bus_of h config true with
      | Err e => ret (Err e)
      | Ok bus =>
        try! loaded := on_db load_snapshot in
        begin_process h (app_with config true bus loaded);;;
        ret (Ok tt)
      end
    end.

(** ** The sessions on disk *)
Section sessions.
Context `{Directories}.

Definition discover_session_channels (base : string) : list (string * string * string) :=
  let entries path := if is_dir path then default [] (read_dir path) else [] in
  default [] (read_dir base) ≫= λ project_id,
  let project_path := path_join base project_id in
  entries project_path ≫= λ company_id,
  let company_path := path_join project_path company_id in
  entries company_path ≫= λ channel_id,
  if path_exists (path_join (path_join company_path channel_id) "session.sqlite")
  then [(project_id, company_id, channel_id)] else [].

Definition channel_exists (channel_id : string) : M bool :=
  gets (λ s, bool_decide (is_Some (st_channels (app_inner s) !! channel_id))).

(** One session: its tenant, its channel, its connection.  [outcome]: how the
    client library answers the connection of a channel. *)
Definition restore_session (outcome : string → result bool string)
    (session : string * string * string) : M (result bool ApiError) :=
  let '(project_id, company_id, channel_id) := session in
  let! _ := upsert_project project_id project_id in
  let! _ := upsert_company project_id company_id company_id in
  let! known := channel_exists channel_id in
  try! _ := (if (known : bool) then ret (Ok VNull)
             else create_channel project_id company_id (Some channel_id)
                    (Some "WhatsApp Restored"%string) None) in
  let! r := connect_channel (outcome channel_id) project_id company_id channel_id in
  ret (Ok (is_ok r)).
Fixpoint restore_sessions (outcome : string → result bool string)
    (sessions : list (string * string * string)) (started : nat) : M (result nat ApiError) :=
  match sessions with
  | [] => ret (Ok started)
  | session :: sessions =>
    try! connected := restore_session outcome session in
    restore_sessions outcome sessions (if (connected : bool) then S started else started)
  end.
Definition bootstrap_existing_sessions (outcome : string → result bool string)
  : M (result nat ApiError) :=
  let! config := get_config in
  let base := cfg_wa_session_sqlite_dir config in
  if negb (path_exists base) then ret (Ok 0%nat)
  else restore_sessions outcome (discover_session_channels base) 0.

(** [main], up to the listener. *)
Definition main_start (h : Host) (config : AppConfig) (outcome : string → result bool string)
  : W (result nat string) :=
  try! _ := from_config h config in
  let! r := on_app (bootstrap_existing_sessions outcome) in
  match r with
  | Ok restored_sessions => ret (Ok restored_sessions)
  | Err e => ret (Err "failed to bootstrap existing WhatsApp sessions"%string)
  end.
End sessions.
End startup.
