(* ===== verification/ChannelSpec.v ===== *)
(** * What the channel operations and the sessions on disk promise

    The status a channel shows is that of a live client; a channel keeps its
    company; a QR code that is shown has not expired; every session found on
    disk has its channel when a process has started. *)
From S2P Require Import Prelude Text Json Errors Env Config Models Jid Records EventBus Whatsapp.
From S2P Require Import Store Contacts Groups Conversations Messages Channels MessageLog Demo.
From S2P Require Import Startup.

(** ** Assignments to the fields of an object *)
Definition is_object (v : Value) : Prop := ∃ o, v = VObject o.

Lemma get_str_is_object v k x : get_str v k = Some x → is_object v.
Proof. destruct v; try done. by eexists. Qed.
Lemma index_set_is_object v k x : is_object v → is_object (index_set v k x).
Proof. intros [o ->]. by eexists. Qed.
Lemma get_str_set v k x k' :
  is_object v → get_str (index_set v k x) k' = if decide (k' = k) then as_str x else get_str v k'.
Proof. intros [o ->]. unfold get_str. rewrite get_index_set. by case_decide. Qed.
#[export] Hint Resolve get_str_is_object index_set_is_object : rz.

Section channel_spec.
Context `{Env}.

Lemma disconnected_channel_get now v k :
  is_object v → k ≠ "updated_at"%string → k ≠ "connected_at"%string →
  get_str (disconnected_channel now v) k
  = if decide (k = "status"%string) then Some "disconnected"%string else get_str v k.
Proof.
  intros Hv H1 H2. unfold disconnected_channel.
  rewrite !get_str_set by eauto with rz. by rewrite !decide_False by done.
Qed.

(** What reconciliation leaves: a channel whose client is gone is shown as
    disconnected; otherwise nothing changes. *)
Lemma reconcile_spec id s :
  let s' := state_of (reconcile_channel_runtime_status id) s in
  app_whatsapp s' = app_whatsapp s
  ∧ if negb (is_channel_connected id (app_whatsapp s))
       && bool_decide (stored_status (app_inner s) id = Some "connected"%string)
    then ∃ v now, st_channels (app_inner s) !! id = Some v
           ∧ st_channels (app_inner s') = <[id := disconnected_channel now v]>
               (st_channels (app_inner s))
    else s' = s.
Proof.
  cbv zeta. unfold reconcile_channel_runtime_status, stored_status. rewrite state_of_bind.
  change (value_of (gets ?f) s) with (f s). change (state_of (gets ?f) s) with s. cbv beta.
  destruct (is_channel_connected id (app_whatsapp s)); [done|]. cbn [negb andb].
  rewrite state_of_bind, value_of_inner, state_of_inner.
  destruct (st_channels (app_inner s) !! id) as [v|] eqn:Hv; [|done]. simpl.
  destruct (decide (get_str v "status" ≠ Some "connected"%string)) as [Hne|He].
  { by rewrite bool_decide_eq_false_2. }
  assert (Hst : get_str v "status" = Some "connected"%string).
  { destruct (decide (get_str v "status" = Some "connected"%string)); tauto. }
  rewrite bool_decide_eq_true_2 by done.
  set (x := state_of _ s).
  assert (Hx : app_whatsapp x = app_whatsapp s
    ∧ st_channels (app_inner x) = <[id := disconnected_channel (now_utc_at (app_clock s)) v]>
        (st_channels (app_inner s))).
  { unfold x. rewrite !state_of_bind, state_of_now, value_of_now. cbv beta.
    unfold persist_locked, modify, state_of, push_event, bind, modify.
    simpl. by destruct (app_has_sink s). }
  destruct Hx as [-> ->]. eauto 10.
Qed.

(** The status shown for a channel is the stored one while its client is
    connected, and never [connected] when no live client is. *)
Theorem channel_status_spec id s :
  value_of (channel_status id) s =
    if is_channel_connected id (app_whatsapp s) then stored_status (app_inner s) id
    else if decide (stored_status (app_inner s) id = Some "connected"%string)
         then Some "disconnected"%string else stored_status (app_inner s) id.
Proof.
  unfold channel_status. rewrite !value_of_bind, value_of_inner.
  change (value_of (ret ?x) _) with x.
  destruct (reconcile_spec id s) as [_ Hr].
  destruct (is_channel_connected id (app_whatsapp s)); cbn [negb andb] in Hr; [by rewrite Hr|].
  unfold stored_status in *. case_bool_decide as Hst; [|by rewrite Hr, decide_False].
  rewrite decide_True by done. destruct Hr as (v & now & Hv & ->). rewrite Hv in Hst.
  rewrite lookup_insert_eq. simpl in *.
  by rewrite disconnected_channel_get by eauto with rz.
Qed.

(** The record [create_channel] stores over an existing one. *)
Lemma belongs_is_object v p c : channel_belongs_to_company v p c = true → is_object v.
Proof.
  intros [Hp%bool_decide_eq_true _]%andb_true_iff. by eapply get_str_is_object.
Qed.

(** Creating a channel whose identifier another company uses is a conflict
    that changes nothing; otherwise the record belongs to the company, keeps the
    status of the record it replaces (a new one is disconnected), and only that
    record changes. *)
Theorem create_channel_spec p c id label phone s :
  let '(r, s') := create_channel p c (Some id) label phone s in
  match r with
  | Err e => app_inner s' = app_inner s
      ∧ e = Conflict ("channel " +:+ id +:+ " already exists for another company")
      ∧ ∃ v, st_channels (app_inner s) !! id = Some v ∧ channel_belongs_to_company v p c = false
  | Ok v => app_inner s' = put_channel id v (app_inner s)
      ∧ channel_belongs_to_company v p c = true
      ∧ get_str v "status" = match st_channels (app_inner s) !! id with
                             | Some old => get_str old "status"
                             | None => Some "disconnected"%string end
      ∧ ∀ old, st_channels (app_inner s) !! id = Some old →
               channel_belongs_to_company old p c = true
  end.
Proof.
  unfold create_channel. rewrite bind_run. change (value_of (ret id) s) with id.
  change (state_of (ret id) s) with s. cbv beta. autorewrite with run. cbv beta.
  change (app_inner (s <| app_clock ::= S |>)) with (app_inner s).
  destruct (st_channels (app_inner s) !! id) as [old|] eqn:Hold.
  - destruct (channel_belongs_to_company old p c) eqn:Hb; cbn [negb]; [|by repeat split; eexists].
    pose proof (belongs_is_object _ _ _ Hb) as Ho. cbv zeta. autorewrite with run.
    unfold ret. rewrite persist_locked_inner. split; [done|].
    assert (Hset : ∀ v, is_object v →
      let w := match phone with Some _ => index_set v "phone_e164" (json phone) | None => v end in
      is_object w ∧ ∀ k, k ≠ "phone_e164"%string → get_str w k = get_str v k).
    { intros v Hv. destruct phone; [|done]. split; [eauto with rz|]. intros k Hk.
      by rewrite get_str_set, decide_False. }
    assert (Hlab : ∀ v, is_object v →
      let w := match label with Some l => index_set v "label" (VString l) | None => v end in
      is_object w ∧ ∀ k, k ≠ "label"%string → get_str w k = get_str v k).
    { intros v Hv. destruct label; [|done]. split; [eauto with rz|]. intros k Hk.
      by rewrite get_str_set, decide_False. }
    set (v1 := index_set (index_set old "project_id" (VString p)) "company_id" (VString c)).
    assert (Ho1 : is_object v1) by eauto with rz.
    destruct (Hlab v1 Ho1) as [Ho2 Hk2]. destruct (Hset _ Ho2) as [Ho3 Hk3]. cbv zeta in *.
    unfold channel_belongs_to_company. rewrite !get_str_set by done.
    rewrite !decide_False by done. rewrite !Hk3, !Hk2 by done. unfold v1.
    rewrite !get_str_set by eauto with rz. simpl.
    rewrite !bool_decide_eq_true_2 by done. split; [done|]. split; [done|].
    intros ? [= <-]. exact Hb.
  - autorewrite with run. unfold ret. rewrite persist_locked_inner. split; [done|].
    split; [|by split]. unfold channel_belongs_to_company. by rewrite !bool_decide_eq_true_2.
Qed.

(** The clock only advances. *)
Lemma reconcile_clock id s :
  (app_clock s ≤ app_clock (state_of (reconcile_channel_runtime_status id) s))%nat.
Proof.
  enough (Hp : preserves (λ x, app_clock s ≤ app_clock x)%nat
                 (reconcile_channel_runtime_status id)) by (by apply Hp).
  assert (Hper : preserves (λ x, app_clock s ≤ app_clock x)%nat persist_locked)
    by (intros x; by rewrite persist_locked_clock).
  unfold reconcile_channel_runtime_status, make_event, push_event.
  repeat first
    [ exact Hper
    | apply preserves_bind; [|intros ?]
    | apply preserves_ret | apply preserves_gets
    | match goal with |- preserves _ (match ?x with _ => _ end) => destruct x end
    | intros x Hx; simpl in *; lia ].
Qed.

(** A QR code that is returned has not expired at an instant of the call,
    and a connected channel shows no code. *)
Theorem qr_not_expired id s :
  let '(q, s') := qr id s in
  ∃ n, (app_clock s ≤ n < app_clock s')%nat ∧ qr_is_expired (now_utc_at n) q = false
    ∧ (stored_status (app_inner s') id = Some "connected"%string → qr_qr_code_text q = None).
Proof.
  unfold qr. rewrite bind_run.
  pose proof (reconcile_clock id s) as Hc. set (s1 := state_of _ s) in *. cbv beta. autorewrite with run. cbv beta.
  change (app_inner (s1 <| app_clock ::= S |>)) with (app_inner s1).
  destruct (decide (stored_status (app_inner s1) id = Some "connected"%string)) as [Hst|Hst].
  - autorewrite with run. unfold ret. exists (app_clock s1). simpl. split; [lia|]. done.
  - destruct (st_qr (app_inner s1) !! id) as [q|] eqn:Hq.
    + destruct (qr_is_expired (now_utc_at (app_clock s1)) q) eqn:He.
      * autorewrite with run. unfold ret. exists (app_clock s1). rewrite persist_locked_clock. simpl.
        split; [lia|]. done.
      * exists (app_clock s1). simpl. split; [lia|]. done.
    + autorewrite with run. unfold ret. exists (app_clock s1). simpl. split; [lia|]. done.
Qed.
End channel_spec.

(** ** The sessions found on disk *)
Section bootstrap.
Context `{Env} `{Directories}.

(** ** Connecting a channel removes no channel and leaves the companies *)
Definition grown (companies : gmap key2 Value) (channels : gset string) (s : AppState) : Prop :=
  st_companies (app_inner s) = companies
  ∧ ∀ ch, ch ∈ channels → is_Some (st_channels (app_inner s) !! ch).

Lemma grown_modify_inner C D f :
  (∀ i, st_companies (f i) = st_companies i) →
  (∀ i ch, is_Some (st_channels i !! ch) → is_Some (st_channels (f i) !! ch)) →
  preserves (grown C D) (modify_inner f).
Proof.
  intros Hc Hd. apply preserves_modify. intros s [Hs Hin]. split; simpl; [by rewrite Hc|].
  intros ch Hch. by apply Hd, Hin.
Qed.
Lemma grown_state {A} C D (m : M A) :
  frame (λ s, (st_companies (app_inner s), st_channels (app_inner s))) m → preserves (grown C D) m.
Proof. intros Hm s [Hs Hin]. specialize (Hm s). injection Hm as Hc Hd. split; by rewrite ?Hc, ?Hd. Qed.
Lemma grown_put_channel C D id v : preserves (grown C D) (modify_inner (put_channel id v)).
Proof.
  apply grown_modify_inner; [done|]. intros i ch Hch. simpl. apply lookup_insert_is_Some'. by right.
Qed.
Lemma grown_persist C D : preserves (grown C D) persist_locked.
Proof. apply grown_state. intros s. by rewrite persist_locked_inner. Qed.

Lemma grown_put_both C D q id v :
  preserves (grown C D) (modify_inner (λ i, put_qr q (put_channel id v i))).
Proof.
  apply grown_modify_inner; [done|]. intros i ch Hch. simpl. apply lookup_insert_is_Some'. by right.
Qed.

Ltac grown_step :=
  cbv beta;
  lazymatch goal with
  | |- ∀ _, _ => intros ?
  | |- preserves _ (match ?x with _ => _ end) => destruct x
  | |- preserves _ (bind _ _) => apply preserves_bind; [|intros ?]
  | |- preserves _ (bindR _ _) => apply preserves_bindR; [|intros ?]
  | |- preserves _ persist_locked => apply grown_persist
  | |- preserves _ (modify_inner (put_channel _ _)) => apply grown_put_channel
  | |- preserves _ (modify_inner (λ _, put_qr _ _)) => apply grown_put_both
  | |- preserves _ (ret _) => apply preserves_ret
  | |- preserves _ (gets _) => apply preserves_gets
  | |- preserves (grown _ _) _ =>
    apply grown_state; intros ?; unfold state_of; simpl; repeat case_match; try reflexivity
  end.
Ltac grown_tac := repeat grown_step.

Lemma grown_reconcile C D id : preserves (grown C D) (reconcile_channel_runtime_status id).
Proof. unfold reconcile_channel_runtime_status, get_inner. grown_tac. Qed.
Lemma grown_connect C D outcome p c id : preserves (grown C D) (connect_channel outcome p c id).
Proof.
  unfold connect_channel, channel_for_company, reset_session_if_needed, start_connection,
    set_channel_status, set_qr, wipe_session_files, get_inner, get_config, modify_whatsapp.
  repeat (apply grown_reconcile || grown_step).
Qed.

(** ** One session *)
(** The channel of the session exists, and its company is named after its own
    identifier. *)
Definition restored (session : string * string * string) (s : AppState) : Prop :=
  let '(project_id, company_id, channel_id) := session in
  is_Some (st_channels (app_inner s) !! channel_id)
  ∧ ((λ v, get_str v "name") <$> st_companies (app_inner s) !! (project_id, company_id)) = Some (Some company_id).

Lemma restored_grown s s' session :
  grown (st_companies (app_inner s)) (dom (st_channels (app_inner s))) s' →
  restored session s → restored session s'.
Proof.
  intros [Hc Hd]. destruct session as [[p c] ch]. unfold restored. rewrite Hc. intros [Hch ?].
  split; [|done]. by apply Hd, elem_of_dom.
Qed.
Lemma grown_refl s : grown (st_companies (app_inner s)) (dom (st_channels (app_inner s))) s.
Proof. split; [done|]. intros ch. apply elem_of_dom. Qed.

Lemma upsert_project_run id name s :
  let i := app_inner (state_of (upsert_project id name) s) in
  st_channels i = st_channels (app_inner s) ∧ st_companies i = st_companies (app_inner s).
Proof.
  unfold upsert_project, state_of, bind, now_utc, modify_inner, modify, persist_locked, ret. simpl.
  by destruct (app_has_sink s).
Qed.
Lemma upsert_company_run p c name s :
  let i := app_inner (state_of (upsert_company p c name) s) in
  st_channels i = st_channels (app_inner s)
  ∧ ∃ company, st_companies i = <[(p, c) := company]> (st_companies (app_inner s))
    ∧ get_str company "name" = Some name.
Proof.
  unfold upsert_company, get_config, gets, state_of, bind, now_utc, modify_inner, modify,
    persist_locked, ret. simpl.
  destruct (app_has_sink s); simpl; (split; [done|]); by eexists.
Qed.
Lemma create_channel_run p c ch label s :
  st_channels (app_inner s) !! ch = None →
  let m := create_channel p c (Some ch) label None in
  (∃ v, value_of m s = Ok v)
  ∧ st_companies (app_inner (state_of m s)) = st_companies (app_inner s)
  ∧ ∃ v, st_channels (app_inner (state_of m s)) = <[ch := v]> (st_channels (app_inner s)).
Proof.
  intros Hch m. subst m. unfold create_channel, value_of, state_of, get_inner, bind, gets, ret, now_utc.
  simpl. rewrite Hch. unfold persist_locked, modify_inner, modify. simpl.
  destruct (app_has_sink s); simpl; eauto.
Qed.

Lemma restore_session_run outcome session s :
  (∃ connected, value_of (restore_session outcome session) s = Ok connected)
  ∧ restored session (state_of (restore_session outcome session) s)
  ∧ ∀ x, restored x s → restored x (state_of (restore_session outcome session) s).
Proof.
  destruct session as [[p c] ch]. unfold restore_session.
  rewrite !state_of_bind, !value_of_bind.
  destruct (upsert_project_run p p s) as [Hch1 Hc1].
  set (s1 := state_of (upsert_project p p) s) in *.
  destruct (upsert_company_run p c c s1) as (Hch2 & company & Hco2 & Hname).
  set (s2 := state_of (upsert_company p c c) s1) in *.
  change (value_of (channel_exists ch) s2)
    with (bool_decide (is_Some (st_channels (app_inner s2) !! ch))).
  change (state_of (channel_exists ch) s2) with s2.
  set (create := if bool_decide _ then ret (Ok VNull : result Value ApiError) else _).
  assert (Hcreate : (∃ v, value_of create s2 = Ok v)
    ∧ st_companies (app_inner (state_of create s2)) = st_companies (app_inner s2)
    ∧ is_Some (st_channels (app_inner (state_of create s2)) !! ch)
    ∧ ∀ ch', is_Some (st_channels (app_inner s2) !! ch') →
        is_Some (st_channels (app_inner (state_of create s2)) !! ch')).
  { unfold create. case_bool_decide as Hk; [eauto|]. apply eq_None_not_Some in Hk.
    destruct (create_channel_run p c ch (Some "WhatsApp Restored"%string) s2 Hk) as (Hv & Hc & v & Hd).
    rewrite Hc, Hd, lookup_insert_eq. split_and!; [done..|by eexists|].
    intros ch' Hch'. apply lookup_insert_is_Some'. by right. }
  unfold bindR. rewrite state_of_bind, value_of_bind. destruct Hcreate as ((v & ->) & Hc3 & Hch3 & Hgrow3).
  set (s3 := state_of create s2) in *. rewrite state_of_bind, value_of_bind.
  set (connect := connect_channel (outcome ch) p c ch).
  pose proof (grown_connect _ _ (outcome ch) p c ch s3 (grown_refl s3)) as Hg. fold connect in Hg.
  change (state_of (ret ?x) ?y) with y. split; [by eexists|].
  assert (Hup : ∀ x, restored x s3 → restored x (state_of connect s3)) by (intros x; by apply restored_grown).
  split.
  - apply Hup. split; [done|]. by rewrite Hc3, Hco2, lookup_insert_eq; simpl; rewrite Hname.
  - intros [[p' c'] ch'] [Hx Hn]. apply Hup. split.
    + apply Hgrow3. by rewrite Hch2, Hch1.
    + rewrite Hc3, Hco2, Hc1. destruct (decide ((p', c') = (p, c))) as [[= -> ->]|Hne].
      * rewrite lookup_insert_eq. simpl. by rewrite Hname.
      * by rewrite lookup_insert_ne by congruence.
Qed.

Lemma restore_sessions_run outcome l n s :
  (∃ m, value_of (restore_sessions outcome l n) s = Ok m ∧ (n ≤ m ≤ n + length l)%nat)
  ∧ ∀ x, x ∈ l ∨ restored x s → restored x (state_of (restore_sessions outcome l n) s).
Proof.
  revert n s. induction l as [|x l IH]; intros n s; simpl.
  { split; [exists n; split; [done|lia]|]. intros x [Hx|Hx]; [by apply elem_of_nil in Hx|done]. }
  destruct (restore_session_run outcome x s) as ([b Hb] & Hx & Hkeep).
  unfold bindR. rewrite value_of_bind, state_of_bind, Hb.
  destruct (IH (if b then S n else n) (state_of (restore_session outcome x) s)) as ([m [Hm Hle]] & Hall).
  split; [exists m; split; [done|destruct b; lia]|].
  intros y [[->|Hy]%elem_of_cons|Hy]; apply Hall; auto.
Qed.

(** The sessions of a deployment: a directory per project, company and channel. *)
Definition sessions_on_disk (config : AppConfig) : list (string * string * string) :=
  let base := cfg_wa_session_sqlite_dir config in
  if path_exists base then discover_session_channels base else [].

(** C4. The start never fails for a session: whatever the client library answers,
    every session found on disk has a channel afterwards, and at most as many
    are counted as were found.  Each of their companies is named after its own
    identifier, whatever its name was before. *)
Theorem bootstrap_restores outcome s :
  let s' := state_of (bootstrap_existing_sessions outcome) s in
  (∃ n, value_of (bootstrap_existing_sessions outcome) s = Ok n
        ∧ (n ≤ length (sessions_on_disk (app_config s)))%nat)
  ∧ ∀ project_id company_id channel_id,
      (project_id, company_id, channel_id) ∈ sessions_on_disk (app_config s) →
      is_Some (st_channels (app_inner s') !! channel_id)
      ∧ ∃ company, st_companies (app_inner s') !! (project_id, company_id) = Some company
          ∧ get_str company "name" = Some company_id.
Proof.
  cbv zeta. unfold bootstrap_existing_sessions, get_config, sessions_on_disk.
  rewrite value_of_bind, state_of_bind. change (value_of (gets app_config) s) with (app_config s).
  change (state_of (gets app_config) s) with s.
  destruct (path_exists _); cbn [negb].
  2: { split; [by exists 0%nat|]. intros p c ch Hin%elem_of_nil. done. }
  set (l := discover_session_channels _).
  destruct (restore_sessions_run outcome l 0 s) as ([m [Hm Hle]] & Hall).
  split; [exists m; split; [done|lia]|].
  intros p c ch Hin. destruct (Hall (p, c, ch) (or_introl Hin)) as [Hch Hn]. split; [done|].
  destruct (_ !! (p, c)) as [company|]; [|done]. injection Hn as Hn. by exists company.
Qed.
End bootstrap.

(** ** One session on disk *)
Definition demo_tree : gmap string (list string) :=
  {[ "sessions" := ["p"]; "sessions/p" := ["c"]; "sessions/p/c" := ["phone"];
     "sessions/p/c/phone" := ["session.sqlite"]; "sessions/p/c/phone/session.sqlite" := [] ]}%string.
Definition demo_directories : Directories := {|
  read_dir := λ path, demo_tree !! path;
  is_dir := λ path, bool_decide (is_Some (demo_tree !! path));
  path_exists := λ path, bool_decide (is_Some (demo_tree !! path))
|}.
Definition demo_session_dir : AppState :=
  demo_start <| app_config ::= λ config, config <| cfg_wa_session_sqlite_dir := "sessions"%string |> |>.

Lemma bootstrap_restores_witness :
  is_Some (st_channels (app_inner (state_of
    (@bootstrap_existing_sessions demo_env demo_directories (λ _, Err "offline"%string))
    demo_session_dir)) !! "phone"%string).
Proof.
  destruct (@bootstrap_restores demo_env demo_directories (λ _, Err "offline"%string)
    demo_session_dir) as [_ Hall].
  apply (Hall "p" "c" "phone")%string.
  vm_compute. left.
Defined.
