(* ===== verification/OutboxSpec.v ===== *)
(** * What the durable outbox promises

    The abstract specification is a ledger: an event waits, is sent, is
    completed or buried.  The publisher, its workers with their stale records,
    the snapshots, the replays and every failure of the database or of the
    broker refine it. *)
From S2P Require Import Prelude Text Json Errors Env Secrets Config Models Jid Records EventBus.
From S2P Require Import Snapshot Codec Tables Database Whatsapp Store Bytes Transcripts Sending.
From S2P Require Import Demo Outbox Relational DatabaseSpec.

(** ** A small concrete deployment

    The demonstration run of Demo.v with a metadata database and a broker that
    answer every request: the state at which theorems are instantiated. *)
(** The event of an identifier, in the demonstration. *)
Definition demo_catalog (id : string) : CommonEvent := demo_event <| ev_event_id := id |>.

Definition demo_serde : Serde := {|
  invalid_type := λ _ expected, "invalid type, expected " +:+ expected;
  from_ordinal_date := λ y o, Ok (days (365 * (y - 1970) + o));
  from_hms_nano := λ h m s n, Ok (hours h + minutes m + seconds s + n);
  utc_offset_from_hms := λ h m s, Ok (3600 * h + 60 * m + s);
  event_to_vec := λ e, Ok (ev_event_id e);
  deadletter_to_vec := λ e, Ok (ev_event_id (dl_event e));
  event_from_slice := λ bytes, Ok (demo_catalog bytes)
|}.

Definition demo_pg : Postgres := {|
  pg_call := λ _, PgDone;
  pg_now := λ n, seconds (2000 + Z.of_nat n);
  pg_error := λ _, "refused"%string;
  pg_uuid := λ n, pretty n;
  parse_uuid := Some;
  timestamptz := λ t, t;
  store_to_value := λ _, Ok VNull;
  store_from_value := λ _, Err "no snapshot"%string
|}.

(** A broker that takes every record, and one that refuses every record. *)
Definition demo_kafka : KafkaClient := {|
  kafka_send := λ n, Delivered 0 (Z.of_nat n);
  kafka_commit := λ _, None
|}.
Definition refusing_kafka : KafkaClient := {|
  kafka_send := λ _, NotDelivered "timed out"%string;
  kafka_commit := λ _, None
|}.

Definition demo_db : Db := mkDb critical_tables ∅ ∅ ∅ ∅ no_rows 0.
Definition demo_broker : Broker := mkBroker [] ∅ 0 0.

Definition demo_kafka_config : KafkaConfig := cfg_kafka default_config.

(** Two events to publish. *)
Definition demo_store : PersistedStore :=
  @from_inner demo_env (app_inner demo_start)
    <| ps_events := [demo_catalog "evt_1"; demo_catalog "evt_2"] |>.
Definition demo_world : World :=
  mkWorld (demo_start <| app_persisted := Some demo_store |>) demo_db demo_broker.

Definition demo_persisted : World :=
  state_of (@persist_latest_snapshot demo_env demo_pg) demo_world.
Definition demo_claim : W (result (list OutboxRecord) string) :=
  on_db (@claim_event_outbox_batch demo_env demo_pg "w" 100 30).
Definition demo_claimed : World := state_of demo_claim demo_persisted.
Definition demo_records : list OutboxRecord :=
  match value_of demo_claim demo_persisted with Ok rs => rs | Err _ => [] end.
Definition demo_record : OutboxRecord :=
  {| or_event_id := "evt_1"; or_topic := "rustzap.conversation.dirty";
     or_partition_key := "p:c:conv"; or_payload_json :=
       @event_to_value demo_env (demo_catalog "evt_1"); or_attempt_count := 0 |}%string.

Example demo_claims_both : length demo_records = 2%nat.
Proof. vm_compute. reflexivity. Qed.

(** ** The ledger *)
Inductive Phase := Waiting | Completed | Buried.
Record Ledger : Type := mkLedger {
  lg_phase : gmap string Phase;
  lg_sent : gset string
}.
#[export] Instance eta_Ledger : Eta Ledger := λ r, mkLedger (lg_phase r) (lg_sent r).
Definition empty_ledger : Ledger := mkLedger ∅ ∅.

(** Only an accepted event is sent; only a sent event is completed. *)
Inductive ledger_step : Ledger → Ledger → Prop :=
| ledger_accept id l : lg_phase l !! id = None →
    ledger_step l (l <| lg_phase ::= <[id := Waiting]> |>)
| ledger_send id l : is_Some (lg_phase l !! id) →
    ledger_step l (l <| lg_sent ::= λ sent, {[id]} ∪ sent |>)
| ledger_complete id l : is_Some (lg_phase l !! id) → id ∈ lg_sent l →
    ledger_step l (l <| lg_phase ::= <[id := Completed]> |>)
| ledger_retry id l : is_Some (lg_phase l !! id) →
    ledger_step l (l <| lg_phase ::= <[id := Waiting]> |>)
| ledger_bury id l : is_Some (lg_phase l !! id) →
    ledger_step l (l <| lg_phase ::= <[id := Buried]> |>).

Definition known (id : string) (l : Ledger) : Prop := is_Some (lg_phase l !! id).
Definition sent (id : string) (l : Ledger) : Prop := known id l ∧ id ∈ lg_sent l.
Definition stable (P : Ledger → Prop) : Prop := ∀ l l', ledger_step l l' → P l → P l'.

Lemma stable_known id : stable (known id).
Proof.
  intros l l' Hs. unfold known. destruct Hs as [id' l| |id' l|id' l|id' l]; simpl; [|done|..];
    destruct (decide (id = id')) as [->|]; rewrite ?lookup_insert_eq, ?lookup_insert_ne by done; eauto.
Qed.
Lemma stable_sent id : stable (sent id).
Proof.
  intros l l' Hs [Hk Hin]. split; [by eapply stable_known|]. by destruct Hs; simpl; [|set_solver|..].
Qed.
Lemma stable_and P Q : stable P → stable Q → stable (λ l, P l ∧ Q l).
Proof. intros HP HQ l l' Hs [??]. split; [eapply HP|eapply HQ]; done. Qed.
Lemma stable_true : stable (λ _, True).
Proof. done. Qed.
Lemma stable_rtc P l l' : stable P → rtc ledger_step l l' → P l → P l'.
Proof. intros HP Hs. induction Hs; [done|]. intros Hp. by eapply IHHs, HP. Qed.

(** A completed event was sent. *)
Lemma completed_was_sent l id :
  rtc ledger_step empty_ledger l → lg_phase l !! id = Some Completed → id ∈ lg_sent l.
Proof.
  intros Hl. revert l Hl. refine (rtc_ind_r (R:=ledger_step) (λ l, lg_phase l !! id = Some Completed → id ∈ lg_sent l)
    empty_ledger _ _); [done|]. intros l l' _ Hs IH.
  destruct Hs as [id' l Hn|id' l|id' l _ Hin|id' l|id' l]; simpl; [|set_solver|..];
    (destruct (decide (id = id')) as [->|]; [rewrite lookup_insert_eq|rewrite lookup_insert_ne by done]);
    try done; congruence.
Qed.

(** Accepting a list of identifiers, those known left as they are. *)
Definition accept_all (ids : list string) (m : gmap string Phase) : gmap string Phase :=
  foldl (λ m id, match m !! id with Some _ => m | None => <[id := Waiting]> m end) m ids.

Lemma lookup_accept_all ids m id :
  accept_all ids m !! id = opt_or (m !! id) (bool_then (bool_decide (id ∈ ids)) Waiting).
Proof.
  revert m. induction ids as [|i ids IH]; intros m; simpl; [by destruct (m !! id)|].
  rewrite IH. destruct (decide (i = id)) as [->|Hne].
  - rewrite bool_decide_eq_true_2 with (P := id ∈ id :: ids) by left.
    destruct (m !! id) as [p|] eqn:E; simpl; [by rewrite E|]. by rewrite lookup_insert_eq.
  - replace (bool_decide (id ∈ i :: ids)) with (bool_decide (id ∈ ids))
      by (apply bool_decide_ext; set_solver).
    destruct (m !! i); [done|]. by rewrite lookup_insert_ne.
Qed.

Lemma ledger_accept_all ids l :
  rtc ledger_step l (l <| lg_phase ::= accept_all ids |>).
Proof.
  revert l. induction ids as [|i ids IH]; intros l; simpl; [by destruct l|].
  destruct (lg_phase l !! i) eqn:E; [apply IH|].
  eapply rtc_l; [by apply (ledger_accept i)|]. exact (IH (l <| lg_phase ::= <[i := Waiting]> |>)).
Qed.

(** ** Refinement *)
Definition phase_of (row : OutboxRow) : Phase :=
  if decide (ob_status row = "published"%string) then Completed
  else if decide (ob_status row = "deadlettered"%string) then Buried else Waiting.

Section refinement.
Context `{Env} `{Crypto} `{Serde} `{Postgres} `{KafkaClient} {TL : TimeLaws}.
(** The configuration of the deployment, and the event of each identifier: an
    event does not change once it is emitted. *)
Context (kafka : KafkaConfig) (catalog : string → CommonEvent).
Hypothesis catalog_id : ∀ id, ev_event_id (catalog id) = id.
Hypothesis catalog_seq : ∀ id n,
  ev_conversation_seq (catalog id) = Some n → i64_min ≤ n ≤ i64_max.

Definition catalog_topic (id : string) : string :=
  topic_for_event kafka (ev_event_type (catalog id)).
Definition row_ok (id : string) (row : OutboxRow) : Prop :=
  ob_topic row = catalog_topic id ∧ ob_partition_key row = partition_key (catalog id)
  ∧ ob_payload_json row = event_to_value (catalog id).
Definition record_ok (r : OutboxRecord) : Prop :=
  or_topic r = catalog_topic (or_event_id r)
  ∧ or_partition_key r = partition_key (catalog (or_event_id r))
  ∧ or_payload_json r = event_to_value (catalog (or_event_id r)).
Definition outbox_ok (d : Db) : Prop := map_Forall row_ok (db_outbox d).
Definition deadletters_ok (d : Db) : Prop :=
  map_Forall (λ _ row, kd_payload_json row = event_to_value (catalog (kd_event_id row)))
    (db_deadletters d).

(** The event is in its topic under its key, as it is encoded. *)
Definition in_log (id : string) (log : list KafkaRecord) : Prop :=
  ∃ payload, event_to_vec (catalog id) = Ok payload
    ∧ mkKafkaRecord (catalog_topic id) (partition_key (catalog id)) payload ∈ log.

(** The simulation relation. *)
Record refines (w : World) (l : Ledger) : Prop := mkRefines {
  rf_config : cfg_kafka (app_config (w_app w)) = kafka;
  rf_outbox : outbox_ok (w_db w);
  rf_deadletters : deadletters_ok (w_db w);
  rf_phase : lg_phase l = phase_of <$> db_outbox (w_db w);
  rf_sent : ∀ id, id ∈ lg_sent l → in_log id (bk_log (w_kafka w))
}.

(** [m] simulates: from related states it leaves related states after ledger
    steps, with [Q] of its value. *)
Definition sim {A} (P : Ledger → Prop) (m : W A) (Q : A → Ledger → Prop) : Prop :=
  ∀ w l, refines w l → P l →
    ∃ l', rtc ledger_step l l' ∧ refines (state_of m w) l' ∧ Q (value_of m w) l'.

Lemma sim_ret {A} (P : Ledger → Prop) (a : A) : sim P (ret a) (λ _, P).
Proof. intros w l Hr Hp. by exists l. Qed.

Lemma sim_bind {A B} P (R : A → Ledger → Prop) Q (m : W A) (k : A → W B) :
  sim P m R → (∀ a, sim (R a) (k a) Q) → sim P (bind m k) Q.
Proof.
  intros Hm Hk w l Hr Hp. destruct (Hm w l Hr Hp) as (l1 & Hs1 & Hr1 & Hq1).
  destruct (Hk (value_of m w) _ _ Hr1 Hq1) as (l2 & Hs2 & Hr2 & Hq2).
  exists l2. rewrite state_of_bind, value_of_bind. split; [by trans l1|done].
Qed.

Lemma sim_post {A} P (Q Q' : A → Ledger → Prop) (m : W A) :
  sim P m Q → (∀ a l, Q a l → Q' a l) → sim P m Q'.
Proof.
  intros Hm HQ w l Hr Hp. destruct (Hm w l Hr Hp) as (l' & ? & ? & ?). exists l'. eauto.
Qed.

(** A computation that leaves the tables and the log, such as a counter. *)
Definition silent {A} (m : W A) : Prop := ∀ w,
  cfg_kafka (app_config (w_app (state_of m w))) = cfg_kafka (app_config (w_app w))
  ∧ db_outbox (w_db (state_of m w)) = db_outbox (w_db w)
  ∧ db_deadletters (w_db (state_of m w)) = db_deadletters (w_db w)
  ∧ bk_log (w_kafka (state_of m w)) = bk_log (w_kafka w).

Lemma refines_silent w w' l :
  cfg_kafka (app_config (w_app w')) = cfg_kafka (app_config (w_app w)) →
  db_outbox (w_db w') = db_outbox (w_db w) →
  db_deadletters (w_db w') = db_deadletters (w_db w) →
  bk_log (w_kafka w') = bk_log (w_kafka w) → refines w l → refines w' l.
Proof.
  intros Hc Ho Hd Hl [Hr1 Hr2 Hr3 Hr4 Hr5].
  split; unfold outbox_ok, deadletters_ok in *; rewrite ?Hc, ?Ho, ?Hd, ?Hl; done.
Qed.

Lemma sim_silent {A} P (m : W A) : silent m → sim P m (λ _, P).
Proof.
  intros Hm w l Hr Hp. exists l. split; [done|split; [|done]].
  destruct (Hm w) as (? & ? & ? & ?). by apply (refines_silent w).
Qed.

Lemma silent_metrics f : silent (with_metrics f).
Proof. done. Qed.
Lemma silent_config : silent kafka_config.
Proof. done. Qed.
Lemma silent_now : silent (on_app now_utc).
Proof. done. Qed.

Lemma sim_config {B} P (k : KafkaConfig → W B) Q :
  sim P (k kafka) Q → sim P (bind kafka_config k) Q.
Proof.
  intros Hk w l Hr Hp. destruct (Hk w l Hr Hp) as (l' & Hs & Hr' & Hq). exists l'.
  rewrite state_of_bind, value_of_bind.
  change (value_of kafka_config w) with (cfg_kafka (app_config (w_app w))).
  by rewrite (rf_config _ _ Hr).
Qed.

Lemma sim_metrics P f : sim P (with_metrics f) (λ _, P).
Proof. apply sim_silent, silent_metrics. Qed.

(** ** The database under the simulation *)
(** A marking statement that gives its row the phase [p], when the ledger can
    give it: a step, or nothing. *)
Lemma refines_mark ctx eid (f : time → OutboxRow → OutboxRow) p w l :
  (∀ now row, phase_of (f now row) = p ∧ ob_topic (f now row) = ob_topic row
     ∧ ob_partition_key (f now row) = ob_partition_key row
     ∧ ob_payload_json (f now row) = ob_payload_json row) →
  (∀ l : Ledger, known eid l → eid ∈ lg_sent l ∨ p ≠ Completed →
     ledger_step l (l <| lg_phase ::= <[eid := p]> |>)) →
  (known eid l → eid ∈ lg_sent l ∨ p ≠ Completed) →
  refines w l →
  ∃ l', rtc ledger_step l l'
    ∧ refines (state_of (on_db (statement ctx (λ now, update_outbox eid (f now)))) w) l'.
Proof.
  intros Hf Hstep Hsent Hr. rewrite (proj1 (on_db_run _ _)).
  set (d := w_db w).
  destruct (statement_cases ctx (λ now, update_outbox eid (f now)) d)
    as [(a & d1 & Hu & -> & _)|[-> _]];
    [|exists l; split; [done|by apply (refines_silent w)]].
  unfold update_outbox in Hu. change (db_outbox (tick d)) with (db_outbox d) in Hu.
  destruct (db_outbox d !! eid) as [row|] eqn:Hrow;
    [|injection Hu as _ <-; exists l; split; [done|by apply (refines_silent w)]].
  case_decide; [done|]. apply (inj Some), (f_equal snd) in Hu. cbn [snd] in Hu. subst d1.
  assert (Hk : known eid l).
  { unfold known. rewrite (rf_phase _ _ Hr), lookup_fmap. fold d. by rewrite Hrow. }
  exists (l <| lg_phase ::= <[eid := p]> |>). split; [by apply rtc_once, Hstep; auto|].
  pose proof (Hf (pg_now (db_calls d)) (row <| ob_attempt_count ::= Z.succ |>)) as Hrow'.
  revert Hrow'. generalize (f (pg_now (db_calls d)) (row <| ob_attempt_count ::= Z.succ |>)).
  intros row' (Hp & Ht & Hpk & Hpl).
  destruct Hr as [Hc Ho Hd Hph Hse]. split; try done; simpl.
  - apply map_Forall_insert_2; [|done]. destruct (Ho _ _ Hrow) as (? & ? & ?).
    unfold row_ok. rewrite Ht, Hpk, Hpl. by destruct row.
  - rewrite fmap_insert, Hph, Hp. done.
Qed.

Lemma sim_failed P eid err secs : stable P →
  sim P (on_db (mark_event_outbox_failed eid err secs)) (λ _, P).
Proof.
  intros HP w l Hr Hp. unfold mark_event_outbox_failed.
  match goal with |- context [statement ?c _] =>
    destruct (refines_mark c eid (failed_row err secs) Waiting w l)
      as (l' & Hs & Hr') end; [by intros; split_and!| |by right|done|].
  - intros l0 Hk _. by apply ledger_retry.
  - exists l'. split_and!; [done..|by eapply stable_rtc].
Qed.

Lemma sim_deadlettered P eid err : stable P →
  sim P (on_db (mark_event_outbox_deadlettered eid err)) (λ _, P).
Proof.
  intros HP w l Hr Hp. unfold mark_event_outbox_deadlettered.
  match goal with |- context [statement ?c _] =>
    destruct (refines_mark c eid (deadlettered_row err) Buried w l)
      as (l' & Hs & Hr') end; [by intros; split_and!| |by right|done|].
  - intros l0 Hk _. by apply ledger_bury.
  - exists l'. split_and!; [done..|by eapply stable_rtc].
Qed.

Lemma sim_published P eid p o : stable P → (∀ l, P l → eid ∈ lg_sent l) →
  sim P (on_db (mark_event_outbox_published eid p o)) (λ _, P).
Proof.
  intros HP Hin w l Hr Hp. unfold mark_event_outbox_published.
  match goal with |- context [statement ?c _] =>
    destruct (refines_mark c eid (published_row p o) Completed w l)
      as (l' & Hs & Hr') end; [by intros; split_and!| |by left; auto|done|].
  - intros l0 Hk [Hs|?]; [by apply ledger_complete|done].
  - exists l'. split_and!; [done..|by eapply stable_rtc].
Qed.

Lemma refines_rows (w : World) l d' :
  refines w l → db_deadletters d' = db_deadletters (w_db w) →
  (∀ id row', db_outbox d' !! id = Some row' → ∃ row, db_outbox (w_db w) !! id = Some row
     ∧ phase_of row' = phase_of row ∧ ob_topic row' = ob_topic row
     ∧ ob_partition_key row' = ob_partition_key row
     ∧ ob_payload_json row' = ob_payload_json row) →
  (∀ id, db_outbox d' !! id = None → db_outbox (w_db w) !! id = None) →
  refines (w <| w_db := d' |>) l.
Proof.
  intros [Hc Ho Hd Hph Hse] Hdl Hrows Hnone. split; [done| | | |done]; simpl.
  - intros id row' Hrow'. destruct (Hrows _ _ Hrow') as (row & Hrow & _ & Ht & Hk & Hp).
    unfold row_ok. rewrite Ht, Hk, Hp. by apply Ho.
  - unfold deadletters_ok. by rewrite Hdl.
  - rewrite Hph. apply map_eq. intros id. rewrite !lookup_fmap.
    destruct (db_outbox d' !! id) as [row'|] eqn:E.
    + destruct (Hrows _ _ E) as (row & -> & Hp & _). simpl. by rewrite Hp.
    + by rewrite (Hnone _ E).
Qed.

(** A claim takes waiting rows, which keep waiting. *)
Lemma claimable_waiting now row : claimable now row = true → phase_of row = Waiting.
Proof.
  unfold claimable, phase_of, is_any.
  intros [[[Hs _]%andb_true_iff|[Hs _]%andb_true_iff]%orb_true_iff _]%andb_true_iff;
    apply bool_decide_eq_true in Hs.
  - rewrite !elem_of_cons, elem_of_nil in Hs. by destruct Hs as [-> |[-> |[]]].
  - by rewrite Hs.
Qed.

Lemma refines_claim w' limit secs (w : World) l :
  refines w l →
  refines (state_of (on_db (claim_event_outbox_batch w' limit secs)) w) l
  ∧ ∀ rs, value_of (on_db (claim_event_outbox_batch w' limit secs)) w = Ok rs →
     ∀ r, r ∈ rs → record_ok r ∧ known (or_event_id r) l.
Proof.
  intros Hr. destruct (on_db_run (claim_event_outbox_batch w' limit secs) w) as [-> ->].
  set (d := w_db w). split.
  - unfold claim_event_outbox_batch.
    match goal with |- context [statement ?c ?f] =>
      destruct (statement_cases c f d) as [(a & d1 & Hf & -> & _)|[-> _]] end;
      [|by apply (refines_silent w)].
    apply (inj Some), (f_equal snd) in Hf. cbn [snd] in Hf. subst d1.
    set (now := pg_now (db_calls d)).
    apply refines_rows; [done|done| |].
    + intros id row'. rewrite claim_rows_outbox. change (db_outbox (tick d)) with (db_outbox d).
      destruct (taken now w' limit secs (tick d) !! id) as [row|] eqn:E; simpl;
        [intros [= <-]|by eauto 8].
      apply lookup_taken in E as (row0 & Hrow0 & Hc & ->). exists row0.
      split_and!; [done| |done..]. by rewrite (claimable_waiting _ _ Hc).
    + intros id. rewrite claim_rows_outbox. by destruct (taken _ _ _ _ _ !! id).
  - intros rs [-> _]%claim_ok r Hin.
    apply claim_rows_returned in Hin as (row' & Ht & Hrec).
    apply lookup_taken in Ht as (row & Hrow & _ & ->).
    change (db_outbox (tick d)) with (db_outbox (w_db w)) in Hrow.
    unfold known. rewrite (rf_phase _ _ Hr), lookup_fmap, Hrow. split; [|by eexists].
    destruct (rf_outbox _ _ Hr _ _ Hrow) as (Ht & Hk & Hp). rewrite Hrec.
    unfold record_ok. simpl. by rewrite Ht, Hk, Hp.
Qed.

(** Producing the event's payload sends it, when the broker keeps it. *)
Lemma sim_publish P id payload : stable P → (∀ l, P l → known id l) →
  event_to_vec (catalog id) = Ok payload →
  sim P (publish_payload (catalog_topic id) (partition_key (catalog id)) payload)
    (λ r l, P l ∧ (is_ok r = true → id ∈ lg_sent l)).
Proof.
  intros HP Hk Hvec w l Hr Hp. unfold publish_payload, state_of, value_of.
  assert (Hw : ∀ n m c, refines (w <| w_kafka :=
      mkBroker (bk_log (w_kafka w) ++ [mkKafkaRecord (catalog_topic id)
                  (partition_key (catalog id)) payload]) c n m |>)
      (l <| lg_sent ::= λ sent, {[id]} ∪ sent |>)).
  { intros n m c. destruct Hr as [Hc Ho Hd Hph Hse]. split; try done; simpl.
    intros id' [->%elem_of_singleton|Hin]%elem_of_union.
    - exists payload. split; [done|]. apply elem_of_app. right. by left.
    - destruct (Hse _ Hin) as (pl & ? & ?). exists pl. split; [done|]. apply elem_of_app. by left. }
  assert (Hs : ledger_step l (l <| lg_sent ::= λ sent, {[id]} ∪ sent |>)).
  { apply ledger_send. by apply Hk. }
  destruct (kafka_send _) as [p o|err|err]; simpl.
  - exists (l <| lg_sent ::= λ sent, {[id]} ∪ sent |>).
    split_and!; [by apply rtc_once|by apply Hw|by eapply HP|]. set_solver.
  - exists l. split_and!; try done. by apply (refines_silent w).
  - exists (l <| lg_sent ::= λ sent, {[id]} ∪ sent |>).
    split_and!; [by apply rtc_once|by apply Hw|by eapply HP|done].
Qed.

(** A payload of a topic that is no event: the dead-letter topic. *)
Lemma sim_publish_deadletter P envelope : stable P →
  sim P (publish_deadletter envelope) (λ _, P).
Proof.
  intros HP. apply sim_config. destruct (encode_deadletter_for_kafka _ _ _); [|apply sim_ret].
  intros w l Hr Hp. exists l. split; [done|]. split; [|done].
  unfold publish_payload, state_of. destruct (kafka_send _); simpl;
    try (by apply (refines_silent w));
    (destruct Hr as [Hc Ho Hd Hph Hse]; split; try done; simpl; intros id Hin;
     destruct (Hse _ Hin) as (pl & ? & ?); exists pl; split; [done|];
     apply elem_of_app; by left).
Qed.

Lemma sim_insert_deadletter P envelope topic key : stable P →
  dl_event envelope = catalog (ev_event_id (dl_event envelope)) →
  sim P (on_db (insert_kafka_deadletter envelope topic key)) (λ _, P).
Proof.
  intros HP He w l Hr Hp. exists l. split; [done|]. split; [|done].
  rewrite (proj1 (on_db_run _ _)). unfold insert_kafka_deadletter, pure_result.
  unfold state_of. rewrite bindR_ret.
  destruct (ok_or _ _); [|by apply (refines_silent w)]. rewrite bindR_ret.
  destruct (ok_or _ _); [|by apply (refines_silent w)].
  match goal with |- context [(statement ?c ?f ?d).2] =>
    change ((statement c f d).2) with (state_of (statement c f) d);
    destruct (statement_cases c f d) as [(? & d1 & Hf & -> & _)|[-> _]] end;
    [|by apply (refines_silent w)].
  destruct (db_deadletters _ !! _) eqn:E; [done|].
  apply (inj Some), (f_equal snd) in Hf. cbn [snd] in Hf. subst d1.
  destruct Hr as [Hc Ho Hd Hph Hse]. split; try done; simpl.
  apply map_Forall_insert_2; [|done]. simpl. by rewrite <- He.
Qed.

Lemma sim_make_deadletter P event n err : stable P →
  sim P (make_deadletter event n err) (λ envelope l, P l ∧ dl_event envelope = event).
Proof.
  intros HP w l Hr Hp. exists l. split_and!; [done| |done|done].
  by apply (refines_silent w).
Qed.

Lemma decode_catalog id : event_from_value (event_to_value (catalog id)) = Ok (catalog id).
Proof. apply event_value_roundtrip. apply catalog_seq. Qed.

Lemma encode_catalog id payload :
  encode_event_for_kafka event_to_vec kafka (catalog id) = Ok payload →
  event_to_vec (catalog id) = Ok payload.
Proof.
  unfold encode_event_for_kafka. destruct (raw_media_field _); [done|].
  destruct (event_to_vec _); [|done]. by case_decide; [|intros [= ->]].
Qed.

(** After a value whose related fact is pure. *)
Lemma sim_pure {A} (P : Ledger → Prop) (φ : Prop) (m : W A) Q :
  (φ → sim P m Q) → sim (λ l, P l ∧ φ) m Q.
Proof. intros Hm w l Hr [Hp Hφ]. by apply Hm. Qed.

Lemma sim_seq {A B} P Q (m : W A) (k : A → W B) :
  sim P m (λ _, P) → (∀ a, sim P (k a) Q) → sim P (bind m k) Q.
Proof. apply sim_bind. Qed.

Lemma sim_insert_then {A} P envelope id topic key (k : result unit string → W A) Q : stable P →
  dl_event envelope = catalog id → (∀ r, sim P (k r) Q) →
  sim P (bind (on_db (insert_kafka_deadletter envelope topic key)) k) Q.
Proof.
  intros HP He Hk. apply sim_seq; [|done].
  apply sim_insert_deadletter; [done|]. by rewrite He, catalog_id.
Qed.

#[local] Opaque mark_event_outbox_published mark_event_outbox_failed
  mark_event_outbox_deadlettered.

(** A program simulates block by block: what it relies on between two blocks
    stays true whatever ledger steps the others take. *)
Fixpoint sims {A} (P : Ledger → Prop) (p : Async World A) : Prop :=
  match p with
  | Finish _ => True
  | Await block resume =>
    ∃ R, (∀ x, stable (R x)) ∧ sim P block R ∧ ∀ x, sims (R x) (resume x)
  end.
Lemma sims_finish {A} P (a : A) : sims P (Finish a).
Proof. done. Qed.
Lemma sims_seq {A X} P (m : W X) (k : X → Async World A) :
  stable P → sim P m (λ _, P) → (∀ x, sims P (k x)) → sims P (Await m k).
Proof. intros HP Hm Hk. by exists (λ _, P). Qed.
Lemma sims_weaken {A} (P P' : Ledger → Prop) (p : Async World A) :
  (∀ l, P' l → P l) → sims P p → sims P' p.
Proof.
  intros HP. destruct p as [a|X block resume]; [done|]. intros (R & HR & Hs & Hk).
  exists R. split_and!; [done| |done]. intros w l Hr Hp. apply Hs; auto.
Qed.
Lemma stable_pure (φ : Prop) : stable (λ _, φ).
Proof. by intros l l' _. Qed.
Lemma stable_log id : stable (λ l, id ∈ lg_sent l).
Proof. intros l l' Hs Hin. by destruct Hs; simpl; [|set_solver|..]. Qed.
(** What simulates under each of a family of facts simulates under their union. *)
Lemma sims_union {A} (F : (Ledger → Prop) → Prop) (p : Async World A) :
  (∀ Q, F Q → sims Q p) → sims (λ l, ∃ Q, F Q ∧ Q l) p.
Proof.
  revert F. induction p as [a|X block resume IH]; intros F HF; [done|].
  set (good := λ R : X → Ledger → Prop, (∀ x, stable (R x)) ∧ ∀ x, sims (R x) (resume x)).
  exists (λ x l, ∃ Q, (∃ R, good R ∧ Q = R x) ∧ Q l). split_and!.
  - intros x l l' Hs (Q & (R & HR & ->) & Hl). exists (R x). split; [by exists R|].
    by eapply (proj1 HR).
  - intros w l Hr (Q & HQ & Hl). destruct (HF Q HQ) as (R & HR & Hsim & Hk).
    destruct (Hsim w l Hr Hl) as (l' & Hs & Hr' & Hx). exists l'. split_and!; [done..|].
    exists (R (value_of block w)). split; [by exists R|done].
  - intros x. apply (IH x (λ Q, ∃ R, good R ∧ Q = R x)). by intros Q (R & [_ HR] & ->).
Qed.
Lemma sims_pure {A} P (φ : Prop) (p : Async World A) : (φ → sims P p) → sims (λ l, P l ∧ φ) p.
Proof.
  intros Hp. apply sims_weaken with (λ l, ∃ Q, (φ ∧ Q = P) ∧ Q l).
  - intros l [Hl Hφ]. by exists P.
  - apply sims_union. by intros Q [Hφ ->]; auto.
Qed.
Lemma sims_config {A} P (k : KafkaConfig → Async World A) :
  stable P → sims P (k kafka) → sims P (Await kafka_config k).
Proof.
  intros HP Hk. exists (λ x l, P l ∧ x = kafka). split_and!.
  - intros x. apply stable_and; [done|apply stable_pure].
  - intros w l Hr Hp. exists l. split_and!; [done..|]. exact (rf_config _ _ Hr).
  - intros x. apply sims_pure. by intros ->.
Qed.

Lemma sims_make_deadletter {A} P event n err (k : DeadLetterEnvelope → Async World A) : stable P →
  (∀ envelope, dl_event envelope = event → sims P (k envelope)) →
  sims P (Await (make_deadletter event n err) k).
Proof.
  intros HP Hk. exists (λ envelope l, P l ∧ dl_event envelope = event). split_and!.
  - intros x. apply stable_and; [done|apply stable_pure].
  - by apply sim_make_deadletter.
  - intros x. apply sims_pure. apply Hk.
Qed.
Lemma sims_insert {A} P envelope id topic key (k : result unit string → Async World A) : stable P →
  dl_event envelope = catalog id → (∀ r, sims P (k r)) →
  sims P (Await (on_db (insert_kafka_deadletter envelope topic key)) k).
Proof.
  intros HP He Hk. apply sims_seq; [done| |done].
  apply sim_insert_deadletter; [done|]. by rewrite He, catalog_id.
Qed.
Lemma sims_metrics P f : stable P → sims P (do! _ := with_metrics f in Finish tt).
Proof. intros HP. apply sims_seq; [done|apply sim_metrics|done]. Qed.

Lemma sims_publish_failed P record err : stable P →
  sims P (publish_failed record (catalog (or_event_id record)) err).
Proof.
  intros HP. apply sims_config; [done|]. cbv zeta. case_decide.
  - apply sims_make_deadletter; [done|]. intros envelope He.
    apply (sims_insert _ _ (or_event_id record)); [done..|]. intros _.
    apply sims_seq; [done|by apply sim_publish_deadletter|]. intros r.
    apply sims_seq; [done|destruct (is_ok r); [apply sim_metrics|apply sim_ret]|]. intros _.
    apply sims_seq; [done|by apply sim_deadlettered|]. intros _. by apply sims_metrics.
  - apply sims_seq; [done|by apply sim_failed|]. intros _. by apply sims_metrics.
Qed.

Lemma sims_publish_record record : record_ok record →
  sims (known (or_event_id record)) (publish_outbox_blocks record).
Proof.
  intros (Ht & Hk & Hpl). pose proof (stable_known (or_event_id record)) as HP.
  unfold publish_outbox_blocks. apply sims_seq; [done|apply sim_metrics|]. intros _.
  apply sims_config; [done|]. rewrite Hpl, decode_catalog.
  destruct (encode_event_for_kafka _ _ _) as [payload|err] eqn:Henc.
  - rewrite Ht, Hk.
    exists (λ r l, known (or_event_id record) l
                   ∧ (is_ok r = true → or_event_id record ∈ lg_sent l)).
    split_and!; [|by apply sim_publish; [| |apply encode_catalog]|].
    + intros [ack|err]; [|by apply stable_and].
      apply stable_and; [done|]. intros l l' Hs Hin _. by eapply stable_log; [|apply Hin].
    + intros [ack|err]; cbv beta iota.
      * exists (λ _, sent (or_event_id record)). split_and!; [intros _; apply stable_sent| |].
        -- intros w l Hr [Hkn Hs].
           apply sim_published; [apply stable_sent|by intros ? []|done|split; auto].
        -- intros _. apply sims_metrics, stable_sent.
      * apply sims_weaken with (known (or_event_id record)); [by intros l []|].
        by apply sims_publish_failed.
  - cbv zeta. apply sims_seq; [done|by apply sim_deadlettered|]. intros _.
    apply sims_make_deadletter; [done|]. intros envelope He.
    apply (sims_insert _ _ (or_event_id record)); [done..|]. intros _. by apply sims_metrics.
Qed.

#[local] Transparent mark_event_outbox_published mark_event_outbox_failed
  mark_event_outbox_deadlettered.

(** A snapshot accepts its new events. *)
Lemma refines_persist store (w : World) l :
  (∀ e, e ∈ ps_events store → e = catalog (ev_event_id e)) → refines w l →
  ∃ l', rtc ledger_step l l'
    ∧ refines (state_of (on_db (persist_snapshot_and_outbox kafka store)) w) l'.
Proof.
  intros Hcat Hr. rewrite (proj1 (on_db_run _ _)). set (d := w_db w).
  destruct (persist_snapshot_atomic kafka store d) as [[Hc _]|(v & _ & _ & Ho & Hrest)].
  { exists l. split; [done|]. unfold contents in Hc. injection Hc as _ _ Hco _ Hcd.
    by apply (refines_silent w). }
  injection Hrest as _ _ Hdl. set (d' := state_of _ d) in *.
  destruct Hr as [Hc Ho' Hd Hph Hse]. fold d in Ho', Hd, Hph.
  exists (l <| lg_phase ::= accept_all (ev_event_id <$> ps_events store) |>).
  split; [apply ledger_accept_all|]. split; [done| | | |done]; simpl.
  - intros id row. rewrite Ho. unfold enqueued. destruct (db_outbox d !! id) eqn:E; simpl.
    { intros [= <-]. by apply Ho'. }
    intros (e & Hf & ->)%fmap_Some_1. apply find_Some in Hf as [Hin Hid]. split_bools.
    rewrite <- Hid, (Hcat _ Hin). unfold row_ok, event_row, catalog_topic. simpl.
    by rewrite !catalog_id.
  - unfold deadletters_ok. by rewrite Hdl.
  - rewrite Hph. apply map_eq. intros id. rewrite lookup_accept_all, !lookup_fmap, Ho.
    unfold enqueued. destruct (db_outbox d !! id); simpl; [done|].
    destruct (find _ _) as [e|] eqn:Hf; simpl.
    + apply find_Some in Hf as [Hin Hid]. split_bools.
      rewrite bool_decide_eq_true_2; [done|]. apply list_elem_of_fmap. eauto.
    + rewrite bool_decide_eq_false_2; [done|]. intros (e & Hid & Hin)%list_elem_of_fmap.
      apply find_None with (x := e) in Hf; [|done]. split_bools. done.
Qed.

(** And so does the whole copy, whatever becomes of its relational part. *)
Lemma refines_persist_store store now (w : World) l :
  (∀ e, e ∈ ps_events store → e = catalog (ev_event_id e)) → refines w l →
  ∃ l', rtc ledger_step l l'
    ∧ refines (state_of (on_db (persist_store store kafka now)) w) l'.
Proof.
  intros Hcat Hr. destruct (refines_persist store w l Hcat Hr) as (l' & Hs & Hr').
  exists l'. split; [done|]. rewrite (proj1 (on_db_run _ _)). unfold persist_store, bindR.
  rewrite (proj1 (on_db_run _ _)) in Hr'. rewrite state_of_bind. set (d := state_of (persist_snapshot_and_outbox _ _) _) in *.
  destruct (value_of (persist_snapshot_and_outbox _ _) _) as [[]|e]; [|done].
  pose proof (frame_persist_relational store now d) as Hc. unfold contents in Hc.
  injection Hc as _ _ Hco _ Hcd.
  apply (refines_silent (w <| w_db := d |>)); [done|exact Hco|exact Hcd|done|exact Hr'].
Qed.

(** A replay puts its event in the waiting phase. *)
Lemma refines_replay u by_ (w : World) l :
  refines w l →
  ∃ l', rtc ledger_step l l'
    ∧ refines (state_of (on_db (replay_kafka_deadletter kafka u by_)) w) l'.
Proof.
  intros Hr. rewrite (proj1 (on_db_run _ _)). set (d := w_db w). unfold replay_kafka_deadletter.
  match goal with |- context [transaction ?b ?c ?body] =>
    destruct (transaction_cases b c body d) as [(a & Hb & Hc & _)|[Hc _]] end.
  2: { exists l. split; [done|]. unfold contents in Hc. injection Hc as _ _ Hco _ Hcd.
    by apply (refines_silent w). }
  destruct (replay_body _ _ _ _ _) as [r d2] eqn:E. simpl in Hb, Hc. subst r.
  apply replay_body_commit in E as (uuid & row & event & _ & Hrow & _ & Hev & _ & Ho & Hd & _).
  unfold contents in Hc. injection Hc as _ _ Ho' _ Hd'. rewrite Ho in Ho'. rewrite Hd in Hd'.
  set (d' := state_of _ d) in *. simpl in Hrow, Ho', Hd'.
  destruct Hr as [Hcfg Hok Hdl Hph Hse]. fold d in Hok, Hdl, Hph.
  rewrite (Hdl _ _ Hrow), decode_catalog in Hev. injection Hev as <-.
  set (id := ev_event_id (catalog (kd_event_id row))) in *.
  assert (Hid : kd_event_id row = id) by (unfold id; by rewrite catalog_id).
  exists (l <| lg_phase ::= <[id := Waiting]> |>). split.
  - apply rtc_once. destruct (lg_phase l !! id) eqn:E; [by apply ledger_retry; rewrite E|].
    by apply ledger_accept.
  - split; [done| | | |done]; simpl.
    + unfold outbox_ok. rewrite Ho'. apply map_Forall_insert_2; [|done].
      rewrite (Hdl _ _ Hrow). unfold row_ok, requeue_row, catalog_topic. rewrite <- Hid.
      by destruct (db_outbox d !! kd_event_id row).
    + unfold deadletters_ok. rewrite Hd'. apply map_Forall_insert_2; [|done].
      by apply (Hdl _ _ Hrow).
    + rewrite Ho', fmap_insert, Hph. f_equal. unfold requeue_row.
      by destruct (db_outbox d !! id).
Qed.

(** ** The system of a deployment with outbox

    [held]: every record a worker was ever handed; a worker can still act on an
    old one.  [running]: the publications that have begun; their blocks are taken
    one at a time, in any order, or never again when the process stops.  [outbox_other]: the operations of the application, the inbox, the
    offset commits and the reads. *)
Definition Run : Type := World * list OutboxRecord * list (Async World unit).
Inductive outbox_step : Run → Run → Prop :=
| outbox_other w w' held running :
    cfg_kafka (app_config (w_app w')) = cfg_kafka (app_config (w_app w)) →
    db_outbox (w_db w') = db_outbox (w_db w) →
    db_deadletters (w_db w') = db_deadletters (w_db w) →
    bk_log (w_kafka w') = bk_log (w_kafka w) →
    outbox_step (w, held, running) (w', held, running)
| outbox_persist w held running :
    (∀ store e, app_persisted (w_app w) = Some store → e ∈ ps_events store →
       e = catalog (ev_event_id e)) →
    outbox_step (w, held, running) (state_of persist_latest_snapshot w, held, running)
| outbox_claim worker limit secs w held running :
    outbox_step (w, held, running)
      (state_of (on_db (claim_event_outbox_batch worker limit secs)) w,
       match value_of (on_db (claim_event_outbox_batch worker limit secs)) w with
       | Ok records => records ++ held | Err _ => held end, running)
| outbox_publish record w held running :
    record ∈ held →
    outbox_step (w, held, running) (w, held, publish_outbox_blocks record :: running)
| outbox_block {X} (block : W X) resume w held before after :
    outbox_step (w, held, before ++ Await block resume :: after)
      (state_of block w, held, before ++ resume (value_of block w) :: after)
| outbox_replay u by_ w held running :
    outbox_step (w, held, running)
      (state_of (on_db (replay_kafka_deadletter kafka u by_)) w, held, running)
| outbox_deadletter envelope topic key w held running :
    dl_event envelope = catalog (ev_event_id (dl_event envelope)) →
    outbox_step (w, held, running)
      (state_of (on_db (insert_kafka_deadletter envelope topic key)) w, held, running).

(** Publishing a held record without interruption is a run of its blocks. *)
Lemma outbox_run w held (p : Async World unit) running :
  ∃ running', rtc outbox_step (w, held, p :: running) (state_of (run_async p) w, held, running').
Proof.
  revert w. induction p as [a|X block resume IH]; intros w; simpl; [by eexists|].
  destruct (IH (value_of block w) (state_of block w)) as [running' Hr]. exists running'.
  rewrite state_of_bind. eapply rtc_l; [|exact Hr]. exact (outbox_block block resume w held [] running).
Qed.

(** A deployment before its first snapshot. *)
Definition outbox_start (w : World) : Prop :=
  cfg_kafka (app_config (w_app w)) = kafka
  ∧ db_outbox (w_db w) = ∅ ∧ db_deadletters (w_db w) = ∅.

Definition held_ok (held : list OutboxRecord) (l : Ledger) : Prop :=
  ∀ r, r ∈ held → record_ok r ∧ known (or_event_id r) l.

Definition running_ok (running : list (Async World unit)) (l : Ledger) : Prop :=
  ∀ p, p ∈ running → ∃ P, stable P ∧ P l ∧ sims P p.
Definition run_ok (run : Run) (l : Ledger) : Prop :=
  refines run.1.1 l ∧ held_ok run.1.2 l ∧ running_ok run.2 l.

Lemma held_later held l l' : rtc ledger_step l l' → held_ok held l → held_ok held l'.
Proof.
  intros Hs Hh r Hin. destruct (Hh r Hin). split; [done|].
  by eapply stable_rtc; [apply stable_known| |].
Qed.
Lemma running_later running l l' : rtc ledger_step l l' → running_ok running l → running_ok running l'.
Proof.
  intros Hs Hr p Hin. destruct (Hr p Hin) as (P & HP & Hl & Hp). exists P.
  split_and!; [done| |done]. by eapply stable_rtc.
Qed.

(** A step of one task: the others rely on what is stable. *)
Lemma run_ok_step running (w' : World) held' l :
  (∃ l', rtc ledger_step l l' ∧ refines w' l' ∧ held_ok held' l') → running_ok running l →
  ∃ l', rtc ledger_step l l' ∧ run_ok (w', held', running) l'.
Proof.
  intros (l' & Hs & Hr & Hh) Hp. exists l'. split; [done|]. split_and!; [done..|].
  by eapply running_later.
Qed.

Lemma block_refines {X} (block : W X) resume (w : World) held before after l :
  run_ok (w, held, before ++ Await block resume :: after) l →
  ∃ l', rtc ledger_step l l'
    ∧ run_ok (state_of block w, held, before ++ resume (value_of block w) :: after) l'.
Proof.
  intros (Hr & Hh & Hp).
  destruct (Hp (Await block resume)) as (P & HP & Hl & (R & HR & Hs & Hk));
    [apply elem_of_app; right; by left|].
  destruct (Hs w l Hr Hl) as (l' & Hsteps & Hr' & Hx). exists l'. split; [done|].
  split_and!; [done|by eapply held_later|]. intros p Hin. simpl in Hin.
  rewrite elem_of_app, elem_of_cons in Hin. destruct Hin as [Hin|[->|Hin]].
  - apply (running_later _ _ _ Hsteps Hp). apply elem_of_app. by left.
  - by exists (R (value_of block w)).
  - apply (running_later _ _ _ Hsteps Hp). apply elem_of_app. right. by right.
Qed.

Lemma outbox_step_refines run run' l :
  outbox_step run run' → run_ok run l → ∃ l', rtc ledger_step l l' ∧ run_ok run' l'.
Proof.
  intros Hstep Hok.
  destruct Hstep as [w w' held running Hc Ho Hd Hl|w held running Hcat
    |worker limit secs w held running|record w held running Hin|X block resume w held before after
    |u by_ w held running|envelope topic key w held running He]; try (by apply block_refines);
    destruct Hok as (Hr & Hh & Hp); cbn [fst snd] in *.
  - apply run_ok_step; [|done]. exists l. split_and!; [done|by apply (refines_silent w)|done].
  - apply run_ok_step; [|done]. unfold persist_latest_snapshot, state_of.
    destruct (app_persisted (w_app w)) as [store|] eqn:Hps; [|by exists l].
    rewrite (rf_config _ _ Hr).
    set (now := value_of now_utc (w_app w)). set (w1 := state_of (on_app now_utc) w).
    assert (Hr1 : refines w1 l) by (by eapply refines_silent; [| | | |exact Hr]).
    destruct (refines_persist_store store now w1 l) as (l' & Hs & Hr');
      [intros e; by apply Hcat|done|].
    exists l'. split_and!; [done..|]. by eapply held_later.
  - apply run_ok_step; [|done].
    destruct (refines_claim worker limit secs w l Hr) as [Hr' Hrec]. exists l.
    split_and!; [done..|]. destruct (value_of _ w) as [rs|] eqn:E; [|done].
    intros r [Hr0|Hr0]%elem_of_app; [by apply (Hrec rs)|by apply Hh].
  - exists l. split; [done|]. split_and!; [done..|]. intros p [->|Hin']%elem_of_cons; [|by apply Hp].
    destruct (Hh _ Hin) as [Hrec Hk]. exists (known (or_event_id record)).
    split_and!; [apply stable_known|done|by apply sims_publish_record].
  - apply run_ok_step; [|done].
    destruct (refines_replay u by_ w l Hr) as (l' & Hs & Hr'). exists l'.
    split_and!; [done..|]. by eapply held_later.
  - apply run_ok_step; [|done].
    destruct (sim_insert_deadletter (λ _, True) envelope topic key stable_true He w l Hr I)
      as (l' & Hs & Hr' & _). exists l'. split_and!; [done..|]. by eapply held_later.
Qed.

Lemma outbox_simulation w0 w held running :
  outbox_start w0 → rtc outbox_step (w0, [], []) (w, held, running) →
  ∃ l, rtc ledger_step empty_ledger l ∧ refines w l.
Proof.
  intros (Hc & Ho & Hd) Hsteps.
  assert (Hgen : ∀ run, rtc outbox_step (w0, [], []) run →
    ∃ l, rtc ledger_step empty_ledger l ∧ run_ok run l).
  { apply (rtc_ind_r (R := outbox_step) (λ run, ∃ l, rtc ledger_step empty_ledger l ∧ run_ok run l)).
    - exists empty_ledger. split; [done|]. split_and!.
      + split; simpl; unfold outbox_ok, deadletters_ok; rewrite ?Ho, ?Hd; try done.
      + intros r Hr. by apply elem_of_nil in Hr.
      + intros p Hp. by apply elem_of_nil in Hp.
    - intros run1 run2 _ Hstep (l & Hl & Hr).
      destruct (outbox_step_refines _ _ _ Hstep Hr) as (l' & Hs & Hr').
      exists l'. split; [by trans l|done]. }
  destruct (Hgen _ Hsteps) as (l & Hl & Hr & _). by exists l.
Qed.

(** C22. The outbox implements the ledger: in every run of a deployment whose
    publishers, stale records included, are interleaved statement by statement,
    with any failure of the database and of the broker, the table's statuses are
    the phases of a ledger that took only ledger steps, and what the ledger has
    sent is in the broker's log. *)
Theorem outbox_refines_ledger w0 w held running :
  outbox_start w0 → rtc outbox_step (w0, [], []) (w, held, running) →
  ∃ l, rtc ledger_step empty_ledger l
    ∧ lg_phase l = phase_of <$> db_outbox (w_db w)
    ∧ ∀ id, id ∈ lg_sent l → in_log id (bk_log (w_kafka w)).
Proof.
  intros Hs Hr. destruct (outbox_simulation _ _ _ _ Hs Hr) as (l & Hl & []). by exists l.
Qed.

(** No event is marked published that is not in the broker's log: whatever
    fails, a row with the status [published] has its event's bytes in its topic
    under its partition key. *)
Theorem published_was_sent w0 w held running id row :
  outbox_start w0 → rtc outbox_step (w0, [], []) (w, held, running) →
  db_outbox (w_db w) !! id = Some row → ob_status row = "published"%string →
  in_log id (bk_log (w_kafka w)).
Proof.
  intros Hs Hsteps Hrow Hst. destruct (outbox_simulation _ _ _ _ Hs Hsteps) as (l & Hl & Hr).
  apply (rf_sent _ _ Hr), completed_was_sent; [done|].
  rewrite (rf_phase _ _ Hr), lookup_fmap, Hrow. simpl. unfold phase_of. by rewrite Hst.
Qed.
End refinement.

(** ** The demonstration run: persist, claim, publish *)
Lemma demo_catalog_id id : ev_event_id (demo_catalog id) = id.
Proof. done. Qed.
Lemma demo_catalog_seq id n :
  ev_conversation_seq (demo_catalog id) = Some n → i64_min ≤ n ≤ i64_max.
Proof. intros [= <-]. by vm_compute. Qed.

Definition demo_published : World :=
  state_of (@publish_outbox_record demo_env demo_serde demo_pg demo_kafka demo_record) demo_claimed.

Lemma demo_run : ∃ running,
  rtc (@outbox_step demo_env demo_serde demo_pg demo_kafka demo_kafka_config demo_catalog)
    (demo_world, [], []) (demo_published, demo_records, running).
Proof.
  destruct (@outbox_run demo_env demo_serde demo_pg demo_kafka demo_kafka_config demo_catalog
    demo_claimed demo_records (@publish_outbox_blocks demo_env demo_serde demo_pg demo_kafka
      demo_record) []) as [running Hrun].
  exists running. eapply rtc_l; [|eapply rtc_l; [|eapply rtc_l; [|exact Hrun]]].
  - apply outbox_persist. intros store e [= <-] He.
    change (e ∈ [demo_catalog "evt_1"; demo_catalog "evt_2"]) in He. rewrite elem_of_cons, list_elem_of_singleton in He.
    by destruct He as [-> | ->].
  - pose proof (@outbox_claim demo_env demo_serde demo_pg demo_kafka demo_kafka_config demo_catalog
      "w" 100 30 demo_persisted [] []) as Hs.
    replace (match value_of _ _ with Ok rs => rs ++ [] | Err _ => [] end) with demo_records in Hs
      by (vm_compute; reflexivity).
    exact Hs.
  - apply outbox_publish. apply list_elem_of_In. vm_compute. auto.
Qed.

Lemma demo_outbox_start : outbox_start demo_kafka_config demo_world.
Proof. by split_and!. Qed.

Lemma outbox_refines_ledger_witness :
  ∃ l, rtc ledger_step empty_ledger l
    ∧ lg_phase l = phase_of <$> db_outbox (w_db demo_published)
    ∧ ∀ id, id ∈ lg_sent l →
        @in_log demo_serde demo_kafka_config demo_catalog id (bk_log (w_kafka demo_published)).
Proof.
  destruct demo_run as [running Hrun].
  exact (@outbox_refines_ledger demo_env demo_serde demo_pg demo_kafka demo_time_laws
    demo_kafka_config demo_catalog demo_catalog_id demo_catalog_seq demo_world demo_published
    demo_records running demo_outbox_start Hrun).
Defined.

Lemma published_was_sent_witness :
  ∃ row, db_outbox (w_db demo_published) !! "evt_1"%string = Some row
    ∧ ob_status row = "published"%string
    ∧ @in_log demo_serde demo_kafka_config demo_catalog "evt_1" (bk_log (w_kafka demo_published)).
Proof.
  assert (H : ∃ row, db_outbox (w_db demo_published) !! "evt_1"%string = Some row
    ∧ ob_status row = "published"%string) by (eexists; split; vm_compute; reflexivity).
  destruct H as (row & Hrow & Hst). exists row. split; [exact Hrow|split; [exact Hst|]].
  destruct demo_run as [running Hrun].
  exact (@published_was_sent demo_env demo_serde demo_pg demo_kafka demo_time_laws
    demo_kafka_config demo_catalog demo_catalog_id demo_catalog_seq demo_world demo_published
    demo_records running "evt_1" row demo_outbox_start Hrun Hrow Hst).
Defined.

(** Two workers claim one row each while the first lease lasts. *)
Definition demo_claim_one (w : string) : D (list OutboxRecord) :=
  @claim_event_outbox_batch demo_env demo_pg w 1 30.
Lemma claims_exclusive_witness :
  let d := w_db demo_persisted in
  let d' := state_of (demo_claim_one "a") d in
  ∃ r r', value_of (demo_claim_one "a") d = Ok [r] ∧ value_of (demo_claim_one "b") d' = Ok [r']
    ∧ or_event_id r' ≠ or_event_id r.
Proof.
  assert (H : ∃ r r', value_of (demo_claim_one "a") (w_db demo_persisted) = Ok [r]
    ∧ value_of (demo_claim_one "b") (state_of (demo_claim_one "a") (w_db demo_persisted)) = Ok [r'])
    by (do 2 eexists; split; vm_compute; reflexivity).
  destruct H as (r & r' & Hr & Hr'). exists r, r'. split; [exact Hr|split; [exact Hr'|]].
  refine (@claims_exclusive demo_env demo_pg "a" 1 30 (w_db demo_persisted) [r] r
    (state_of (demo_claim_one "a") (w_db demo_persisted)) "b" 1 30 [r'] r'
    Hr _ (rtc_refl _ _) _ Hr' _); [by left|by vm_compute|by left].
Defined.
