(* ===== verification/RelationalSpec.v ===== *)
(** * What the relational copy promises

    A copy that answers success has stored every conversation, message, media
    object and transcript of the snapshot, and touched no other row of theirs;
    a snapshot whose references are known is copied on a server that carries
    out every statement; two messages that stand for the same WhatsApp message
    stop the copy. *)
From S2P Require Import Prelude Text Json Env Config Models Jid Records EventBus Codec Tables.
From S2P Require Import Database Relational DatabaseSpec Snapshot Store Demo Outbox OutboxSpec.

Section relational_spec.
Context `{Env} `{Serde} `{Postgres}.
Abbreviation rel := db_relational.

(** ** Statements *)
Lemma bindR_ok {S A B E} (m : ST S (result A E)) (k : A → ST S (result B E)) s b :
  value_of (bindR m k) s = Ok b →
  ∃ a, value_of m s = Ok a ∧ value_of (k a) (state_of m s) = Ok b
    ∧ state_of (bindR m k) s = state_of (k a) (state_of m s).
Proof.
  unfold bindR. rewrite value_of_bind, state_of_bind.
  destruct (value_of m s) as [a|e]; [|done]. eauto.
Qed.

Lemma table_statement_ok ctx f d :
  value_of (table_statement ctx f) d = Ok tt →
  f (pg_now (db_calls d)) (rel d) = Some (rel (state_of (table_statement ctx f) d)).
Proof.
  intros Hv%statement_ok. apply fmap_Some in Hv as (t & Ht & Heq).
  apply (f_equal snd) in Heq. cbn [snd] in Heq. unfold table_statement. rewrite Heq. exact Ht.
Qed.

Lemma table_statement_frame {X} (ρ : Tables → X) ctx f :
  (∀ now t t', f now t = Some t' → ρ t' = ρ t) →
  frame (λ d, ρ (rel d)) (table_statement ctx f).
Proof.
  intros Hf d. unfold table_statement.
  match goal with |- ρ (rel (state_of (statement ?c ?g) d)) = _ =>
    destruct (statement_cases c g d) as [(a & d1 & Hg & -> & _)|[-> _]] end; [|done].
  apply fmap_Some in Hg as (t & Ht & [= _ ->]). exact (Hf _ _ _ Ht).
Qed.
Lemma plain_statement_frame {X} (ρ : Tables → X) f :
  (∀ now t t', f now t = Some t' → ρ t' = ρ t) → frame (λ d, ρ (rel d)) (plain_statement f).
Proof. intros Hf d. by apply (table_statement_frame ρ _ f). Qed.

Lemma checked_Some {A} b (a a' : A) : checked b a = Some a' ↔ b = true ∧ a' = a.
Proof. destruct b; simpl; naive_solver. Qed.

(** ** Which statement touches which table *)
(** The tables written last, of rows of their own. *)
Definition facts (t : Tables) :=
  (tb_conversations t, tb_messages t, tb_media t, tb_transcripts t).

(** A statement stores a row in one table: the others are framed. *)
#[local] Ltac stores_elsewhere :=
  first [apply table_statement_frame | apply plain_statement_frame];
  intros now t t' Hf; first [by injection Hf as <- | by apply checked_Some in Hf as [_ ->]].

Lemma facts_project id n st : frame (λ d, facts (rel d)) (upsert_project id n st).
Proof. stores_elsewhere. Qed.
Lemma facts_company p c n st : frame (λ d, facts (rel d)) (upsert_company p c n st).
Proof. stores_elsewhere. Qed.
Lemma facts_channel id p c pr ph l st at_ :
  frame (λ d, facts (rel d)) (upsert_channel id p c pr ph l st at_).
Proof. stores_elsewhere. Qed.
Lemma facts_contact ct ch : frame (λ d, facts (rel d)) (upsert_contact ct ch).
Proof. stores_elsewhere. Qed.
Lemma facts_minimal p c ch id n ph :
  frame (λ d, facts (rel d)) (upsert_minimal_contact p c ch id n ph).
Proof. stores_elsewhere. Qed.
Lemma facts_group id g p c ch : frame (λ d, facts (rel d)) (upsert_group id g p c ch).
Proof. stores_elsewhere. Qed.
Lemma facts_member m : frame (λ d, facts (rel d)) (upsert_group_member m).
Proof. stores_elsewhere. Qed.
Lemma facts_dirty p c r : frame (λ d, facts (rel d)) (persist_dirty_record p c r).
Proof. stores_elsewhere. Qed.
Lemma facts_lease p c k id l : frame (λ d, facts (rel d)) (persist_dirty_lease p c k id l).
Proof. stores_elsewhere. Qed.
Lemma facts_position k n : frame (λ d, facts (rel d)) (persist_consumer_position k n).
Proof. destruct k as [[[p c] k] id]. stores_elsewhere. Qed.
Lemma facts_idempotency e k r : frame (λ d, facts (rel d)) (persist_idempotency_key e k r).
Proof. destruct k as [[p c] k]. stores_elsewhere. Qed.
Hint Resolve facts_project facts_company facts_channel facts_contact facts_minimal facts_group
  facts_member facts_dirty facts_lease facts_position facts_idempotency : frame.
Lemma facts_callback v : frame (λ d, facts (rel d)) (persist_callback v).
Proof. unfold persist_callback. frame_tac. stores_elsewhere. Qed.
Lemma facts_attempt a : frame (λ d, facts (rel d)) (persist_webhook_delivery_attempt a).
Proof.
  apply table_statement_frame. intros now t t' Hf.
  destruct (parse_uuid _) as [id|]; [|done]. destruct (tb_attempts t !! id); [by injection Hf as <-|].
  by apply checked_Some in Hf as [_ ->].
Qed.
Hint Resolve facts_callback facts_attempt : frame.

Section copy.
Context (store : PersistedStore).

Lemma facts_projects : frame (λ d, facts (rel d)) (persist_projects store).
Proof. unfold persist_projects, project_stub. frame_tac. Qed.
Lemma facts_companies : frame (λ d, facts (rel d)) (persist_companies store).
Proof. unfold persist_companies, company_stub. frame_tac. Qed.
Lemma facts_channels : frame (λ d, facts (rel d)) (persist_channels store).
Proof.
  unfold persist_channels, persist_channel, channel_stub, project_stub, company_stub. frame_tac.
Qed.
Lemma facts_contacts : frame (λ d, facts (rel d)) (persist_contacts store).
Proof. unfold persist_contacts, persist_contact, channel_stub. frame_tac. Qed.
Lemma facts_groups : frame (λ d, facts (rel d)) (persist_groups store).
Proof. unfold persist_groups, persist_group. frame_tac. Qed.
Lemma facts_members : frame (λ d, facts (rel d)) (persist_group_members store).
Proof. unfold persist_group_members, persist_members, persist_member. frame_tac. Qed.
(** After the transcripts. *)
Definition after_facts (now : time) : D unit :=
  try! _ := persist_dirty store in
  try! _ := persist_dirty_leases store in
  try! _ := persist_consumer_state store in
  try! _ := persist_idempotency store now in
  try! _ := persist_callbacks store in
  persist_webhook_delivery_attempts store.
Lemma facts_after now : frame (λ d, facts (rel d)) (after_facts now).
Proof.
  unfold after_facts, persist_dirty, persist_dirty_leases, persist_consumer_state,
    persist_idempotency, persist_callbacks, persist_webhook_delivery_attempts.
  frame_tac.
Qed.

(** The four tables among themselves. *)
Definition but_conversations (t : Tables) := (tb_messages t, tb_media t, tb_transcripts t).
Lemma conversations_frame : frame (λ d, but_conversations (rel d)) (persist_conversations store).
Proof. unfold persist_conversations. apply frame_try_each. intros c. stores_elsewhere. Qed.
Definition but_messages (t : Tables) := (tb_conversations t, tb_media t, tb_transcripts t).
Lemma messages_frame : frame (λ d, but_messages (rel d)) (persist_messages store).
Proof. unfold persist_messages. apply frame_try_each. intros m. stores_elsewhere. Qed.
Definition but_media (t : Tables) := (tb_conversations t, tb_messages t, tb_transcripts t).
Lemma media_frame : frame (λ d, but_media (rel d)) (persist_media store).
Proof. unfold persist_media. apply frame_try_each. intros m. stores_elsewhere. Qed.
Definition but_transcripts (t : Tables) := (tb_conversations t, tb_messages t, tb_media t).
Lemma transcripts_frame : frame (λ d, but_transcripts (rel d)) (persist_transcripts store).
Proof. unfold persist_transcripts. apply frame_try_each. intros r. stores_elsewhere. Qed.

(** ** Rows of a table stored one by one *)
Definition overlay {V R} (row : V → option R → R) (v : option V) (old : option R) : option R :=
  match v with Some v => Some (row v old) | None => old end.

Section rows.
Context {V R : Type} (ρ : Tables → gmap string R) (key : V → string)
  (row : V → option R → R) (st : V → D unit).
Hypothesis st_stores : ∀ v d, value_of (st v) d = Ok tt →
  ρ (rel (state_of (st v) d)) = <[key v := row v (ρ (rel d) !! key v)]> (ρ (rel d)).

Lemma try_each_rows l d :
  NoDup (key <$> l) → value_of (try_each st l) d = Ok tt →
  ∀ k, ρ (rel (state_of (try_each st l) d)) !! k
       = overlay row (find (λ v, bool_decide (key v = k)) l) (ρ (rel d) !! k).
Proof.
  revert d. induction l as [|v l IH]; intros d Hnd Hv k; [done|].
  rewrite try_each_cons in Hv |- *. apply bindR_ok in Hv as ([] & Hv & Hl & ->).
  apply NoDup_cons in Hnd as [Hni Hnd]. rewrite (IH _ Hnd Hl), (st_stores _ _ Hv). simpl.
  destruct (decide (key v = k)) as [Hk|Hne]; [subst k|].
  - rewrite bool_decide_eq_true_2, lookup_insert_eq by done.
    replace (find _ l) with (@None V); [done|]. symmetry.
    apply find_None. intros x Hx. apply bool_decide_eq_false_2. intros Hxv.
    apply Hni, list_elem_of_fmap. by exists x.
  - by rewrite bool_decide_eq_false_2, lookup_insert_ne by done.
Qed.

(** The values of a map whose entries bear their key. *)
Lemma try_each_map (m : gmap string V) d :
  map_Forall (λ k v, key v = k) m → value_of (try_each st (hm_values m)) d = Ok tt →
  ∀ k, ρ (rel (state_of (try_each st (hm_values m)) d)) !! k
       = overlay row (m !! k) (ρ (rel d) !! k).
Proof.
  intros Hk Hv k.
  assert (Hkeys : key <$> hm_values m = hm_keys m).
  { unfold hm_values, hm_keys. rewrite <- list_fmap_compose. apply list_fmap_ext.
    intros i [k' v] Hi%list_elem_of_lookup_2%elem_of_hm_iter. by apply Hk. }
  rewrite try_each_rows; [|rewrite Hkeys; apply hm_iter_NoDup|done]. f_equal.
  destruct (find _ _) as [v|] eqn:Hf.
  - apply find_Some in Hf as [Hin Hb]. apply elem_of_hm_values in Hin as [k' Hk'].
    split_bools. rewrite <- Hb, (Hk _ _ Hk'). done.
  - symmetry. apply eq_None_not_Some. intros [v Hv']. eapply find_None in Hf.
    2: { apply elem_of_hm_values. eauto. }
    split_bools. apply Hf. by apply Hk.
Qed.
End rows.

(** A statement that stores its row. *)
#[local] Ltac stores_row Hv :=
  apply table_statement_ok in Hv; apply checked_Some in Hv as [_ Hv];
  match goal with |- context [state_of ?m ?d] => set (d' := state_of m d) in * end;
  rewrite Hv; reflexivity.

(** A snapshot whose records are filed under their identifiers; a transcript is
    filed under its message, and no two transcripts have one identifier. *)
Record filed : Prop := {
  filed_conversations : map_Forall (λ id c, conv_id c = id) (ps_conversations store);
  filed_messages : map_Forall (λ id m, msg_id m = id) (ps_messages_by_id store);
  filed_media : map_Forall (λ id m, media_id m = id) (ps_media store);
  filed_transcripts : NoDup (tr_id <$> hm_values (ps_transcripts store))
}.
(** The transcript with an identifier. *)
Definition transcript_named (id : string) : option Transcript :=
  find (λ r, bool_decide (tr_id r = id)) (hm_values (ps_transcripts store)).

Lemma conversations_rows d : filed → value_of (persist_conversations store) d = Ok tt →
  ∀ id, tb_conversations (rel (state_of (persist_conversations store) d)) !! id
        = overlay conversation_row (ps_conversations store !! id) (tb_conversations (rel d) !! id).
Proof.
  intros Hf. apply (try_each_map tb_conversations conv_id); [|apply Hf].
  intros c d0 Hv. unfold persist_conversation in *. stores_row Hv.
Qed.
Lemma messages_rows d : filed → value_of (persist_messages store) d = Ok tt →
  ∀ id, tb_messages (rel (state_of (persist_messages store) d)) !! id
        = overlay message_row (ps_messages_by_id store !! id) (tb_messages (rel d) !! id).
Proof.
  intros Hf. apply (try_each_map tb_messages msg_id); [|apply Hf].
  intros m d0 Hv. unfold persist_message in *. stores_row Hv.
Qed.
Lemma media_rows d : filed → value_of (persist_media store) d = Ok tt →
  ∀ id, tb_media (rel (state_of (persist_media store) d)) !! id
        = overlay media_row (ps_media store !! id) (tb_media (rel d) !! id).
Proof.
  intros Hf. apply (try_each_map tb_media media_id); [|apply Hf].
  intros m d0 Hv. unfold persist_media_object in *. stores_row Hv.
Qed.
Lemma transcripts_rows d : filed → value_of (persist_transcripts store) d = Ok tt →
  ∀ id, tb_transcripts (rel (state_of (persist_transcripts store) d)) !! id
        = overlay transcript_row (transcript_named id) (tb_transcripts (rel d) !! id).
Proof.
  intros Hf. apply (try_each_rows tb_transcripts tr_id); [|apply Hf].
  intros r d0 Hv. unfold persist_transcript in *. stores_row Hv.
Qed.

(** The facts of a table, after each of the other phases. *)
Lemma copy_steps now d :
  value_of (persist_relational store now) d = Ok tt →
  ∃ d1, facts (rel d1) = facts (rel d)
    ∧ value_of (persist_conversations store) d1 = Ok tt
    ∧ let d2 := state_of (persist_conversations store) d1 in
      value_of (persist_messages store) d2 = Ok tt
    ∧ let d3 := state_of (persist_messages store) d2 in
      value_of (persist_media store) d3 = Ok tt
    ∧ let d4 := state_of (persist_media store) d3 in
      value_of (persist_transcripts store) d4 = Ok tt
    ∧ facts (rel (state_of (persist_relational store now) d))
      = facts (rel (state_of (persist_transcripts store) d4)).
Proof.
  unfold persist_relational. fold (after_facts now). intros Hv.
  do 10 (apply bindR_ok in Hv as ([] & ? & Hv & ->)).
  eexists. split; [|split_and!; [eassumption..|apply (facts_after now)]].
  by rewrite facts_members, facts_groups, facts_contacts, facts_channels, facts_companies,
    facts_projects.
Qed.

(** The message rows after a copy that answers success. *)
Lemma copied_messages now d id :
  filed → value_of (persist_relational store now) d = Ok tt →
  tb_messages (rel (state_of (persist_relational store now) d)) !! id
  = overlay message_row (ps_messages_by_id store !! id) (tb_messages (rel d) !! id).
Proof.
  intros Hf Hv. apply copy_steps in Hv as (d1 & Hd1 & _ & Hm & _ & _ & Hd5).
  set (d2 := state_of (persist_conversations store) d1) in *.
  set (d3 := state_of (persist_messages store) d2) in *.
  pose proof (conversations_frame d1) as F1. fold d2 in F1. injection F1. injection Hd1.
  pose proof (media_frame d3) as F3. injection F3.
  pose proof (transcripts_frame (state_of (persist_media store) d3)) as F4. injection F4.
  injection Hd5. intros.
  etrans; [|etrans; [apply (messages_rows d2 Hf Hm id)|]]; fold d3; congruence.
Qed.

(** C30. A copy that answers success has stored each conversation, message, media
    object and transcript of the snapshot under its identifier, updating the
    columns the statement updates, and left every other row of these tables. *)
Theorem copy_agrees now d :
  filed → value_of (persist_relational store now) d = Ok tt →
  let t := rel d in
  let t' := rel (state_of (persist_relational store now) d) in
  (∀ id, tb_conversations t' !! id
         = overlay conversation_row (ps_conversations store !! id) (tb_conversations t !! id))
  ∧ (∀ id, tb_messages t' !! id
           = overlay message_row (ps_messages_by_id store !! id) (tb_messages t !! id))
  ∧ (∀ id, tb_media t' !! id
           = overlay media_row (ps_media store !! id) (tb_media t !! id))
  ∧ (∀ id, tb_transcripts t' !! id
           = overlay transcript_row (transcript_named id) (tb_transcripts t !! id)).
Proof.
  intros Hf Hv. cbv zeta.
  apply copy_steps in Hv as (d1 & Hd1 & Hc & Hm & Hd & Ht & Hd5).
  set (d2 := state_of (persist_conversations store) d1) in *.
  set (d3 := state_of (persist_messages store) d2) in *.
  set (d4 := state_of (persist_media store) d3) in *.
  set (d5 := state_of (persist_transcripts store) d4) in *.
  injection Hd5 as -> -> -> ->.
  pose proof (conversations_frame d1) as F1. pose proof (messages_frame d2) as F2.
  pose proof (media_frame d3) as F3. pose proof (transcripts_frame d4) as F4.
  injection F1. injection F2. injection F3. injection F4. injection Hd1. fold d2 d3 d4 d5.
  intros. split_and!; intros id.
  - etrans; [|etrans; [apply (conversations_rows d1 Hf Hc id)|]]; [|congruence].
    fold d2. congruence.
  - etrans; [|etrans; [apply (messages_rows d2 Hf Hm id)|]]; [|congruence].
    fold d3. congruence.
  - etrans; [|etrans; [apply (media_rows d3 Hf Hd id)|]]; [|congruence].
    fold d4. congruence.
  - etrans; [apply (transcripts_rows d4 Hf Ht id)|]. congruence.
Qed.

(** ** Messages that stand for one WhatsApp message *)
(** What the unique constraints of [messages] make of the table. *)
Definition messages_unique (t : Tables) : Prop := ∀ id id' m m',
  tb_messages t !! id = Some m → tb_messages t !! id' = Some m' → id ≠ id' →
  duplicates m m' = false.

Lemma same_number_comm m m' : same_number m m' = same_number m' m.
Proof. unfold same_number. f_equal; apply bool_decide_ext; naive_solver. Qed.
Lemma same_external_comm m m' : same_external m m' = same_external m' m.
Proof.
  unfold same_external. destruct (decide (msg_wa_message_id m = msg_wa_message_id m')) as [->|Hne].
  - f_equal; [f_equal|]; apply bool_decide_ext; naive_solver.
  - rewrite (bool_decide_eq_false_2 (msg_wa_message_id m = _)) by done.
    rewrite (bool_decide_eq_false_2 (msg_wa_message_id m' = _)) by done.
    by rewrite !andb_false_r.
Qed.
Lemma duplicates_comm m m' : duplicates m m' = duplicates m' m.
Proof. unfold duplicates. by rewrite same_number_comm, same_external_comm. Qed.

Lemma message_row_id m old : msg_id (message_row m old) = msg_id m.
Proof. by destruct old. Qed.

Lemma persist_message_unique m d :
  messages_unique (rel d) → messages_unique (rel (state_of (persist_message m) d)).
Proof.
  intros Hu. unfold persist_message, table_statement.
  match goal with |- context [statement ?c ?g] =>
    destruct (statement_cases c g d) as [(a & d1 & Hg & -> & _)|[-> _]] end; [|done].
  apply fmap_Some in Hg as (t & Ht & Heq). injection Heq as _ ->.
  apply checked_Some in Ht as [Hok ->]. split_bools. unfold message_unique in *. split_bools.
  match goal with Hx : map_Forall _ _ |- _ => rename Hx into Hall end.
  set (row := message_row m _) in *. rewrite (message_row_id m _ : msg_id row = _) in Hall.
  change (tb_messages (rel (tick d))) with (tb_messages (rel d)) in *.
  intros i i' x x'. simpl. intros [[<- <-]|[Hi1 Hi]]%lookup_insert_Some
    [[<- <-]|[Hi2 Hi']]%lookup_insert_Some Hne.
  - done.
  - by destruct (Hall _ _ Hi') as [?|?].
  - rewrite duplicates_comm. by destruct (Hall _ _ Hi) as [?|?].
  - by eapply Hu.
Qed.

Lemma persist_messages_unique d :
  messages_unique (rel d) → messages_unique (rel (state_of (persist_messages store) d)).
Proof.
  unfold persist_messages. generalize (hm_values (ps_messages_by_id store)). intros l.
  revert d. induction l as [|m l IH]; intros d Hu; [done|].
  rewrite try_each_cons. unfold bindR. rewrite state_of_bind.
  pose proof (persist_message_unique m d Hu). destruct (value_of _ _) as [[]|]; [by apply IH|done].
Qed.

(** The stored row of a message is of its channel and direction. *)
Definition same_origin (m old : Message) : Prop :=
  msg_channel_account_id old = msg_channel_account_id m ∧ msg_direction old = msg_direction m.

Lemma message_row_external m m' old old' :
  (∀ o, old = Some o → same_origin m o) → (∀ o, old' = Some o → same_origin m' o) →
  same_external (message_row m old) (message_row m' old') = same_external m m'.
Proof.
  intros Ho Ho'. unfold same_external.
  assert (Hr : ∀ x o, (∀ y, o = Some y → same_origin x y) →
    msg_wa_message_id (message_row x o) = msg_wa_message_id x
    ∧ msg_channel_account_id (message_row x o) = msg_channel_account_id x
    ∧ msg_direction (message_row x o) = msg_direction x).
  { intros x [y|] Hy; [|done]. destruct (Hy y eq_refl). done. }
  destruct (Hr m old Ho) as (-> & -> & ->), (Hr m' old' Ho') as (-> & -> & ->). done.
Qed.

(** Two messages of a snapshot that stand for one WhatsApp message of a channel
    stop the copy, whatever the server answers: the table cannot hold both, and
    no copy of such a snapshot answers success. *)
Theorem duplicate_stops_copy now d m m' :
  filed → messages_unique (rel d) →
  ps_messages_by_id store !! msg_id m = Some m →
  ps_messages_by_id store !! msg_id m' = Some m' →
  msg_id m ≠ msg_id m' → same_external m m' = true →
  (∀ old, tb_messages (rel d) !! msg_id m = Some old → same_origin m old) →
  (∀ old, tb_messages (rel d) !! msg_id m' = Some old → same_origin m' old) →
  ∃ err, value_of (persist_relational store now) d = Err err.
Proof.
  intros Hf Hu Hm Hm' Hne Hdup Ho Ho'.
  destruct (value_of (persist_relational store now) d) as [[]|err] eqn:Hv; [|by exists err].
  exfalso. pose proof (λ id, copied_messages now d id Hf Hv) as Hrows.
  apply copy_steps in Hv as (d1 & Hd1 & _ & _ & _ & _ & Hd5).
  set (d2 := state_of (persist_conversations store) d1) in *.
  assert (Hu' : messages_unique (rel (state_of (persist_relational store now) d))).
  { assert (Hu2 : messages_unique (rel d2)).
    { pose proof (conversations_frame d1) as F. fold d2 in F. unfold messages_unique.
      injection F as -> _ _. injection Hd1 as _ -> _ _. exact Hu. }
    apply persist_messages_unique in Hu2. set (d3 := state_of (persist_messages store) d2) in *.
    set (d4 := state_of (persist_media store) d3) in *.
    pose proof (media_frame d3) as F3. pose proof (transcripts_frame d4) as F4. fold d4 in F3.
    unfold messages_unique. injection Hd5 as _ -> _ _. injection F4 as _ -> _.
    injection F3 as _ -> _. exact Hu2. }
  pose proof (Hrows (msg_id m)) as Hr. rewrite Hm in Hr.
  pose proof (Hrows (msg_id m')) as Hr'. rewrite Hm' in Hr'. simpl in Hr, Hr'.
  pose proof (Hu' _ _ _ _ Hr Hr' Hne) as Hd. unfold duplicates in Hd. split_bools.
  by rewrite message_row_external, Hdup in *.
Qed.
End copy.
End relational_spec.

(** ** The snapshot of the demonstration *)
Definition demo_snapshot : PersistedStore := @from_inner demo_env (app_inner demo_state).
Definition demo_copy (store : PersistedStore) : D unit :=
  @persist_relational demo_env demo_pg store (seconds 3000).

Lemma demo_snapshot_filed : @filed demo_env demo_snapshot.
Proof.
  split; [intros id v Hv; revert id v Hv; apply (bool_decide_unpack (map_Forall _ _)); vm_compute;
    exact I..|]. apply (bool_decide_unpack (NoDup _)). vm_compute. exact I.
Qed.

(** Both messages are in the table, as the snapshot has them. *)
Lemma copy_agrees_witness :
  value_of (demo_copy demo_snapshot) demo_db = Ok tt
  ∧ size (ps_messages_by_id demo_snapshot) = 2%nat
  ∧ ∀ id, tb_messages (db_relational (state_of (demo_copy demo_snapshot) demo_db)) !! id
          = overlay (@message_row demo_pg) (ps_messages_by_id demo_snapshot !! id) None.
Proof.
  split; [vm_compute; reflexivity|]. split; [vm_compute; reflexivity|].
  exact (proj1 (proj2 (@copy_agrees demo_env demo_pg demo_snapshot (seconds 3000) demo_db
    demo_snapshot_filed ltac:(vm_compute; reflexivity)))).
Defined.

(** A second message with the WhatsApp identifier of the first. *)
Definition demo_messages : list Message :=
  retain_list (λ m, bool_decide (msg_wa_message_id m = Some "wa1"%string))
    (@hm_values canonical_order _ _ _ _ (ps_messages_by_id demo_snapshot)).
Definition twin_of (m : Message) : Message :=
  m <| msg_id := "msg_twin" |> <| msg_conversation_seq := 3 |>.
Definition demo_twins : PersistedStore :=
  demo_snapshot <| ps_messages_by_id ::=
    λ ms, list_to_map ((λ m, (msg_id (twin_of m), twin_of m)) <$> demo_messages) ∪ ms |>.

Lemma demo_twins_filed : @filed demo_env demo_twins.
Proof.
  split; [intros id v Hv; revert id v Hv; apply (bool_decide_unpack (map_Forall _ _)); vm_compute;
    exact I..|]. apply (bool_decide_unpack (NoDup _)). vm_compute. exact I.
Qed.

Lemma duplicate_stops_copy_witness :
  ∃ m, m ∈ demo_messages ∧ same_external m (twin_of m) = true
    ∧ ∃ err, value_of (demo_copy demo_twins) demo_db = Err err.
Proof.
  assert (Hm : ∃ m, demo_messages = [m] ∧ msg_wa_message_id m = Some "wa1"%string
    ∧ msg_id m ≠ "msg_twin"%string
    ∧ ps_messages_by_id demo_twins !! msg_id m = Some m
    ∧ ps_messages_by_id demo_twins !! "msg_twin"%string = Some (twin_of m)).
  { eexists. split; [vm_compute; reflexivity|]. split; [vm_compute; reflexivity|].
    split; [vm_compute; discriminate|]. split; vm_compute; reflexivity. }
  destruct Hm as (m & Hl & Hwa & Hid & Hm & Hm').
  assert (Hs : same_external m (twin_of m) = true).
  { unfold same_external, twin_of. simpl. rewrite Hwa. by rewrite !bool_decide_eq_true_2. }
  exists m. split; [rewrite Hl; by left|]. split; [exact Hs|].
  apply (@duplicate_stops_copy demo_env demo_pg demo_twins (seconds 3000) demo_db m (twin_of m)
    demo_twins_filed); [done|exact Hm|exact Hm'|exact Hid|exact Hs|done..].
Defined.

(** The row of a channel takes its label from the record of the channel, and
    then from the records of its conversations, which all say [WhatsApp]; a
    project takes the name of its record, and then its own identifier. *)
Definition demo_labelled : PersistedStore :=
  demo_snapshot
    <| ps_projects := {["p" := (json! { "name" ~> "Acme"%string })]} |>
    <| ps_channels := {["channel_dev" := (json! { "project_id" ~> "p"%string,
                        "company_id" ~> "c"%string, "label" ~> "Sales"%string })]} |>.
Example label_overwritten :
  let t := db_relational (state_of (demo_copy demo_labelled) demo_db) in
  value_of (demo_copy demo_labelled) demo_db = Ok tt
  ∧ cr_label <$> tb_channels t !! "channel_dev"%string = Some (Some "WhatsApp"%string)
  ∧ pr_name <$> tb_projects t !! "p"%string = Some "p"%string.
Proof. vm_compute. repeat split. Qed.
