(* ===== verification/CopySpec.v ===== *)
(** * When the relational copy succeeds

    The copy creates the rows its later rows refer to before them.  On a server
    that carries out every statement, a snapshot that only refers to what it
    holds, or what the tables hold, is copied to the end. *)
From S2P Require Import Prelude Text Json Env Config Models Jid Records EventBus Codec Tables.
From S2P Require Import Database Relational DatabaseSpec Snapshot Store Demo Outbox OutboxSpec.
From S2P Require Import RelationalSpec.

(** ** What a row can refer to *)
Inductive Fact :=
| FProject (id : string)
| FCompany (id : string)
| FChannel (id : string)
| FContact (id : string)
| FGroup (id : string)
| FConversation (id : string)
| FMessage (id : string)
| FMedia (id : string)
| FCallback (id : string).

Definition holds (t : Tables) (f : Fact) : Prop :=
  match f with
  | FProject id => is_Some (tb_projects t !! id)
  | FCompany id => is_Some (tb_companies t !! id)
  | FChannel id => is_Some (tb_channels t !! id)
  | FContact id => is_Some (tb_contacts t !! id)
  | FGroup id => is_Some (tb_groups t !! id)
  | FConversation id => is_Some (tb_conversations t !! id)
  | FMessage id => is_Some (tb_messages t !! id)
  | FMedia id => is_Some (tb_media t !! id)
  | FCallback id => is_Some (tb_callbacks t !! id)
  end.
(** Rows are never deleted. *)
Definition grows (t t' : Tables) : Prop := ∀ f, holds t f → holds t' f.

#[export] Instance grows_preorder : PreOrder grows.
Proof. split; [by intros t f|]. intros t1 t2 t3 H1 H2 f Hf. eauto. Qed.

(** ** The references of a row *)
Definition opt_fact (k : string → Fact) (o : option string) : list Fact :=
  match o with Some id => [k id] | None => [] end.
Definition tenant_facts (p c : string) : list Fact := [FProject p; FCompany c].
Definition company_facts (r : CompanyRow) : list Fact := [FProject (cor_project_id r)].
Definition channel_facts (r : ChannelRow) : list Fact :=
  tenant_facts (cr_project_id r) (cr_company_id r).
Definition contact_facts (r : ContactRow) : list Fact :=
  tenant_facts (cx_project_id r) (cx_company_id r) ++ [FChannel (cx_channel_account_id r)].
Definition group_facts (r : GroupRow) : list Fact :=
  tenant_facts (grw_project_id r) (grw_company_id r) ++ [FChannel (grw_channel_account_id r)].
Definition conversation_facts (r : ConversationRow) : list Fact :=
  tenant_facts (vr_project_id r) (vr_company_id r) ++ [FChannel (vr_channel_account_id r)]
  ++ opt_fact FContact (vr_contact_id r) ++ opt_fact FGroup (vr_group_id r).
Definition message_facts (m : Message) : list Fact :=
  tenant_facts (msg_project_id m) (msg_company_id m)
  ++ [FConversation (msg_conversation_id m); FChannel (msg_channel_account_id m)]
  ++ opt_fact FContact (msg_sender_contact_id m).
Definition media_facts (m : MediaObject) : list Fact :=
  tenant_facts (media_project_id m) (media_company_id m)
  ++ [FConversation (media_conversation_id m)] ++ opt_fact FMessage (media_message_id m).
Definition transcript_facts (r : Transcript) : list Fact :=
  tenant_facts (tr_project_id r) (tr_company_id r) ++ [FMessage (tr_message_id r)]
  ++ opt_fact FMedia (tr_media_id r).
Definition callback_facts (r : CallbackRow) : list Fact :=
  tenant_facts (kr_project_id r) (kr_company_id r).

Lemma refers_holds {A} (m : gmap string A) k : refers m k = true ↔ is_Some (m !! k).
Proof. apply bool_decide_eq_true. Qed.
Lemma refers_opt_holds {A} (m : gmap string A) (k : string → Fact) o t :
  (∀ id, holds t (k id) ↔ is_Some (m !! id)) →
  refers_opt m o = true ↔ Forall (holds t) (opt_fact k o).
Proof.
  intros Hk. destruct o as [id|]; simpl; [|by split; [constructor|]].
  by rewrite refers_holds, Forall_singleton, Hk.
Qed.

#[local] Ltac facts_of_refs t :=
  rewrite ?Forall_app, ?Forall_cons, ?Forall_nil;
  rewrite <- ?(refers_opt_holds (tb_contacts t) FContact), <- ?(refers_opt_holds (tb_groups t) FGroup),
    <- ?(refers_opt_holds (tb_messages t) FMessage), <- ?(refers_opt_holds (tb_media t) FMedia)
    by done;
  rewrite ?andb_true_iff, ?refers_holds; simpl; naive_solver.

Section refs.
Context (t : Tables).
Lemma tenant_refs_facts p c : tenant_refs t p c = true ↔ Forall (holds t) (tenant_facts p c).
Proof. unfold tenant_refs, tenant_facts. facts_of_refs t. Qed.
Lemma company_refs_facts r : company_refs t r = true ↔ Forall (holds t) (company_facts r).
Proof. unfold company_refs, company_facts. facts_of_refs t. Qed.
Lemma channel_refs_facts r : channel_refs t r = true ↔ Forall (holds t) (channel_facts r).
Proof. apply tenant_refs_facts. Qed.
Lemma contact_refs_facts r : contact_refs t r = true ↔ Forall (holds t) (contact_facts r).
Proof. unfold contact_refs, contact_facts, tenant_refs, tenant_facts. facts_of_refs t. Qed.
Lemma group_refs_facts r : group_refs t r = true ↔ Forall (holds t) (group_facts r).
Proof. unfold group_refs, group_facts, tenant_refs, tenant_facts. facts_of_refs t. Qed.
Lemma conversation_refs_facts r :
  conversation_refs t r = true ↔ Forall (holds t) (conversation_facts r).
Proof. unfold conversation_refs, conversation_facts, tenant_refs, tenant_facts. facts_of_refs t. Qed.
Lemma message_refs_facts r : message_refs t r = true ↔ Forall (holds t) (message_facts r).
Proof. unfold message_refs, message_facts, tenant_refs, tenant_facts. facts_of_refs t. Qed.
Lemma media_refs_facts r : media_refs t r = true ↔ Forall (holds t) (media_facts r).
Proof. unfold media_refs, media_facts, tenant_refs, tenant_facts. facts_of_refs t. Qed.
Lemma transcript_refs_facts r :
  transcript_refs t r = true ↔ Forall (holds t) (transcript_facts r).
Proof. unfold transcript_refs, transcript_facts, tenant_refs, tenant_facts. facts_of_refs t. Qed.
Lemma tenant_conversation_refs_facts p c id :
  tenant_conversation_refs t p c id = true
  ↔ Forall (holds t) (tenant_facts p c ++ [FConversation id]).
Proof. unfold tenant_conversation_refs, tenant_refs, tenant_facts. facts_of_refs t. Qed.
Lemma callback_refs_facts r : callback_refs t r = true ↔ Forall (holds t) (callback_facts r).
Proof. apply tenant_refs_facts. Qed.
End refs.

(** The references of stored rows, which the server maintains: those of the
    rows an update takes columns from. *)
Record sound (t : Tables) : Prop := {
  sound_contacts : map_Forall (λ _ r, Forall (holds t) (contact_facts r)) (tb_contacts t);
  sound_groups : map_Forall (λ _ r, Forall (holds t) (group_facts r)) (tb_groups t);
  sound_messages : map_Forall (λ _ r, Forall (holds t) (message_facts r)) (tb_messages t);
  sound_media : map_Forall (λ _ r, Forall (holds t) (media_facts r)) (tb_media t);
  sound_transcripts :
    map_Forall (λ _ r, Forall (holds t) (transcript_facts r)) (tb_transcripts t);
  sound_callbacks : map_Forall (λ _ r, Forall (holds t) (callback_facts r)) (tb_callbacks t)
}.

Section success.
Context `{Env} `{Postgres} (store : PersistedStore).
Abbreviation rel := db_relational.
Abbreviation stored m := (ps_messages_by_id store !! msg_id m = Some m).

(** A server that carries out every statement the constraints allow. *)
Hypothesis carried_out : ∀ n, pg_call n = PgDone.
Hypothesis Hfiled : filed store.
(** No two messages of the snapshot collide. *)
Hypothesis Hdistinct : ∀ m m', stored m → stored m' → msg_id m ≠ msg_id m' →
  duplicates m m' = false.

(** The rows of [messages] agree with the snapshot: the row of a message is in
    its place, any other collides with none. *)
Definition same_place (m row : Message) : Prop :=
  msg_conversation_id row = msg_conversation_id m ∧ same_origin m row.
Definition agrees (t : Tables) : Prop := ∀ id row m,
  tb_messages t !! id = Some row → stored m →
  (msg_id m = id → same_place m row) ∧ (msg_id m ≠ id → duplicates m row = false).

(** ** What the copy keeps *)
Record kept (t : Tables) : Prop := { kept_sound : sound t; kept_agrees : agrees t }.

(** From a state where [F] holds, [m] succeeds, keeps [kept] and every row, and
    [G] holds. *)
Definition succeeds (F : Fact → Prop) (m : D unit) (G : Fact → Prop) : Prop := ∀ d,
  kept (rel d) → (∀ f, F f → holds (rel d) f) →
  value_of m d = Ok tt ∧ kept (rel (state_of m d)) ∧ grows (rel d) (rel (state_of m d))
  ∧ ∀ f, G f → holds (rel (state_of m d)) f.

Lemma succeeds_bind F m G k K :
  succeeds F m G → succeeds (λ f, F f ∨ G f) k K →
  succeeds F (bindR m (λ _, k)) (λ f, G f ∨ K f).
Proof.
  intros Hm Hk d Hd HF. destruct (Hm d Hd HF) as (Hv & Hd1 & Hg1 & HG).
  unfold bindR. rewrite value_of_bind, state_of_bind, Hv.
  destruct (Hk (state_of m d) Hd1) as (Hv2 & Hd2 & Hg2 & HK); [naive_solver|].
  split_and!; [done|done|by etrans|]. intros f [Hf|Hf]; auto.
Qed.

Lemma succeeds_try_each {A} F (f : A → D unit) G l :
  (∀ x, x ∈ l → succeeds F (f x) (G x)) →
  succeeds F (try_each f l) (λ q, ∃ x, x ∈ l ∧ G x q).
Proof.
  induction l as [|x l IH]; intros Hf d Hd HF.
  - split_and!; [done..|]. by intros q (x & Hx%elem_of_nil & _).
  - rewrite try_each_cons.
    destruct (succeeds_bind F (f x) (G x) (try_each f l) (λ q, ∃ y, y ∈ l ∧ G y q)) with d
      as (Hv & Hk & Hg & HG); [apply Hf; left| |done|done|].
    { intros d' Hd' HF'. apply (IH (λ y Hy, Hf y ltac:(by right)) d' Hd'). naive_solver. }
    split_and!; [done..|]. intros q (y & [->|Hy]%elem_of_cons & Hq); apply HG; eauto.
Qed.

Lemma succeeds_weaken (F F' : Fact → Prop) m (G G' : Fact → Prop) :
  succeeds F m G → (∀ f, F f → F' f) → (∀ f, G' f → G f) → succeeds F' m G'.
Proof.
  intros Hm HF HG d Hd HF'. destruct (Hm d Hd) as (? & ? & ? & ?); [auto|].
  split_and!; auto.
Qed.

Lemma succeeds_nothing F : succeeds F (ret (Ok tt)) (λ _, False).
Proof. by intros d Hd HF. Qed.

Lemma succeeds_table F ctx f G :
  (∀ now t, kept t → (∀ q, F q → holds t q) →
     ∃ t', f now t = Some t' ∧ kept t' ∧ grows t t' ∧ ∀ q, G q → holds t' q) →
  succeeds F (table_statement ctx f) G.
Proof.
  intros Hf d Hd HF. unfold table_statement, statement, run_statement, value_of, state_of.
  rewrite carried_out. destruct (Hf (pg_now (db_calls d)) (rel d) Hd HF) as (t' & Ht & ?).
  change (rel (d <| db_calls ::= S |>)) with (rel d). by rewrite Ht.
Qed.
Lemma succeeds_plain F f G :
  (∀ now t, kept t → (∀ q, F q → holds t q) →
     ∃ t', f now t = Some t' ∧ kept t' ∧ grows t t' ∧ ∀ q, G q → holds t' q) →
  succeeds F (plain_statement f) G.
Proof. intros Hf d. apply (succeeds_table F (pg_error (db_calls d)) f G Hf d). Qed.

(** ** Storing a row *)
Lemma facts_mono t t' l : grows t t' → Forall (holds t) l → Forall (holds t') l.
Proof. intros Hg Hl. eapply Forall_impl; [exact Hl|apply Hg]. Qed.

(** The rows of the six tables, [t'] holding those of [t] and sound new ones. *)
Lemma sound_grows t t' :
  grows t t' → sound t →
  (∀ k r, tb_contacts t' !! k = Some r →
     tb_contacts t !! k = Some r ∨ Forall (holds t) (contact_facts r)) →
  (∀ k r, tb_groups t' !! k = Some r →
     tb_groups t !! k = Some r ∨ Forall (holds t) (group_facts r)) →
  (∀ k r, tb_messages t' !! k = Some r →
     tb_messages t !! k = Some r ∨ Forall (holds t) (message_facts r)) →
  (∀ k r, tb_media t' !! k = Some r →
     tb_media t !! k = Some r ∨ Forall (holds t) (media_facts r)) →
  (∀ k r, tb_transcripts t' !! k = Some r →
     tb_transcripts t !! k = Some r ∨ Forall (holds t) (transcript_facts r)) →
  (∀ k r, tb_callbacks t' !! k = Some r →
     tb_callbacks t !! k = Some r ∨ Forall (holds t) (callback_facts r)) →
  sound t'.
Proof.
  intros Hg [S1 S2 S3 S4 S5 S6] H1 H2 H3 H4 H5 H6.
  split; intros k r Hr; eapply facts_mono; eauto;
    [destruct (H1 _ _ Hr)|destruct (H2 _ _ Hr)|destruct (H3 _ _ Hr)|destruct (H4 _ _ Hr)
    |destruct (H5 _ _ Hr)|destruct (H6 _ _ Hr)]; eauto.
Qed.

Lemma agrees_same t t' : tb_messages t' = tb_messages t → agrees t → agrees t'.
Proof. intros Hm Ha id row m. rewrite Hm. apply Ha. Qed.

Lemma checked_true {A} b (a : A) : b = true → checked b a = Some a.
Proof. by intros ->. Qed.

(** One more row, or a row changed, in one table. *)
#[local] Ltac grow :=
  intros []; simpl; auto; rewrite lookup_insert_is_Some';
  by auto.
(** The row [row] of the statement, whose references hold by [Hrow]. *)
#[local] Ltac row_stored Hs Ha Hrow :=
  match goal with |- kept ?t' ∧ grows ?t _ ∧ _ =>
    assert (Hg : grows t t') by grow;
    split_and!;
    [split;
     [apply (sound_grows t t' Hg Hs); simpl;
      first [intros ? ? ?; left; assumption
            |intros ? ? [[_ <-]|[_ ?]]%lookup_insert_Some; [right; exact Hrow|left; assumption]]
     |by apply (agrees_same t)]
    |exact Hg
    |intros q ->; simpl; rewrite lookup_insert_eq; eauto]
  end.

Lemma succeeds_project id name st :
  succeeds (λ _, False) (upsert_project id name st) (λ q, q = FProject id).
Proof.
  apply succeeds_plain. intros now t [Hs Ha] _. eexists. split; [reflexivity|].
  row_stored Hs Ha I.
Qed.
Lemma succeeds_company p c name st :
  succeeds (λ q, q = FProject p) (upsert_company p c name st) (λ q, q = FCompany c).
Proof.
  apply succeeds_plain. intros now t [Hs Ha] HF. eexists. split.
  - apply checked_true, company_refs_facts. unfold company_facts. simpl. constructor; auto.
  - row_stored Hs Ha I.
Qed.
Lemma succeeds_channel id p c pr ph l st at_ :
  succeeds (λ q, q ∈ tenant_facts p c) (upsert_channel id p c pr ph l st at_)
    (λ q, q = FChannel id).
Proof.
  apply succeeds_plain. intros now t [Hs Ha] HF. eexists. split.
  - apply checked_true, channel_refs_facts, Forall_forall. intros q Hq. apply HF.
    unfold channel_facts in Hq. by destruct (tb_channels t !! id).
  - row_stored Hs Ha I.
Qed.

(** The tenant of an updated row is that of the stored row. *)
#[local] Ltac facts_list :=
  unfold contact_facts, group_facts, conversation_facts, message_facts, media_facts,
    transcript_facts, callback_facts, tenant_facts in *;
  rewrite ?Forall_app, ?Forall_cons, ?Forall_nil in *; simpl in *; naive_solver.

(** A fact of a list that holds. *)
Lemma hold_list F (l : list Fact) t :
  (∀ q, F q → holds t q) → (∀ q, q ∈ l → F q) → Forall (holds t) l.
Proof. intros HF Hl. apply Forall_forall. auto. Qed.

Definition place_facts (p c ch : string) : list Fact := tenant_facts p c ++ [FChannel ch].

Lemma succeeds_minimal p c ch id name ph :
  succeeds (λ q, q ∈ place_facts p c ch) (upsert_minimal_contact p c ch id name ph)
    (λ q, q = FContact id).
Proof.
  apply succeeds_plain. intros now t [Hs Ha] HF.
  pose proof (hold_list _ _ t HF (λ q Hq, Hq)) as Hp.
  assert (Hrow : Forall (holds t) (contact_facts
    (minimal_contact_row p c ch id name ph now (tb_contacts t !! id)))).
  { destruct (tb_contacts t !! id) as [old|] eqn:E; [|exact Hp].
    exact (sound_contacts _ Hs _ _ E). }
  eexists. split; [by apply checked_true, contact_refs_facts|]. row_stored Hs Ha Hrow.
Qed.

Lemma succeeds_contact ct ch :
  let ch' := unwrap_or (ct_channel_account_id ct) ch in
  succeeds (λ q, q ∈ place_facts (ct_project_id ct) (ct_company_id ct) ch')
    (upsert_contact ct ch) (λ q, q = FContact (ct_id ct)).
Proof.
  intros ch'. apply succeeds_plain. intros now t [Hs Ha] HF. fold ch'.
  pose proof (hold_list _ _ t HF (λ q Hq, Hq)) as Hp.
  assert (Hrow : Forall (holds t) (contact_facts
    (contact_row ct ch' now (tb_contacts t !! ct_id ct)))).
  { destruct (tb_contacts t !! ct_id ct) as [old|] eqn:E; [|exact Hp].
    pose proof (sound_contacts _ Hs _ _ E). unfold place_facts in Hp. facts_list. }
  eexists. split; [by apply checked_true, contact_refs_facts|]. row_stored Hs Ha Hrow.
Qed.

Lemma succeeds_group id g p c ch :
  succeeds (λ q, q ∈ place_facts p c ch) (upsert_group id g p c ch) (λ q, q = FGroup id).
Proof.
  apply succeeds_plain. intros now t [Hs Ha] HF.
  pose proof (hold_list _ _ t HF (λ q Hq, Hq)) as Hp.
  assert (Hrow : Forall (holds t) (group_facts
    (group_row id g p c ch now (tb_groups t !! id)))).
  { destruct (tb_groups t !! id) as [old|] eqn:E; [|exact Hp].
    pose proof (sound_groups _ Hs _ _ E). unfold place_facts in Hp. facts_list. }
  eexists. split; [by apply checked_true, group_refs_facts|]. row_stored Hs Ha Hrow.
Qed.

Lemma succeeds_member m :
  succeeds (λ q, q ∈ [FGroup (gm_group_id m); FContact (gm_contact_id m)])
    (upsert_group_member m) (λ _, False).
Proof.
  apply succeeds_table. intros now t [Hs Ha] HF.
  pose proof (hold_list _ _ t HF (λ q Hq, Hq)) as Hp. eexists. split.
  - apply checked_true. unfold member_refs. simpl. rewrite !Forall_cons in Hp.
    destruct Hp as (Hgr & Hct & _). apply andb_true_iff. split; by apply refers_holds.
  - assert (Hg : grows t (t <| tb_members ::= <[(gm_group_id m, gm_contact_id m) :=
      member_row m (tb_members t !! (gm_group_id m, gm_contact_id m))]> |>)) by by intros [].
    split_and!; [split; [|by apply (agrees_same t)]|exact Hg|done].
    apply (sound_grows t); auto.
Qed.

Lemma succeeds_conversation c :
  succeeds (λ q, q ∈ place_facts (conv_project_id c) (conv_company_id c)
                       (conv_channel_account_id c)
                     ++ opt_fact FContact (conv_contact_id c) ++ opt_fact FGroup (conv_group_id c))
    (persist_conversation c) (λ q, q = FConversation (conv_id c)).
Proof.
  apply succeeds_table. intros now t [Hs Ha] HF.
  pose proof (hold_list _ _ t HF (λ q Hq, Hq)) as Hp. eexists. split.
  - apply checked_true, conversation_refs_facts. unfold conversation_facts. simpl.
    unfold place_facts in Hp. rewrite <- app_assoc in Hp. exact Hp.
  - row_stored Hs Ha I.
Qed.

Lemma succeeds_media m :
  succeeds (λ q, q ∈ media_facts m) (persist_media_object m) (λ q, q = FMedia (media_id m)).
Proof.
  apply succeeds_table. intros now t [Hs Ha] HF.
  pose proof (hold_list _ _ t HF (λ q Hq, Hq)) as Hp.
  assert (Hrow : Forall (holds t) (media_facts (media_row m (tb_media t !! media_id m)))).
  { destruct (tb_media t !! media_id m) as [old|] eqn:E; [|exact Hp].
    pose proof (sound_media _ Hs _ _ E). facts_list. }
  eexists. split; [by apply checked_true, media_refs_facts|]. row_stored Hs Ha Hrow.
Qed.

Lemma succeeds_transcript r :
  succeeds (λ q, q ∈ transcript_facts r) (persist_transcript r) (λ _, False).
Proof.
  apply succeeds_table. intros now t [Hs Ha] HF.
  pose proof (hold_list _ _ t HF (λ q Hq, Hq)) as Hp.
  assert (Hrow : Forall (holds t)
    (transcript_facts (transcript_row r (tb_transcripts t !! tr_id r)))).
  { destruct (tb_transcripts t !! tr_id r) as [old|] eqn:E; [|exact Hp].
    pose proof (sound_transcripts _ Hs _ _ E). facts_list. }
  eexists. split; [by apply checked_true, transcript_refs_facts|].
  assert (Hg : grows t (t <| tb_transcripts ::=
    <[tr_id r := transcript_row r (tb_transcripts t !! tr_id r)]> |>)) by by intros [].
  split_and!; [split; [|by apply (agrees_same t)]|exact Hg|done].
  apply (sound_grows t); auto. simpl.
  intros ? ? [[_ <-]|[_ ?]]%lookup_insert_Some; [right; exact Hrow|left; assumption].
Qed.

(** A message: its place is that of its row, so that what collides with the one
    collides with the other. *)
Lemma duplicates_row m old x :
  (∀ o, old = Some o → same_place m o) → duplicates (message_row m old) x = duplicates m x.
Proof.
  intros Ho. destruct old as [o|]; [|done]. destruct (Ho o eq_refl) as (Hc & Hch & Hd).
  unfold duplicates, same_number, same_external. simpl. by rewrite Hc, Hch, Hd.
Qed.

Lemma agrees_stored t m :
  agrees t → stored m →
  agrees (t <| tb_messages ::= <[msg_id m := message_row m (tb_messages t !! msg_id m)]> |>).
Proof.
  intros Ha Hm id row x Hrow Hx. simpl in Hrow.
  apply lookup_insert_Some in Hrow as [[<- <-]|[Hne Hrow]]; [|by apply Ha].
  assert (Hold : ∀ o, tb_messages t !! msg_id m = Some o → same_place m o)
    by (intros o Ho; by apply (Ha _ _ _ Ho Hm)).
  split.
  - intros Heq. assert (x = m) as -> by congruence.
    destruct (tb_messages t !! msg_id m) as [o|] eqn:E; [|done].
    destruct (Hold o eq_refl) as (? & ? & ?). done.
  - intros Hne. rewrite duplicates_comm, duplicates_row by done. by apply Hdistinct.
Qed.

Lemma succeeds_message m : stored m →
  succeeds (λ q, q ∈ message_facts m) (persist_message m) (λ q, q = FMessage (msg_id m)).
Proof.
  intros Hm. apply succeeds_table. intros now t [Hs Ha] HF.
  pose proof (hold_list _ _ t HF (λ q Hq, Hq)) as Hp.
  assert (Hold : ∀ o, tb_messages t !! msg_id m = Some o → same_place m o)
    by (intros o Ho; by apply (Ha _ _ _ Ho Hm)).
  set (row := message_row m (tb_messages t !! msg_id m)).
  assert (Hrow : Forall (holds t) (message_facts row)).
  { unfold row. destruct (tb_messages t !! msg_id m) as [old|] eqn:E; [|exact Hp].
    pose proof (sound_messages _ Hs _ _ E). facts_list. }
  assert (Huniq : message_unique t row = true).
  { apply bool_decide_eq_true. intros id x Hx. unfold row. rewrite message_row_id.
    destruct (decide (id = msg_id m)) as [|Hne]; [by left|]. right.
    rewrite duplicates_row by done. by apply (Ha _ _ _ Hx Hm). }
  eexists. split.
  { apply checked_true, andb_true_iff. split; [by apply message_refs_facts|exact Huniq]. }
  assert (Hg : grows t (t <| tb_messages ::= <[msg_id m := row]> |>)) by grow.
  split_and!; [split|exact Hg|intros q ->; simpl; rewrite lookup_insert_eq; eauto].
  - apply (sound_grows t); auto. simpl.
    intros ? ? [[_ <-]|[_ ?]]%lookup_insert_Some; [right; exact Hrow|left; assumption].
  - by apply agrees_stored.
Qed.

(** ** Rows nothing refers to *)
Lemma succeeds_aside F ctx (refs : Tables → bool) (upd : time → Tables → Tables) :
  (∀ t, (∀ q, F q → holds t q) → refs t = true) →
  (∀ now t, tb_projects (upd now t) = tb_projects t ∧ tb_companies (upd now t) = tb_companies t
    ∧ tb_channels (upd now t) = tb_channels t ∧ tb_contacts (upd now t) = tb_contacts t
    ∧ tb_groups (upd now t) = tb_groups t ∧ tb_conversations (upd now t) = tb_conversations t
    ∧ facts (upd now t) = facts t ∧ tb_callbacks (upd now t) = tb_callbacks t) →
  succeeds F (table_statement ctx (λ now t, checked (refs t) (upd now t))) (λ _, False).
Proof.
  intros Hrefs Hupd. apply succeeds_table. intros now t [Hs Ha] HF. exists (upd now t).
  split; [by apply checked_true, Hrefs|].
  destruct (Hupd now t) as (E1 & E2 & E3 & E4 & E5 & E6 & E7 & E8). injection E7 as _ E9 E10 E11.
  assert (Hg : grows t (upd now t)) by (intros []; simpl; congruence).
  split_and!; [split; [|by apply (agrees_same t)]|exact Hg|done].
  apply (sound_grows t); auto; intros; left; congruence.
Qed.

Definition conversation_place (p c id : string) : list Fact :=
  tenant_facts p c ++ [FConversation id].
Lemma place_refs p c id t :
  (∀ q, q ∈ conversation_place p c id → holds t q) → tenant_conversation_refs t p c id = true.
Proof. intros HF. by apply tenant_conversation_refs_facts, Forall_forall. Qed.

Lemma succeeds_dirty p c r :
  succeeds (λ q, q ∈ conversation_place p c (dirty_conversation_id r))
    (persist_dirty_record p c r) (λ _, False).
Proof. apply succeeds_aside; [|by intros; split_and!]. apply place_refs. Qed.
Lemma succeeds_lease p c k id l :
  succeeds (λ q, q ∈ conversation_place p c id) (persist_dirty_lease p c k id l) (λ _, False).
Proof. apply succeeds_aside; [|by intros; split_and!]. apply place_refs. Qed.
Lemma succeeds_position (k : key4) n :
  succeeds (λ q, q ∈ conversation_place k.1.1.1 k.1.1.2 k.2) (persist_consumer_position k n)
    (λ _, False).
Proof. destruct k as [[[p c] k] id]. apply succeeds_aside; [|by intros; split_and!]. apply place_refs. Qed.
Lemma succeeds_idempotency e (k : key3) r :
  succeeds (λ q, q ∈ tenant_facts k.1.1 k.1.2) (persist_idempotency_key e k r) (λ _, False).
Proof.
  destruct k as [[p c] k]. apply succeeds_aside; [|by intros; split_and!].
  intros t HF. by apply tenant_refs_facts, Forall_forall.
Qed.

(** ** Webhooks *)
Lemma succeeds_callback v :
  succeeds (λ _, False) (persist_callback v)
    (λ q, q = FCallback (unwrap_or (value_str v "id") "callback_unknown")).
Proof.
  unfold persist_callback. cbv zeta. set (p := unwrap_or (value_str v "project_id") _).
  set (c := unwrap_or (value_str v "company_id") _).
  eapply (succeeds_weaken (λ _, False)); [|done|].
  - apply succeeds_bind; [apply succeeds_project|].
    apply succeeds_bind; [eapply succeeds_weaken; [apply succeeds_company|naive_solver|done]|].
    set (id := unwrap_or (value_str v "id") _).
    apply succeeds_table with (G := λ q, q = FCallback id). intros now t [Hs Ha] HF.
    assert (Hrow : Forall (holds t) (callback_facts
      (callback_row v p c now (tb_callbacks t !! id)))).
    { unfold callback_facts, callback_row, tenant_facts. simpl.
      destruct (tb_callbacks t !! id) as [old|] eqn:E; [exact (sound_callbacks _ Hs _ _ E)|].
      repeat constructor; apply HF; naive_solver. }
    eexists. split; [by apply checked_true, callback_refs_facts|]. row_stored Hs Ha Hrow.
  - naive_solver.
Qed.

Lemma succeeds_attempt a :
  is_Some (parse_uuid (att_id a)) →
  succeeds (λ q, q = FCallback (att_callback_id a)) (persist_webhook_delivery_attempt a)
    (λ _, False).
Proof.
  intros [id Hid]. apply succeeds_table. intros now t Hk HF. rewrite Hid.
  destruct (tb_attempts t !! id); [by exists t|]. eexists. split.
  - apply checked_true, refers_holds. by apply (HF (FCallback _)).
  - destruct Hk as [Hs Ha].
    assert (Hg : grows t (t <| tb_attempts ::= <[id := attempt_row a]> |>)) by by intros [].
    split_and!; [split; [|by apply (agrees_same t)]|exact Hg|done]. apply (sound_grows t); auto.
Qed.

(** ** What a snapshot names *)
Definition names_project (p : string) : Prop :=
  is_Some (ps_projects store !! p)
  ∨ (∃ e, e ∈ ps_companies store ∧ e.1.1 = p)
  ∨ (∃ v, v ∈ hm_values (ps_channels store) ∧ value_str v "project_id" = Some p)
  ∨ (∃ c, c ∈ hm_values (ps_conversations store) ∧ conv_project_id c = p)
  ∨ (∃ m, m ∈ hm_values (ps_messages_by_id store) ∧ msg_project_id m = p)
  ∨ (∃ m, m ∈ hm_values (ps_media store) ∧ media_project_id m = p)
  ∨ (∃ r, r ∈ hm_values (ps_transcripts store) ∧ tr_project_id r = p)
  ∨ (∃ e, e ∈ ps_dirty store ∧ e.1.1.1 = p)
  ∨ (∃ e, e ∈ ps_consumer_state store ∧ e.1.1.1.1 = p)
  ∨ (∃ e, e ∈ ps_idempotency store ∧ e.1.1.1 = p).
Definition names_company (c : string) : Prop :=
  (∃ e, e ∈ ps_companies store ∧ e.1.2 = c)
  ∨ (∃ v, v ∈ hm_values (ps_channels store) ∧ is_Some (value_str v "project_id")
       ∧ value_str v "company_id" = Some c)
  ∨ (∃ v, v ∈ hm_values (ps_conversations store) ∧ conv_company_id v = c)
  ∨ (∃ m, m ∈ hm_values (ps_messages_by_id store) ∧ msg_company_id m = c)
  ∨ (∃ e, e ∈ ps_dirty store ∧ e.1.1.2 = c)
  ∨ (∃ e, e ∈ ps_consumer_state store ∧ e.1.1.1.2 = c)
  ∨ (∃ e, e ∈ ps_idempotency store ∧ e.1.1.2 = c).
Definition names_channel (id : string) : Prop :=
  is_Some (ps_channels store !! id)
  ∨ (∃ c, c ∈ hm_values (ps_conversations store) ∧ conv_channel_account_id c = id)
  ∨ (∃ m, m ∈ hm_values (ps_messages_by_id store) ∧ msg_channel_account_id m = id).
Definition names_contact (id : string) : Prop :=
  (∃ c, c ∈ hm_values (ps_conversations store) ∧ conv_contact_id c = Some id)
  ∨ (∃ m, m ∈ hm_values (ps_messages_by_id store) ∧ msg_sender_contact_id m = Some id).
Definition names_group (id : string) : Prop :=
  ∃ c, c ∈ hm_values (ps_conversations store) ∧ conv_group_id c = Some id.
Definition names_callback (id : string) : Prop :=
  ∃ v, v ∈ hm_values (ps_callbacks store)
    ∧ unwrap_or (value_str v "id") "callback_unknown"%string = id.

(** What is known after [n] phases of the copy, from tables where [B] holds. *)
Definition stage (B : Fact → Prop) (n : nat) (f : Fact) : Prop := B f ∨
  match f with
  | FProject p => (1 ≤ n)%nat ∧ names_project p
  | FCompany c => (2 ≤ n)%nat ∧ names_company c
  | FChannel id => (3 ≤ n)%nat ∧ names_channel id
  | FContact id => (4 ≤ n)%nat ∧ names_contact id
  | FGroup id => (5 ≤ n)%nat ∧ names_group id
  | FConversation id => (7 ≤ n)%nat ∧ is_Some (ps_conversations store !! id)
  | FMessage id => (8 ≤ n)%nat ∧ is_Some (ps_messages_by_id store !! id)
  | FMedia id => (9 ≤ n)%nat ∧ is_Some (ps_media store !! id)
  | FCallback id => (15 ≤ n)%nat ∧ names_callback id
  end.
(** In the end. *)
Definition known (B : Fact → Prop) : Fact → Prop := stage B 16.

(** A snapshot that refers to what it names, or to what the tables hold. *)
Record closed (B : Fact → Prop) : Prop := {
  closed_contacts id ct : ps_contacts store !! id = Some ct →
    known B (FProject (ct_project_id ct)) ∧ known B (FCompany (ct_company_id ct))
    ∧ ∀ ch, ct_channel_account_id ct = Some ch → known B (FChannel ch);
  closed_groups id : is_Some (ps_groups store !! id) ∨ is_Some (ps_group_members store !! id) →
    let '(p, c, ch) := group_context store id in
    known B (FProject p) ∧ known B (FCompany c) ∧ known B (FChannel ch);
  closed_members id ms k m :
    ps_group_members store !! id = Some ms → ms !! k = Some m → gm_group_id m = id;
  closed_messages id m : ps_messages_by_id store !! id = Some m →
    known B (FConversation (msg_conversation_id m));
  closed_media id m : ps_media store !! id = Some m →
    known B (FCompany (media_company_id m)) ∧ known B (FConversation (media_conversation_id m))
    ∧ ∀ k, media_message_id m = Some k → known B (FMessage k);
  closed_transcripts id r : ps_transcripts store !! id = Some r →
    known B (FCompany (tr_company_id r)) ∧ known B (FMessage (tr_message_id r))
    ∧ ∀ k, tr_media_id r = Some k → known B (FMedia k);
  closed_dirty e : e ∈ ps_dirty store → known B (FConversation (dirty_conversation_id e.2));
  closed_leases e : e ∈ ps_dirty_leases store →
    known B (FProject e.1.1.1.1) ∧ known B (FCompany e.1.1.1.2) ∧ known B (FConversation e.1.2);
  closed_positions e : e ∈ ps_consumer_state store → known B (FConversation e.1.2);
  closed_attempts a : a ∈ ps_webhook_delivery_attempts store →
    is_Some (parse_uuid (att_id a)) ∧ known B (FCallback (att_callback_id a))
}.

Section phases.
Context (B : Fact → Prop) (Hclosed : closed B).

Lemma succeeds_extend F m (G G' : Fact → Prop) :
  succeeds F m G → (∀ f, G' f → F f ∨ G f) → succeeds F m G'.
Proof.
  intros Hm HG d Hd HF. destruct (Hm d Hd HF) as (? & ? & Hgr & ?).
  split_and!; [done..|]. intros f [Hf|Hf]%HG; auto.
Qed.

(** The next phase. *)
Lemma succeeds_phase n m k G :
  succeeds (stage B n) m (stage B (S n)) → succeeds (stage B (S n)) k G →
  succeeds (stage B n) (bindR m (λ _, k)) G.
Proof.
  intros Hm Hk d Hd HF. destruct (Hm d Hd HF) as (Hv & Hd1 & Hg1 & HG).
  unfold bindR. rewrite value_of_bind, state_of_bind, Hv.
  destruct (Hk _ Hd1 HG) as (? & ? & ? & ?). split_and!; [done|done|by etrans|done].
Qed.

(** A phase that names nothing. *)
Lemma stage_quiet n f : n ∈ [5; 9; 10; 11; 12; 13; 15]%nat → stage B (S n) f → stage B n f.
Proof.
  intros Hn [Hf|Hf]; [by left|]. right.
  destruct f, Hf as [? ?]; (split; [|done]); set_unfold; lia.
Qed.
Lemma known_stage (n : nat) f : known B f →
  (match f with
   | FProject _ => 1 | FCompany _ => 2 | FChannel _ => 3 | FContact _ => 4 | FGroup _ => 5
   | FConversation _ => 7 | FMessage _ => 8 | FMedia _ => 9 | FCallback _ => 15
   end ≤ n)%nat → stage B n f.
Proof. intros [Hf|Hf] Hn; [by left|]. right. destruct f, Hf as [_ ?]; split; (lia || done). Qed.

Lemma succeeds_opt {A} F (o : option A) (f : A → D unit) G :
  (∀ a, o = Some a → succeeds F (f a) (G a)) →
  succeeds F (match o with Some a => f a | None => ret (Ok tt) end)
    (λ q, ∃ a, o = Some a ∧ G a q).
Proof.
  intros Hf. destruct o as [a|].
  - eapply succeeds_extend; [by apply Hf|]. intros q (a' & [= <-] & Hq). by right.
  - eapply succeeds_extend; [apply succeeds_nothing|]. by intros q (a' & ? & _).
Qed.

Lemma stub_project F id : succeeds F (project_stub id) (λ q, q = FProject id).
Proof. eapply succeeds_weaken; [apply succeeds_project|done|done]. Qed.
Lemma stub_company (F : Fact → Prop) p c : F (FProject p) →
  succeeds F (company_stub p c) (λ q, q = FCompany c).
Proof. intros HF. eapply succeeds_weaken; [apply succeeds_company|by intros f ->|done]. Qed.
Lemma stub_channel (F : Fact → Prop) id p c : F (FProject p) → F (FCompany c) →
  succeeds F (channel_stub store id p c) (λ q, q = FChannel id).
Proof.
  intros Hp Hc. eapply succeeds_weaken; [apply succeeds_channel| |done].
  unfold tenant_facts. set_solver.
Qed.

(** What a phase adds, by the case of the fact. *)
#[local] Ltac by_stage :=
  intros f [Hf|Hf]; [by left; left|];
  destruct f; destruct Hf as [Hn Hf]; try lia;
  first [by left; right; split; [lia|] | right].

Lemma phase_projects : succeeds (stage B 0) (persist_projects store) (stage B 1).
Proof.
  eapply succeeds_extend.
  - unfold persist_projects.
    eapply succeeds_bind.
    { apply succeeds_try_each. intros kv _.
      eapply succeeds_weaken; [apply succeeds_project|done|intros f Hf; exact Hf]. }
    eapply succeeds_bind; [apply succeeds_try_each; intros e _; apply stub_project|].
    eapply succeeds_bind.
    { apply succeeds_try_each. intros v _. apply succeeds_opt. intros p _. apply stub_project. }
    do 6 (eapply succeeds_bind; [apply succeeds_try_each; intros e _; apply stub_project|]).
    apply succeeds_try_each. intros e _. apply stub_project.
  - by_stage. unfold names_project in Hf.
    destruct Hf as [[v Hv]|Hf]; [left; exists (id, v); by rewrite elem_of_hm_iter|right].
    destruct Hf as [?|[?|Hf]]; [left; naive_solver|right; left; naive_solver|do 2 right].
    naive_solver.
Qed.

(** The projects named, at each later stage. *)
Lemma named_project n p : (1 ≤ n)%nat → names_project p → stage B n (FProject p).
Proof. intros. by right. Qed.
Lemma named_company n c : (2 ≤ n)%nat → names_company c → stage B n (FCompany c).
Proof. intros. by right. Qed.
Lemma named_channel n id : (3 ≤ n)%nat → names_channel id → stage B n (FChannel id).
Proof. intros. by right. Qed.
#[local] Ltac named :=
  first [apply named_project; [lia|]; unfold names_project
        |apply named_company; [lia|]; unfold names_company
        |apply named_channel; [lia|]; unfold names_channel]; naive_solver.
(** What was known before the earlier loops of the phase. *)
#[local] Ltac recall :=
  cbv beta; lazymatch goal with |- stage _ _ _ => named | |- _ ∨ _ => left; recall end.

Lemma phase_companies : succeeds (stage B 1) (persist_companies store) (stage B 2).
Proof.
  eapply succeeds_extend.
  - unfold persist_companies.
    eapply succeeds_bind.
    { apply succeeds_try_each. intros e He.
      eapply succeeds_weaken; [apply succeeds_company| |intros f Hf; exact Hf].
      intros f ->. named. }
    eapply succeeds_bind.
    { apply succeeds_try_each. intros v Hv. apply succeeds_opt. intros p Hp.
      apply succeeds_opt. intros c Hc. apply stub_company. recall. }
    do 4 (eapply succeeds_bind;
      [apply succeeds_try_each; intros e He; apply stub_company; recall|]).
    apply succeeds_try_each. intros e He. apply stub_company. recall.
  - by_stage. unfold names_company in Hf. unfold is_Some in Hf. naive_solver.
Qed.

Lemma phase_channels : succeeds (stage B 2) (persist_channels store) (stage B 3).
Proof.
  eapply succeeds_extend.
  - unfold persist_channels.
    eapply succeeds_bind.
    { apply succeeds_try_each. intros kv _. unfold persist_channel. cbv zeta.
      eapply succeeds_weaken with (F := stage B 2).
      - eapply succeeds_bind; [apply stub_project|].
        eapply succeeds_bind; [apply stub_company; by right|].
        eapply succeeds_weaken; [apply succeeds_channel| |intros f Hf; exact Hf].
        unfold tenant_facts. set_solver.
      - done.
      - intros f Hf. right. right. exact Hf. }
    eapply succeeds_bind.
    { apply succeeds_try_each. intros c Hc. apply stub_channel; recall. }
    apply succeeds_try_each. intros m Hm. apply stub_channel; recall.
  - by_stage. unfold names_channel in Hf.
    destruct Hf as [[v Hv]|Hf]; [left; exists (id, v); by rewrite elem_of_hm_iter|right].
    naive_solver.
Qed.

Lemma place_subset (F : Fact → Prop) p c ch :
  F (FProject p) → F (FCompany c) → F (FChannel ch) → ∀ q, q ∈ place_facts p c ch → F q.
Proof. unfold place_facts, tenant_facts. set_solver. Qed.

Lemma phase_contacts : succeeds (stage B 3) (persist_contacts store) (stage B 4).
Proof.
  eapply succeeds_extend.
  - unfold persist_contacts.
    eapply succeeds_bind.
    { apply succeeds_try_each. intros ct [id Hct]%elem_of_hm_values.
      destruct (closed_contacts _ Hclosed _ _ Hct) as (Hp & Hc & Hch).
      apply (known_stage 3) in Hp; [|lia]. apply (known_stage 3) in Hc; [|lia].
      unfold persist_contact. cbv zeta. set (ch := channel_for_project_company _ _ _).
      eapply succeeds_weaken with (F := stage B 3).
      - eapply succeeds_bind; [by apply stub_channel|].
        eapply succeeds_weaken; [apply succeeds_contact| |intros f Hf; exact Hf].
        apply place_subset; [by left..|].
        destruct (ct_channel_account_id ct) as [ch'|]; [|by right].
        left. apply (known_stage 3); [by apply Hch|lia].
      - done.
      - intros f Hf. right. exact Hf. }
    eapply succeeds_bind.
    { apply succeeds_try_each. intros c Hc. apply succeeds_opt. intros id Hid.
      eapply succeeds_weaken; [apply succeeds_minimal| |intros f Hf; exact Hf].
      apply place_subset; recall. }
    apply succeeds_try_each. intros m Hm. apply succeeds_opt. intros id Hid.
    eapply succeeds_weaken; [apply succeeds_minimal| |intros f Hf; exact Hf].
    apply place_subset; recall.
  - by_stage. unfold names_contact in Hf. naive_solver.
Qed.

(** The place of a group, from the conversations. *)
Lemma group_place n id p c ch :
  (3 ≤ n)%nat → is_Some (ps_groups store !! id) ∨ is_Some (ps_group_members store !! id) →
  group_context store id = (p, c, ch) → ∀ q, q ∈ place_facts p c ch → stage B n q.
Proof.
  intros Hn Hid Hctx. pose proof (closed_groups _ Hclosed _ Hid) as Hk. rewrite Hctx in Hk.
  destruct Hk as (Hp & Hc & Hch). apply place_subset; (apply known_stage; [done|lia]).
Qed.

Lemma hm_iter_lookup {V} (m : gmap string V) kv : kv ∈ hm_iter m → m !! kv.1 = Some kv.2.
Proof. destruct kv as [k v]. apply elem_of_hm_iter. Qed.

Lemma phase_groups : succeeds (stage B 4) (persist_groups store) (stage B 5).
Proof.
  eapply succeeds_extend.
  - unfold persist_groups.
    eapply succeeds_bind.
    { apply succeeds_try_each. intros kv Hkv%hm_iter_lookup. unfold persist_group.
      destruct (group_context store kv.1) as [[p c] ch] eqn:Hctx.
      eapply succeeds_weaken; [apply succeeds_group| |intros f Hf; exact Hf].
      eapply group_place; [lia|eauto|done]. }
    apply succeeds_try_each. intros c Hc. apply succeeds_opt. intros id Hid.
    eapply succeeds_weaken; [apply succeeds_group| |intros f Hf; exact Hf].
    apply place_subset; recall.
  - by_stage. unfold names_group in Hf. naive_solver.
Qed.

Lemma phase_members : succeeds (stage B 5) (persist_group_members store) (stage B 6).
Proof.
  eapply succeeds_extend; [|intros f Hf; left; apply stage_quiet; [set_solver|exact Hf]].
  unfold persist_group_members. apply succeeds_try_each.
  intros kv Hms%hm_iter_lookup. unfold persist_members.
  destruct (group_context store kv.1) as [[p c] ch] eqn:Hctx.
  assert (Hplace : ∀ q, q ∈ place_facts p c ch → stage B 5 q)
    by (eapply group_place; [lia|eauto|done]).
  eapply succeeds_bind.
  { eapply succeeds_weaken; [apply succeeds_group|exact Hplace|intros f Hf; exact Hf]. }
  apply succeeds_try_each. intros m [k Hm]%elem_of_hm_values. unfold persist_member.
  eapply succeeds_bind.
  { eapply succeeds_weaken; [apply succeeds_minimal| |intros f Hf; exact Hf].
    intros q Hq. left. by apply Hplace. }
  eapply succeeds_weaken; [apply succeeds_member| |intros f Hf; exact Hf].
  rewrite (closed_members _ Hclosed _ _ _ _ Hms Hm). set_solver.
Qed.

Lemma phase_conversations : succeeds (stage B 6) (persist_conversations store) (stage B 7).
Proof.
  eapply succeeds_extend.
  - unfold persist_conversations. apply succeeds_try_each. intros c Hc.
    eapply succeeds_weaken; [apply succeeds_conversation| |intros f Hf; exact Hf].
    intros q [Hq|[Hq|Hq]%elem_of_app]%elem_of_app.
    + revert q Hq. apply place_subset; named.
    + destruct (conv_contact_id c) as [id|] eqn:Hid; simpl in Hq; [|by apply elem_of_nil in Hq].
      apply list_elem_of_singleton in Hq as ->. right. split; [lia|]. left. naive_solver.
    + destruct (conv_group_id c) as [id|] eqn:Hid; simpl in Hq; [|by apply elem_of_nil in Hq].
      apply list_elem_of_singleton in Hq as ->. right. split; [lia|]. exists c. naive_solver.
  - by_stage. destruct Hf as [c Hc]. exists c. split; [apply elem_of_hm_values; eauto|].
    f_equal. symmetry. by apply (filed_conversations _ Hfiled).
Qed.

(** Every contact and group of a conversation or message is known by now. *)
Lemma named_contact n id : (4 ≤ n)%nat → names_contact id → stage B n (FContact id).
Proof. intros. by right. Qed.
Lemma filed_message m : m ∈ hm_values (ps_messages_by_id store) → stored m.
Proof.
  intros [k Hk]%elem_of_hm_values. by rewrite (filed_messages _ Hfiled _ _ Hk).
Qed.
Lemma opt_fact_subset (F : Fact → Prop) k o :
  (∀ id, o = Some id → F (k id)) → ∀ q, q ∈ opt_fact k o → F q.
Proof.
  intros HF q Hq. destruct o as [id|]; simpl in Hq; [|by apply elem_of_nil in Hq].
  apply list_elem_of_singleton in Hq as ->. by apply HF.
Qed.

Lemma phase_messages : succeeds (stage B 7) (persist_messages store) (stage B 8).
Proof.
  eapply succeeds_extend.
  - unfold persist_messages. apply succeeds_try_each. intros m Hin.
    pose proof (filed_message m Hin) as Hm.
    eapply succeeds_weaken; [by apply succeeds_message| |intros f Hf; exact Hf].
    intros q [Hq|[Hq|Hq]%elem_of_app]%elem_of_app.
    + unfold tenant_facts in Hq. rewrite !elem_of_cons in Hq.
      destruct Hq as [->|[->|Hq%elem_of_nil]]; [named|named|done].
    + rewrite !elem_of_cons in Hq. destruct Hq as [->|[->|Hq%elem_of_nil]]; [|named|done].
      apply known_stage; [by eapply closed_messages|lia].
    + revert q Hq. apply opt_fact_subset. intros id Hid. apply named_contact; [lia|].
      right. naive_solver.
  - by_stage. destruct Hf as [m Hm]. exists m. split; [apply elem_of_hm_values; eauto|].
    f_equal. symmetry. by apply (filed_messages _ Hfiled).
Qed.

Lemma phase_media : succeeds (stage B 8) (persist_media store) (stage B 9).
Proof.
  eapply succeeds_extend.
  - unfold persist_media. apply succeeds_try_each. intros m Hin.
    eapply succeeds_weaken; [by apply succeeds_media| |intros f Hf; exact Hf].
    pose proof Hin as [k Hk]%elem_of_hm_values.
    destruct (closed_media _ Hclosed _ _ Hk) as (Hc & Hcv & Hms).
    intros q [Hq|[Hq|Hq]%elem_of_app]%elem_of_app.
    + unfold tenant_facts in Hq. rewrite !elem_of_cons in Hq.
      destruct Hq as [->|[->|Hq%elem_of_nil]]; [named|by apply known_stage; [|lia]|done].
    + apply list_elem_of_singleton in Hq as ->. by apply known_stage; [|lia].
    + revert q Hq. apply opt_fact_subset. intros id Hid. by apply known_stage; [auto|lia].
  - by_stage. destruct Hf as [m Hm]. exists m. split; [apply elem_of_hm_values; eauto|].
    f_equal. symmetry. by apply (filed_media _ Hfiled).
Qed.

Lemma phase_transcripts : succeeds (stage B 9) (persist_transcripts store) (stage B 10).
Proof.
  eapply succeeds_extend; [|intros f Hf; left; apply stage_quiet; [set_solver|exact Hf]].
  unfold persist_transcripts. apply succeeds_try_each. intros r Hin.
  eapply succeeds_weaken; [by apply succeeds_transcript| |intros f Hf; exact Hf].
  pose proof Hin as [k Hk]%elem_of_hm_values.
  destruct (closed_transcripts _ Hclosed _ _ Hk) as (Hc & Hms & Hmd).
  intros q [Hq|[Hq|Hq]%elem_of_app]%elem_of_app.
  - unfold tenant_facts in Hq. rewrite !elem_of_cons in Hq.
    destruct Hq as [->|[->|Hq%elem_of_nil]]; [named|by apply known_stage; [|lia]|done].
  - apply list_elem_of_singleton in Hq as ->. by apply known_stage; [|lia].
  - revert q Hq. apply opt_fact_subset. intros id Hid. by apply known_stage; [auto|lia].
Qed.

Lemma conversation_place_subset (F : Fact → Prop) p c id :
  F (FProject p) → F (FCompany c) → F (FConversation id) →
  ∀ q, q ∈ conversation_place p c id → F q.
Proof. unfold conversation_place, tenant_facts. set_solver. Qed.

(** The phases that name nothing: polling, idempotency keys, attempts. *)
#[local] Ltac quiet_phase :=
  eapply succeeds_extend; [|intros f Hf; left; apply stage_quiet; [set_solver|exact Hf]];
  apply succeeds_try_each; intros e He.

Lemma phase_dirty : succeeds (stage B 10) (persist_dirty store) (stage B 11).
Proof.
  unfold persist_dirty. quiet_phase.
  eapply succeeds_weaken; [apply succeeds_dirty| |intros f Hf; exact Hf].
  apply conversation_place_subset; [named|named|].
  apply known_stage; [by apply closed_dirty|lia].
Qed.
Lemma phase_leases : succeeds (stage B 11) (persist_dirty_leases store) (stage B 12).
Proof.
  unfold persist_dirty_leases. quiet_phase.
  eapply succeeds_weaken; [apply succeeds_lease| |intros f Hf; exact Hf].
  destruct (closed_leases _ Hclosed _ He) as (? & ? & ?).
  apply conversation_place_subset; (apply known_stage; [done|lia]).
Qed.
Lemma phase_positions : succeeds (stage B 12) (persist_consumer_state store) (stage B 13).
Proof.
  unfold persist_consumer_state. quiet_phase.
  eapply succeeds_weaken; [apply succeeds_position| |intros f Hf; exact Hf].
  apply conversation_place_subset; [named|named|].
  apply known_stage; [by apply closed_positions|lia].
Qed.
Lemma phase_idempotency now :
  succeeds (stage B 13) (persist_idempotency store now) (stage B 14).
Proof.
  unfold persist_idempotency. quiet_phase.
  eapply succeeds_weaken; [apply succeeds_idempotency| |intros f Hf; exact Hf].
  intros q Hq. unfold tenant_facts in Hq. rewrite !elem_of_cons in Hq.
  destruct Hq as [->|[->|Hq%elem_of_nil]]; [named|named|done].
Qed.
Lemma phase_callbacks : succeeds (stage B 14) (persist_callbacks store) (stage B 15).
Proof.
  eapply succeeds_extend.
  - unfold persist_callbacks. apply succeeds_try_each. intros v _.
    eapply succeeds_weaken; [apply succeeds_callback|done|intros f Hf; exact Hf].
  - by_stage. destruct Hf as (v & Hv & Hid). exists v. split; [done|by rewrite Hid].
Qed.
Lemma phase_attempts :
  succeeds (stage B 15) (persist_webhook_delivery_attempts store) (stage B 16).
Proof.
  unfold persist_webhook_delivery_attempts. quiet_phase.
  destruct (closed_attempts _ Hclosed _ He) as [Hid Hcb].
  eapply succeeds_weaken; [by apply succeeds_attempt| |intros f Hf; exact Hf].
  intros q ->. by apply known_stage; [|lia].
Qed.

Lemma copy_phases now : succeeds (stage B 0) (persist_relational store now) (stage B 16).
Proof.
  unfold persist_relational.
  apply succeeds_phase; [apply phase_projects|]. apply succeeds_phase; [apply phase_companies|].
  apply succeeds_phase; [apply phase_channels|]. apply succeeds_phase; [apply phase_contacts|].
  apply succeeds_phase; [apply phase_groups|]. apply succeeds_phase; [apply phase_members|].
  apply succeeds_phase; [apply phase_conversations|].
  apply succeeds_phase; [apply phase_messages|]. apply succeeds_phase; [apply phase_media|].
  apply succeeds_phase; [apply phase_transcripts|]. apply succeeds_phase; [apply phase_dirty|].
  apply succeeds_phase; [apply phase_leases|]. apply succeeds_phase; [apply phase_positions|].
  apply succeeds_phase; [apply phase_idempotency|].
  apply succeeds_phase; [apply phase_callbacks|]. apply phase_attempts.
Qed.
End phases.

Lemma known_mono (B B' : Fact → Prop) f : (∀ f, B f → B' f) → known B f → known B' f.
Proof. intros HB [Hf|Hf]; [left; by apply HB|by right]. Qed.
Lemma closed_mono (B B' : Fact → Prop) : (∀ f, B f → B' f) → closed B → closed B'.
Proof.
  intros HB [C1 C2 C3 C4 C5 C6 C7 C8 C9 C10]. pose proof (λ f, known_mono B B' f HB) as Hk.
  split.
  - intros id ct Hct. destruct (C1 _ _ Hct) as (? & ? & ?). split_and!; eauto.
  - intros id Hid. specialize (C2 id Hid). destruct (group_context store id) as [[q k] ch].
    naive_solver.
  - done.
  - eauto.
  - intros id m Hm. destruct (C5 _ _ Hm) as (? & ? & ?). split_and!; eauto.
  - intros id r Hr. destruct (C6 _ _ Hr) as (? & ? & ?). split_and!; eauto.
  - eauto.
  - intros e He. destruct (C8 _ He) as (? & ? & ?). split_and!; eauto.
  - eauto.
  - intros a Ha. destruct (C10 _ Ha). eauto.
Qed.

(** C29. The copy of a snapshot to the tables answers success on a server that
    carries out every statement the constraints allow, provided the snapshot is
    filed, no two of its messages share a number in a conversation or a WhatsApp
    identifier in a channel and direction, and it refers to what it names or to
    what the tables hold; and provided of the table of messages that the row of a
    message of the snapshot has its conversation and origin, and that no other row
    has its number or its WhatsApp identifier. (A row that retention left in the
    table and whose message WhatsApp delivered again is such a row: the copy
    stops there, [stale_row_stops_copy].) The tables are then in such a state
    again, and copying the snapshot once more succeeds. *)
Theorem copy_succeeds now d :
  sound (rel d) → agrees (rel d) → closed (holds (rel d)) →
  let d' := state_of (persist_relational store now) d in
  value_of (persist_relational store now) d = Ok tt
  ∧ sound (rel d') ∧ agrees (rel d') ∧ closed (holds (rel d'))
  ∧ ∀ later, value_of (persist_relational store later) d' = Ok tt.
Proof.
  intros Hs Ha Hc. cbv zeta. set (d' := state_of _ d).
  assert (Hrun : ∀ B t e, closed B → (∀ f, B f → holds (rel e) f) → kept (rel e) →
    value_of (persist_relational store t) e = Ok tt
    ∧ kept (rel (state_of (persist_relational store t) e))
    ∧ grows (rel e) (rel (state_of (persist_relational store t) e))).
  { intros B t e HB Hh Hk. destruct (copy_phases _ HB t e Hk) as (Hv & Hk' & Hg & _); [|done].
    intros f [Hf|Hf]; [by apply Hh|]. destruct f; destruct Hf; lia. }
  destruct (Hrun _ now d Hc (λ f Hf, Hf) (Build_kept _ Hs Ha)) as (Hv & Hk' & Hg).
  fold d' in Hk', Hg. pose proof (closed_mono _ (holds (rel d')) Hg Hc) as Hc'.
  pose proof Hk' as [Hs' Ha']. split_and!; [done..|]. intros later.
  by apply (Hrun _ later d' Hc' (λ f Hf, Hf) Hk').
Qed.
End success.

(** ** The snapshot of the demonstration is closed *)
(** A decidable property of the entries of a concrete map. *)
#[local] Ltac entries :=
  apply (bool_decide_unpack (map_Forall _ _)); vm_compute; exact I.

Lemma demo_distinct m m' :
  ps_messages_by_id demo_snapshot !! msg_id m = Some m →
  ps_messages_by_id demo_snapshot !! msg_id m' = Some m' →
  msg_id m ≠ msg_id m' → duplicates m m' = false.
Proof.
  assert (Hall : map_Forall (λ _ m, map_Forall (λ _ m',
    msg_id m ≠ msg_id m' → duplicates m m' = false) (ps_messages_by_id demo_snapshot))
    (ps_messages_by_id demo_snapshot)) by entries.
  intros Hm Hm'. exact (Hall _ _ Hm _ _ Hm').
Qed.

Lemma sound_no_rows : sound no_rows.
Proof. split; apply map_Forall_empty. Qed.
Lemma agrees_no_rows store : agrees store no_rows.
Proof. intros id row m Hrow. simpl in Hrow. by rewrite lookup_empty in Hrow. Qed.

(** A snapshot of one conversation, its contacts and its messages. *)
Lemma one_conversation_closed `{Env} `{Postgres} (store : PersistedStore) (B : Fact → Prop)
    (id p c ch : string) (v : Conversation) :
  ps_conversations store !! id = Some v →
  conv_project_id v = p → conv_company_id v = c → conv_channel_account_id v = ch →
  map_Forall (λ _ ct, ct_project_id ct = p ∧ ct_company_id ct = c
                      ∧ ct_channel_account_id ct = Some ch) (ps_contacts store) →
  map_Forall (λ _ m, msg_conversation_id m = id) (ps_messages_by_id store) →
  Forall (λ e : key3 * DirtyRecord, dirty_conversation_id e.2 = id) (ps_dirty store) →
  ps_groups store = ∅ → ps_group_members store = ∅ → ps_media store = ∅ →
  ps_transcripts store = ∅ → ps_dirty_leases store = [] → ps_consumer_state store = [] →
  ps_webhook_delivery_attempts store = [] →
  closed store B.
Proof.
  intros Hv Hp Hc Hch Hct Hms Hd Eg Em Emd Etr El Ecs Ea.
  assert (Hin : v ∈ hm_values (ps_conversations store)) by (apply elem_of_hm_values; eauto).
  assert (KP : known store B (FProject p)) by (right; split; [lia|]; do 3 right; left; eauto).
  assert (KC : known store B (FCompany c)) by (right; split; [lia|]; do 2 right; left; eauto).
  assert (KH : known store B (FChannel ch)) by (right; split; [lia|]; right; left; eauto).
  assert (KV : known store B (FConversation id)) by (right; split; [lia|]; eauto).
  split; rewrite ?Eg, ?Em, ?Emd, ?Etr, ?El, ?Ecs, ?Ea; try by intros ? ?%elem_of_nil.
  - intros k ct Hk. destruct (Hct _ _ Hk) as (-> & -> & ->). split_and!; [done..|].
    by intros ? [= <-].
  - intros k [[? Hk]|[? Hk]]; by rewrite lookup_empty in Hk.
  - intros k ms k' m Hk. by rewrite lookup_empty in Hk.
  - intros k m Hk. by rewrite (Hms _ _ Hk).
  - intros k m Hk. by rewrite lookup_empty in Hk.
  - intros k r Hk. by rewrite lookup_empty in Hk.
  - intros e He. rewrite Forall_forall in Hd. by rewrite (Hd _ He).
Qed.

Lemma demo_closed : @closed demo_env demo_pg demo_snapshot (holds no_rows).
Proof.
  assert (Hv : ∃ v, ps_conversations demo_snapshot !! demo_customer = Some v
    ∧ conv_project_id v = "p"%string ∧ conv_company_id v = "c"%string
    ∧ conv_channel_account_id v = "channel_dev"%string)
    by (eexists; split; [vm_compute; reflexivity|repeat split; vm_compute; reflexivity]).
  destruct Hv as (v & Hv & Hp & Hc & Hch).
  apply (@one_conversation_closed demo_env demo_pg demo_snapshot _ _ _ _ _ v Hv Hp Hc Hch);
    [entries|entries|apply (bool_decide_unpack _); vm_compute; exact I|vm_compute; reflexivity..].
Qed.

(** The row of a message that is no longer in the snapshot, which holds it
    delivered again under another identifier. *)
Definition stale_rows : gmap string Message :=
  list_to_map ((λ kv : string * Message, ("msg_old"%string, kv.2 <| msg_id := "msg_old"%string |>))
                 <$> take 1 (map_to_list (ps_messages_by_id demo_snapshot))).
Example stale_row_stops_copy :
  is_ok (value_of (demo_copy demo_snapshot)
           (demo_db <| db_relational ::= λ t, t <| tb_messages := stale_rows |> |>)) = false.
Proof. vm_compute. reflexivity. Qed.

Lemma copy_succeeds_witness :
  value_of (demo_copy demo_snapshot) demo_db = Ok tt
  ∧ size (tb_messages (db_relational (state_of (demo_copy demo_snapshot) demo_db))) = 2%nat.
Proof.
  split; [|vm_compute; reflexivity].
  exact (proj1 (@copy_succeeds demo_env demo_pg demo_snapshot (λ _, eq_refl)
    demo_snapshot_filed demo_distinct (seconds 3000) demo_db
    sound_no_rows (agrees_no_rows demo_snapshot) demo_closed)).
Defined.
