(* ===== verification/ConsumerSpec.v ===== *)
(** * Attempts, consumers, workers and the drainer

    An outbox row that cannot be published is tried a bounded number of times;
    a committed message is not handled again; what a worker commits is not lost;
    the drainer handles the events of its records one after the other. *)
From S2P Require Import Prelude Text Json Errors Env Secrets Config Models Jid Records EventBus.
From S2P Require Import Codec Database DatabaseSpec Whatsapp Store Bytes Transcripts Sending.
From S2P Require Import Outbox OutboxSpec Tables WhatsappEvents Demo EventSpec Workers.

Section attempts.
Context `{Env} `{Crypto} `{Serde} `{Postgres} `{KafkaClient}.

(** ** Frames *)
Lemma frame_on_db {A X} (π : Db → X) (m : D A) : frame π m → frame (λ w, π (w_db w)) (on_db m).
Proof. intros Hm w. specialize (Hm (w_db w)). unfold state_of, on_db in *. by destruct (m (w_db w)). Qed.
Lemma frame_on_app {A X} (π : AppState → X) (m : M A) :
  frame π m → frame (λ w, π (w_app w)) (on_app m).
Proof. intros Hm w. specialize (Hm (w_app w)). unfold state_of, on_app in *. by destruct (m (w_app w)). Qed.

Abbreviation bus_config w := (cfg_kafka (app_config (w_app w))).
Abbreviation outbox_of w := (db_outbox (w_db w)).
Definition table_and_config (w : World) := (outbox_of w, bus_config w).
Abbreviation π := table_and_config.

Lemma π_metrics f : frame π (with_metrics f).
Proof. done. Qed.
Lemma π_config : frame π kafka_config.
Proof. done. Qed.
Lemma π_payload t k p : frame π (publish_payload t k p).
Proof. intros w. unfold publish_payload, state_of. by destruct (kafka_send _). Qed.
Hint Resolve π_metrics π_config π_payload : frame.
Lemma π_deadletter e n err : frame π (make_deadletter e n err).
Proof. done. Qed.
Lemma π_publish_deadletter envelope : frame π (publish_deadletter envelope).
Proof. unfold publish_deadletter. frame_tac. Qed.
Lemma π_insert envelope t k : frame π (on_db (insert_kafka_deadletter envelope t k)).
Proof.
  intros w. unfold π, state_of, on_db.
  destruct (insert_kafka_deadletter envelope t k (w_db w)) as [a d] eqn:E. simpl. f_equal.
  change d with (a, d).2. rewrite <- E. unfold insert_kafka_deadletter, pure_result.
  rewrite bindR_ret. destruct (ok_or _ _); [|done]. rewrite bindR_ret. destruct (ok_or _ _); [|done].
  unfold statement, run_statement. repeat case_match; by simplify_eq/=.
Qed.
Hint Resolve π_deadletter π_publish_deadletter π_insert : frame.

(** ** What an attempt leaves of its row, when the database answers *)
Context (pg_ok : ∀ n, pg_call n = PgDone).

Lemma mark_done ctx eid (f : time → OutboxRow → OutboxRow) w row :
  outbox_of w !! eid = Some row → ob_attempt_count row ≠ 2 ^ 31 - 1 →
  ∃ now, outbox_of (state_of (on_db (statement ctx (λ now, update_outbox eid (f now)))) w) !! eid
    = Some (f now (row <| ob_attempt_count ::= Z.succ |>)).
Proof.
  intros Hrow Hmax. exists (pg_now (db_calls (w_db w))).
  unfold state_of, on_db, statement, run_statement, update_outbox. rewrite pg_ok. simpl.
  rewrite Hrow, decide_False by done. simpl. by rewrite lookup_insert_eq.
Qed.

(** The row after an attempt: dead-lettered when it cannot be encoded,
    published when the broker acknowledges it, otherwise dead-lettered at the
    configured number of attempts and failed, with a delay, before it. *)
Definition attempt_row (kafka : KafkaConfig) (encoded : result string EventBusError)
    (delivery : Delivery) (now : time) (row : OutboxRow) : OutboxRow :=
  let counted := row <| ob_attempt_count ::= Z.succ |> in
  match encoded with
  | Err e => deadlettered_row (bus_error_message e) now counted
  | Ok _ =>
    match delivery with
    | Delivered partition offset => published_row partition offset now counted
    | NotDelivered err | Unacknowledged err =>
      let attempts := sat_add_i32 (ob_attempt_count row) 1 in
      if decide (kafka_retry_max_attempts kafka ≤ wrap_u32 attempts)
      then deadlettered_row (bus_error_message (Kafka err)) now counted
      else failed_row (bus_error_message (Kafka err)) (retry_backoff attempts) now counted
    end
  end.

Lemma π_run {A} (m : W A) w : frame π m →
  outbox_of (state_of m w) = outbox_of w ∧ bus_config (state_of m w) = bus_config w.
Proof. intros Hm. specialize (Hm w). by injection Hm. Qed.

(** What comes after steps that leave the outbox. *)
Lemma after_row {A B} (Q : World → Prop) (m : W A) (k : A → W B) w id row :
  frame π m → outbox_of w !! id = Some row →
  (∀ a w', outbox_of w' !! id = Some row → Q (state_of (k a) w')) → Q (state_of (bind m k) w).
Proof.
  intros Hm Hrow Hk. rewrite state_of_bind. apply Hk.
  specialize (Hm w). injection Hm as Ho _. by rewrite Ho.
Qed.

Lemma mark_end ctx eid (f : time → OutboxRow → OutboxRow) w row (g : EventBusRuntimeMetrics → EventBusRuntimeMetrics) :
  outbox_of w !! eid = Some row → ob_attempt_count row ≠ 2 ^ 31 - 1 →
  ∃ now, outbox_of (state_of (let! _ := on_db (statement ctx (λ now, update_outbox eid (f now))) in
                              let! _ := with_metrics g in ret tt) w) !! eid
    = Some (f now (row <| ob_attempt_count ::= Z.succ |>)).
Proof. intros Hrow Hmax. rewrite state_of_bind. by apply (mark_done ctx eid f w row). Qed.

Lemma publish_failed_row id row event err w :
  outbox_of w !! id = Some row → ob_attempt_count row ≠ 2 ^ 31 - 1 →
  ∃ now, outbox_of (state_of (run_async (publish_failed (outbox_record (id, row)) event
                                           (Kafka err))) w) !! id
    = Some (attempt_row (bus_config w) (Ok "") (NotDelivered err) now row).
Proof.
  intros Hrow Hmax. unfold publish_failed, attempt_row. cbn [run_async]. rewrite state_of_bind.
  change (value_of kafka_config w) with (bus_config w).
  change (state_of kafka_config w) with w. cbn [or_attempt_count outbox_record snd fst].
  case_decide; cbn [run_async]; [|by apply mark_end].
  set (Q := λ w' : World, ∃ now, outbox_of w' !! id = Some (deadlettered_row
    (bus_error_message (Kafka err)) now (row <| ob_attempt_count ::= Z.succ |>))).
  lazymatch goal with |- context [state_of ?m w] => change (Q (state_of m w)) end.
  do 4 (apply (after_row Q _ _ _ id row); [frame_tac|exact Hrow|]; clear Hrow; intros ? ? Hrow).
  by apply mark_end.
Qed.

Lemma publish_record_row id row event w :
  outbox_of w !! id = Some row → ob_attempt_count row ≠ 2 ^ 31 - 1 →
  event_from_value (ob_payload_json row) = Ok event →
  ∃ now, outbox_of (state_of (publish_outbox_record (outbox_record (id, row))) w) !! id
    = Some (attempt_row (bus_config w)
              (encode_event_for_kafka event_to_vec (bus_config w) event)
              (kafka_send (bk_sends (w_kafka w))) now row).
Proof.
  intros Hrow Hmax Hev. unfold publish_outbox_record, publish_outbox_blocks. cbn [run_async].
  rewrite state_of_bind. set (w1 := state_of (with_metrics _) w).
  rewrite state_of_bind. change (value_of kafka_config w1) with (bus_config w).
  change (state_of kafka_config w1) with w1. change (outbox_of w) with (outbox_of w1) in Hrow.
  cbn [or_payload_json outbox_record snd fst]. rewrite Hev.
  destruct (encode_event_for_kafka _ _ _) as [payload|e]; cbn [run_async].
  - rewrite state_of_bind. change (bk_sends (w_kafka w)) with (bk_sends (w_kafka w1)).
    unfold value_of, publish_payload at 1.
    destruct (π_run (publish_payload (or_topic (outbox_record (id, row)))
      (or_partition_key (outbox_record (id, row))) payload) w1) as [Ho Hc]; [apply π_payload|].
    rewrite <- Ho in Hrow.
    destruct (kafka_send _) as [p o|err|err]; cbn [fst].
    + by apply mark_end.
    + change (bus_config w) with (bus_config w1). rewrite <- Hc. by apply publish_failed_row.
    + change (bus_config w) with (bus_config w1). rewrite <- Hc. by apply publish_failed_row.
  - cbv zeta. rewrite state_of_bind.
    destruct (mark_done "failed to mark Kafka outbox event deadlettered" id
      (deadlettered_row (bus_error_message e)) w1 row) as [now Hrow']; [done..|].
    exists now. cbn [attempt_row]. revert Hrow'. generalize (deadlettered_row (bus_error_message e)
      now (row <| ob_attempt_count ::= Z.succ |>)). intros row' Hrow'.
    lazymatch goal with |- context [state_of (bind ?m ?k) ?w2] =>
      apply (after_row (λ w', outbox_of w' !! id = Some row') m k w2 id row') end;
      [frame_tac|done|]. intros ? w2 Hw2.
    lazymatch goal with |- context [state_of (bind ?m ?k) w2] =>
      apply (after_row (λ w', outbox_of w' !! id = Some row') m k w2 id row') end;
      [frame_tac|done|]. intros ? w3 Hw3. done.
Qed.

(** ** The turns of the publishers *)
Lemma config_on_db {A} (m : D A) : frame (λ w, bus_config w) (on_db m).
Proof. intros w. unfold state_of, on_db. by destruct (m (w_db w)). Qed.
Lemma config_payload t k p : frame (λ w, bus_config w) (publish_payload t k p).
Proof. intros w. unfold publish_payload, state_of. by destruct (kafka_send _). Qed.
Lemma config_metrics f : frame (λ w, bus_config w) (with_metrics f).
Proof. done. Qed.
Lemma config_now : frame (λ w, bus_config w) (on_app now_utc).
Proof. done. Qed.
Lemma config_read : frame (λ w, bus_config w) kafka_config.
Proof. done. Qed.
Hint Resolve config_on_db config_payload config_metrics config_now config_read : frame.
(** What the publication of other records leaves: the row of [id]. *)
Definition row_and_config (id : string) (w : World) := (outbox_of w !! id, bus_config w).
Lemma row_weaken {A} id (m : W A) : frame π m → frame (row_and_config id) m.
Proof. intros Hm w. specialize (Hm w). unfold row_and_config. by injection Hm as -> ->. Qed.
Lemma row_mark id ctx eid (f : time → OutboxRow → OutboxRow) : eid ≠ id →
  frame (row_and_config id) (on_db (statement ctx (λ now, update_outbox eid (f now)))).
Proof.
  intros Hne w. unfold row_and_config. rewrite (proj1 (on_db_run _ _)). simpl. f_equal.
  by destruct (mark_lookup ctx eid f (w_db w) id) as [->|[-> _]].
Qed.
Lemma row_publish id record : or_event_id record ≠ id →
  frame (row_and_config id) (publish_outbox_record record).
Proof.
  intros Hne. pose proof (@row_weaken) as Hw. pose proof (row_mark id) as Hm.
  unfold publish_outbox_record, publish_outbox_blocks, publish_failed,
    mark_event_outbox_failed, mark_event_outbox_deadlettered, mark_event_outbox_published.
  cbv zeta. frame_tac.
Qed.
Lemma config_publish record : frame (λ w, bus_config w) (publish_outbox_record record).
Proof.
  unfold publish_outbox_record, publish_outbox_blocks, publish_failed, publish_deadletter,
    make_deadletter. cbv zeta. frame_tac.
Qed.
Lemma row_publishes id records : id ∉ or_event_id <$> records →
  frame (row_and_config id) (for_each publish_outbox_record records).
Proof.
  induction records as [|r records IH]; simpl; [intros _; apply frame_ret|].
  intros Hnin. apply frame_bind; [apply row_publish; set_solver|]. intros _. apply IH. set_solver.
Qed.

(** A turn of the publisher [worker], and whether it tries [id]. *)
Definition turn (worker : string) (w : World) : World :=
  state_of (spawn_outbox_publisher_step worker) w.
Definition batch (worker : string) (w : World) : list OutboxRecord :=
  (claim_rows (pg_now (db_calls (w_db w))) worker 100 30 (tick (w_db w))).1.
Definition tries (worker : string) (id : string) (w : World) : bool :=
  bool_decide (id ∈ or_event_id <$> batch worker w).

Lemma turn_run worker w :
  turn worker w = state_of (for_each publish_outbox_record (batch worker w))
    (w <| w_db := (claim_rows (pg_now (db_calls (w_db w))) worker 100 30 (tick (w_db w))).2 |>).
Proof.
  unfold turn, spawn_outbox_publisher_step, spawn_outbox_publisher_blocks. cbn [run_async].
  rewrite state_of_bind, (proj1 (on_db_run _ _)), (proj2 (on_db_run _ _)).
  assert (Hv : value_of (claim_event_outbox_batch worker 100 30) (w_db w) = Ok (batch worker w)
    ∧ state_of (claim_event_outbox_batch worker 100 30) (w_db w)
      = (claim_rows (pg_now (db_calls (w_db w))) worker 100 30 (tick (w_db w))).2).
  { unfold value_of, state_of, claim_event_outbox_batch, statement, run_statement.
    by rewrite pg_ok. }
  destruct Hv as [-> ->]. unfold state_of. by rewrite run_call_each.
Qed.
Lemma batch_ids worker w : NoDup (or_event_id <$> batch worker w).
Proof.
  unfold batch, claim_rows. simpl. rewrite <- list_fmap_compose. apply (hm_iter_NoDup (taken _ _ _ _ _)).
Qed.
Lemma batch_taken worker w id :
  id ∈ or_event_id <$> batch worker w ↔
  is_Some (taken (pg_now (db_calls (w_db w))) worker 100 30 (tick (w_db w)) !! id).
Proof.
  unfold batch, claim_rows. simpl. rewrite <- list_fmap_compose, list_elem_of_fmap. split.
  - intros ([k row] & -> & Hin%elem_of_hm_iter). by exists row.
  - intros [row Hrow]. exists (id, row). split; [done|]. by apply elem_of_hm_iter.
Qed.

Lemma tries_claimable worker id row w :
  tries worker id w = true → outbox_of w !! id = Some row →
  claimable (pg_now (db_calls (w_db w))) row = true.
Proof.
  intros Ht Hrow. apply bool_decide_eq_true, batch_taken in Ht as [x (r & Hr & Hcl & _)%lookup_taken].
  change (db_outbox (tick (w_db w))) with (outbox_of w) in Hr. congruence.
Qed.

(** The row of [id] after a turn that tries it, and after one that does not. *)
Lemma turn_tries worker id row event w :
  tries worker id w = true → outbox_of w !! id = Some row →
  ob_attempt_count row ≠ 2 ^ 31 - 1 → event_from_value (ob_payload_json row) = Ok event →
  bus_config (turn worker w) = bus_config w
  ∧ ∃ locked now t kafka_sends,
      claimable now row = true ∧ locked = lock_row now worker 30 row
      ∧ outbox_of (turn worker w) !! id
        = Some (attempt_row (bus_config w) (encode_event_for_kafka event_to_vec (bus_config w) event)
                  (kafka_send kafka_sends) t locked).
Proof.
  intros Ht Hrow Hmax Hev. apply bool_decide_eq_true in Ht.
  pose proof Ht as [locked Htaken]%batch_taken. set (now := pg_now _) in *.
  pose proof (lookup_taken _ _ _ _ _ _ _ Htaken) as (row0 & Hrow0 & Hcl & Hlocked).
  change (db_outbox (tick (w_db w))) with (outbox_of w) in Hrow0.
  rewrite Hrow in Hrow0. injection Hrow0 as <-. change (Z.max 30 1) with 30 in Hlocked.
  rewrite turn_run. fold now. set (w1 := w <| w_db := _ |>).
  assert (Hw1 : outbox_of w1 !! id = Some locked)
    by (unfold w1; simpl; fold (taken now worker 100 30 (tick (w_db w))); by apply lookup_union_Some_l).
  apply list_elem_of_fmap in Ht as (r & Hid & Hin).
  assert (Hr : r = outbox_record (id, locked)).
  { pose proof (claim_rows_returned _ _ _ _ _ r Hin) as (x & Hx & Hr).
    rewrite <- Hid in Hx, Hr. rewrite Hr. do 2 f_equal. unfold now in Htaken. congruence. }
  apply list_elem_of_split in Hin as (before & after & Hb).
  pose proof (batch_ids worker w) as Hnd. rewrite Hb in Hnd |- *.
  rewrite fmap_app, fmap_cons, <- Hid in Hnd. apply NoDup_app in Hnd as (_ & Hnb & Hna).
  apply NoDup_cons in Hna as [Hna _].
  assert (Hnb' : id ∉ or_event_id <$> before) by (intros Hin; apply (Hnb id Hin); by left).
  rewrite state_of_each_app. set (w2 := state_of (for_each _ before) w1).
  pose proof (row_publishes id before Hnb' w1) as Hf. fold w2 in Hf.
  unfold row_and_config in Hf. injection Hf as Ho2 Hc2. cbn [for_each]. rewrite state_of_bind.
  set (w3 := state_of (publish_outbox_record r) w2).
  pose proof (row_publishes id after Hna w3) as Hf. unfold row_and_config in Hf.
  injection Hf as Ho3 Hc3.
  assert (Hpub : ∃ t, outbox_of w3 !! id = Some (attempt_row (bus_config w2)
      (encode_event_for_kafka event_to_vec (bus_config w2) event)
      (kafka_send (bk_sends (w_kafka w2))) t locked)).
  { unfold w3. rewrite Hr. apply publish_record_row; [by rewrite Ho2|by subst locked..]. }
  destruct Hpub as [t Hpub]. split.
  - rewrite Hc3. unfold w3. rewrite config_publish. by rewrite Hc2.
  - exists locked, now, t, (bk_sends (w_kafka w2)). split_and!; [done..|].
    rewrite Ho3, Hpub, Hc2. done.
Qed.
Lemma turn_passes worker id w :
  tries worker id w = false →
  bus_config (turn worker w) = bus_config w ∧ outbox_of (turn worker w) !! id = outbox_of w !! id.
Proof.
  intros Ht. apply bool_decide_eq_false in Ht. rewrite turn_run.
  set (w1 := w <| w_db := _ |>). pose proof (row_publishes id _ Ht w1) as Hf.
  pose proof (f_equal fst Hf) as Ho. pose proof (f_equal snd Hf) as Hc. cbn [fst snd row_and_config] in Ho, Hc.
  rewrite Ho, Hc. split; [done|].
  change (outbox_of w1) with
    (db_outbox (claim_rows (pg_now (db_calls (w_db w))) worker 100 30 (tick (w_db w))).2).
  rewrite claim_rows_outbox. rewrite batch_taken in Ht.
  destruct (taken _ _ _ _ _ !! id) eqn:E; [|done]. by destruct Ht.
Qed.

Lemma retry_backoff_value m : 1 ≤ m → retry_backoff m = 5 * 2 ^ Z.min m 6.
Proof.
  intros Hm. unfold retry_backoff.
  assert (Hr : 1 ≤ Z.min m 6 ≤ 6) by lia. revert Hr. generalize (Z.min m 6). intros k Hk.
  assert (k = 1 ∨ k = 2 ∨ k = 3 ∨ k = 4 ∨ k = 5 ∨ k = 6) as Hc by lia.
  by destruct_or! Hc; subst k.
Qed.

(** The row of an event that was tried [n] times, of at most [limit]. *)
Definition tried (limit : Z) (n : nat) (row row' : OutboxRow) : Prop :=
  ob_attempt_count row' = Z.of_nat n ∧ Z.of_nat n ≤ limit
  ∧ (n = O → row' = row)
  ∧ (0 < Z.of_nat n < limit → ob_status row' = "failed"%string
     ∧ ob_next_attempt_at row' = ob_updated_at row' + seconds (5 * 2 ^ Z.min (Z.of_nat n) 6))
  ∧ (Z.of_nat n = limit → ob_status row' = "deadlettered"%string).
(** Nobody holds the row, and it is as it was but for its attempts. *)
Definition free_row (row row' : OutboxRow) : Prop :=
  ob_payload_json row' = ob_payload_json row ∧ ob_locked_until row' = None.

(** One refused attempt, at the limit of one at least. *)
Lemma attempt_row_refused kafka payload delivery now row row0 m :
  (∀ p o, delivery ≠ Delivered p o) → ob_attempt_count row = Z.of_nat m →
  ob_payload_json row = ob_payload_json row0 →
  let limit := Z.max 1 (kafka_retry_max_attempts kafka) in
  Z.of_nat m < limit ≤ 2 ^ 31 - 1 →
  let row' := attempt_row kafka (Ok payload) delivery now row in
  tried limit (S m) row0 row' ∧ free_row row0 row'.
Proof.
  intros Hd Hm Hpay limit Hlim.
  assert (Hsat : sat_add_i32 (Z.of_nat m) 1 = Z.of_nat m + 1) by (unfold sat_add_i32; lia).
  assert (Hwrap : wrap_u32 (Z.of_nat m + 1) = Z.of_nat m + 1)
    by (unfold wrap_u32; apply Z.mod_small; lia).
  assert (Hpos : Z.max (5 * 2 ^ Z.min (Z.of_nat m + 1) 6) 1 = 5 * 2 ^ Z.min (Z.of_nat m + 1) 6)
    by (pose proof (Z.pow_pos_nonneg 2 (Z.min (Z.of_nat m + 1) 6)); lia).
  unfold attempt_row. rewrite Hm, Hsat, Hwrap.
  unfold tried, free_row. replace (Z.of_nat (S m)) with (Z.of_nat m + 1) by lia.
  destruct delivery as [p o|err|err]; [by destruct (Hd p o)|..]; cbv zeta;
    case_decide; simpl; rewrite ?retry_backoff_value, ?Hpos by lia;
    (split; [split_and!; intros; try done; lia|done]).
Qed.

(** ** An event the broker refuses *)
Hypothesis refused : ∀ k p o, kafka_send k ≠ Delivered p o.

(** The turns of the publishers on an event, and what goes on between them:
    anything that leaves its row and the configuration.  [n] counts the turns
    that try it. *)
Inductive publishing (id : string) (w : World) : nat → World → Prop :=
| publishing_start : publishing id w 0 w
| publishing_turn worker n w' :
    publishing id w n w' →
    publishing id w (if tries worker id w' then S n else n) (turn worker w')
| publishing_other n w' w'' :
    publishing id w n w' → row_and_config id w'' = row_and_config id w' → publishing id w n w''.

Lemma claimable_tried limit now n row row' : tried limit n row row' →
  claimable now row' = true → free_row row row' → ob_status row = "queued"%string → 1 ≤ limit →
  Z.of_nat n < limit.
Proof.
  intros (_ & Hn & _ & _ & Hl) Hc [_ Hlock] Hq Hlim.
  destruct (decide (Z.of_nat n = limit)) as [Heq|]; [|lia]. exfalso.
  unfold claimable in Hc. rewrite Hlock, (Hl Heq) in Hc. by destruct (bool_decide (_ ≤ now)).
Qed.

Lemma publishing_row id w row event payload n w' :
  outbox_of w !! id = Some row → ob_attempt_count row = 0 → ob_status row = "queued"%string →
  ob_locked_until row = None →
  event_from_value (ob_payload_json row) = Ok event →
  encode_event_for_kafka event_to_vec (bus_config w) event = Ok payload →
  let limit := Z.max 1 (kafka_retry_max_attempts (bus_config w)) in
  limit ≤ 2 ^ 31 - 1 → publishing id w n w' →
  bus_config w' = bus_config w
  ∧ ∃ row', outbox_of w' !! id = Some row' ∧ tried limit n row row' ∧ free_row row row'.
Proof.
  intros Hrow Ha Hq Hlock Hev Henc limit Hlim. induction 1 as [|worker n w' _ IH|n w' w'' _ IH Hsame].
  - split; [done|]. exists row. split_and!; [done| |done..].
    unfold tried. split_and!; [done|lia|done|lia|lia].
  - destruct IH as (Hcfg & row' & Hrow' & Htr & Hfree).
    destruct (tries worker id w') eqn:Ht.
    + pose proof (tries_claimable worker id row' w' Ht Hrow') as Hcl.
      pose proof (claimable_tried limit _ n row row' Htr Hcl Hfree Hq ltac:(lia)) as Hlt.
      destruct Htr as (Hc & Hn & Hrest). pose proof Hfree as [Hpay Hl].
      destruct (turn_tries worker id row' event w') as
        (Hcfg' & locked & now & t & k & _ & -> & Hout); [done|done|lia|by rewrite Hpay|].
      split; [by rewrite Hcfg'|]. rewrite Hcfg, Henc in Hout. eexists. split; [exact Hout|].
      apply attempt_row_refused; [apply refused|done|done|done].
    + destruct (turn_passes worker id w' Ht) as [-> ->]. split; [done|]. by exists row'.
  - unfold row_and_config in Hsame. injection Hsame as -> ->. done.
Qed.

Lemma due_tried worker id row w :
  outbox_of w !! id = Some row → (size (outbox_of w) ≤ 100)%nat →
  ob_status row = "queued"%string ∨ ob_status row = "failed"%string →
  ob_locked_until row = None → ob_next_attempt_at row ≤ pg_now (db_calls (w_db w)) →
  tries worker id w = true.
Proof.
  intros Hrow Hsize Hst Hlock Hdue. apply bool_decide_eq_true, batch_taken.
  set (now := pg_now _) in *.
  assert (Hc : claimable now row = true).
  { unfold claimable, lock_free, is_any. rewrite Hlock, (bool_decide_eq_true_2 (_ ≤ now)) by done.
    by destruct Hst as [-> | ->]. }
  unfold taken. rewrite lookup_fmap.
  enough (Hin : (id, row) ∈ next_events now 100 (tick (w_db w))).
  { rewrite (elem_of_list_to_map_1 (next_events now 100 (tick (w_db w))) id row); [by eexists| |done].
    apply next_events_NoDup. }
  apply elem_of_next_events_all; [|done..]. exact Hsize.
Qed.

(** C23. An event the broker does not accept is tried at most the configured number of
    times, and once at least.  The assumptions: the database answers every call,
    the broker refuses every record, the payload of the row is an event that can
    be encoded, the limit fits the attempt counter, and a turn of a publisher
    (claim and publication) ends before another one touches the row.  Then, after
    any turns of any workers and anything else that leaves the row alone, the row
    counts the turns that tried it: it is as it was queued before the first;
    failed, and not due for 5 * 2^min(n, 6) seconds, after the n-th; dead-lettered
    at the limit, and never tried again.  Before the limit the next turn tries it
    as soon as it is due, unless more than 100 rows compete. *)
Theorem unpublished_event_deadlettered id w row event payload n w' :
  outbox_of w !! id = Some row → ob_attempt_count row = 0 → ob_status row = "queued"%string →
  ob_locked_until row = None →
  event_from_value (ob_payload_json row) = Ok event →
  encode_event_for_kafka event_to_vec (bus_config w) event = Ok payload →
  let limit := Z.max 1 (kafka_retry_max_attempts (bus_config w)) in
  limit ≤ 2 ^ 31 - 1 → publishing id w n w' →
  ∃ row', outbox_of w' !! id = Some row'
    ∧ ob_attempt_count row' = Z.of_nat n ∧ Z.of_nat n ≤ limit
    ∧ (n = O → row' = row)
    ∧ (0 < Z.of_nat n < limit → ob_status row' = "failed"%string
       ∧ ob_next_attempt_at row' = ob_updated_at row' + seconds (5 * 2 ^ Z.min (Z.of_nat n) 6))
    ∧ (Z.of_nat n = limit → ob_status row' = "deadlettered"%string
       ∧ ∀ worker, tries worker id w' = false)
    ∧ (Z.of_nat n < limit → ∀ worker, (size (outbox_of w') ≤ 100)%nat →
       ob_next_attempt_at row' ≤ pg_now (db_calls (w_db w')) → tries worker id w' = true).
Proof.
  intros Hrow Ha Hq Hlock Hev Henc limit Hlim Hp.
  destruct (publishing_row id w row event payload n w' Hrow Ha Hq Hlock Hev Henc Hlim Hp)
    as (_ & row' & Hrow' & Htr & Hfree).
  exists row'. split; [done|]. pose proof Htr as (Hc & Hn & Hnone & Hf & Hl). split_and!; try done.
  - intros Heq. split; [by apply Hl|]. intros worker.
    destruct (tries worker id w') eqn:Ht; [exfalso|done].
    pose proof (tries_claimable worker id row' w' Ht Hrow') as Hcl. pose proof (claimable_tried limit _ n row row' Htr Hcl Hfree Hq). lia.
  - intros Hlt worker Hsize Hdue. apply (due_tried worker id row' w'); [done|done| |apply Hfree|done].
    destruct n as [|n]; [left; by rewrite Hnone|right; apply Hf; lia].
Qed.
End attempts.

(** ** The inbox *)
Abbreviation consume group message handler :=
  (consume_one_message_with_inbox group (Ok message) handler).

Section inbox.
Context `{Env} `{Crypto} `{Serde} `{Postgres} `{KafkaClient}.

(** The event was consumed by the group, under its identifier or its offset. *)
Definition consumed (group : string) (event : CommonEvent) (source : EventSourceOffset) (d : Db)
  : bool :=
  existsb (inbox_match group (ev_event_id event) (src_topic source) (src_partition source)
             (src_offset source)) (hm_iter (db_inbox d)).

Lemma consumed_spec group event source d :
  consumed group event source d = true ↔
  ∃ id row, db_inbox d !! (group, id) = Some row
    ∧ (id = ev_event_id event ∨ (ib_topic row = src_topic source
       ∧ ib_partition row = src_partition source ∧ ib_offset row = src_offset source)).
Proof.
  unfold consumed. rewrite existsb_exists. split.
  - intros ([[g id] row] & Hin & Hm). apply list_elem_of_In, elem_of_hm_iter in Hin.
    unfold inbox_match in Hm. simpl in Hm. apply andb_true_iff in Hm as [Hg Hm].
    apply bool_decide_eq_true in Hg as ->. exists id, row. split; [done|].
    apply orb_true_iff in Hm as [Hm|Hm]; split_bools; auto.
  - intros (id & row & Hrow & Hm). exists ((group, id), row).
    split; [by apply list_elem_of_In, elem_of_hm_iter|]. unfold inbox_match. simpl.
    rewrite bool_decide_eq_true_2 by done. simpl.
    destruct Hm as [->|(-> & -> & ->)]; [by rewrite bool_decide_eq_true_2|].
    apply orb_true_iff. right. by rewrite !bool_decide_eq_true_2.
Qed.

(** A consumed event is not handled: neither the application nor the tables
    change, whatever the handler. *)
Lemma consumed_skips group event source handler w :
  consumed group event source (w_db w) = true →
  let w' := state_of (consume_event group handler source event) w in
  w_app w' = w_app w ∧ contents (w_db w') = contents (w_db w).
Proof.
  intros Hc w'. subst w'. unfold consume_event. rewrite state_of_bind.
  set (m := event_inbox_processed _ _ _ _ _).
  assert (Hm : (state_of m (w_db w) = tick (w_db w))
    ∧ (value_of m (w_db w) = Ok true ∨ ∃ e, value_of m (w_db w) = Err e)).
  { subst m. unfold event_inbox_processed.
    match goal with |- context [statement ?c ?f] =>
      destruct (statement_cases c f (w_db w)) as [(a & d1 & Hf & -> & Hv)|[-> ->]]; [|by eauto] end.
    change (Some (consumed group event source (tick (w_db w)), tick (w_db w)) = Some (a, d1)) in Hf.
    injection Hf as <- <-. change (consumed group event source (tick (w_db w)))
      with (consumed group event source (w_db w)) in Hv. rewrite Hc in Hv. split; [done|].
    destruct Hv as [-> | ->]; eauto. }
  destruct Hm as [Hs Hv]. unfold value_of, state_of, on_db in *.
  destruct (m (w_db w)) as [r d]. simpl in Hs, Hv. subst d. simpl.
  destruct Hv as [-> |[e ->]]; simpl; [|done].
  unfold bindR, bind, ret, commit_message. simpl. by destruct (kafka_commit (bk_commits (w_kafka w))).
Qed.

Lemma commit_message_db group source w : w_db (state_of (commit_message group source) w) = w_db w.
Proof. unfold commit_message, state_of. by destruct (kafka_commit _). Qed.

(** A committed message is consumed; under its identifier if it was handled. *)
Lemma committed_consumed group source event handler w :
  let w' := state_of (consume_event group handler source event) w in
  value_of (consume_event group handler source event) w = Ok Commit →
  consumed group event source (w_db w') = true
  ∧ (consumed group event source (w_db w) = false →
     ∃ row, db_inbox (w_db w') !! (group, ev_event_id event) = Some row).
Proof.
  intros w' Hv. subst w'. revert Hv. unfold consume_event.
  rewrite state_of_bind, value_of_bind.
  set (m := on_db (event_inbox_processed _ _ _ _ _)).
  assert (Hm : contents (w_db (state_of m w)) = contents (w_db w)).
  { subst m. rewrite (proj1 (on_db_run _ _)). apply statement_reads. by intros ???? [= _ <-]. }
  assert (Hb : ∀ b, value_of m w = Ok b → b = consumed group event source (w_db w)).
  { subst m. intros b. rewrite (proj2 (on_db_run _ _)). intros Hb%statement_ok. by injection Hb. }
  destruct (value_of m w) as [b|e] eqn:E; simpl; [|done]. specialize (Hb _ eq_refl) as ->.
  set (w1 := state_of m w) in *. unfold contents in Hm. injection Hm as _ _ _ Hi _.
  assert (Hsame : consumed group event source (w_db w1) = consumed group event source (w_db w))
    by (unfold consumed; by rewrite Hi).
  destruct (consumed group event source (w_db w)) eqn:Hc.
  - intros _. split; [|done]. rewrite <- Hsame. unfold bindR, bind, ret. simpl.
    rewrite <- (commit_message_db group source w1). unfold state_of, consumed.
    by destruct (commit_message group source w1) as [[]].
  - rewrite state_of_bind, value_of_bind. set (w2 := state_of (handler _) w1).
    destruct (from_handler_result _); [|done]. unfold bindR.
    rewrite !state_of_bind, !value_of_bind. set (mk := on_db _).
    destruct (value_of mk w2) as [[]|] eqn:Emk; simpl; [|done].
    unfold mk in Emk. rewrite (proj2 (on_db_run _ _)) in Emk.
    apply statement_ok in Emk. destruct (existsb _ _); [done|].
    apply (inj Some), (f_equal snd) in Emk. cbn [snd] in Emk.
    rewrite state_of_bind, value_of_bind. set (w3 := state_of mk w2).
    assert (Hw3 : ∃ row, db_inbox (w_db w3) !! (group, ev_event_id event) = Some row).
    { unfold w3, mk. rewrite (proj1 (on_db_run _ _)). simpl.
      unfold mark_event_inbox_processed. rewrite <- Emk. simpl. rewrite lookup_insert_eq. eauto. }
    intros _.
    assert (Hdb : ∀ k : result unit EventBusError → W (result ConsumerCommitDecision EventBusError),
      (∀ r w, w_db (state_of (k r) w) = w_db w) →
      w_db (state_of (bind (commit_message group source) k) w3) = w_db w3).
    { intros k Hk. by rewrite state_of_bind, Hk, commit_message_db. }
    split; [apply consumed_spec|intros _]; rewrite Hdb by (by intros [] ?); destruct Hw3 as [row ?];
      eauto 6.
Qed.

(** Where the message comes from, and the event it carries. *)
Definition source_of (message : KafkaMessage) : EventSourceOffset :=
  mkEventSourceOffset (km_topic message) (km_partition message) (km_offset message).
Definition carries (message : KafkaMessage) (event : CommonEvent) : Prop :=
  ∃ payload, km_payload message = Some payload ∧ event_from_slice payload = Ok event.

Lemma consume_carries group message event handler : carries message event →
  consume group message handler = consume_event group handler (source_of message) event.
Proof.
  intros (payload & Hp & He). unfold consume_one_message_with_inbox. simpl. by rewrite Hp, He.
Qed.
(** What cannot be received, has no payload or is no event is an error: nothing
    is handled, entered or committed. *)
Lemma nothing_to_consume group message handler w :
  (∀ m event, message = Ok m → ¬ carries m event) →
  (∃ e, value_of (consume_one_message_with_inbox group message handler) w = Err e)
  ∧ state_of (consume_one_message_with_inbox group message handler) w = w.
Proof.
  intros Hno. unfold consume_one_message_with_inbox. destruct message as [m|e]; simpl; [|by eauto].
  destruct (km_payload m) as [payload|] eqn:Hp; [|by eauto].
  destruct (event_from_slice payload) as [event|e] eqn:He; [|by eauto].
  destruct (Hno m event eq_refl). by exists payload.
Qed.
Lemma commit_carries group message handler w :
  value_of (consume group message handler) w = Ok Commit → ∃ event, carries message event.
Proof.
  unfold consume_one_message_with_inbox. simpl.
  destruct (km_payload message) as [payload|] eqn:Hp; [|done].
  destruct (event_from_slice payload) as [event|e] eqn:He; [|done]. intros _. by exists event, payload.
Qed.

End inbox.

(** ** The drainer *)
Section drainer_spec.
Context `{Env} `{Crypto} `{Serde} `{Postgres}.
Context (io : ByteIo)
  (send_media : string → string → OutboundMediaMessage → option (result string string))
  (send_text : string → string → string → option (result string string))
  (respond : string → string → string → result GroqTranscription string).

(** The events of a batch, handled by the application one after the other. *)
Definition handle_event (event : CommonEvent) : M unit :=
  if internal_work_event_type (ev_event_type event)
  then let! _ := handle_internal_work_event io send_media send_text respond event in ret tt
  else ret tt.

Lemma drain_one record event w :
  event_from_value (or_payload_json record) = Ok event →
  w_app (state_of (process_postgres_outbox_record io send_media send_text respond record) w)
  = state_of (handle_event event) (w_app w).
Proof.
  intros Hev. unfold process_postgres_outbox_record, handle_event. rewrite Hev.
  destruct (internal_work_event_type _); simpl.
  - rewrite !state_of_bind. set (h := handle_internal_work_event _ _ _ _ _).
    assert (Ha : w_app (state_of (on_app h) w) = state_of h (w_app w)).
    { unfold state_of, on_app. by destruct (h (w_app w)). }
    destruct (value_of (on_app h) w) as [u|err].
    + rewrite state_of_bind. change (λ _, ret tt) with (λ _ : result unit string, ret (S := World) tt).
      by rewrite (proj1 (on_db_run _ _)).
    + unfold drain_failed. rewrite !state_of_bind.
      by rewrite (proj1 (on_db_run _ _)).
  - rewrite state_of_bind. by rewrite (proj1 (on_db_run _ _)).
Qed.

(** C28. The drainer does to the application what handling the events of the batch
    in order does, whatever the failures of the database: the statuses it
    writes do not influence it. *)
Theorem drainer_handles_batch records events w :
  Forall2 (λ record event, event_from_value (or_payload_json record) = Ok event) records events →
  w_app (state_of (for_each (process_postgres_outbox_record io send_media send_text respond)
                     records) w)
  = state_of (for_each handle_event events) (w_app w).
Proof.
  intros Hall. revert w. induction Hall as [|record event records events Hev _ IH]; intros w;
    [done|]. cbn [for_each]. by rewrite !state_of_bind, IH, (drain_one _ _ _ Hev).
Qed.
End drainer_spec.

(** ** At the demonstration deployment *)
(** A turn, and then nothing for a while. *)
Definition refused_turn : string → World → World :=
  @turn demo_env demo_serde demo_pg refusing_kafka.
Fixpoint refused_turns (n : nat) : World :=
  match n with
  | O => demo_persisted
  | S n => refused_turn "w" (refused_turns n) <| w_db ::= λ d, d <| db_calls ::= Nat.add 1000 |> |>
  end.
Lemma refused_turns_try : ∀ n, (n < 8)%nat → @tries demo_env demo_pg "w" "evt_1" (refused_turns n) = true.
Proof.
  intros n Hn. assert (Hall : Forall (λ n, @tries demo_env demo_pg "w" "evt_1" (refused_turns n) = true) (seq 0 8))
    by (repeat constructor; vm_compute; reflexivity).
  rewrite Forall_forall in Hall. apply Hall, elem_of_seq. lia.
Qed.
Lemma refused_turns_publishing n : (n ≤ 8)%nat →
  @publishing demo_env demo_serde demo_pg refusing_kafka "evt_1" demo_persisted n (refused_turns n).
Proof.
  induction n as [|n IH]; intros Hn; [constructor|]. simpl.
  apply publishing_other with (refused_turn "w" (refused_turns n)); [|reflexivity].
  pose proof (@publishing_turn demo_env demo_serde demo_pg refusing_kafka "evt_1" demo_persisted "w" n
    (refused_turns n) (IH ltac:(lia))) as Ht.
  by rewrite refused_turns_try in Ht by lia.
Qed.

Lemma unpublished_event_deadlettered_witness :
  ∃ row', db_outbox (w_db (refused_turns 8)) !! "evt_1"%string = Some row'
    ∧ ob_attempt_count row' = 8 ∧ ob_status row' = "deadlettered"%string
    ∧ ∀ worker, @tries demo_env demo_pg worker "evt_1" (refused_turns 8) = false.
Proof.
  set (row := @event_row demo_env demo_kafka_config (seconds 2000) (demo_catalog "evt_1")).
  assert (Hmax : Z.max 1 (kafka_retry_max_attempts (cfg_kafka (app_config (w_app demo_persisted)))) = 8)
    by (vm_compute; reflexivity).
  destruct (@unpublished_event_deadlettered demo_env demo_serde demo_pg refusing_kafka
    (λ _, eq_refl) ltac:(by intros ??? [=]) "evt_1" demo_persisted row (demo_catalog "evt_1") "evt_1" 8
    (refused_turns 8)) as (row' & Hrow' & Hcount & _ & _ & _ & Hdead & _).
  - vm_compute. reflexivity.
  - reflexivity.
  - reflexivity.
  - reflexivity.
  - vm_compute. reflexivity.
  - vm_compute. reflexivity.
  - rewrite Hmax. lia.
  - apply refused_turns_publishing. lia.
  - exists row'. split; [exact Hrow'|split; [exact Hcount|]]. apply Hdead. rewrite Hmax. reflexivity.
Defined.

Definition no_media : string → string → OutboundMediaMessage → option (result string string) := λ _ _ _, None.
Definition no_text : string → string → string → option (result string string) := λ _ _ _, None.
Definition no_speech : string → string → string → result GroqTranscription string :=
  λ _ _ _, Err "off"%string.

Lemma demo_decodes : Forall2
  (λ record event, @event_from_value demo_env demo_serde (or_payload_json record) = Ok event)
  [demo_record] [demo_catalog "evt_1"].
Proof. constructor; [vm_compute; reflexivity|constructor]. Qed.

Lemma drainer_handles_batch_witness :
  w_app (state_of (for_each (@process_postgres_outbox_record demo_env demo_serde demo_pg
           reliable_io no_media no_text no_speech) [demo_record]) demo_claimed)
  = state_of (for_each (@handle_event demo_env reliable_io no_media no_text no_speech)
      [demo_catalog "evt_1"]) (w_app demo_claimed).
Proof.
  exact (@drainer_handles_batch demo_env demo_serde demo_pg reliable_io no_media no_text no_speech
    [demo_record] [demo_catalog "evt_1"] demo_claimed demo_decodes).
Defined.


(** ** The Kafka workers *)
Section workers.
Context `{Env} `{Crypto} `{RawCodec} `{Serde} `{Postgres} `{KafkaClient}.
Context (o : Outside) (io : ByteIo)
  (send_media : string → string → OutboundMediaMessage → option (result string string))
  (send_text : string → string → string → option (result string string))
  (respond : string → string → string → result GroqTranscription string).
Abbreviation work := (work o io send_media send_text respond).
Abbreviation handle_message := (handle_message o io send_media send_text respond).

(** The dead letter of the event, not replayed yet. *)
Definition buried (event : CommonEvent) (topic : string) (d : Db) : Prop :=
  ∃ id row, db_deadletters d !! id = Some row
    ∧ kd_event_id row = ev_event_id event ∧ kd_payload_json row = event_to_value event
    ∧ kd_source_topic row = Some topic ∧ kd_replayed_at row = None.

Lemma insert_deadletter_ok envelope topic key d :
  value_of (insert_kafka_deadletter envelope (Some topic) key) d = Ok tt →
  buried (dl_event envelope) topic (state_of (insert_kafka_deadletter envelope (Some topic) key) d).
Proof.
  unfold insert_kafka_deadletter, pure_result, value_of, state_of. rewrite !bindR_ret.
  destruct (ok_or (parse_rfc3339 (dl_first_failed_at envelope)) _) as [first|]; [|done].
  rewrite !bindR_ret.
  destruct (ok_or (parse_rfc3339 (dl_last_failed_at envelope)) _) as [last|]; [|done].
  match goal with |- context [statement ?c ?f] => set (m := statement c f) end.
  change ((m d).1) with (value_of m d).
  change ((m d).2) with (state_of m d). intros Hv%statement_ok. cbv beta zeta in Hv. fold m in Hv.
  destruct (db_deadletters (tick d) !! _); [done|].
  assert (Hd : _ = state_of m d) by (injection Hv as Hd; exact Hd). rewrite <- Hd.
  unfold buried. simpl. eexists _, _. rewrite lookup_insert_eq. split; [reflexivity|]. done.
Qed.

(** A message that the handler answers for. *)
Lemma handle_message_run event source w :
  let message := mkKafkaConsumerMessage event source in
  let w' := state_of (handle_message message) w in
  match value_of (work event) (w_app w) with
  | Ok _ => value_of (handle_message message) w = Ok Processed
            ∧ w' = w <| w_app := state_of (work event) (w_app w) |>
  | Err _ => ∀ status, value_of (handle_message message) w = Ok status →
             buried event (src_topic source) (w_db w')
  end.
Proof.
  cbv zeta. unfold Workers.handle_message. simpl.
  rewrite state_of_bind, value_of_bind, (proj2 (on_app_run _ _)), (proj1 (on_app_run _ _)).
  destruct (value_of (work event) (w_app w)) as [[]|err]; [done|].
  rewrite state_of_bind, value_of_bind. set (w1 := _ <| w_app := _ |>).
  assert (He : dl_event (value_of (make_deadletter event 1 (error_message err)) w1) = event).
  { unfold make_deadletter. by rewrite value_of_bind. }
  set (envelope := value_of _ w1) in *. set (w2 := state_of (make_deadletter _ _ _) w1).
  rewrite state_of_bind, value_of_bind, (proj2 (on_db_run _ _)), (proj1 (on_db_run _ _)).
  destruct (value_of (insert_kafka_deadletter _ _ _) (w_db w2)) as [[]|] eqn:E; [|done].
  intros _ _. apply insert_deadletter_ok in E. by rewrite He in E.
Qed.

(** The end of [consume_event] touches neither. *)
Lemma frame_settle group source event (k : W (result ConsumerCommitDecision EventBusError)) :
  k = (try! _ := (let! r := on_db (mark_event_inbox_processed group event (src_topic source)
                                     (src_partition source) (src_offset source)) in
                  ret (kafka_err r)) in
       try! _ := commit_message group source in ret (Ok Commit)) →
  frame (λ w, (w_app w, db_deadletters (w_db w))) k.
Proof.
  intros ->. apply frame_bindR; [apply frame_bind; [|intros r; apply frame_ret]|intros _].
  - intros w. rewrite (proj1 (on_db_run _ _)). simpl. f_equal. unfold mark_event_inbox_processed.
    match goal with |- context [statement ?c ?f] =>
      destruct (statement_cases c f (w_db w)) as [(a & d1 & Hf & -> & _)|[-> _]] end; [|done].
    destruct (existsb _ _); [done|]. by injection Hf as _ <-.
  - apply frame_bindR; [|intros _; apply frame_ret]. intros w.
    unfold commit_message, state_of. by destruct (kafka_commit _).
Qed.

(** A commit: the event was consumed before, or the handler answered for it, and
    its effects on the application and on the dead letters stand. *)
Lemma commit_handled group source event handler w :
  let w' := state_of (consume_event group handler source event) w in
  value_of (consume_event group handler source event) w = Ok Commit →
  consumed group event source (w_db w) = true
  ∨ ∃ w1 status,
      let w2 := state_of (handler (mkKafkaConsumerMessage event source)) w1 in
      w_app w1 = w_app w ∧ value_of (handler (mkKafkaConsumerMessage event source)) w1 = Ok status
      ∧ w_app w' = w_app w2 ∧ db_deadletters (w_db w') = db_deadletters (w_db w2).
Proof.
  cbv zeta. unfold consume_event. rewrite state_of_bind, value_of_bind.
  set (m := on_db (event_inbox_processed _ _ _ _ _)).
  assert (Hb : ∀ b, value_of m w = Ok b → b = consumed group event source (w_db w)).
  { subst m. intros b. rewrite (proj2 (on_db_run _ _)). intros Hb%statement_ok. by injection Hb. }
  destruct (value_of m w) as [b|e] eqn:E; [|done]. specialize (Hb _ eq_refl) as ->.
  destruct (consumed group event source (w_db w)); [by left|]. cbn [kafka_err].
  intros Hv. right. exists (state_of m w).
  assert (Ha : w_app (state_of m w) = w_app w) by (subst m; by rewrite (proj1 (on_db_run _ _))).
  revert Hv. rewrite state_of_bind, value_of_bind.
  set (w2 := state_of (handler _) _).
  destruct (value_of (handler _) _) as [status|err]; [|done].
  assert (Hf : from_handler_result (Ok status) = Commit) by (by destruct status). rewrite Hf.
  intros _. exists status. split_and!; [done..| |];
    match goal with |- context [state_of ?rest w2] =>
      assert (Hr : frame (λ w, (w_app w, db_deadletters (w_db w))) rest) by (by eapply frame_settle);
      specialize (Hr w2); by injection Hr end.
Qed.

(** C26. What is committed is not lost: the message carries an event, and the event
    had been handled before, or its operation has answered success and its effects
    stand, or its dead letter, which says where the event came from, waits to be
    replayed. *)
Theorem worker_settles group message w :
  let w' := state_of (consume group message handle_message) w in
  value_of (consume group message handle_message) w = Ok Commit →
  ∃ event, carries message event
  ∧ (consumed group event (source_of message) (w_db w) = true
     ∨ (value_of (work event) (w_app w) = Ok tt ∧ w_app w' = state_of (work event) (w_app w))
     ∨ ((∃ e, value_of (work event) (w_app w) = Err e)
        ∧ buried event (km_topic message) (w_db w'))).
Proof.
  cbv zeta. intros Hv. destruct (commit_carries _ _ _ _ Hv) as [event Hev]. exists event.
  split; [done|]. rewrite (consume_carries _ _ _ _ Hev) in Hv |- *. set (source := source_of message) in *.
  destruct (commit_handled _ _ _ _ _ Hv) as [?|(w1 & status & Ha & Hs & Hw & Hd)];
    [by left|right].
  pose proof (handle_message_run event source w1) as Hrun. cbv zeta in Hrun. rewrite Ha in Hrun.
  destruct (value_of (work event) (w_app w)) as [[]|e]; [left|right].
  - destruct Hrun as [_ Hrun]. split; [done|]. by rewrite Hw, Hrun.
  - split; [by exists e|]. unfold buried. rewrite Hd. by eapply Hrun.
Qed.

(** And a dead letter of a worker is not handled again, although it can be
    replayed: its event is in the inbox of the group, and a replay leaves the
    inbox, so that every later delivery of the event is skipped, in any state
    [w1] whose inbox is that of the replay. *)
Lemma replay_skipped group source event w kafka u by_ w1 source' handler :
  let once := consume_event group handle_message source event in
  value_of once w = Ok Commit → consumed group event source (w_db w) = false →
  db_inbox (w_db w1)
  = db_inbox (w_db (state_of (on_db (replay_kafka_deadletter kafka u by_)) (state_of once w))) →
  w_app (state_of (consume_event group handler source' event) w1) = w_app w1.
Proof.
  cbv zeta. intros Hv Hno Hi. destruct (committed_consumed _ _ _ _ _ Hv) as [_ Hin].
  destruct (Hin Hno) as [row Hrow]. apply consumed_skips, consumed_spec.
  exists (ev_event_id event), row. split; [|by left].
  rewrite Hi, (proj1 (on_db_run _ _)). simpl. by rewrite replay_inbox.
Qed.
End workers.

(** ** A refused event *)
Definition refused_event : CommonEvent :=
  demo_catalog "evt_1" <| ev_event_type := "whatsapp.raw.inbound"%string |>.
Definition refusing_serde : Serde := {|
  invalid_type := @invalid_type demo_serde;
  from_ordinal_date := @from_ordinal_date demo_serde;
  from_hms_nano := @from_hms_nano demo_serde;
  utc_offset_from_hms := @utc_offset_from_hms demo_serde;
  event_to_vec := @event_to_vec demo_serde;
  deadletter_to_vec := @deadletter_to_vec demo_serde;
  event_from_slice := λ bytes,
    Ok (demo_catalog bytes <| ev_event_type := "whatsapp.raw.inbound"%string |>)
|}.
Definition refused_message : KafkaMessage :=
  mkKafkaMessage "rustzap.whatsapp.raw.inbound" 0 7 (Some "evt_1"%string).
Definition refused_source : EventSourceOffset := source_of refused_message.
Definition demo_work : CommonEvent → M (result unit ApiError) :=
  @work demo_env toy_crypto no_raw_events demo_outside reliable_io no_media no_text no_speech.
Definition demo_consume : W (result ConsumerCommitDecision EventBusError) :=
  @consume_one_message_with_inbox demo_env refusing_serde demo_pg demo_kafka "rustzap.raw-inbound"
    (Ok refused_message)
    (@handle_message demo_env toy_crypto no_raw_events demo_pg demo_outside reliable_io
       no_media no_text no_speech).

Lemma demo_consume_commits : value_of demo_consume demo_claimed = Ok Commit.
Proof. vm_compute. reflexivity. Qed.

Lemma worker_settles_witness :
  @buried demo_env refused_event "rustzap.whatsapp.raw.inbound" (w_db (state_of demo_consume demo_claimed)).
Proof.
  destruct (@worker_settles demo_env toy_crypto no_raw_events refusing_serde demo_pg demo_kafka
    demo_outside reliable_io no_media no_text no_speech "rustzap.raw-inbound" refused_message
    demo_claimed demo_consume_commits) as (event & (payload & Hp & He) & [Hc|[[Hv _]|[_ Hb]]]).
  - exfalso. injection Hp as <-. injection He as <-. revert Hc. vm_compute. discriminate.
  - exfalso. injection Hp as <-. injection He as <-. revert Hv. vm_compute. discriminate.
  - injection Hp as <-. injection He as <-. exact Hb.
Defined.

(** The dead letter is replayed, and the event delivered once more. *)
Definition demo_replaying : W (result (option string) string) :=
  on_db (@replay_kafka_deadletter demo_env demo_serde demo_pg demo_kafka_config "8" "ops").
Definition demo_replay : World :=
  state_of demo_replaying (state_of demo_consume demo_claimed).

Lemma demo_replay_skipped :
  value_of demo_replaying (state_of demo_consume demo_claimed) = Ok (Some "evt_1"%string)
  ∧ w_app (state_of (@consume_event demo_env demo_pg demo_kafka "rustzap.raw-inbound"
           (@handle_message demo_env toy_crypto no_raw_events demo_pg demo_outside reliable_io
              no_media no_text no_speech) refused_source refused_event) demo_replay)
  = w_app demo_replay.
Proof.
  split; [vm_compute; reflexivity|].
  apply (@replay_skipped demo_env toy_crypto no_raw_events demo_serde demo_pg demo_kafka demo_outside
    reliable_io no_media no_text no_speech "rustzap.raw-inbound" refused_source refused_event
    demo_claimed demo_kafka_config "8" "ops" demo_replay).
  - exact demo_consume_commits.
  - vm_compute. reflexivity.
  - reflexivity.
Qed.

(** A failure whose dead letter the database refuses is not committed, but the
    next message of the partition is, and its offset with it: the group goes on
    behind an event that was neither handled nor buried. *)
Definition refusing_pg : Postgres := {|
  pg_call := λ n, if decide (n = S (db_calls (w_db demo_claimed))) then PgRefused else PgDone;
  pg_now := @pg_now demo_pg;
  pg_error := @pg_error demo_pg;
  pg_uuid := @pg_uuid demo_pg;
  parse_uuid := @parse_uuid demo_pg;
  timestamptz := @timestamptz demo_pg;
  store_to_value := @store_to_value demo_pg;
  store_from_value := @store_from_value demo_pg
|}.
Definition demo_next (message : KafkaMessage) : W (result ConsumerCommitDecision EventBusError) :=
  @consume_one_message_with_inbox demo_env refusing_serde refusing_pg demo_kafka "rustzap.raw-inbound"
    (Ok message)
    (@handle_message demo_env toy_crypto no_raw_events refusing_pg demo_outside reliable_io
       no_media no_text no_speech).
Example uncommitted_passed_over :
  let next := mkKafkaMessage "rustzap.whatsapp.raw.inbound" 0 8 (Some "evt_2"%string) in
  let w1 := state_of (demo_next refused_message) demo_claimed in
  let w2 := state_of (demo_next next) w1 in
  value_of (demo_next refused_message) demo_claimed = Ok DoNotCommit
  ∧ value_of (demo_next next) w1 = Ok Commit
  ∧ bk_committed (w_kafka w2) !! ("rustzap.raw-inbound", "rustzap.whatsapp.raw.inbound", 0)%string
    = Some 9
  ∧ db_inbox (w_db w2) !! ("rustzap.raw-inbound", "evt_1")%string = None
  ∧ kd_event_id <$> (map_to_list (db_deadletters (w_db w2))).*2 = ["evt_2"%string].
Proof. split_and!; vm_compute; reflexivity. Qed.
