(* ===== verification/Privacy.v ===== *)
(** * Privacy requests (src/state.rs)

    Exporting what is stored about a contact, and anonymizing it. *)
From S2P Require Import Prelude Text Json Errors Env Config Models Jid Records.
From S2P Require Import EventBus Whatsapp Store Contacts Groups Conversations Messages Channels.

(** The parts of the export document, before they are serialized. *)
Record PrivacyExport : Type := mkPrivacyExport {
  px_contact : ContactRecord;
  px_conversations : list Conversation;
  px_messages : list Message;
  px_media : list MediaObject;
  px_transcripts : list Transcript
}.
#[export] Instance eta_PrivacyExport : Eta PrivacyExport := λ r,
  mkPrivacyExport (px_contact r) (px_conversations r) (px_messages r) (px_media r)
    (px_transcripts r).

Section privacy.
Context `{Env}.

Definition opt_alias (aliases : list string) (id : option string) : bool :=
  is_some_and id (λ id, bool_decide (id ∈ aliases)).

Definition export_conversation (project_id company_id : string) (aliases : list string)
    (c : Conversation) : bool :=
  conversation_matches_tenant c project_id company_id && opt_alias aliases (conv_contact_id c).

Definition export_message (project_id company_id : string) (aliases : list string)
    (conversation_ids : list string) (m : Message) : bool :=
  message_of_tenant m project_id company_id
  && (bool_decide (msg_conversation_id m ∈ conversation_ids)
      || opt_alias aliases (msg_sender_contact_id m)).

Definition export_media (project_id company_id : string)
    (conversation_ids message_ids : list string) (m : MediaObject) : bool :=
  media_of_tenant m project_id company_id
  && (bool_decide (media_conversation_id m ∈ conversation_ids)
      || opt_alias message_ids (media_message_id m)).

Definition privacy_export_contact (inner : StoreInner) (project_id company_id contact_id : string)
  : result PrivacyExport ApiError :=
  let contact_id := resolve_contact_id_inner inner project_id company_id contact_id in
  let? contact := ok_or (tenant_contact inner project_id company_id contact_id)
                    (contact_not_found contact_id) in
  let aliases := contact_aliases_for_record contact in
  let conversations := retain_list (export_conversation project_id company_id aliases)
                         (hm_values (st_conversations inner)) in
  let conversation_ids := conv_id <$> conversations in
  let messages := retain_list (export_message project_id company_id aliases conversation_ids)
                    (hm_values (st_messages_by_id inner)) in
  let message_ids := msg_id <$> messages in
  Ok {| px_contact := contact;
        px_conversations := conversations;
        px_messages := messages;
        px_media := retain_list
          (export_media project_id company_id conversation_ids message_ids)
          (hm_values (st_media inner));
        px_transcripts := retain_list (λ t,
          transcript_of_tenant t project_id company_id
          && bool_decide (tr_message_id t ∈ message_ids)) (hm_values (st_transcripts inner)) |}.

Definition anonymous_contact (now : time) (c : ContactRecord) : ContactRecord :=
  c <| ct_phone_e164 := None |>
    <| ct_push_name := None |>
    <| ct_display_name := "anonymous_" +:+ take_chars 8 (ct_id c) |>
    <| ct_business_description := None |>
    <| ct_avatar_url := None |>
    <| ct_profile_picture_url := None |>
    <| ct_last_contact_at := now |>.

Definition anonymous_conversation (now : time) (project_id company_id : string)
    (aliases : list string) (name : string) (c : Conversation) : Conversation :=
  if export_conversation project_id company_id aliases c
  then c <| conv_display_name := Some name |> <| conv_display_phone := None |>
         <| conv_phone_number := None |> <| conv_avatar_url := None |>
         <| conv_profile_picture_url := None |> <| conv_updated_at := now |>
  else c.

Definition anonymous_message (now : time) (project_id company_id : string)
    (aliases : list string) (name : string) (delete_messages : bool) (m : Message) : Message :=
  if message_of_tenant m project_id company_id && opt_alias aliases (msg_sender_contact_id m)
  then
    let m := m <| msg_sender_display_name := Some name |> in
    let m := if delete_messages then m <| msg_text := None |> else m in
    m <| msg_updated_at := now |>
  else m.

Definition anonymize_inner (now : time) (project_id company_id id : string)
    (contact : ContactRecord) (delete_messages : bool) (inner : StoreInner) : StoreInner :=
  let aliases := contact_aliases_for_record contact in
  let contact := anonymous_contact now contact in
  let name := ct_display_name contact in
  let on_message := anonymous_message now project_id company_id aliases name delete_messages in
  inner <| st_contacts ::= <[id := contact]> |>
        <| st_conversations ::= fmap (M:=gmap string)
             (anonymous_conversation now project_id company_id aliases name) |>
        <| st_messages_by_id ::= fmap (M:=gmap string) on_message |>
        <| st_messages_by_conversation ::= fmap (M:=gmap string) (fmap (M:=list) on_message) |>.

Definition anonymize_contact (project_id company_id contact_id : string)
    (delete_messages : bool) : M (result Value ApiError) :=
  let! now := now_utc in
  let! inner := get_inner in
  let id := resolve_contact_id_inner inner project_id company_id contact_id in
  match tenant_contact inner project_id company_id id with
  | None => ret (Err (contact_not_found id))
  | Some contact =>
    modify_inner (anonymize_inner now project_id company_id id contact delete_messages);;;
    persist_locked;;;
    let! _ := audit_log project_id company_id
      (if delete_messages then "privacy.delete" else "privacy.anonymize") "contact" (Some id)
      (json! { "pii_redacted" ~> true, "message_text_deleted" ~> delete_messages }) in
    ret (Ok (json! { "contact_id" ~> contact_id, "technical_contact_id" ~> id,
                     "anonymized" ~> true, "deleted" ~> delete_messages,
                     "pii_redacted" ~> true }))
  end.

(** [reset_dev]: an empty store; the snapshot file, which is kept without a
    database, is removed. *)
Definition reset_dev : M unit := modify (λ s,
  s <| app_inner := empty_store |>
    <| app_persisted ::= λ p,
         if decide (cfg_metadata_db (app_config s) = DbInMemory) then None else p |>).
End privacy.
