(* ===== verification/Keeps.v ===== *)
(** * The operations keep the message log well formed

    One lemma per operation that [MessageLog] does not treat: channels, the byte
    store, transcripts, media and retention, polling, callbacks, sending,
    privacy requests, uploads and the events of a WhatsApp channel. *)
From S2P Require Import Prelude Text Json Errors Env Config Models Jid Media Net Secrets Records.
From S2P Require Import Snapshot RateLimit EventBus Whatsapp Store Contacts Groups Conversations.
From S2P Require Import Messages Inbox MessageLog Channels Bytes Transcripts MediaOps Dirty.
From S2P Require Import Callbacks Sending Uploads UploadSpec InboundMedia WhatsappClient.
From S2P Require Import WhatsappEvents Privacy Demo.

(** ** The operations keep the invariant *)
Section keeps_more.
Context `{Env} {EL : EnvLaws}.

Lemma keeps_state_fn {A} (f : AppState → A * AppState) :
  (∀ s, app_inner (f s).2 = app_inner s ∧ sink (f s).2 = sink s
        ∧ (app_uuids s ≤ app_uuids (f s).2)%nat) →
  keeps (f : M A).
Proof. intros Hf b s Hs. destruct (Hf s) as (? & ? & ?). by apply (wf_frame b s). Qed.

(** Filing records *)
Lemma put_media_wf n id m i : media_id m = id → log_wf n i → log_wf n (put_media id m i).
Proof.
  intros Hm [HL [F1 F2 [R1 R2 R3]]]. split; [by destruct HL|]. constructor; [done..|].
  constructor; [|done..]. intros k x. simpl.
  destruct (decide (k = id)) as [->|]; [rewrite lookup_insert_eq; by intros [= <-]|].
  rewrite lookup_insert_ne by done. apply R1.
Qed.
Lemma put_media_again_wf n id m m' i :
  st_media i !! id = Some m → media_id m' = media_id m →
  log_wf n i → log_wf n (put_media id m' i).
Proof.
  intros Hm E Hwf. apply put_media_wf; [|done]. rewrite E.
  by apply (media_filed _ _ (fresh_filed _ _ (proj2 Hwf))).
Qed.
Lemma keeps_put_media m : keeps (modify_inner (put_media (media_id m) m)).
Proof. apply keeps_modify_inner. intros n i. by apply put_media_wf. Qed.

Lemma put_transcript_wf n id t i :
  tr_message_id t = id → (∃ k, (k < n)%nat ∧ tr_id t = "tr_" +:+ uuid_simple k) →
  (∀ id' t', st_transcripts i !! id' = Some t' → tr_id t = tr_id t' → id = id') →
  log_wf n i → log_wf n (put_transcript id t i).
Proof.
  intros Hm Hk Ha [HL [F1 F2 [R1 R2 R3]]]. split; [by destruct HL|]. constructor; [done..|].
  constructor; [done|..]; simpl.
  - intros k x. destruct (decide (k = id)) as [->|]; [rewrite lookup_insert_eq; by intros [= <-]|].
    rewrite lookup_insert_ne by done. apply R2.
  - intros k k' x x'. destruct (decide (k = id)) as [->|], (decide (k' = id)) as [->|];
      rewrite ?lookup_insert_eq, ?lookup_insert_ne by done; [done| | |eauto].
    + intros [= <-]. eauto.
    + intros Hx [= <-] E. symmetry. by eapply Ha.
Qed.

(** [m] makes a transcript of the message with a new identifier. *)
Definition draws (message : string) (m : M Transcript) : Prop := ∀ s,
  app_inner (state_of m s) = app_inner s ∧ sink (state_of m s) = sink s
  ∧ app_uuids (state_of m s) = S (app_uuids s)
  ∧ tr_message_id (value_of m s) = message
  ∧ tr_id (value_of m s) = "tr_" +:+ uuid_simple (app_uuids s).
Lemma draws_lifecycle p c m id l t : draws m (transcript_with_lifecycle p c m id l t).
Proof. by intros s. Qed.
Lemma draws_groq p c m id r : draws m (groq_transcript_from_result p c m id r).
Proof. by intros s. Qed.
Lemma draws_mock p c m id : draws m (mock_transcript p c m id).
Proof. by intros s. Qed.

(** The transcript is filed, under its own identifier or under that of the one
    it replaces. *)
Lemma keeps_new_transcript {B} message m (f : StoreInner → Transcript → Transcript)
    (k : StoreInner → Transcript → M B) :
  draws message m →
  (∀ i t, tr_message_id t = message →
     tr_message_id (f i t) = message
     ∧ (tr_id (f i t) = tr_id t
        ∨ ∃ old, st_transcripts i !! message = Some old ∧ tr_id (f i t) = tr_id old)) →
  (∀ i t, keeps (k i t)) →
  keeps (let! t := m in let! i := get_inner in
         modify_inner (put_transcript message (f i t));;; k i t).
Proof.
  intros Hm Hf Hk b s [Hbu Hbs Hs]. rewrite state_of_bind.
  destruct (Hm s) as (Hi & Hp & Hu & Ht & Hid).
  set (s1 := state_of m s) in *. set (t := value_of m s) in *.
  set (s2 := state_of (modify_inner (put_transcript message (f (app_inner s1) t))) s1).
  apply (Hk (app_inner s1) t b s2). pose proof Hp as [= _ Hsn].
  constructor; [change (app_uuids s2) with (app_uuids s1); lia
               |change (app_snapshots s2) with (app_snapshots s1); by rewrite Hsn|].
  intros Hb. change (app_uuids s2) with (app_uuids s1) in Hb |- *.
  change (app_inner s2) with (put_transcript message (f (app_inner s1) t) (app_inner s1)).
  rewrite Hu, Hi in *. destruct Hs as [Hwf Hw]; [lia|].
  pose proof (fresh_filed _ _ (proj2 Hwf)) as [R1 R2 R3].
  destruct (Hf (app_inner s) t Ht) as [Hfm Hfi].
  split; [|change (sink s2) with (sink s1); rewrite Hp;
           apply (sink_wf_mono (app_uuids s)); [lia|done]].
  apply put_transcript_wf; [done| | |by apply (log_wf_mono (app_uuids s)); [lia|]].
  - destruct Hfi as [->|(old & Hold & ->)]; [exists (app_uuids s); split; [lia|done]|].
    destruct (R2 _ _ Hold) as (_ & j & ? & ?). exists j. split; [lia|done].
  - intros id' t' Ht' E. destruct Hfi as [Hfi|(old & Hold & Hfi)]; 
      [exfalso|apply (R3 message id' old t' Hold Ht'); congruence].
    destruct (R2 _ _ Ht') as (_ & j & Hj & Hid'). rewrite Hfi, Hid, Hid' in E.
    apply str_app_inj_l, (inj _) in E. lia.
Qed.
Lemma keeps_put_transcript {B} message m (k : Transcript → M B) :
  draws message m → (∀ t, keeps (k t)) →
  keeps (let! t := m in modify_inner (put_transcript message t);;; k t).
Proof.
  intros Hm Hk. refine (keeps_new_transcript message m (λ _ t, t) (λ _, k) Hm _ _); auto.
Qed.

Lemma stored_transcript_filed i m t :
  tr_message_id t = msg_id m →
  tr_message_id (transcript_to_store i m t) = msg_id m
  ∧ (tr_id (transcript_to_store i m t) = tr_id t
     ∨ ∃ old, st_transcripts i !! msg_id m = Some old
              ∧ tr_id (transcript_to_store i m t) = tr_id old).
Proof.
  intros Ht. unfold transcript_to_store.
  destruct (st_transcripts i !! msg_id m) as [old|]; case_match; simpl; eauto.
Qed.

(** Channels *)
Lemma keeps_enforce headers t scope : keeps (enforce_rate_limit headers t scope).
Proof.
  apply keeps_state_fn. intros s. unfold enforce_rate_limit.
  destruct (check _ _ _ _) as [[]]; simpl; auto with lia.
Qed.
Lemma keeps_upsert_project id name : keeps (upsert_project id name).
Proof. unfold upsert_project. keeps_tac. Qed.
Lemma keeps_upsert_company p c name : keeps (upsert_company p c name).
Proof. unfold upsert_company, get_config. keeps_tac. Qed.
Lemma keeps_store_api_key p c k h sc name : keeps (store_api_key_metadata p c k h sc name).
Proof. unfold store_api_key_metadata. keeps_tac. Qed.
Lemma keeps_audit p c a t r v : keeps (audit_log p c a t r v).
Proof. unfold audit_log. keeps_tac. Qed.
Lemma keeps_create_channel p c id l ph : keeps (create_channel p c id l ph).
Proof. unfold create_channel. keeps_tac. Qed.
Lemma keeps_reconcile id : keeps (reconcile_channel_runtime_status id).
Proof. unfold reconcile_channel_runtime_status. keeps_tac. Qed.
Hint Resolve keeps_audit keeps_reconcile : keeps.
Lemma keeps_channel id : keeps (channel id).
Proof. unfold channel. keeps_tac. Qed.
Lemma keeps_channel_for_company p c id : keeps (channel_for_company p c id).
Proof. unfold channel_for_company. keeps_tac. Qed.
Lemma keeps_channel_status id : keeps (channel_status id).
Proof. unfold channel_status. keeps_tac. Qed.
Lemma keeps_set_channel_status id st t : keeps (set_channel_status id st t).
Proof. unfold set_channel_status. keeps_tac. Qed.
Lemma keeps_set_qr id st t e : keeps (set_qr id st t e).
Proof. unfold set_qr. keeps_tac. Qed.
Hint Resolve keeps_channel_for_company keeps_channel_status keeps_set_channel_status
  keeps_set_qr : keeps.
Lemma keeps_rotate_qr id st : keeps (rotate_qr id st).
Proof. unfold rotate_qr. keeps_tac. Qed.
Lemma keeps_qr id : keeps (qr id).
Proof.
  unfold qr. keeps_tac. eapply same_log_wf; [|eassumption].
  repeat case_match; by repeat split.
Qed.
Hint Resolve keeps_qr : keeps.
Lemma keeps_qr_for_company p c id : keeps (qr_for_company p c id).
Proof. unfold qr_for_company. keeps_tac. Qed.
Lemma keeps_disconnect id : keeps (disconnect_channel id).
Proof. unfold disconnect_channel. keeps_tac. Qed.
Hint Resolve keeps_disconnect : keeps.
Lemma keeps_disconnect_for_company p c id : keeps (disconnect_channel_for_company p c id).
Proof. unfold disconnect_channel_for_company. keeps_tac. Qed.
Lemma keeps_reset_session p c id path : keeps (reset_session_if_needed p c id path).
Proof.
  unfold reset_session_if_needed, wipe_session_files. apply keeps_bind; [keeps_tac|]. intros st.
  apply keeps_bind; [|keeps_tac].
  apply keeps_state_fn. intros s. by destruct (take_needs_session_reset _ _).
Qed.
Lemma keeps_start_connection o r : keeps (start_connection o r).
Proof.
  unfold start_connection. do 4 (apply keeps_bind; [keeps_tac|intros ?]).
  apply keeps_bind; [|keeps_tac].
  apply keeps_state_fn. intros s. by destruct (start_channel _ _ _).
Qed.
Hint Resolve keeps_reset_session keeps_start_connection : keeps.
Lemma keeps_connect o p c id : keeps (connect_channel o p c id).
Proof. unfold connect_channel, get_config. keeps_tac. Qed.

(** The byte store *)
Lemma keeps_bytes_put io k v : keeps (bytes_put io k v).
Proof. apply keeps_state_fn. intros s. unfold bytes_put. by repeat case_match. Qed.
Lemma keeps_bytes_get io k : keeps (bytes_get io k).
Proof. apply keeps_state_fn. intros s. unfold bytes_get. by repeat case_match. Qed.
Lemma keeps_bytes_delete io k : keeps (bytes_delete io k).
Proof. apply keeps_state_fn. intros s. unfold bytes_delete. by repeat case_match. Qed.
Hint Resolve keeps_bytes_put keeps_bytes_get keeps_bytes_delete : keeps.

(** Transcripts *)
Ltac filed_step :=
  lazymatch goal with
  | |- keeps_at _ (bind (transcript_with_lifecycle _ _ _ _ _ _) _) => apply keeps_at_of
  | |- keeps (bind (transcript_with_lifecycle _ _ _ _ _ _) _) =>
    apply keeps_put_transcript; [apply draws_lifecycle|intros ?]
  | |- keeps (modify_inner (put_media (media_id _) _)) => apply keeps_put_media
  | |- keeps_at _ (bind (modify_inner (put_media _ _)) _) => apply keeps_at_of
  | |- keeps (bind (modify_inner (put_media _ _)) _) => apply keeps_bind; [|intros ?]
  | |- _ => keeps_step
  end.
Ltac filed_tac := repeat filed_step.
Lemma keeps_lifecycle p c m id l t : keeps (transcript_with_lifecycle p c m id l t).
Proof. unfold transcript_with_lifecycle. keeps_tac. Qed.
Hint Resolve keeps_lifecycle : keeps.
Lemma keeps_create_transcript p c m : keeps (create_transcript p c m).
Proof.
  unfold create_transcript. apply keeps_put_transcript; [apply draws_mock|]. keeps_tac.
Qed.
Lemma keeps_requested m id t : keeps (transcription_requested m id t).
Proof. unfold transcription_requested. keeps_tac. Qed.
Hint Resolve keeps_requested : keeps.
Lemma keeps_request_transcript p c m : keeps (request_transcript p c m).
Proof.
  unfold request_transcript. filed_tac.
Qed.
Lemma keeps_set_lifecycle m md l t : keeps (set_transcript_lifecycle m md l t).
Proof.
  unfold set_transcript_lifecycle.
  apply (keeps_new_transcript _ _ (λ i, transcript_to_store i m)); [apply draws_lifecycle| |].
  - intros i x. apply stored_transcript_filed.
  - keeps_tac.
Qed.
Lemma keeps_set_completed m md r : keeps (set_completed_groq_transcript m md r).
Proof.
  unfold set_completed_groq_transcript.
  apply (keeps_new_transcript _ _ (λ i, transcript_to_store i m)
           (λ i t, _)); [apply draws_groq| |].
  - intros i x. apply stored_transcript_filed.
  - keeps_tac.
Qed.
Lemma keeps_media_blob_blocks io id : all_keep (media_blob_blocks io id).
Proof. unfold media_blob_blocks. keeps_tac. Qed.
Hint Resolve keeps_set_lifecycle keeps_set_completed keeps_media_blob_blocks : keeps.
Lemma keeps_media_blob io id : keeps (media_blob io id).
Proof. unfold media_blob. keeps_tac. Qed.
Hint Resolve keeps_media_blob : keeps.
Lemma keeps_transcribe io respond m md id : keeps (transcribe_media io respond m md id).
Proof. unfold transcribe_media, get_config. keeps_tac. Qed.
Hint Resolve keeps_transcribe : keeps.
Lemma keeps_process_transcription io respond e :
  keeps (process_transcription_request io respond e).
Proof. unfold process_transcription_request, get_config. keeps_tac. Qed.
Hint Resolve keeps_process_transcription : keeps.

(** Media and retention *)
Lemma media_for_company_lookup i p c id m :
  media_for_company i p c id = Ok m → st_media i !! id = Some m.
Proof.
  unfold media_for_company. destruct (st_media i !! id) as [x|]; [|done]. simpl.
  by destruct (media_of_tenant x p c); intros [= <-].
Qed.
Lemma retain_media_wf n i p : log_wf n i → log_wf n (i <| st_media ::= retain p |>).
Proof.
  intros [HL [F1 F2 [R1 R2 R3]]]. split; [by destruct HL|]. constructor; [done..|].
  constructor; [|done..]. intros id m [Hm _]%lookup_retain_Some. by apply R1.
Qed.
Lemma retain_transcripts_wf n i p :
  log_wf n i → log_wf n (i <| st_transcripts ::= retain p |>).
Proof.
  intros [HL [F1 F2 [R1 R2 R3]]]. split; [by destruct HL|]. constructor; [done..|].
  constructor; [done|..]; simpl.
  - intros id t [Ht _]%lookup_retain_Some. by apply R2.
  - intros id id' t t' [Ht _]%lookup_retain_Some [Ht' _]%lookup_retain_Some. by apply R3.
Qed.
Lemma map_transcripts_wf n i f :
  (∀ t, tr_message_id (f t) = tr_message_id t ∧ tr_id (f t) = tr_id t) →
  log_wf n i → log_wf n (i <| st_transcripts ::= fmap (M:=gmap string) f |>).
Proof.
  intros Hf [HL [F1 F2 [R1 R2 R3]]]. split; [by destruct HL|]. constructor; [done..|].
  constructor; [done|..]; simpl.
  - intros id t. rewrite lookup_fmap. intros (x & Hx & ->)%fmap_Some.
    destruct (Hf x) as [-> ->]. by apply R2.
  - intros id id' t t'. rewrite !lookup_fmap.
    intros (x & Hx & ->)%fmap_Some (x' & Hx' & ->)%fmap_Some.
    destruct (Hf x) as [_ ->], (Hf x') as [_ ->]. by apply R3.
Qed.
Lemma keeps_save_media id t e k : keeps (save_media_with_permanent_object_key id t e k).
Proof.
  unfold save_media_with_permanent_object_key, get_config. keeps_tac.
  eapply put_media_again_wf; [eassumption| |eassumption]. unfold saved_media. by case_decide.
Qed.
Hint Resolve keeps_save_media : keeps.
Lemma keeps_save_media_company p c id t e : keeps (save_media_for_company p c id t e).
Proof. unfold save_media_for_company. keeps_tac. Qed.
Lemma keeps_save_media_key_company p c id t e k :
  keeps (save_media_with_permanent_object_key_for_company p c id t e k).
Proof. unfold save_media_with_permanent_object_key_for_company. keeps_tac. Qed.
Lemma keeps_delete_media p c id : keeps (delete_media_for_company p c id).
Proof.
  unfold delete_media_for_company, bindR. keeps_tac.
  eapply put_media_again_wf; [by eapply media_for_company_lookup|done|done].
Qed.
Lemma keeps_delete_bytes io m : all_keep (delete_media_object_bytes_blocks io m).
Proof. unfold delete_media_object_bytes_blocks. keeps_tac. Qed.
Hint Resolve keeps_delete_bytes : keeps.
Lemma keeps_delete_bytes_of io l : all_keep (delete_bytes_blocks io l).
Proof. induction l as [|m l IH]; simpl; keeps_tac. Qed.
Hint Resolve keeps_delete_bytes_of : keeps.
Lemma keeps_cleanup_blocks io : all_keep (cleanup_expired_temp_media_blocks io).
Proof. unfold cleanup_expired_temp_media_blocks. keeps_tac. by apply retain_media_wf. Qed.
Hint Resolve keeps_cleanup_blocks : keeps.
Lemma keeps_cleanup io : keeps (cleanup_expired_temp_media io).
Proof. unfold cleanup_expired_temp_media. keeps_tac. Qed.
Hint Resolve keeps_cleanup : keeps.

Lemma remove_expired_wf n i messages media :
  log_wf n i → log_wf n (remove_expired messages media i).
Proof.
  intros Hwf. pose proof (drop_messages_wf n i Hwf messages) as H1.
  apply (retain_transcripts_wf _ _ (λ id _, negb (bool_decide (id ∈ messages)))) in H1.
  by apply (retain_media_wf _ _ (λ id _, negb (bool_decide (id ∈ media)))) in H1.
Qed.
Lemma keeps_expire_transcripts p c t : keeps (expire_transcripts p c t).
Proof.
  unfold expire_transcripts. keeps_tac.
  by apply (retain_transcripts_wf _ _ (λ _ x, negb (expired_transcript p c _ x))).
Qed.
Lemma keeps_redact p c t : keeps (redact_transcripts p c t).
Proof.
  unfold redact_transcripts. keeps_tac. apply map_transcripts_wf; [|done].
  intros x. by case_match.
Qed.
Hint Resolve keeps_expire_transcripts keeps_redact : keeps.
Lemma keeps_company_retention io p c pol t : all_keep (apply_company_retention_blocks io p c pol t).
Proof. unfold apply_company_retention_blocks. keeps_tac. by apply remove_expired_wf. Qed.
Hint Resolve keeps_company_retention : keeps.
Lemma keeps_retain_company io t e : all_keep (retain_company io t e).
Proof. destruct e as [[p c] v]. unfold retain_company. keeps_tac. Qed.
Hint Resolve keeps_retain_company : keeps.
Lemma keeps_retain_companies io t l sm : all_keep (retain_companies io t l sm).
Proof. revert sm. induction l as [|e l IH]; intros sm; simpl; keeps_tac. Qed.
Hint Resolve keeps_retain_companies : keeps.
Lemma keeps_retention_blocks io : all_keep (apply_retention_blocks io).
Proof. unfold apply_retention_blocks. keeps_tac. Qed.
Hint Resolve keeps_retention_blocks : keeps.
Lemma keeps_retention io : keeps (apply_retention_once io).
Proof. unfold apply_retention_once. keeps_tac. Qed.

(** Dirty conversations *)
Lemma keeps_lease_all t l : keeps (lease_all t l).
Proof. induction l as [|e l IH]; simpl; unfold lease_one; keeps_tac. Qed.
Hint Resolve keeps_lease_all : keeps.
Lemma record_leases_log p c k l i : same_log (foldl (record_lease p c k) i l) i.
Proof.
  revert i. induction l as [|[[[a b] d] e] l IH]; intros i; [apply same_log_refl|]. simpl.
  eapply same_log_trans; [apply IH|]. by repeat split.
Qed.
Lemma keeps_list_dirty p c k n : keeps (list_dirty p c k n).
Proof.
  unfold list_dirty. keeps_tac. eapply same_log_wf; [apply record_leases_log|done].
Qed.
Lemma keeps_ack p c id r : keeps (ack_dirty p c id r).
Proof. unfold ack_dirty. keeps_tac. Qed.

(** Callbacks *)
Lemma keeps_callback_secret `{Crypto} cfg nonce body e : keeps (callback_secret cfg nonce body e).
Proof. unfold callback_secret. keeps_tac. Qed.
Hint Resolve keeps_callback_secret : keeps.
Lemma keeps_upsert_callback `{Crypto} parse nonce p c id body :
  keeps (upsert_callback parse nonce p c id body).
Proof. unfold upsert_callback, get_config. keeps_tac. Qed.
Lemma keeps_delete_callback p c id : keeps (delete_callback p c id).
Proof. unfold delete_callback. keeps_tac. Qed.
Lemma keeps_upgrade `{Crypto} nonce : keeps (upgrade_legacy_callback_secrets nonce).
Proof. unfold upgrade_legacy_callback_secrets, get_config. keeps_tac. Qed.
Lemma keeps_record_attempt id e a b h er f nx : keeps (record_webhook_attempt id e a b h er f nx).
Proof. unfold record_webhook_attempt. keeps_tac. Qed.
Lemma keeps_next_retry a b c : keeps (next_webhook_retry_at a b c).
Proof. unfold next_webhook_retry_at. keeps_tac. Qed.
Hint Resolve keeps_record_attempt keeps_next_retry : keeps.
Lemma keeps_deliver_job `{Crypto} http job : keeps (deliver_webhook_job http job).
Proof. unfold deliver_webhook_job, get_config. keeps_tac. Qed.
Hint Resolve keeps_deliver_job : keeps.
Lemma keeps_deliver_jobs `{Crypto} http jobs n : keeps (deliver_jobs http jobs n).
Proof. revert n. induction jobs as [|j jobs IH]; intros n; simpl; keeps_tac. Qed.
Hint Resolve keeps_deliver_jobs : keeps.
Lemma keeps_deliver `{Crypto} http : keeps (deliver_pending_webhooks_once http).
Proof. unfold deliver_pending_webhooks_once, get_config. keeps_tac. Qed.

(** Sending *)
Lemma keeps_attach_request m md : keeps (attach_request_media m md).
Proof. unfold attach_request_media. keeps_tac. by eapply put_media_again_wf. Qed.
Hint Resolve keeps_attach_request : keeps.
Lemma keeps_queue k h a md : keeps (queue_message k h a md).
Proof. unfold queue_message. keeps_tac. Qed.
Hint Resolve keeps_queue : keeps.
Lemma keeps_prepare p c cv k r a : keeps (prepare_send_message_with_actor p c cv k r a).
Proof. unfold prepare_send_message_with_actor. keeps_tac. Qed.
Lemma keeps_mark_disconnected id : all_keep (mark_channel_disconnected_blocks id).
Proof. unfold mark_channel_disconnected_blocks. keeps_tac. Qed.
Lemma keeps_dispatch_failed m e : all_keep (dispatch_failed m e).
Proof. unfold dispatch_failed. keeps_tac. Qed.
Hint Resolve keeps_mark_disconnected keeps_dispatch_failed : keeps.
Lemma keeps_send_answer id m a : all_keep (record_send_answer id m a).
Proof. unfold record_send_answer. keeps_tac. Qed.
Hint Resolve keeps_send_answer : keeps.
Lemma keeps_dispatch_blocks io sm st o t : all_keep (dispatch_blocks io sm st o t).
Proof. unfold dispatch_blocks. keeps_tac. Qed.
Hint Resolve keeps_dispatch_blocks : keeps.
Lemma keeps_dispatch io sm st o t : keeps (dispatch_prepared_message io sm st o t).
Proof. unfold dispatch_prepared_message. keeps_tac. Qed.
Hint Resolve keeps_dispatch : keeps.
Lemma keeps_process_outbound io sm st e : keeps (process_outbound_send_request io sm st e).
Proof. unfold process_outbound_send_request. keeps_tac. Qed.
Hint Resolve keeps_process_outbound : keeps.
Lemma keeps_store_inbound `{Crypto} io md m : keeps (store_inbound_bytes io md m).
Proof. unfold store_inbound_bytes. keeps_tac. Qed.
Lemma keeps_finish_inbound md m : keeps (finish_inbound_media md m).
Proof. unfold finish_inbound_media. filed_tac. Qed.
Hint Resolve keeps_store_inbound keeps_finish_inbound : keeps.
Lemma keeps_receive_media `{Crypto} io p c r : keeps (try_receive_inbound_media io p c r).
Proof. unfold try_receive_inbound_media, get_config. keeps_tac. Qed.
Lemma keeps_claim e : keeps (claim_internal_event e).
Proof.
  intros b s [Hu Hp Hs]. constructor; [done..|]. intros Hb. destruct (Hs Hb) as [Hl Hw].
  split; [|done]. eapply same_log_wf, Hl. by repeat split.
Qed.
Hint Resolve keeps_claim : keeps.
Lemma keeps_work io sm st rs e : keeps (process_internal_work_event io sm st rs e).
Proof. unfold process_internal_work_event, handle_internal_work_event. keeps_tac. Qed.

(** Privacy *)
Lemma anonymize_wf n i now p c id contact del :
  log_wf n i → log_wf n (anonymize_inner now p c id contact del i).
Proof.
  intros Hwf. unfold anonymize_inner.
  set (f := anonymous_message _ _ _ _ _ _). set (g := anonymous_conversation _ _ _ _ _).
  assert (Hf : keeps_key f).
  { intros m. unfold f, anonymous_message. destruct (_ && _); [|done]. by destruct del. }
  assert (Hg : ∀ d, conv_id (g d) = conv_id d ∧ conv_last_seq (g d) = conv_last_seq d).
  { intros d. unfold g, anonymous_conversation. by case_match. }
  destruct (map_log_wf n i Hwf f Hf) as [[L1 L2 L3 L4 L5] [F1 F2 [R1 R2 R3]]].
  split; constructor; simpl in *; try done.
  - intros cid ms m Hms Hm. destruct (L4 cid ms m Hms Hm) as (d & Hd & ?).
    exists (g d). rewrite lookup_fmap, Hd. destruct (Hg d) as [_ ->]. done.
  - intros cid d. rewrite lookup_fmap. intros (d0 & Hd & ->)%fmap_Some.
    destruct (Hg d0) as [-> ->]. by apply L5.
  - intros cid d. rewrite lookup_fmap. intros (d0 & Hd & ->)%fmap_Some.
    destruct (Hg d0) as [_ ->]. by eapply F2.
Qed.
Lemma keeps_anonymize p c id del : keeps (anonymize_contact p c id del).
Proof. unfold anonymize_contact. keeps_tac. by apply anonymize_wf. Qed.

Lemma keeps_reset : keeps reset_dev.
Proof.
  intros b s [Hbu Hbs Hs]. constructor; [done..|]. intros Hb. destruct (Hs Hb) as [_ [Hw Hp]]. split; [apply empty_log_wf|]. split; [exact Hw|].
  intros p. simpl. case_decide; [done|apply Hp].
Qed.

(** Uploads *)
Lemma keeps_bytes_copy io a b : keeps (bytes_copy io a b).
Proof. unfold bytes_copy, get_config. keeps_tac. Qed.
Lemma keeps_ready_check io w : keeps (ready_check io w).
Proof. unfold ready_check, get_config. keeps_tac. Qed.
Hint Resolve keeps_bytes_copy keeps_ready_check : keeps.
Lemma keeps_remove_staging sg path : keeps (remove_staging sg path).
Proof. apply keeps_state_fn. intros s. unfold modify. simpl. by case_match. Qed.
Lemma keeps_put_staging path b : keeps (put_staging path b).
Proof. by apply keeps_state_fn. Qed.
Hint Resolve keeps_remove_staging keeps_put_staging : keeps.
Lemma keeps_stage sg id b : keeps (stage_media_bytes sg id b).
Proof. unfold stage_media_bytes, get_config. keeps_tac. Qed.
Hint Resolve keeps_stage : keeps.
Lemma keeps_cleanup_staging sg : keeps (cleanup_staging_files sg).
Proof. unfold cleanup_staging_files, get_config. keeps_tac. Qed.
Lemma keeps_upload_prepare sg p c u : keeps (upload_prepare sg p c u).
Proof. unfold upload_prepare, get_config. keeps_tac. Qed.
Lemma keeps_upload_put io sg u plan : keeps (upload_put io sg u plan).
Proof. unfold upload_put. keeps_tac. Qed.
Lemma keeps_upload_commit sg p c plan : keeps (upload_commit sg p c plan).
Proof. unfold upload_commit. filed_tac. Qed.
Lemma keeps_upload_turn k h : keeps (upload_turn k h).
Proof. unfold upload_turn. keeps_tac. Qed.
Lemma keeps_record_upload k h r : keeps (record_upload k h r).
Proof. unfold record_upload. keeps_tac. Qed.
Lemma keeps_drop_guard k h : keeps (drop_guard k h).
Proof.
  unfold drop_guard. keeps_tac. case_decide; [|done]. eapply same_log_wf; [|eassumption].
  by repeat split.
Qed.
Hint Resolve keeps_upload_prepare keeps_upload_put keeps_upload_commit keeps_upload_turn
  keeps_record_upload keeps_drop_guard : keeps.
Lemma keeps_advance io sg req ph : keeps (advance io sg req ph).
Proof. unfold advance. keeps_tac. Qed.
Lemma keeps_cancel req ph : keeps (cancel req ph).
Proof. unfold cancel. keeps_tac. Qed.
Lemma keeps_upload_direct io sg p c u : keeps (upload_outbound_media io sg p c u).
Proof. unfold upload_outbound_media. keeps_tac. Qed.
Lemma keeps_copy_bytes io a b t : keeps (copy_media_bytes io a b t).
Proof. unfold copy_media_bytes. keeps_tac. Qed.
Lemma keeps_delete_media_bytes io k : keeps (delete_media_bytes io k).
Proof. unfold delete_media_bytes. keeps_tac. Qed.

(** Media of received messages *)
Lemma keeps_record_inbound input : keeps (record_inbound_media_object input).
Proof. unfold record_inbound_media_object, emit_inbound, get_config. filed_tac. Qed.
Hint Resolve keeps_record_inbound : keeps.
Lemma keeps_storage_failed r m cv id code e :
  keeps (record_media_storage_failed_event r m cv id code e).
Proof. unfold record_media_storage_failed_event, emit_inbound. keeps_tac. Qed.
Hint Resolve keeps_storage_failed : keeps.
Lemma keeps_store_downloaded io sg r m cv d b :
  keeps (store_downloaded_inbound_media io sg r m cv d b).
Proof. unfold store_downloaded_inbound_media, get_config. keeps_tac. Qed.
Hint Resolve keeps_store_downloaded : keeps.
Lemma keeps_download `{Crypto} io sg dl r m cv d :
  keeps (download_and_store_inbound_media io sg dl r m cv d).
Proof. unfold download_and_store_inbound_media, get_config. keeps_tac. Qed.
Hint Resolve keeps_download : keeps.
Lemma keeps_store_picture io p c ch t e b :
  keeps (store_profile_picture_media_bytes io p c ch t e b).
Proof.
  unfold store_profile_picture_media_bytes, get_config. keeps_tac. by apply put_media_wf.
Qed.
Hint Resolve keeps_store_picture : keeps.
Lemma keeps_attach_picture_id io parse get p c ch t e tg u :
  keeps (attach_profile_picture_media_id io parse get p c ch t e tg u).
Proof. unfold attach_profile_picture_media_id. keeps_tac. Qed.
Hint Resolve keeps_attach_picture_id : keeps.

(** The events of a WhatsApp channel *)
Lemma keeps_attach_picture o r t e tg u : keeps (attach_picture o r t e tg u).
Proof. unfold attach_picture. keeps_tac. Qed.
Hint Resolve keeps_attach_picture keeps_connect keeps_set_channel_status keeps_set_qr : keeps.
Lemma keeps_enrich_contact o r cv id a n : keeps (enrich_contact o r cv id a n).
Proof. unfold enrich_contact. keeps_tac. Qed.
Lemma keeps_enrich_group o r g : keeps (enrich_group o r g).
Proof. unfold enrich_group. keeps_tac. Qed.
Hint Resolve keeps_enrich_contact keeps_enrich_group : keeps.
Lemma keeps_run_task o t : keeps (run_task o t).
Proof. unfold run_task, wipe_session_files. keeps_tac. Qed.
Lemma keeps_channel_event r t cv v : keeps (channel_event r t cv v).
Proof. unfold channel_event. keeps_tac. Qed.
Lemma keeps_message_event r t cv m v : keeps (message_event r t cv m v).
Proof. unfold message_event. keeps_tac. Qed.
Hint Resolve keeps_channel_event keeps_message_event : keeps.
Lemma keeps_spawn_contact r cv id a n : keeps (spawn_contact_enrichment r cv id a n).
Proof. unfold spawn_contact_enrichment. keeps_tac. Qed.
Lemma keeps_spawn_group r g f : keeps (spawn_group_enrichment r g f).
Proof. unfold spawn_group_enrichment. keeps_tac. Qed.
Hint Resolve keeps_spawn_contact keeps_spawn_group : keeps.
Lemma keeps_fetch_media `{Crypto} o r cj m d v : keeps (fetch_media o r cj m d v).
Proof. unfold fetch_media. keeps_tac. Qed.
Hint Resolve keeps_fetch_media : keeps.
Lemma keeps_on_message `{Crypto} o r id cj sj sa rj ra n t ty md at_ me :
  keeps (on_message o r id cj sj sa rj ra n t ty md at_ me).
Proof. unfold on_message, updates_ignored. keeps_tac. Qed.
Lemma keeps_on_receipt r ids t cj at_ : keeps (on_receipt r ids t cj at_).
Proof. unfold on_receipt, updates_ignored. keeps_tac. Qed.
Lemma keeps_on_group_update r g sub at_ : keeps (on_group_update r g sub at_).
Proof. unfold on_group_update, updates_ignored. keeps_tac. Qed.
Lemma keeps_on_diagnostic r t v : keeps (on_diagnostic r t v).
Proof.
  unfold on_diagnostic, on_connect_failure. keeps_tac.
  apply keeps_state_fn. intros s. by destruct (next_reconnect_delay_secs _ _).
Qed.
Hint Resolve keeps_on_message keeps_on_receipt keeps_on_group_update keeps_on_diagnostic : keeps.
Lemma keeps_process_event `{Crypto} o r e : keeps (process_whatsapp_event o r e).
Proof.
  unfold process_whatsapp_event, on_qr_code, on_connected, on_disconnected, on_logged_out.
  keeps_tac.
Qed.
Hint Resolve keeps_process_event : keeps.
Lemma keeps_handle_event `{Crypto} `{RawCodec} o db r e : keeps (handle_whatsapp_event o db r e).
Proof. unfold handle_whatsapp_event, enqueue_whatsapp_raw_event, get_config. keeps_tac. Qed.
Lemma keeps_raw_event `{Crypto} `{RawCodec} o e : keeps (process_whatsapp_raw_event o e).
Proof. unfold process_whatsapp_raw_event. keeps_tac. Qed.
End keeps_more.
#[export] Hint Resolve
  keeps_enforce keeps_upsert_project keeps_upsert_company keeps_store_api_key keeps_audit
  keeps_create_channel keeps_reconcile keeps_channel keeps_channel_for_company
  keeps_channel_status keeps_set_channel_status keeps_set_qr keeps_rotate_qr keeps_qr
  keeps_qr_for_company keeps_disconnect keeps_disconnect_for_company keeps_reset_session
  keeps_start_connection keeps_connect keeps_bytes_put keeps_bytes_get keeps_bytes_delete
  keeps_lifecycle keeps_create_transcript keeps_requested keeps_request_transcript
  keeps_set_lifecycle keeps_set_completed keeps_media_blob_blocks keeps_media_blob keeps_transcribe
  keeps_process_transcription keeps_save_media keeps_save_media_company
  keeps_save_media_key_company keeps_delete_media keeps_delete_bytes keeps_delete_bytes_of
  keeps_cleanup_blocks keeps_cleanup keeps_expire_transcripts keeps_redact keeps_company_retention
  keeps_retain_company keeps_retain_companies keeps_retention_blocks keeps_retention keeps_lease_all keeps_list_dirty
  keeps_ack keeps_upsert_callback keeps_delete_callback keeps_upgrade keeps_record_attempt
  keeps_next_retry keeps_deliver_job keeps_deliver_jobs keeps_deliver keeps_attach_request
  keeps_queue keeps_prepare keeps_mark_disconnected keeps_dispatch_failed keeps_send_answer
  keeps_dispatch_blocks keeps_dispatch
  keeps_process_outbound keeps_store_inbound keeps_finish_inbound keeps_receive_media
  keeps_claim keeps_work keeps_anonymize keeps_reset keeps_bytes_copy keeps_ready_check
  keeps_remove_staging keeps_put_staging keeps_stage keeps_cleanup_staging keeps_upload_prepare
  keeps_upload_put keeps_upload_commit keeps_upload_turn keeps_record_upload keeps_drop_guard
  keeps_advance keeps_cancel keeps_upload_direct keeps_copy_bytes keeps_delete_media_bytes
  keeps_record_inbound keeps_storage_failed keeps_store_downloaded keeps_download
  keeps_store_picture keeps_attach_picture_id keeps_attach_picture keeps_enrich_contact
  keeps_enrich_group keeps_run_task keeps_channel_event keeps_message_event keeps_spawn_contact
  keeps_spawn_group keeps_fetch_media keeps_on_message keeps_on_receipt keeps_on_group_update
  keeps_on_diagnostic keeps_process_event keeps_handle_event keeps_raw_event : keeps.
