(* ===== verification/Wire.v ===== *)
(** * The documents of the REST contract (src/models.rs)

    The JSON of the records the handlers answer with, as their derived
    [Serialize] implementations write them, and the bodies and paths of
    requests. *)
From S2P Require Import Prelude Text Json Env Models Records Contacts WhatsappClient Privacy.
From S2P Require Import EventBus Codec.

(** [#[serde(skip_serializing_if = "Option::is_none")]] *)
Definition present {A} `{ToJson A} (key : string) (value : option A) : list (string * Value) :=
  match value with Some value => [(key, json value)] | None => [] end.

Section wire.
Context `{Env}.

#[export] Instance json_Conversation : ToJson Conversation := λ c,
  obj_of ([
    "id" ~> conv_id c;
    "project_id" ~> conv_project_id c;
    "company_id" ~> conv_company_id c;
    "channel_account_id" ~> conv_channel_account_id c;
    "type" ~> conv_conversation_type c;
    "contact_id" ~> conv_contact_id c;
    "group_id" ~> conv_group_id c;
    "display_name" ~> conv_display_name c;
    "display_phone" ~> conv_display_phone c;
    "avatar_url" ~> conv_avatar_url c;
    "profile_picture_url" ~> conv_profile_picture_url c;
    "last_seq" ~> conv_last_seq c;
    "last_message_at" ~> (ts <$> conv_last_message_at c);
    "unread_count" ~> conv_unread_count c;
    "is_archived" ~> conv_is_archived c;
    "is_muted" ~> conv_is_muted c;
    "is_pinned" ~> conv_is_pinned c;
    "control_mode" ~> conv_control_mode c;
    "created_at" ~> ts (conv_created_at c);
    "updated_at" ~> ts (conv_updated_at c)]%json
    ++ present "phone_number" (conv_phone_number c)
    ++ present "profile_picture_media_id" (conv_profile_picture_media_id c)).

#[export] Instance json_MediaObject : ToJson MediaObject := λ m,
  obj_of ([
    "id" ~> media_id m;
    "project_id" ~> media_project_id m;
    "company_id" ~> media_company_id m;
    "conversation_id" ~> media_conversation_id m;
    "message_id" ~> media_message_id m;
    "media_type" ~> media_media_type m;
    "mime_type" ~> media_mime_type m;
    "original_filename" ~> media_original_filename m;
    "size_bytes" ~> media_size_bytes m;
    "sha256" ~> media_sha256 m;
    "storage_status" ~> media_storage_status m;
    "bucket" ~> media_bucket m;
    "object_key" ~> media_object_key m;
    "permanent_object_key" ~> media_permanent_object_key m;
    "public_url" ~> media_public_url m;
    "thumbnail_url" ~> media_thumbnail_url m;
    "expires_at" ~> (ts <$> media_expires_at m);
    "saved_at" ~> (ts <$> media_saved_at m);
    "created_at" ~> ts (media_created_at m);
    "updated_at" ~> ts (media_updated_at m)]%json
    ++ present "width" (media_width m)
    ++ present "height" (media_height m)
    ++ present "duration_seconds" (media_duration_seconds m)).

#[export] Instance json_Transcript : ToJson Transcript := λ t, json! {
  "id" ~> tr_id t,
  "project_id" ~> tr_project_id t,
  "company_id" ~> tr_company_id t,
  "message_id" ~> tr_message_id t,
  "media_id" ~> tr_media_id t,
  "provider" ~> tr_provider t,
  "model" ~> tr_model t,
  "language" ~> tr_language t,
  "text" ~> tr_text t,
  "raw_response_json" ~> tr_raw_response_json t,
  "status" ~> tr_status t,
  "error_message" ~> tr_error_message t,
  "created_at" ~> ts (tr_created_at t),
  "updated_at" ~> ts (tr_updated_at t)
}.

#[export] Instance json_MessagesPage : ToJson MessagesPage := λ p, json! {
  "conversation_id" ~> page_conversation_id p,
  "from_seq" ~> page_from_seq p,
  "to_seq" ~> page_to_seq p,
  "has_more" ~> page_has_more p,
  "messages" ~> page_messages p
}.

#[export] Instance json_FeatureCapability : ToJson FeatureCapability := λ f,
  obj_of (("supported" ~> fc_supported f)%json
    :: present "reason" (fc_reason f)
    ++ present "requires_admin" (fc_requires_admin f)
    ++ present "guaranteed" (fc_guaranteed f)).
(** [CapabilitiesResponse]; the features are a [BTreeMap]. *)
Definition capabilities_value (provider : string) (features : gmap string FeatureCapability)
  : Value := json! {
  "provider" ~> provider,
  "features" ~> obj_of (prod_map id json <$> map_to_list features)
}.

#[export] Instance json_QrState : ToJson QrState := λ q, json! {
  "channel_id" ~> qr_channel_id q,
  "status" ~> qr_status q,
  "qr_code_text" ~> qr_qr_code_text q,
  "expires_at" ~> ts (qr_expires_at q)
}.

#[export] Instance json_DirtyConversationItem : ToJson DirtyConversationItem := λ d, json! {
  "conversation_id" ~> ditem_conversation_id d,
  "max_seq" ~> ditem_max_seq d,
  "reason" ~> ditem_reason d,
  "priority" ~> ditem_priority d,
  "available_at" ~> ts (ditem_available_at d),
  "lease_token" ~> ditem_lease_token d,
  "locked_until" ~> ts (ditem_locked_until d)
}.

#[export] Instance json_WebhookDeliveryAttempt : ToJson WebhookDeliveryAttempt := λ a, json! {
  "id" ~> att_id a,
  "project_id" ~> att_project_id a,
  "company_id" ~> att_company_id a,
  "callback_id" ~> att_callback_id a,
  "event_id" ~> att_event_id a,
  "attempt" ~> att_attempt a,
  "status" ~> att_status a,
  "http_status" ~> att_http_status a,
  "error_message" ~> att_error_message a,
  "first_failed_at" ~> (ts <$> att_first_failed_at a),
  "last_failed_at" ~> (ts <$> att_last_failed_at a),
  "next_retry_at" ~> (ts <$> att_next_retry_at a),
  "created_at" ~> ts (att_created_at a)
}.

#[export] Instance json_CommonEvent : ToJson CommonEvent := event_to_value.

(** The document of [privacy_export_contact]. *)
#[export] Instance json_PrivacyExport : ToJson PrivacyExport := λ x, json! {
  "contact" ~> contact_json (px_contact x),
  "conversations" ~> px_conversations x,
  "messages" ~> px_messages x,
  "media" ~> px_media x,
  "transcripts" ~> px_transcripts x
}.
End wire.

(** ** Request bodies *)
Record CompanyRequest : Type := mkCompanyRequest {
  creq_id : option string;
  creq_external_company_id : option string;
  creq_name : string
}.

Record ChannelAccountRequest : Type := mkChannelAccountRequest {
  chreq_id : option string;
  chreq_label : option string;
  chreq_phone_e164 : option string
}.

Record ReceiptRequest : Type := mkReceiptRequest {
  rreq_message_id : string;
  rreq_receipt_type : string
}.

Record SubscribeRequest : Type := mkSubscribeRequest {
  sub_kind : string;
  sub_project_id : string;
  sub_company_id : string;
  sub_topics : list string
}.
