(* ===== verification/TenantSpec.v ===== *)
(** * Tenant isolation

    What a company reads does not depend on what other companies store: two
    stores that agree on the rows of a company give it the same answers.
    [HashMap]s iterate in any order, so lists agree up to a permutation. *)
From S2P Require Import Prelude Text Json Errors Env Config Models Jid Records.
From S2P Require Import EventBus Whatsapp Store Contacts Groups Conversations Messages Channels.
From S2P Require Import MessageLog Demo Bytes Transcripts Privacy.

(** ** The order of strings *)
Lemma str_le_trans x y z : str_le x y = true → str_le y z = true → str_le x z = true.
Proof.
  unfold str_le, String.leb. revert y z. induction x as [|a x IH]; intros [|b y] [|d z]; simpl; try done.
  unfold Ascii.compare.
  destruct (N.compare_spec (N_of_ascii a) (N_of_ascii b)) as [E|E|E]; try done;
  destruct (N.compare_spec (N_of_ascii b) (N_of_ascii d)) as [F|F|F]; try done;
  destruct (N.compare_spec (N_of_ascii a) (N_of_ascii d)) as [G|G|G]; try done; try lia.
  apply IH.
Qed.

Lemma lid_first_total x y : lid_first x y = false → lid_first y x = true.
Proof.
  unfold lid_first. destruct (ends_with x "@lid"), (ends_with y "@lid"); try done;
    unfold str_le; destruct (String.leb_total x y) as [->| ->]; done.
Qed.
Lemma lid_first_trans x y z : lid_first x y = true → lid_first y z = true → lid_first x z = true.
Proof.
  unfold lid_first. destruct (ends_with x "@lid"), (ends_with y "@lid"), (ends_with z "@lid");
    try done; apply str_le_trans.
Qed.
Lemma lid_first_antisym x y : lid_first x y = true → lid_first y x = true → x = y.
Proof.
  unfold lid_first. destruct (ends_with x "@lid"), (ends_with y "@lid"); try done;
    apply String.leb_antisym.
Qed.

(** Sorting by a total order does not see the order of its input. *)
Lemma sort_by_unique {A} (le : A → A → bool) l k :
  (∀ x y, le x y = false → le y x = true) →
  (∀ x y z, le x y = true → le y z = true → le x z = true) →
  (∀ x y, le x y = true → le y x = true → x = y) →
  l ≡ₚ k → sort_by le l = sort_by le k.
Proof.
  intros Ht Htr Ha Hp.
  apply (StronglySorted_unique_strong (λ a b, le a b = true)).
  - intros x y _ _. apply Ha.
  - by apply sort_by_sorted.
  - by apply sort_by_sorted.
  - by rewrite !sort_by_perm.
Qed.

(** ** Rows of a tenant *)
Section rows.
Context `{HashOrder} {V : Type} (q : V → bool).
Implicit Types m : gmap string V.

Abbreviation rows m := (retain (λ _ v, q v) m).

Lemma retain_values m m' :
  rows m = rows m' → retain_list q (hm_values m) ≡ₚ retain_list q (hm_values m').
Proof.
  intros E. unfold hm_values. 
  assert (Hr : ∀ x : gmap string V, retain_list q (hm_iter x).*2 ≡ₚ (map_to_list (rows x)).*2).
  { intros x. rewrite hm_iter_perm.
    assert (Hl : ∀ l : list (string * V),
      retain_list q l.*2 = (retain_list (λ kv, q kv.2) l).*2).
    { intros l. induction l as [|[k v] l IH]; [done|]. cbn [fmap list_fmap snd].
      rewrite !retain_list_cons. cbn [snd]. destruct (q v); [|done]. cbn. by f_equal. }
    rewrite Hl. apply fmap_Permutation, NoDup_Permutation.
    - apply NoDup_filter, NoDup_map_to_list.
    - apply NoDup_map_to_list.
    - intros [k v]. rewrite elem_of_retain_list, !elem_of_map_to_list, lookup_retain_Some.
      done. }
  by rewrite !Hr, E.
Qed.

Lemma retain_lookup m m' k :
  rows m = rows m' → opt_filter q (m !! k) = opt_filter q (m' !! k).
Proof.
  intros E. assert (Hk : ∀ x : gmap string V, opt_filter q (x !! k) = rows x !! k).
  { intros x. destruct (rows x !! k) as [v|] eqn:Ev.
    - apply lookup_retain_Some in Ev as [-> Hv]. simpl. by rewrite Hv.
    - apply lookup_retain_None in Ev as [->|(v & -> & Hv)]; simpl; [done|]. by rewrite Hv. }
  by rewrite !Hk, E.
Qed.
End rows.

(** Two lists filtered by a tenant test and by another one. *)
Lemma retain_list_and {A} (q r r' : A → bool) l l' :
  retain_list q l ≡ₚ retain_list q l' → (∀ x, r x = r' x) →
  retain_list (λ x, q x && r x) l ≡ₚ retain_list (λ x, q x && r' x) l'.
Proof.
  intros Hp Hr.
  assert (Hf : ∀ (s : A → bool) k, retain_list (λ x, q x && s x) k = retain_list s (retain_list q k)).
  { intros s k. induction k as [|x k IH]; [done|]. rewrite !retain_list_cons.
    destruct (q x); cbn [andb]; [|done]. rewrite retain_list_cons. by destruct (s x); [f_equal|]. }
  assert (He : ∀ k, retain_list r k = retain_list r' k).
  { intros k. apply list_filter_iff. intros x. by rewrite Hr. }
  rewrite !Hf, He. by rewrite Hp.
Qed.

(** ** Stores that agree on a tenant *)
Section tenant.
Context `{Env} (p c : string).

Record same_tenant (i i' : StoreInner) : Prop := {
  same_conversations : retain (λ _ v, conversation_matches_tenant v p c) (st_conversations i)
                     = retain (λ _ v, conversation_matches_tenant v p c) (st_conversations i');
  same_contacts : retain (λ _ v, contact_of_tenant v p c) (st_contacts i)
                = retain (λ _ v, contact_of_tenant v p c) (st_contacts i');
  same_messages : retain (λ _ v, message_of_tenant v p c) (st_messages_by_id i)
                = retain (λ _ v, message_of_tenant v p c) (st_messages_by_id i');
  same_media : retain (λ _ v, media_of_tenant v p c) (st_media i)
             = retain (λ _ v, media_of_tenant v p c) (st_media i');
  same_transcripts : retain (λ _ v, transcript_of_tenant v p c) (st_transcripts i)
                   = retain (λ _ v, transcript_of_tenant v p c) (st_transcripts i')
}.

#[export] Instance same_tenant_equivalence : Equivalence same_tenant.
Proof.
  split.
  - done.
  - intros i i' []. by constructor.
  - intros i1 i2 i3 [] []. constructor; by etrans.
Qed.

#[export] Instance phone_proper : Proper (same_tenant ==> (=) ==> (=))
  (λ i, contact_id_for_phone_number_inner i p c).
Proof.
  intros i i' Hs phone ? <-. unfold contact_id_for_phone_number_inner. f_equal.
  apply sort_by_unique; [apply lid_first_total|apply lid_first_trans|apply lid_first_antisym|].
  apply fmap_Permutation, retain_list_and; [|done]. apply retain_values, same_contacts, Hs.
Qed.

#[export] Instance tenant_contact_proper : Proper (same_tenant ==> (=) ==> (=))
  (λ i, tenant_contact i p c).
Proof. intros i i' Hs id ? <-. apply (retain_lookup (λ v, contact_of_tenant v p c)), same_contacts, Hs. Qed.

#[export] Instance resolve_contact_proper : Proper (same_tenant ==> (=) ==> (=))
  (λ i, resolve_contact_id_inner i p c).
Proof.
  intros i i' Hs id ? <-. unfold resolve_contact_id_inner. cbv zeta.
  assert (Hi : ∀ x, is_some_and (st_contacts i !! x) (λ v, contact_of_tenant v p c)
            = is_some_and (st_contacts i' !! x) (λ v, contact_of_tenant v p c)).
  { intros x. pose proof (tenant_contact_proper i i' Hs x x eq_refl) as E.
    unfold tenant_contact in E.
    destruct (st_contacts i !! x) as [a|], (st_contacts i' !! x) as [b|]; simpl in *; try done.
    - by destruct (contact_of_tenant a p c), (contact_of_tenant b p c).
    - by destruct (contact_of_tenant a p c).
    - by destruct (contact_of_tenant b p c). }
  rewrite Hi. destruct (phone_of_reference (trim id)) as [phone|]; simpl; [|done].
  by rewrite (phone_proper i i' Hs phone phone eq_refl).
Qed.

(** The answers of two stores to the same export request. *)
Definition same_export (r r' : result PrivacyExport ApiError) : Prop :=
  match r, r' with
  | Ok x, Ok y => px_contact x = px_contact y ∧ px_conversations x ≡ₚ px_conversations y
      ∧ px_messages x ≡ₚ px_messages y ∧ px_media x ≡ₚ px_media y
      ∧ px_transcripts x ≡ₚ px_transcripts y
  | Err e, Err e' => e = e'
  | _, _ => False
  end.

(** C35. The privacy export of a company depends only on the rows of that
    company: two stores that agree on them export the same data. *)
Theorem privacy_export_isolated i i' id :
  same_tenant i i' →
  same_export (privacy_export_contact i p c id) (privacy_export_contact i' p c id).
Proof.
  intros Hs. unfold privacy_export_contact. cbv zeta.
  rewrite (resolve_contact_proper i i' Hs id id eq_refl).
  set (id' := resolve_contact_id_inner i' p c id).
  rewrite (tenant_contact_proper i i' Hs id' id' eq_refl).
  destruct (tenant_contact i' p c id') as [contact|]; simpl; [|done]. split; [done|].
  set (aliases := contact_aliases_for_record contact).
  set (cs := retain_list (export_conversation p c aliases) (hm_values (st_conversations i))).
  set (cs' := retain_list (export_conversation p c aliases) (hm_values (st_conversations i'))).
  assert (Hc : cs ≡ₚ cs')
    by (apply retain_list_and; [|done]; apply retain_values, same_conversations, Hs).
  set (ms := retain_list _ (hm_values (st_messages_by_id i))).
  set (ms' := retain_list _ (hm_values (st_messages_by_id i'))).
  assert (Hm : ms ≡ₚ ms').
  { apply retain_list_and; [apply retain_values, same_messages, Hs|]. intros x. f_equal.
    apply bool_decide_ext. by rewrite Hc. }
  split; [done|]. split; [done|]. split; apply retain_list_and.
  - apply retain_values, same_media, Hs.
  - intros x. f_equal; [apply bool_decide_ext; by rewrite Hc|].
    unfold opt_alias. destruct (media_message_id x); simpl; [|done].
    apply bool_decide_ext. by rewrite Hm.
  - apply retain_values, same_transcripts, Hs.
  - intros x. apply bool_decide_ext. by rewrite Hm.
Qed.

Lemma public_conversation_key i v : conv_id (public_conversation i v) = conv_id v.
Proof.
  unfold public_conversation, apply_public_conversation_fields,
    apply_group_record_to_conversation. cbv zeta. by repeat case_match.
Qed.

(** What a company reads of contacts, conversations, messages and media
    depends only on its own rows: two stores that agree on them give the same
    answers, up to the order of an unordered list. *)
Theorem reads_isolated i i' :
  same_tenant i i' →
  contacts i p c ≡ₚ contacts i' p c
  ∧ (conv_id <$> conversations i p c) ≡ₚ (conv_id <$> conversations i' p c)
  ∧ ∀ id, contact i p c id = contact i' p c id
      ∧ message_for_company i p c id = message_for_company i' p c id
      ∧ media_for_company i p c id = media_for_company i' p c id
      ∧ has_conversation i p c id = has_conversation i' p c id.
Proof.
  intros Hs. split; [|split; [|intros id; split; [|split; [|split]]]].
  - unfold contacts. rewrite !sort_by_perm. apply fmap_Permutation.
    apply retain_values, same_contacts, Hs.
  - unfold conversations. rewrite !sort_by_perm, <- !list_fmap_compose.
    assert (E : ∀ x (l : list Conversation), conv_id ∘ public_conversation x <$> l = conv_id <$> l).
    { intros x l. apply list_fmap_ext. intros _ v _. apply public_conversation_key. }
    rewrite !E.
    apply fmap_Permutation, retain_values, same_conversations, Hs.
  - unfold contact. cbv zeta. rewrite (resolve_contact_proper i i' Hs id id eq_refl).
    by rewrite (tenant_contact_proper i i' Hs _ _ eq_refl).
  - unfold message_for_company. f_equal.
    apply (retain_lookup (λ m, message_of_tenant m p c)), same_messages, Hs.
  - unfold media_for_company. f_equal.
    apply (retain_lookup (λ m, media_of_tenant m p c)), same_media, Hs.
  - unfold has_conversation.
    pose proof (retain_lookup (λ v, conversation_matches_tenant v p c) _ _ id
      (same_conversations _ _ Hs)) as E.
    destruct (st_conversations i !! id) as [a|], (st_conversations i' !! id) as [b|];
      simpl in *; repeat case_match; done.
Qed.
End tenant.

(** ** Two stores that differ in another company's rows *)
Definition other_company : AppState :=
  state_of (@record_whatsapp_message demo_env
    (demo_input "wa9" <| wmi_company_id := "d"%string |>
       <| wmi_conversation_id := "5511888880000@s.whatsapp.net"%string |>)) demo_state.

Lemma privacy_export_isolated_witness :
  same_export (@privacy_export_contact demo_env (app_inner demo_state) "p" "c" demo_customer)
    (@privacy_export_contact demo_env (app_inner other_company) "p" "c" demo_customer).
Proof.
  apply (@privacy_export_isolated demo_env "p" "c"). constructor; vm_compute; reflexivity.
Defined.

Lemma reads_isolated_witness :
  @contacts demo_env (app_inner demo_state) "p" "c"
    ≡ₚ @contacts demo_env (app_inner other_company) "p" "c"
  ∧ @contacts demo_env (app_inner other_company) "p" "d" ≠ [].
Proof.
  split; [|vm_compute; discriminate].
  apply (@reads_isolated demo_env "p" "c" (app_inner demo_state) (app_inner other_company)).
  constructor; vm_compute; reflexivity.
Defined.
