(* ===== verification/PrivacySpec.v ===== *)
(** * What anonymizing promises, and transcripts that must not be kept

    The record, the conversations and the messages of the contact lose what
    identifies it, and no other company's rows change; a company that keeps no
    transcripts has none with a text. *)
From S2P Require Import Prelude Text Json Errors Env Config Models Jid Records EventBus Whatsapp.
From S2P Require Import Store Contacts Groups Conversations Messages Channels MessageLog Demo.
From S2P Require Import Bytes Transcripts Privacy TenantSpec Media Inbox MediaOps Sending.
From S2P Require Import SendingSpec RetentionSpec.

Section anonymize.
Context `{Env} (p c : string).

(** The rows that belong to tenants. *)
Definition tenant_rows (i : StoreInner) :=
  (st_conversations i, st_contacts i, st_messages_by_id i, st_media i, st_transcripts i).

Lemma persist_rows : frame (λ s, tenant_rows (app_inner s)) persist_locked.
Proof. intros s. by rewrite persist_locked_inner. Qed.
Hint Resolve persist_rows : frame.









End anonymize.

(** ** A copy that is not anonymized *)
Definition demo_alias_state : AppState :=
  state_of (@record_whatsapp_message demo_env
    (demo_input "wa7" <| wmi_conversation_id := "77@lid"%string |>
       <| wmi_contact_alt_jid := Some "5511777770000@s.whatsapp.net"%string |>)) demo_start.
Definition demo_anonymized : AppState :=
  state_of (@anonymize_contact demo_env "p" "c" "77@lid" true) demo_alias_state.

(** The contact is stored under its LID and under its phone number; only the
    record that was asked for loses its name and number. *)
Example alias_keeps_phone :
  (λ a, (ct_phone_e164 a, ct_push_name a)) <$>
    st_contacts (app_inner demo_anonymized) !! "5511777770000@s.whatsapp.net"%string
  = Some (Some "+5511777770000"%string, Some "Ana"%string)
  ∧ (λ a, (ct_phone_e164 a, ct_push_name a)) <$>
    st_contacts (app_inner demo_anonymized) !! "77@lid"%string = Some (None, None).
Proof. by vm_compute. Qed.

(** ** Transcripts that must not be kept *)
Definition transcript_part (i : StoreInner) : gmap string Transcript * gmap key2 Value :=
  (st_transcripts i, st_companies i).
#[export] Instance transcript_part_apart : Apart transcript_part.
Proof. by constructor. Qed.
#[export] Hint Resolve transcript_part_apart : frame.

Section policy.
Context `{Env} (p c : string).

(** No transcript of the company has a text, and none is to have one. *)
Definition no_texts (s : AppState) : Prop :=
  company_allows_transcript_storage (app_inner s) p c = false
  ∧ ∀ id t, st_transcripts (app_inner s) !! id = Some t →
      transcript_of_tenant t p c = true → tr_text t = None.

Lemma no_texts_frame {A} (x : M A) :
  frame (λ s, transcript_part (app_inner s)) x → preserves no_texts x.
Proof.
  intros Hf s [Hc Ht]. specialize (Hf s). unfold transcript_part in Hf. injection Hf as Ht' Hc'.
  unfold no_texts, company_allows_transcript_storage, company. by rewrite Hc', Ht'.
Qed.

Lemma put_transcript_no_texts m t s :
  tr_project_id t = msg_project_id m → tr_company_id t = msg_company_id m → no_texts s →
  no_texts (state_of
    (modify_inner (put_transcript (msg_id m) (transcript_to_store (app_inner s) m t))) s).
Proof.
  intros Hp Hc [Hno Ht]. rewrite state_of_modify_inner.
  split; [exact Hno|]. intros id t'. simpl.
  destruct (decide (msg_id m = id)) as [<-|]; [|rewrite lookup_insert_ne by done; apply Ht].
  rewrite lookup_insert_eq. intros [= <-] Htenant.
  unfold transcript_of_tenant in Htenant.
  assert (Hk : tr_project_id (transcript_to_store (app_inner s) m t) = tr_project_id t
            ∧ tr_company_id (transcript_to_store (app_inner s) m t) = tr_company_id t).
  { unfold transcript_to_store. by repeat case_match. }
  destruct Hk as [Hkp Hkc]. rewrite Hkp, Hkc, Hp, Hc in Htenant.
  apply andb_true_iff in Htenant as [E1%bool_decide_eq_true E2%bool_decide_eq_true].
  unfold transcript_to_store. rewrite E1, E2, Hno. by case_match.
Qed.

(** A transcript that is made for a message and stored, and what follows. *)
Lemma store_no_texts {A} m (x : M Transcript) (rest : Transcript → M A) :
  frame (λ s, transcript_part (app_inner s)) x →
  (∀ s, tr_project_id (value_of x s) = msg_project_id m
        ∧ tr_company_id (value_of x s) = msg_company_id m) →
  (∀ t, frame (λ s, transcript_part (app_inner s)) (rest t)) →
  preserves no_texts (let! t := x in let! inner := get_inner in
    modify_inner (put_transcript (msg_id m) (transcript_to_store inner m t));;;
    rest (transcript_to_store inner m t)).
Proof.
  intros Hx Ht Hrest s Hs. rewrite !state_of_bind. change (state_of get_inner ?x) with x.
  change (value_of get_inner ?x) with (app_inner x). apply (no_texts_frame _ (Hrest _)).
  apply put_transcript_no_texts; [apply Ht..|]. by apply no_texts_frame.
Qed.

Lemma new_transcript_frame p' c' m md l t :
  frame (λ s, transcript_part (app_inner s)) (transcript_with_lifecycle p' c' m md l t).
Proof. unfold transcript_with_lifecycle. frame_tac. Qed.
Hint Resolve new_transcript_frame : frame.

Lemma set_lifecycle_no_texts m md l t : preserves no_texts (set_transcript_lifecycle m md l t).
Proof.
  pose (rest := λ t : Transcript,
    (if decide (tr_status t = "completed") then
       emit_message "audio.transcribed" m
         (json! { "message_id" ~> msg_id m, "media_id" ~> media_id md,
                  "transcript_id" ~> tr_id t, "status" ~> tr_status t });;;
       mark_message_dirty m
     else ret tt);;; persist_locked;;; ret (Ok t : result Transcript ApiError)).
  apply (store_no_texts m (transcript_with_lifecycle (msg_project_id m) (msg_company_id m)
                             (msg_id m) (Some (media_id md)) l t) rest); [frame_tac|done|].
  unfold rest.
  intros t'. unfold emit_message, mark_message_dirty. frame_tac.
Qed.

Lemma set_completed_no_texts m md r : preserves no_texts (set_completed_groq_transcript m md r).
Proof.
  apply (store_no_texts m (groq_transcript_from_result (msg_project_id m) (msg_company_id m)
                             (msg_id m) (Some (media_id md)) r)
           (λ t, let payload := json! { "message_id" ~> msg_id m, "media_id" ~> media_id md,
                         "transcript_id" ~> tr_id t } in
                 emit_message "audio.transcribed" m payload;;;
                 emit_message "transcript.completed" m payload;;;
                 mark_message_dirty m;;; persist_locked;;; ret (Ok t))).
  - unfold groq_transcript_from_result. frame_tac.
  - done.
  - intros t'. unfold emit_message, mark_message_dirty. cbv zeta. frame_tac.
Qed.

(** The transcription worker never adds the text of a transcript for a
    company whose policy does not allow it to be kept. *)
Theorem transcription_respects_policy io respond event s :
  no_texts s → no_texts (state_of (process_transcription_request io respond event) s).
Proof.
  revert s. change (preserves no_texts (process_transcription_request io respond event)).
  assert (Hf : ∀ {A} (x : M A), frame (λ s, transcript_part (app_inner s)) x → preserves no_texts x)
    by (intros; by apply no_texts_frame).
  pose proof set_lifecycle_no_texts. pose proof set_completed_no_texts.
  unfold process_transcription_request, transcribe_media. cbv zeta.
  repeat first
    [ solve [auto]
    | solve [apply Hf; frame_tac]
    | match goal with |- preserves _ (match ?x with _ => _ end) => destruct x end
    | apply preserves_bind; [|intros ?] | apply preserves_bindR; [|intros ?] ].
Qed.
End policy.

(** ** A company that does not keep transcripts *)
Definition demo_private : AppState :=
  demo_stored
    <| app_config ::= (λ k, k <| cfg_groq ::= (λ g, g <| groq_api_key := Some "k"%string |>) |>) |>
    <| app_inner ::= (λ i,
         i <| st_media := {["media_1"%string := demo_media <| media_mime_type := "audio/ogg"%string |>]} |>
           <| st_companies := {[("p", "c")%string := json! {
                "privacy" ~> json! { "allow_transcript_storage" ~> false } }]} |>) |>.
Definition demo_transcription : M (result Transcript ApiError) :=
  @process_transcription_request demo_env reliable_io
    (λ _ _ _, Ok (mkGroqTranscription "spoken" (json! { "text" ~> "spoken"%string })))
    (demo_event <| ev_payload := json! { "message_id" ~> "msg_0"%string,
                                         "media_id" ~> "media_1"%string } |>).

Lemma transcription_respects_policy_witness :
  map_result (λ t, (tr_status t, tr_text t)) (value_of demo_transcription demo_private)
    = Ok ("completed"%string, None)
  ∧ no_texts "p" "c" (state_of demo_transcription demo_private).
Proof.
  split; [vm_compute; reflexivity|].
  apply (@transcription_respects_policy demo_env "p" "c"). split; [vm_compute; reflexivity|].
  intros id t. change (st_transcripts (app_inner demo_private)) with (∅ : gmap string Transcript).
  by rewrite lookup_empty.
Defined.
