(* ===== verification/Paging.v ===== *)
(** * Paging (src/state.rs, src/routes.rs)

    Reading the messages of a conversation by sequence number, and the cursor
    of the list endpoints. *)
From S2P Require Import Prelude Text Json Errors Env Config Models Jid Records.
From S2P Require Import EventBus Whatsapp Store Contacts Groups Conversations Messages Inbox.
From S2P Require Import MessageLog Demo.

(** ** Messages by sequence number *)
Definition normalize_message_media_urls (config : AppConfig) (m : Message) : Message :=
  if negb (bool_decide (cfg_storage_provider config = LocalFs)) || negb (cfg_dev_mode config)
  then m
  else match msg_media_id m with
       | None => m
       | Some media_id =>
         let url := dev_media_url config media_id in
         let m := m <| msg_media_url := Some url |> in
         if decide (msg_message_type m = "image") then m <| msg_thumbnail_url := Some url |> else m
       end.

Definition by_seq (a b : Message) : bool :=
  bool_decide (msg_conversation_seq a ≤ msg_conversation_seq b).

Definition seq_in_range (after_seq before_seq : option Z) (m : Message) : bool :=
  is_none_or after_seq (λ seq, bool_decide (seq < msg_conversation_seq m))
  && is_none_or before_seq (λ seq, bool_decide (msg_conversation_seq m < seq)).

Definition list_messages (config : AppConfig) (inner : StoreInner) (conversation_id : string)
    (after_seq before_seq : option Z) (limit : nat) : MessagesPage :=
  let messages := normalize_message_media_urls config <$>
    sort_by by_seq (retain_list (seq_in_range after_seq before_seq)
      (conversation_messages inner conversation_id)) in
  let page := take limit messages in
  {| page_conversation_id := conversation_id;
     page_from_seq := msg_conversation_seq <$> head page;
     page_to_seq := msg_conversation_seq <$> last page;
     page_has_more := bool_decide (limit < length messages)%nat;
     page_messages := page |}.

Definition list_messages_for_conversation `{Env} (config : AppConfig) (inner : StoreInner)
    (project_id company_id conversation_id : string) (after_seq before_seq : option Z)
    (limit : nat) : result MessagesPage ApiError :=
  let? c := conversation inner project_id company_id conversation_id in
  let public_id := public_conversation_id c in
  let page := list_messages config inner (conv_id c) after_seq before_seq limit in
  Ok (page <| page_conversation_id := public_id |>
           <| page_messages ::= fmap (M:=list) (λ m, m <| msg_conversation_id := public_id |>) |>).

(** ** The cursor of the list endpoints (src/routes.rs) *)
Definition MAX_SEARCH_WINDOW : nat := Z.to_nat 5000.

Definition page_offset (query : PageQuery) : result nat ApiError :=
  match opt_filter (λ c, negb (bool_decide (c = ""))) (trim <$> pq_cursor query) with
  | None => Ok 0%nat
  | Some cursor =>
    match parse_unsigned u64_max cursor with
    | Some offset => Ok (Z.to_nat offset)
    | None => Err (BadRequest "cursor must be a non-negative offset")
    end
  end.

(** The page of a list: the items, the next cursor, whether there are more and
    how many there are in all. *)
Record Page : Type := mkPage {
  pg_items : list Value;
  pg_next_cursor : option string;
  pg_has_more : bool;
  pg_total : nat
}.
#[export] Instance eta_Page : Eta Page := λ r,
  mkPage (pg_items r) (pg_next_cursor r) (pg_has_more r) (pg_total r).

Definition paginated_items {T} `{ToJson T} (items : list T) (query : PageQuery)
  : result Page ApiError :=
  let limit := Z.to_nat (page_limit query) in
  let? offset := page_offset query in
  let page := take limit (drop offset items) in
  let next_index := (offset + length page)%nat in
  let has_more := bool_decide (next_index < length items)%nat in
  Ok {| pg_items := json <$> page;
        pg_next_cursor := bool_then has_more (fmt_nat next_index);
        pg_has_more := has_more;
        pg_total := length items |}.

Definition bounded_search_limit (query : PageQuery) : result nat ApiError :=
  let? offset := page_offset query in
  if decide (MAX_SEARCH_WINDOW ≤ offset)%nat
  then Err (BadRequest ("cursor must be below " +:+ fmt_nat MAX_SEARCH_WINDOW
                        +:+ " for search"))
  else Ok (min (offset + Z.to_nat (page_limit query) + 1) MAX_SEARCH_WINDOW).

(** ** Reading a conversation page by page *)

(** A client that asks again from the last number it got, as long as there is
    more. *)
Fixpoint read_pages (fuel : nat) (config : AppConfig) (inner : StoreInner)
    (conversation_id : string) (after_seq : option Z) (limit : nat) : list Message :=
  match fuel with
  | O => []
  | S fuel =>
    let page := list_messages config inner conversation_id after_seq None limit in
    page_messages page ++
    (if page_has_more page
     then read_pages fuel config inner conversation_id (page_to_seq page) limit else [])
  end.

Section cursor.
Context (config : AppConfig) (inner : StoreInner) (id : string) (limit : nat).
Hypothesis Hok : log_ok inner.
Hypothesis Hlimit : (1 ≤ limit)%nat.
Let ms := conversation_messages inner id.
Let norm := normalize_message_media_urls config.

Lemma norm_seq m : msg_conversation_seq (norm m) = msg_conversation_seq m.
Proof. unfold norm, normalize_message_media_urls. by repeat case_match. Qed.

Lemma ms_sorted : StronglySorted Z.lt (msg_conversation_seq <$> ms).
Proof.
  unfold ms, conversation_messages.
  destruct (st_messages_by_conversation inner !! id) eqn:E; simpl; [|constructor].
  by eapply log_sorted.
Qed.

(** The messages are already in order. *)
Lemma sorted_by_seq l :
  StronglySorted Z.lt (msg_conversation_seq <$> l) → sort_by by_seq l = l.
Proof.
  intros Hs. apply sort_by_id. induction l as [|m l IH]; [constructor|]. simpl in Hs.
  apply StronglySorted_inv in Hs as [Hs Hall]. constructor; [by apply IH|].
  rewrite Forall_forall in Hall. apply Forall_forall. intros x Hx. apply bool_decide_eq_true.
  specialize (Hall (msg_conversation_seq x)). apply Z.lt_le_incl, Hall, list_elem_of_fmap. eauto.
Qed.

(** What a cursor leaves: the messages after it. *)
Lemma after_cursor pre rest after :
  ms = pre ++ rest →
  match after with
  | None => pre = []
  | Some a => last (msg_conversation_seq <$> pre) = Some a
  end →
  retain_list (seq_in_range after None) ms = rest.
Proof.
  intros Hms Ha. pose proof ms_sorted as Hs. rewrite Hms in *. rewrite fmap_app in Hs.
  rewrite retain_list_app.
  assert (Hrest : retain_list (seq_in_range after None) rest = rest).
  { apply retain_list_all. intros x Hx. unfold seq_in_range.
    destruct after as [a|]; simpl; [|done]. rewrite andb_true_r. apply bool_decide_eq_true.
    apply last_Some in Ha as [l Hl]. eapply StronglySorted_app_1_elem_of; [exact Hs| |].
    - rewrite Hl. apply elem_of_app. right. by left.
    - apply list_elem_of_fmap. eauto. }
  assert (Hpre : retain_list (seq_in_range after None) pre = []).
  { destruct after as [a|]; [|by subst pre].
    apply retain_list_none. intros x Hx. unfold seq_in_range. simpl.
    rewrite andb_true_r. apply bool_decide_eq_false.
    apply last_Some in Ha as [l Hl]. apply StronglySorted_app_1_l in Hs. rewrite Hl in Hs.
    assert (Hin : msg_conversation_seq x ∈ l ++ [a]).
    { rewrite <- Hl. apply list_elem_of_fmap. eauto. }
    apply elem_of_app in Hin as [Hin|Hin]; [|apply list_elem_of_singleton in Hin; lia].
    pose proof (StronglySorted_app_1_elem_of _ _ _ _ a Hs Hin ltac:(by left)). lia. }
  by rewrite Hpre, Hrest.
Qed.

Lemma read_pages_rest fuel pre rest after :
  (length rest < fuel)%nat → ms = pre ++ rest →
  match after with
  | None => pre = []
  | Some a => last (msg_conversation_seq <$> pre) = Some a
  end →
  read_pages fuel config inner id after limit = norm <$> rest.
Proof.
  revert pre rest after. induction fuel as [|fuel IH]; intros pre rest after Hf Hms Ha; [lia|].
  cbn [read_pages]. unfold list_messages. fold ms norm. cbn zeta.
  rewrite (after_cursor pre rest after) by done.
  rewrite sorted_by_seq.
  2:{ pose proof ms_sorted as Hs. rewrite Hms, fmap_app in Hs. by eapply StronglySorted_app_1_r. }
  cbn [page_messages page_has_more page_to_seq]. rewrite length_fmap, <- fmap_take.
  case_bool_decide as Hmore.
  - rewrite (IH (pre ++ take limit rest) (drop limit rest)).
    + by rewrite <- fmap_app, take_drop.
    + rewrite length_drop. lia.
    + by rewrite <- app_assoc, take_drop.
    + assert (Hne : take limit rest ≠ []) by (destruct rest, limit; simpl in *; [lia..|done]).
      rewrite fmap_app, last_app.
      destruct (take limit rest) as [|x l] eqn:E using rev_ind; [done|].
      rewrite !fmap_app. simpl. rewrite !last_snoc. simpl. by rewrite norm_seq.
  - by rewrite app_nil_r, take_ge by lia.
Qed.
End cursor.

(** C39. In a well-formed log, reading a conversation page by page, each page
    after the last sequence number of the one before, reads every message of the
    conversation once and in order, and the reading ends. *)
Theorem paging_reads_all config inner id limit fuel :
  log_ok inner → (1 ≤ limit)%nat → (length (conversation_messages inner id) < fuel)%nat →
  read_pages fuel config inner id None limit
    = normalize_message_media_urls config <$> conversation_messages inner id.
Proof. intros Hok Hl Hf. by apply (read_pages_rest config inner id limit Hok Hl fuel [] _ None). Qed.

Lemma paging_reads_all_witness :
  length (conversation_messages (app_inner demo_state) demo_customer) = 2%nat
  ∧ read_pages 3 default_config (app_inner demo_state) demo_customer None 1
    = normalize_message_media_urls default_config
        <$> conversation_messages (app_inner demo_state) demo_customer.
Proof.
  split; [vm_compute; reflexivity|].
  apply (paging_reads_all default_config (app_inner demo_state) demo_customer 1 3).
  - apply demo_state_wf. vm_compute. discriminate.
  - lia.
  - vm_compute. lia.
Defined.

(** ** Reading a list cursor by cursor *)
Fixpoint read_list {T} `{ToJson T} (fuel : nat) (items : list T) (query : PageQuery)
  : list Value :=
  match fuel with
  | O => []
  | S fuel =>
    match paginated_items items query with
    | Ok page =>
      pg_items page ++
      match pg_next_cursor page with
      | Some cursor => read_list fuel items (query <| pq_cursor := Some cursor |>)
      | None => []
      end
    | Err _ => []
    end
  end.

Lemma page_offset_fmt query n :
  Z.of_nat n ≤ u64_max → page_offset (query <| pq_cursor := Some (fmt_nat n) |>) = Ok n.
Proof.
  intros Hn. unfold page_offset. simpl. destruct (fmt_nat_digits n) as [Hd Hne].
  rewrite trim_digits by done. rewrite bool_decide_eq_false_2 by done. simpl.
  rewrite parse_fmt_nat by done. by rewrite Nat2Z.id.
Qed.

Lemma read_list_rest {T} `{ToJson T} fuel (items : list T) query offset :
  Z.of_nat (length items) ≤ u64_max → page_offset query = Ok offset →
  (length items - offset < fuel)%nat →
  read_list fuel items query = json <$> drop offset items.
Proof.
  intros Hb. revert query offset. induction fuel as [|fuel IH]; intros query offset Ho Hf; [lia|].
  cbn [read_list]. unfold paginated_items. rewrite Ho. cbn zeta.
  cbn [pg_items pg_next_cursor]. pose proof (page_limit_range query) as Hl.
  set (limit := Z.to_nat (page_limit query)). assert (1 ≤ limit)%nat by (unfold limit; lia).
  rewrite length_take, length_drop. case_bool_decide as Hm; simpl.
  - rewrite (IH _ (offset + limit)%nat).
    + by rewrite <- fmap_app, <- drop_drop, take_drop.
    + rewrite (Nat.min_l limit) by lia. apply page_offset_fmt. lia.
    + lia.
  - rewrite app_nil_r, take_ge; [done|]. rewrite length_drop. lia.
Qed.

(** Following [next_cursor] from the first page of a list endpoint reads
    every item of the list once and in order, and the reading ends. *)
Theorem cursor_reads_all {T} `{ToJson T} fuel (items : list T) query :
  Z.of_nat (length items) ≤ u64_max → pq_cursor query = None →
  (length items < fuel)%nat → read_list fuel items query = json <$> items.
Proof.
  intros Hb Hc Hf. rewrite (read_list_rest fuel items query 0); [done|done| |lia].
  unfold page_offset. by rewrite Hc.
Qed.

Lemma cursor_reads_all_witness :
  read_list 4 [1; 2; 3] (mkPageQuery (Some 2) None None None None None None None None)
    = json <$> [1; 2; 3].
Proof. apply (cursor_reads_all 4); [by vm_compute|done|by vm_compute]. Defined.
