(* ===== verification/Queries.v ===== *)
(** * Queries (src/state.rs)

    The searches and lists of a conversation or of a group: media, starred
    messages, text search, members; the refresh of a contact or of a group when
    it is inspected; the logs a caller can read. *)
From S2P Require Import Prelude Text Json Errors Env Secrets Config Models Jid Records.
From S2P Require Import EventBus Whatsapp WhatsappClient Store Contacts Groups Conversations.
From S2P Require Import Messages Inbox Channels Bytes Transcripts MediaOps Callbacks Uploads.
From S2P Require Import InboundMedia WhatsappEvents Paging Wire.

(** [str::to_lowercase], of the Unicode tables of the standard library. *)
Class Lowercase := { to_lowercase : string → string }.

Section queries.
Context `{Env} `{Lowercase}.

(** ** Media *)
(** [b.created_at.cmp(&a.created_at)] *)
Definition newest_first (a b : MediaObject) : bool :=
  bool_decide (media_created_at b ≤ media_created_at a).

Definition media_for_conversation (inner : StoreInner) (conversation_id : string)
  : list MediaObject :=
  sort_by newest_first
    (retain_list (λ m, bool_decide (media_conversation_id m = conversation_id))
       (hm_values (st_media inner))).

Definition media_for_project_conversation (inner : StoreInner)
    (project_id company_id conversation_id : string) : result (list MediaObject) ApiError :=
  let? c := conversation inner project_id company_id conversation_id in
  let public_id := public_conversation_id c in
  Ok ((λ m, m <| media_conversation_id := public_id |>)
        <$> media_for_conversation inner (conv_id c)).

Definition media_for_group (inner : StoreInner) (project_id company_id group_id : string)
  : result (list MediaObject) ApiError :=
  let? _ := group inner project_id company_id group_id in
  Ok (sort_by newest_first
        (retain_list (λ m, media_of_tenant m project_id company_id
                           && bool_decide (media_conversation_id m = group_id))
           (hm_values (st_media inner)))).

(** ** Starred messages *)
Definition starred_messages_for_conversation (inner : StoreInner) (conversation_id : string)
  : list Message :=
  sort_by by_seq (retain_list msg_is_starred (conversation_messages inner conversation_id)).

(** The messages, under the identifier the caller sees. *)
Definition publish_under (public_id : string) (m : Message) : Message :=
  m <| msg_conversation_id := public_id |>.

Definition starred_messages_for_project_conversation (inner : StoreInner)
    (project_id company_id conversation_id : string) : result (list Message) ApiError :=
  let? c := conversation inner project_id company_id conversation_id in
  Ok (publish_under (public_conversation_id c)
        <$> starred_messages_for_conversation inner (conv_id c)).

Definition starred_messages_for_group (inner : StoreInner)
    (project_id company_id group_id : string) : result (list Message) ApiError :=
  let? _ := group inner project_id company_id group_id in
  Ok (starred_messages_for_conversation inner group_id).

(** ** Text search *)
Definition matches_text (needle : string) (m : Message) : bool :=
  bool_decide (needle = "")
  || contains_str (to_lowercase (unwrap_or (msg_text m) "")) needle.

(** The first matches in the order of the log, then sorted. *)
Definition search_messages_for_conversation (inner : StoreInner)
    (conversation_id query : string) (limit : nat) : list Message :=
  let needle := to_lowercase (trim query) in
  sort_by by_seq (take limit (retain_list (matches_text needle)
                                (conversation_messages inner conversation_id))).

Definition search_messages_for_project_conversation (inner : StoreInner)
    (project_id company_id conversation_id query : string) (limit : nat)
  : result (list Message) ApiError :=
  let? c := conversation inner project_id company_id conversation_id in
  Ok (publish_under (public_conversation_id c)
        <$> search_messages_for_conversation inner (conv_id c) query limit).

Definition search_messages_for_group (inner : StoreInner)
    (project_id company_id group_id query : string) (limit : nat)
  : result (list Message) ApiError :=
  let? _ := group inner project_id company_id group_id in
  Ok (search_messages_for_conversation inner group_id query limit).

(** ** Members of a group *)
Definition member_le (a b : GroupMemberRecord) : bool :=
  let x := to_lowercase (gm_display_name a) in
  let y := to_lowercase (gm_display_name b) in
  if decide (x = y) then str_le (gm_contact_id a) (gm_contact_id b) else str_le x y.

Definition group_member_values_for_inner (inner : StoreInner) (group_id : string)
  : list Value :=
  group_member_json <$> sort_by member_le (hm_values (members_of inner group_id)).

Definition group_members (inner : StoreInner) (group_id : string) : list Value :=
  group_member_values_for_inner inner group_id.

Definition group_members_for_group (inner : StoreInner)
    (project_id company_id group_id : string) : result (list Value) ApiError :=
  let? _ := ok_or (opt_filter (is_tenant_group project_id company_id)
                     (st_conversations inner !! group_id))
              (NotFound ("group " +:+ group_id +:+ " not found")) in
  Ok (group_member_values_for_inner inner group_id).

(** ** Inspection of a contact and of a group *)
Record ContactRefreshContext : Type := mkContactRefreshContext {
  crc_resolved_contact_id : string;
  crc_channel_id : option string;
  crc_conversation_id : option string;
  crc_alt_jid : option string;
  crc_push_name : option string
}.

Definition contact_refresh_context (inner : StoreInner)
    (project_id company_id contact_id : string) : result ContactRefreshContext ApiError :=
  let id := resolve_contact_id_inner inner project_id company_id contact_id in
  let? contact := ok_or (tenant_contact inner project_id company_id id)
                    (contact_not_found id) in
  let aliases := contact_aliases_for_record contact in
  let conversation := find (λ c,
    conversation_matches_tenant c project_id company_id
    && bool_decide (conv_conversation_type c = "direct")
    && direct_with aliases c) (hm_values (st_conversations inner)) in
  Ok {| crc_resolved_contact_id := id;
        crc_channel_id :=
          opt_or (ct_channel_account_id contact)
            (opt_or (conv_channel_account_id <$> conversation)
               (connected_channel_for_project_company inner project_id company_id));
        crc_conversation_id := conv_id <$> conversation;
        crc_alt_jid := opt_filter (λ jid, negb (bool_decide (jid = id)))
                         (opt_or (ct_canonical_jid contact) (ct_lid contact));
        crc_push_name := ct_push_name contact |}.

(** The target with its picture; a failure of the picture leaves it as it was. *)
Definition picture_or_keep (o : Outside) (project_id company_id channel_id : string)
    (entity_type entity_id : string) (target url : option string) : M (option string) :=
  let! r := attach_profile_picture_media_id (ow_io o) (ow_parse_url o) (ow_http_get o)
              project_id company_id channel_id entity_type entity_id target url in
  ret match r with Ok target => target | Err _ => target end.

Definition refresh_contact (o : Outside) (project_id company_id contact_id channel_id : string)
    (context : ContactRefreshContext) : M unit :=
  match ow_contact_profile o channel_id contact_id with
  | Ok profile =>
    let profile := merge_contact_profile_alt profile (crc_alt_jid context) in
    let! media := picture_or_keep o project_id company_id channel_id "contact_profile_picture"
                    contact_id (cp_profile_picture_media_id profile)
                    (cp_profile_picture_url profile) in
    apply_contact_profile project_id company_id channel_id
      (unwrap_or (crc_conversation_id context) contact_id) contact_id (crc_push_name context)
      (profile <| cp_profile_picture_media_id := media |>) true
  | Err _ =>
    record_contact_profile_lookup_failure project_id company_id
      (crc_resolved_contact_id context)
  end.

Definition inspect_contact (o : Outside) (project_id company_id contact_id : string)
  : M (result Value ApiError) :=
  let answer := gets (λ s, contact (app_inner s) project_id company_id contact_id) in
  try! context := gets (λ s, contact_refresh_context (app_inner s) project_id company_id
                               contact_id) in
  match crc_channel_id context with
  | None => answer
  | Some channel_id =>
    let! status := channel_status channel_id in
    if negb (bool_decide (status = Some "connected"%string)) then answer else
    try! reserved := reserve_contact_profile_refresh project_id company_id
                       (crc_resolved_contact_id context) false in
    if negb reserved then answer else
    refresh_contact o project_id company_id contact_id channel_id context;;;
    answer
  end.

Definition refresh_group (o : Outside) (project_id company_id group_id channel_id : string)
  : M unit :=
  match ow_group_profile o channel_id group_id with
  | Ok profile =>
    let! media := picture_or_keep o project_id company_id channel_id "group_profile_picture"
                    group_id (gprof_profile_picture_media_id profile)
                    (gprof_profile_picture_url profile) in
    apply_group_profile (ow_from_unix o) project_id company_id channel_id group_id
      (profile <| gprof_profile_picture_media_id := media |>)
  | Err _ => ret tt
  end.

Definition inspect_group (o : Outside) (project_id company_id group_id : string)
  : M (result Value ApiError) :=
  let answer := gets (λ s, group (app_inner s) project_id company_id group_id) in
  try! channel_id := gets (λ s, group_refresh_channel (app_inner s) project_id company_id
                                  group_id) in
  match channel_id with
  | None => answer
  | Some channel_id =>
    let! status := channel_status channel_id in
    if negb (bool_decide (status = Some "connected"%string)) then answer else
    refresh_group o project_id company_id group_id channel_id;;;
    answer
  end.

(** ** Reactions, saved media, logs *)
(** [send]: the answer of the client library, when the channel has one. *)
Definition react_to_message_for_company (send : option (result string string))
    (project_id company_id message_id : string) (emoji : option string)
  : M (result Message ApiError) :=
  try! _ := gets (λ s, message_for_company (app_inner s) project_id company_id message_id) in
  react_to_message send message_id emoji.

Definition save_media (media_id entity_type entity_id : string)
  : M (result MediaObject ApiError) :=
  save_media_with_permanent_object_key media_id entity_type entity_id None.

Definition events (inner : StoreInner) : list CommonEvent := st_events inner.

Definition webhook_delivery_attempts (inner : StoreInner) (project_id company_id : string)
  : list Value :=
  json <$> retain_list (λ a, bool_decide (att_project_id a = project_id)
                             && bool_decide (att_company_id a = company_id))
             (st_webhook_delivery_attempts inner).
End queries.
