(* ===== verification/Routes.v ===== *)
(** * HTTP handlers (src/routes.rs)

    The handlers of the company endpoints: what each does with its path, query
    and body, and what it answers.  The extraction of the arguments from the
    text of a request (axum, serde) is not modelled. *)
From S2P Require Import Prelude Text Json Errors Env Secrets Config Security Models Jid Records.
From S2P Require Import Media EventBus Whatsapp WhatsappClient Store Contacts Groups.
From S2P Require Import Conversations Messages Inbox Channels Bytes Transcripts MediaOps Dirty.
From S2P Require Import Callbacks Sending Uploads InboundMedia WhatsappEvents Privacy Wire.
From S2P Require Import Paging Queries.

(** ** Paths *)
(** Every path starts with the tenant; the others add one or two identifiers. *)
Record ProjectCompanyPath : Type := mkProjectCompanyPath {
  path_project_id : string;
  path_company_id : string
}.
(** [#[serde(default = "internal_project_id")]]: no route names a project. *)
Definition company_path (company_id : string) : ProjectCompanyPath :=
  mkProjectCompanyPath INTERNAL_PROJECT_ID company_id.

(** ** Answers *)
Inductive Reply :=
| JsonReply (status : Z) (body : Value)
| RawReply (status : Z) (content_type body : string).
Abbreviation Handler := (M (result Reply ApiError)).

Definition ok_json {A} `{ToJson A} (a : A) : Reply := JsonReply 200 (json a).
(** [Ok(Json(json!(r?)))] *)
Definition answer {A} `{ToJson A} (r : result A ApiError) : result Reply ApiError :=
  map_result ok_json r.

#[export] Instance json_Page : ToJson Page := λ p, json! {
  "items" ~> pg_items p,
  "next_cursor" ~> pg_next_cursor p,
  "has_more" ~> pg_has_more p,
  "total" ~> pg_total p
}.

(** What a handler takes from the outside besides the events of WhatsApp: the
    random nonce of a secret, the answer of the client library to a reaction,
    the signed URL of an object, and the clock of the limiter, which it reads
    once per check. *)
Record Server : Type := mkServer {
  sv_outside : Outside;
  sv_nonce : option string;
  sv_reaction : option (result string string);
  sv_presign : R2Config → string → Z → result string string;
  sv_unix_seconds : nat → Z
}.

(** ** Multipart bodies *)
(** A field as it is read: its name, what its headers say, and its chunks, of
    which one may fail. *)
Record Field : Type := mkField {
  fd_name : option string;
  fd_file_name : option string;
  fd_content_type : option string;
  fd_chunks : list (result string string)
}.

Definition media_reject_limit_bytes (limit_mb : Z) : result nat ApiError :=
  if decide (limit_mb * 1024 * 1024 ≤ u64_max) then Ok (Z.to_nat (limit_mb * 1024 * 1024))
  else Err (Internal "media reject threshold is too large").

Fixpoint read_chunks_limit (limit : nat) (label bytes : string)
    (chunks : list (result string string)) : result string ApiError :=
  match chunks with
  | [] => Ok bytes
  | Err err :: _ => Err (BadRequest ("invalid " +:+ label +:+ " bytes: " +:+ err))
  | Ok chunk :: chunks =>
    if decide (limit < String.length bytes + String.length chunk)%nat
    then Err (PayloadTooLarge (label +:+ " is larger than " +:+ fmt_nat limit +:+ " bytes"))
    else read_chunks_limit limit label (bytes +:+ chunk) chunks
  end.
Definition read_multipart_bytes_limit (field : Field) (limit : nat) (label : string)
  : result string ApiError := read_chunks_limit limit label "" (fd_chunks field).

Section multipart.
Context `{Crypto}.

(** The text of [FromUtf8Error] is the standard library's. *)
Definition read_multipart_text_limit (utf8_error : string → string) (field : Field)
    (limit : nat) (label : string) : result string ApiError :=
  let? bytes := read_multipart_bytes_limit field limit label in
  if utf8 bytes then Ok bytes
  else Err (BadRequest ("invalid " +:+ label +:+ " field utf8: " +:+ utf8_error bytes)).

(** The fields read so far. *)
Record UploadForm : Type := mkUploadForm {
  uf_conversation_id : option string;
  uf_media_type : option string;
  uf_mime_type : option string;
  uf_filename : option string;
  uf_caption : option string;
  uf_file_bytes : option string
}.
#[export] Instance eta_UploadForm : Eta UploadForm := λ r,
  mkUploadForm (uf_conversation_id r) (uf_media_type r) (uf_mime_type r) (uf_filename r)
    (uf_caption r) (uf_file_bytes r).
Definition empty_form : UploadForm := mkUploadForm None None None None None None.

Definition text_limit : nat := Z.to_nat (8 * 1024).

(** One turn of the loop of [upload_outbound]. *)
Definition read_field (utf8_error : string → string) (config : AppConfig) (field : Field)
    (form : UploadForm) : result UploadForm ApiError :=
  let name := unwrap_or (fd_name field) "" in
  let text := λ label, map_result trim
    (read_multipart_text_limit utf8_error field text_limit label) in
  if decide (name = "conversation_id") then
    let? v := text "conversation_id"%string in Ok (form <| uf_conversation_id := Some v |>)
  else if decide (name = "type" ∨ name = "media_type") then
    let? v := text "media type"%string in Ok (form <| uf_media_type := Some v |>)
  else if decide (name = "mime_type") then
    let? v := text "mime_type"%string in Ok (form <| uf_mime_type := Some v |>)
  else if decide (name = "filename") then
    let? v := text "filename"%string in Ok (form <| uf_filename := Some v |>)
  else if decide (name = "caption") then
    let? v := text "caption"%string in Ok (form <| uf_caption := Some v |>)
  else if decide (name = "file" ∨ name = "media") then
    let form := form <| uf_filename ::= λ v, opt_or v (fd_file_name field) |>
                     <| uf_mime_type ::= λ v, opt_or v (fd_content_type field) |> in
    let? limit := media_reject_limit_bytes (cfg_media_reject_threshold_mb config) in
    let? bytes := read_multipart_bytes_limit field limit "upload file" in
    Ok (form <| uf_file_bytes := Some bytes |>)
  else Ok form.

(** [multipart.next_field()] may fail. *)
Fixpoint read_fields (utf8_error : string → string) (config : AppConfig)
    (fields : list (result Field string)) (form : UploadForm) : result UploadForm ApiError :=
  match fields with
  | [] => Ok form
  | Err err :: _ => Err (BadRequest ("invalid multipart upload: " +:+ err))
  | Ok field :: fields =>
    let? form := read_field utf8_error config field form in
    read_fields utf8_error config fields form
  end.

Definition upload_of_form (form : UploadForm) : result OutboundMediaUpload ApiError :=
  let? conversation_id := ok_or (uf_conversation_id form)
                            (BadRequest "conversation_id is required") in
  let? bytes := ok_or (uf_file_bytes form) (BadRequest "file is required") in
  Ok (mkOutboundMediaUpload conversation_id (uf_media_type form) (uf_mime_type form)
        (uf_filename form) (uf_caption form) bytes).
End multipart.

(** ** Presigned URLs (src/storage.rs) *)
Definition presigned_r2_get_url (presign : R2Config → string → Z → result string string)
    (config : R2Config) (object_key : string) (ttl_seconds : Z)
  : result (option string) string :=
  if negb (can_upload config) then Ok (r2_public_object_url config object_key)
  else map_result Some (presign config object_key ttl_seconds).

Section handlers.
Context `{Env} `{Crypto} `{RawCodec} `{Lowercase}.
Context (sv : Server) (headers : string → option string) (path : ProjectCompanyPath).

Abbreviation project_id := (path_project_id path).
Abbreviation company_id := (path_company_id path).
Abbreviation outside := (sv_outside sv).

(** [authorize_company(..)?] *)
Definition authorized (scope : string) (k : Principal → Handler) : Handler :=
  try! principal := ret (authorize_company headers scope project_id company_id) in k principal.

(** A handler that only reads the store. *)
Definition reads {A} `{ToJson A} (f : StoreInner → result A ApiError) : Handler :=
  gets (λ s, answer (f (app_inner s))).
(** [Ok(Json(paginated_items(items?, &query)?))] *)
Definition paginated {A} `{ToJson A} (query : PageQuery)
    (f : StoreInner → result (list A) ApiError) : Handler :=
  reads (λ inner, let? items := f inner in paginated_items items query).

(** The [n]-th check of the limiter a request makes. *)
Definition enforce (n : nat) (principal : Principal) (family : string)
    (resource_id : option string) (max_per_minute : Z) : M (result unit ApiError) :=
  enforce_rate_limit headers (sv_unix_seconds sv n)
    (mkRateLimitScope (prin_api_key_id principal) (Some project_id) (Some company_id) family
       resource_id max_per_minute).
Definition limits : M RateLimitConfig := gets (λ s, cfg_rate_limits (app_config s)).
Definition enforce_admin_rate_limit (principal : Principal) : M (result unit ApiError) :=
  let! limits := limits in
  enforce 0 principal "admin" None (rl_admin_requests_per_minute limits).

Definition ensure_dev : M (result unit ApiError) := gets (λ s,
  if cfg_dev_mode (app_config s) && cfg_dev_simulation_enabled (app_config s) then Ok tt
  else Err (Forbidden "dev simulation endpoints disabled")).

(** ** Companies and channels *)
(** The one route without a company in its path. *)
Definition create_company (req : CompanyRequest) : Handler :=
  try! _ := ret (authorize_project headers "companies:write" INTERNAL_PROJECT_ID) in
  let id := unwrap_or (creq_id req) (unwrap_or (creq_external_company_id req) "company_dev"%string) in
  let! company := upsert_company INTERNAL_PROJECT_ID id (creq_name req) in
  ret (Ok (ok_json company)).

Definition get_company : Handler :=
  authorized "companies:write" (λ _,
    reads (λ inner, Ok (company inner project_id company_id))).

Definition create_channel_account (req : ChannelAccountRequest) : Handler :=
  authorized "channels:write" (λ _,
    let! r := create_channel project_id company_id (chreq_id req) (chreq_label req)
                (chreq_phone_e164 req) in
    ret (answer r)).

Definition connect_channel (channel_id : string) : Handler :=
  authorized "channels:write" (λ _,
    let! r := Channels.connect_channel (ow_start outside) project_id company_id channel_id in
    ret (answer r)).
Definition disconnect_channel (channel_id : string) : Handler :=
  authorized "channels:write" (λ _,
    let! r := disconnect_channel_for_company project_id company_id channel_id in
    ret (answer r)).
Definition get_channel (channel_id : string) : Handler :=
  authorized "channels:read" (λ _,
    let! r := channel_for_company project_id company_id channel_id in ret (answer r)).
Definition get_qr (channel_id : string) : Handler :=
  authorized "channels:read" (λ _,
    let! r := qr_for_company project_id company_id channel_id in ret (answer r)).
Definition pair_code (channel_id : string) : Handler :=
  authorized "channels:write" (λ _,
    ret (Err (NotSupported ("pair-code is not exposed by the active whatsapp-rust adapter for channel "
                            +:+ channel_id)))).
Definition capabilities (channel_id : string) : Handler :=
  authorized "channels:read" (λ _,
    ret (Ok (JsonReply 200 (capabilities_value "whatsapp-rust" WhatsappClient.capabilities)))).

(** ** Contacts *)
Definition list_contacts (query : PageQuery) : Handler :=
  authorized "contacts:read" (λ _,
    paginated query (λ inner, Ok (contacts inner project_id company_id))).
Definition get_contact (contact_id : string) : Handler :=
  authorized "contacts:read" (λ _,
    let! r := inspect_contact outside project_id company_id contact_id in ret (answer r)).
Definition get_contact_by_phone (phone_e164 : string) : Handler :=
  authorized "contacts:read" (λ _,
    reads (λ inner, contact_by_phone inner project_id company_id phone_e164)).
Definition contact_media (contact_id : string) (query : PageQuery) : Handler :=
  authorized "media:read" (λ _,
    paginated query (λ inner, media_for_contact inner project_id company_id contact_id)).
Definition contact_conversations (contact_id : string) (query : PageQuery) : Handler :=
  authorized "contacts:read" (λ _,
    paginated query (λ inner,
      Conversations.contact_conversations inner project_id company_id contact_id)).

(** ** Conversations *)
Definition list_conversations (query : PageQuery) : Handler :=
  authorized "conversations:read" (λ _,
    paginated query (λ inner, Ok (conversations inner project_id company_id))).
Definition get_conversation (conversation_id : string) : Handler :=
  authorized "conversations:read" (λ _,
    reads (λ inner, conversation inner project_id company_id conversation_id)).
Definition patch_conversation (conversation_id : string) (body : Value) : Handler :=
  authorized "conversations:write" (λ _,
    let! r := patch_conversation_metadata project_id company_id conversation_id body in
    ret (answer r)).
Definition list_messages (conversation_id : string) (query : PageQuery) : Handler :=
  authorized "messages:read" (λ _,
    gets (λ s, answer (list_messages_for_conversation (app_config s) (app_inner s)
      project_id company_id conversation_id (pq_after_seq query) (pq_before_seq query)
      (Z.to_nat (page_limit query))))).

(** The answer to an accepted message. *)
Definition accepted_message (inner : StoreInner) (m : Message) : Reply :=
  let public_id := public_conversation_id_for_ref inner project_id company_id
                     (msg_conversation_id m) in
  JsonReply 202 (json! {
    "accepted" ~> true,
    "command_id" ~> msg_id m,
    "message" ~> publish_under public_id m,
    "status" ~> "queued"%string,
    "delivery_state" ~> delivery_state m
  }).
Definition send_message (conversation_id : string) (req : SendMessageRequest) : Handler :=
  authorized "messages:send" (λ principal,
    let! limits := limits in
    try! _ := enforce 0 principal "messages:send" (Some conversation_id)
                (rl_send_message_per_minute_per_conversation limits) in
    try! _ := enforce 1 principal "messages:send:tenant" None
                (rl_send_message_per_minute_per_channel limits) in
    try! key := ret (idempotency_key headers) in
    try! outcome := prepare_send_message_with_actor project_id company_id conversation_id key
                      req (actor_id headers) in
    gets (λ s, Ok (accepted_message (app_inner s) (out_message outcome)))).

Definition search_messages (conversation_id : string) (query : PageQuery) : Handler :=
  authorized "messages:read" (λ _,
    paginated query (λ inner,
      let? search_limit := bounded_search_limit query in
      search_messages_for_project_conversation inner project_id company_id conversation_id
        (unwrap_or (pq_q query) "") search_limit)).
Definition conversation_media (conversation_id : string) (query : PageQuery) : Handler :=
  authorized "media:read" (λ _,
    paginated query (λ inner,
      media_for_project_conversation inner project_id company_id conversation_id)).
Definition conversation_starred (conversation_id : string) (query : PageQuery) : Handler :=
  authorized "messages:read" (λ _,
    paginated query (λ inner,
      starred_messages_for_project_conversation inner project_id company_id conversation_id)).

Definition mark_read (conversation_id : string) : Handler :=
  authorized "messages:manage" (λ _,
    try! c := gets (λ s, conversation (app_inner s) project_id company_id conversation_id) in
    let! active := gets (λ s, is_channel_connected (conv_channel_account_id c) (app_whatsapp s)) in
    if negb active then
      ret (Err (NotSupported ("mark-read requires an active WhatsApp provider channel "
                              +:+ conv_channel_account_id c
                              +:+ "; local-only read receipts are disabled")))
    else
      try! c := Inbox.mark_read project_id company_id conversation_id in
      ret (Ok (JsonReply 200 (json! { "marked_read" ~> true, "conversation" ~> c })))).
Definition typing (conversation_id : string) : Handler :=
  authorized "messages:manage" (λ _,
    try! c := gets (λ s, conversation (app_inner s) project_id company_id conversation_id) in
    ret (Err (NotSupported ("typing indicators require an active WhatsApp provider channel "
                            +:+ conv_channel_account_id c
                            +:+ "; local-only typing success is disabled")))).

(** ** Messages *)
Definition get_message (message_id : string) : Handler :=
  authorized "messages:read" (λ _,
    reads (λ inner, message_for_company inner project_id company_id message_id)).

Definition react (message_id : string) (emoji : option string) : Handler :=
  let! r := react_to_message_for_company (sv_reaction sv) project_id company_id message_id
              emoji in
  ret (answer r).
Definition react_message (message_id : string) (body : Value) : Handler :=
  authorized "messages:manage" (λ _,
    react message_id (opt_or (get_str body "emoji") (Some "👍"%string))).
Definition delete_react_message (message_id : string) : Handler :=
  authorized "messages:manage" (λ _, react message_id None).

(** The requests on a message that the adapter cannot carry out: the message is
    looked up first. *)
Definition unsupported_message (what message_id : string) : Handler :=
  authorized "messages:manage" (λ _,
    try! _ := gets (λ s, message_for_company (app_inner s) project_id company_id message_id) in
    ret (Err (NotSupported (what +:+ " is not supported by the active WhatsApp adapter")))).
Definition pin_message : string → Handler := unsupported_message "pin".
Definition unpin_message : string → Handler := unsupported_message "pin".
Definition star_message : string → Handler := unsupported_message "star".
Definition unstar_message : string → Handler := unsupported_message "star".

(** ** Media *)
Definition upload_outbound (utf8_error : string → string) (fields : list (result Field string))
  : Handler :=
  authorized "media:write" (λ principal,
    let! limits := limits in
    try! _ := enforce 0 principal "media:upload" None
                (rl_media_downloads_per_minute_per_channel limits) in
    try! key := ret (idempotency_key headers) in
    let! config := get_config in
    try! form := ret (read_fields utf8_error config fields empty_form) in
    try! upload := ret (upload_of_form form) in
    let! r := upload_outbound_media_idempotent (ow_io outside) (ow_staging outside) project_id
                company_id key upload in
    ret (answer r)).

Definition get_media (media_id : string) : Handler :=
  authorized "media:read" (λ principal,
    let! limits := limits in
    try! _ := enforce 0 principal "media:download" (Some media_id)
                (rl_media_downloads_per_minute_per_channel limits) in
    reads (λ inner, media_for_company inner project_id company_id media_id)).

(** The first of: the signed URL of the object, its public URL, the preview of
    the development mode, the stored URLs. *)
Definition url_of_media (config : AppConfig) (m : MediaObject) : option string :=
  let signed :=
    if decide (cfg_storage_provider config = R2) then
      media_object_key m ≫= λ object_key,
        match presigned_r2_get_url (sv_presign sv) (cfg_r2 config) object_key
                (cfg_r2_presigned_url_ttl_seconds config) with
        | Ok url => url
        | Err _ => None
        end
    else None in
  let dev_url := dev_media_url config (media_id m) in
  opt_or signed
    (opt_or (media_object_key m ≫= public_object_url config)
      (opt_or (bool_then (cfg_dev_mode config && bool_decide (is_Some (media_object_key m)))
                 dev_url)
        (opt_or (media_public_url m)
          (opt_or (media_thumbnail_url m) (bool_then (cfg_dev_mode config) dev_url))))).
Definition download_url (media_id : string) : Handler :=
  authorized "media:read" (λ _,
    let! config := get_config in
    try! m := gets (λ s, media_for_company (app_inner s) project_id company_id media_id) in
    try! url := ret (ok_or (url_of_media config m)
                       (NotSupported "download URL is not available")) in
    ret (Ok (JsonReply 200 (json! {
      "media_id" ~> media_id,
      "url" ~> url,
      "ttl_seconds" ~> cfg_r2_presigned_url_ttl_seconds config })))).

Definition permanent_key (config : AppConfig) (now : time) (m : MediaObject)
    (media_id entity_type entity_id : string) : string := r2_object_key
  {| ki_base_prefix := r2_base_prefix (cfg_r2 config);
     ki_class := "permanent";
     ki_project_id := media_project_id m;
     ki_company_id := media_company_id m;
     ki_channel_id := "channel_dev";
     ki_conversation_id := Some (media_conversation_id m);
     ki_entity_type := Some entity_type;
     ki_entity_id := Some entity_id;
     ki_date := now;
     ki_media_id := media_id;
     ki_ext := "bin" |}.
Definition save_media (media_id : string) (body : Value) : Handler :=
  authorized "media:write" (λ _,
    let entity_type := unwrap_or (get_str body "entity_type") "unknown"%string in
    let entity_id := unwrap_or (get_str body "entity_id") "unknown"%string in
    try! before := gets (λ s, media_for_company (app_inner s) project_id company_id media_id) in
    match media_object_key before with
    | Some source =>
      let! config := get_config in
      let! now := now_utc in
      let destination := permanent_key config now before media_id entity_type entity_id in
      try! _ := copy_media_bytes (ow_io outside) source destination (media_mime_type before) in
      let! r := save_media_with_permanent_object_key_for_company project_id company_id media_id
                  entity_type entity_id destination in
      ret (answer r)
    | None =>
      let! r := save_media_for_company project_id company_id media_id entity_type entity_id in
      ret (answer r)
    end).

Definition delete_bytes_at (object_key : option string) : M (result unit ApiError) :=
  match object_key with
  | Some object_key => delete_media_bytes (ow_io outside) object_key
  | None => ret (Ok tt)
  end.
Definition delete_media (media_id : string) : Handler :=
  authorized "media:write" (λ _,
    try! before := gets (λ s, media_for_company (app_inner s) project_id company_id media_id) in
    try! _ := delete_bytes_at (media_object_key before) in
    try! _ := delete_bytes_at (media_permanent_object_key before) in
    try! m := delete_media_for_company project_id company_id media_id in
    ret (Ok (JsonReply 200 (json! { "media_id" ~> media_id, "deleted" ~> true,
                                    "media" ~> m })))).

(** ** Transcripts *)
Definition get_transcript (message_id : string) : Handler :=
  authorized "transcripts:read" (λ _,
    reads (λ inner,
      let? _ := message_for_company inner project_id company_id message_id in
      transcript inner message_id)).
Definition transcribe_message (message_id : string) : Handler :=
  authorized "transcripts:write" (λ principal,
    let! limits := limits in
    try! _ := enforce 0 principal "stt" (Some message_id) (rl_stt_per_minute_per_project limits) in
    try! _ := gets (λ s, message_for_company (app_inner s) project_id company_id message_id) in
    try! t := request_transcript project_id company_id message_id in
    ret (Ok (JsonReply 202 (json! { "accepted" ~> true, "command_id" ~> tr_id t,
                                    "transcript" ~> t, "status" ~> "queued"%string })))).

(** ** Groups *)
Definition list_groups (query : PageQuery) : Handler :=
  authorized "groups:read" (λ _,
    paginated query (λ inner, Ok (groups inner project_id company_id))).
Definition get_group (group_id : string) : Handler :=
  authorized "groups:read" (λ _,
    let! r := inspect_group outside project_id company_id group_id in ret (answer r)).
Definition group_members (group_id : string) (query : PageQuery) : Handler :=
  authorized "groups:read" (λ _,
    paginated query (λ inner, group_members_for_group inner project_id company_id group_id)).
Definition group_media (group_id : string) (query : PageQuery) : Handler :=
  authorized "media:read" (λ _,
    paginated query (λ inner, media_for_group inner project_id company_id group_id)).
Definition group_starred (group_id : string) (query : PageQuery) : Handler :=
  authorized "messages:read" (λ _,
    paginated query (λ inner, starred_messages_for_group inner project_id company_id group_id)).
Definition group_search (group_id : string) (query : PageQuery) : Handler :=
  authorized "messages:read" (λ _,
    paginated query (λ inner,
      let? search_limit := bounded_search_limit query in
      search_messages_for_group inner project_id company_id group_id
        (unwrap_or (pq_q query) "") search_limit)).

(** The requests on a group that the adapter cannot carry out: the group is
    inspected first. *)
Definition unsupported_group (what group_id : string) : Handler :=
  authorized "groups:manage" (λ _,
    try! _ := inspect_group outside project_id company_id group_id in
    ret (Err (NotSupported ("group " +:+ what
                            +:+ " is not supported by the active WhatsApp adapter")))).
Definition group_exit : string → Handler := unsupported_group "exit".
Definition add_group_member : string → Handler := unsupported_group "member add".
Definition remove_group_member (group_id contact_id : string) : Handler :=
  unsupported_group "member remove" group_id.
Definition promote_group_member (group_id contact_id : string) : Handler :=
  unsupported_group "member promote" group_id.
Definition demote_group_member (group_id contact_id : string) : Handler :=
  unsupported_group "member demote" group_id.
Definition accept_join_request (group_id request_id : string) : Handler :=
  unsupported_group "join request accept" group_id.
Definition reject_join_request (group_id request_id : string) : Handler :=
  unsupported_group "join request reject" group_id.

(** ** Polling *)
Definition list_dirty (query : PageQuery) : Handler :=
  authorized "dirty:read" (λ _,
    try! consumer_id := ret (ok_or
      (opt_filter (λ id, negb (bool_decide (id = ""))) (trim <$> pq_consumer_id query))
      (BadRequest "consumer_id query parameter is required")) in
    let! items := Dirty.list_dirty project_id company_id consumer_id
                    (Z.to_nat (page_limit query)) in
    ret (Ok (JsonReply 200 (json! { "items" ~> items })))).
Definition ack_dirty (conversation_id : string) (req : DirtyAckRequest) : Handler :=
  authorized "dirty:ack" (λ _,
    let! r := Dirty.ack_dirty project_id company_id conversation_id req in ret (answer r)).

(** ** Administration of a company *)
Definition administered (k : Handler) : Handler :=
  authorized "admin:*" (λ principal, try! _ := enforce_admin_rate_limit principal in k).

Definition list_callbacks : Handler :=
  administered (gets (λ s, Ok (JsonReply 200 (json! {
    "items" ~> Callbacks.list_callbacks (app_inner s) project_id company_id })))).
Definition put_callback (callback_id : option string) (body : Value) : Handler :=
  administered (
    let! r := upsert_callback (ow_parse_url outside) (sv_nonce sv) project_id company_id
                callback_id body in
    ret (answer r)).
Definition create_callback : Value → Handler := put_callback None.
Definition update_callback (callback_id : string) : Value → Handler :=
  put_callback (Some callback_id).
Definition delete_callback (callback_id : string) : Handler :=
  administered (
    let! r := Callbacks.delete_callback project_id company_id callback_id in ret (answer r)).

Definition privacy_export (contact_id : string) : Handler :=
  administered (
    try! export := gets (λ s, privacy_export_contact (app_inner s) project_id company_id
                                contact_id) in
    let! _ := audit_log project_id company_id "privacy.export" "contact" (Some contact_id)
                (json! { "exported" ~> true }) in
    ret (Ok (ok_json export))).
Definition privacy_delete (contact_id : string) : Handler :=
  administered (
    let! r := anonymize_contact project_id company_id contact_id true in ret (answer r)).
Definition privacy_anonymize (contact_id : string) : Handler :=
  administered (
    let! r := anonymize_contact project_id company_id contact_id false in ret (answer r)).

(** ** Simulation *)
Definition simulated (k : Handler) : Handler :=
  try! _ := ensure_dev in authorized "dev:simulate" (λ _, k).

Definition dev_inbound_text (req : SimulateInboundTextRequest) : Handler :=
  simulated (
    let! m := receive_inbound_text project_id company_id req in ret (Ok (ok_json m))).
Definition inbound_media (req : SimulateInboundMediaRequest) : Handler :=
  try! received := try_receive_inbound_media (ow_io outside) project_id company_id req in
  let '(m, media, t) := received in
  ret (Ok (JsonReply 200 (json! { "message" ~> m, "media" ~> media, "transcript" ~> t }))).
Definition dev_inbound_audio (req : SimulateInboundMediaRequest) : Handler :=
  simulated (inbound_media
    (req <| imreq_media_type := Some "audio"%string |>
         <| imreq_mime_type ::= λ v, Some (unwrap_or v "audio/ogg"%string) |>)).
Definition dev_inbound_image (req : SimulateInboundMediaRequest) : Handler :=
  simulated (inbound_media
    (req <| imreq_media_type ::= λ v, Some (unwrap_or v "image"%string) |>
         <| imreq_mime_type ::= λ v, Some (unwrap_or v "image/png"%string) |>)).
Definition dev_receipt (req : ReceiptRequest) : Handler :=
  simulated (
    let! r := update_receipt_with_context (rreq_message_id req) (rreq_receipt_type req) None in
    ret (answer r)).
Definition dev_qr_rotate : Handler :=
  simulated (let! q := rotate_qr "channel_dev" "waiting_qr" in ret (Ok (ok_json q))).

Definition group_event_text (body : Value) : SimulateInboundTextRequest := {|
  itreq_conversation_id := Some (unwrap_or (get_str body "group_id") "120363000000000000@g.us"%string);
  itreq_channel_id := get_str body "channel_id";
  itreq_from_phone_e164 := opt_or (get_str body "from_phone_e164") (Some "+5511999999999"%string);
  itreq_sender_name := opt_or (get_str body "sender_name") (get_str body "member_name");
  itreq_profile_picture_url := get_str body "profile_picture_url";
  itreq_text := unwrap_or (get_str body "text") "Mensagem de grupo simulada" |}.
Definition dev_group_event (body : Value) : Handler :=
  simulated (
    let req := group_event_text body in
    let! m := receive_inbound_text project_id company_id req in
    ret (Ok (JsonReply 200 (json! { "event" ~> "group.updated"%string,
                                    "group_id" ~> itreq_conversation_id req,
                                    "message" ~> m })))).
Definition dev_reset : Handler :=
  simulated (reset_dev;;; ret (Ok (JsonReply 200 (json! { "reset" ~> true })))).
End handlers.
