(* ===== verification/Router.v ===== *)
(** * The router (src/routes.rs, [build_router])

    The table of the routes, and the handler of each endpoint. *)
From S2P Require Import Prelude Text Json Errors Env Secrets Config Models Store Wire.
From S2P Require Import Queries WhatsappEvents Routes.

Inductive Method := GET | POST | PATCH | DELETE.
#[export] Instance Method_eq_dec : EqDecision Method.
Proof. solve_decision. Defined.

(** ** Endpoints, with the identifiers of their paths *)
Inductive CompanyEndpoint :=
| GetCompany
| CreateChannelAccount
| ConnectChannel (channel_id : string)
| DisconnectChannel (channel_id : string)
| GetChannel (channel_id : string)
| GetQr (channel_id : string)
| PairCode (channel_id : string)
| Capabilities (channel_id : string)
| ListContacts
| GetContactByPhone (phone_e164 : string)
| GetContact (contact_id : string)
| ContactMedia (contact_id : string)
| ContactConversations (contact_id : string)
| ListConversations
| GetConversation (conversation_id : string)
| PatchConversation (conversation_id : string)
| ListMessages (conversation_id : string)
| SendMessage (conversation_id : string)
| SearchMessages (conversation_id : string)
| ConversationMedia (conversation_id : string)
| ConversationStarred (conversation_id : string)
| MarkRead (conversation_id : string)
| Typing (conversation_id : string)
| GetMessage (message_id : string)
| ReactMessage (message_id : string)
| DeleteReactMessage (message_id : string)
| PinMessage (message_id : string)
| UnpinMessage (message_id : string)
| StarMessage (message_id : string)
| UnstarMessage (message_id : string)
| UploadOutbound
| GetMedia (media_id : string)
| DeleteMedia (media_id : string)
| DownloadUrl (media_id : string)
| SaveMedia (media_id : string)
| GetTranscript (message_id : string)
| TranscribeMessage (message_id : string)
| ListGroups
| GetGroup (group_id : string)
| GroupMembers (group_id : string)
| AddGroupMember (group_id : string)
| GroupMedia (group_id : string)
| GroupStarred (group_id : string)
| GroupSearch (group_id : string)
| GroupExit (group_id : string)
| RemoveGroupMember (group_id contact_id : string)
| PromoteGroupMember (group_id contact_id : string)
| DemoteGroupMember (group_id contact_id : string)
| AcceptJoinRequest (group_id request_id : string)
| RejectJoinRequest (group_id request_id : string)
| ListDirty
| AckDirty (conversation_id : string)
| ListCallbacks
| CreateCallback
| UpdateCallback (callback_id : string)
| DeleteCallback (callback_id : string)
| PrivacyExport (contact_id : string)
| PrivacyDelete (contact_id : string)
| PrivacyAnonymize (contact_id : string)
| DevInboundText
| DevInboundAudio
| DevInboundImage
| DevReceipt
| DevQrRotate
| DevGroupEvent
| DevReset.

Inductive PublicEndpoint :=
| Health
| Ready
| Metrics
| OpenapiJson
| AsyncapiJson
| Docs
| DebugKafka
| DebugKafkaDeadletters
| ReplayKafkaDeadletter (deadletter_id : string)
| DebugDirty
| DebugChannels
| DevMediaPreview (media_id : string)
| WebsocketHandler
| CreateCompany.

Inductive Endpoint :=
| Public (endpoint : PublicEndpoint)
| Company (company_id : string) (endpoint : CompanyEndpoint).

(** ** The table *)
(** The segments of a path template; an identifier stands in braces. *)
Inductive Segment := Lit (s : string) | Par.
Definition segment (s : string) : Segment := if starts_with s "{" then Par else Lit s.
Definition template (s : string) : list Segment := segment <$> tail (split "/" s).

Definition pub0 (e : PublicEndpoint) (ids : list string) : option Endpoint :=
  match ids with [] => Some (Public e) | _ => None end.
Definition pub1 (e : string → PublicEndpoint) (ids : list string) : option Endpoint :=
  match ids with [a] => Some (Public (e a)) | _ => None end.
Definition at0 (e : CompanyEndpoint) (ids : list string) : option Endpoint :=
  match ids with [c] => Some (Company c e) | _ => None end.
Definition at1 (e : string → CompanyEndpoint) (ids : list string) : option Endpoint :=
  match ids with [c; a] => Some (Company c (e a)) | _ => None end.
Definition at2 (e : string → string → CompanyEndpoint) (ids : list string) : option Endpoint :=
  match ids with [c; a; b] => Some (Company c (e a b)) | _ => None end.

Definition routes : list (string * list (Method * (list string → option Endpoint))) := [
  ("/health", [(GET, pub0 Health)]);
  ("/ready", [(GET, pub0 Ready)]);
  ("/metrics", [(GET, pub0 Metrics)]);
  ("/openapi.json", [(GET, pub0 OpenapiJson)]);
  ("/asyncapi.json", [(GET, pub0 AsyncapiJson)]);
  ("/docs", [(GET, pub0 Docs)]);
  ("/debug/kafka", [(GET, pub0 DebugKafka)]);
  ("/debug/kafka/deadletters", [(GET, pub0 DebugKafkaDeadletters)]);
  ("/debug/kafka/deadletters/{deadletter_id}/replay", [(POST, pub1 ReplayKafkaDeadletter)]);
  ("/debug/dirty", [(GET, pub0 DebugDirty)]);
  ("/debug/channels", [(GET, pub0 DebugChannels)]);
  ("/dev-media/{media_id}", [(GET, pub1 DevMediaPreview)]);
  ("/ws/v1", [(GET, pub0 WebsocketHandler)]);
  ("/v1/companies", [(POST, pub0 CreateCompany)]);
  ("/v1/companies/{company_id}", [(GET, at0 GetCompany)]);
  ("/v1/companies/{company_id}/channels/whatsapp/accounts", [(POST, at0 CreateChannelAccount)]);
  ("/v1/companies/{company_id}/channels/whatsapp/accounts/{channel_id}/connect", [(POST, at1 ConnectChannel)]);
  ("/v1/companies/{company_id}/channels/whatsapp/accounts/{channel_id}/disconnect", [(POST, at1 DisconnectChannel)]);
  ("/v1/companies/{company_id}/channels/whatsapp/accounts/{channel_id}", [(GET, at1 GetChannel)]);
  ("/v1/companies/{company_id}/channels/whatsapp/accounts/{channel_id}/qr", [(GET, at1 GetQr)]);
  ("/v1/companies/{company_id}/channels/whatsapp/accounts/{channel_id}/pair-code", [(POST, at1 PairCode)]);
  ("/v1/companies/{company_id}/channels/whatsapp/accounts/{channel_id}/capabilities", [(GET, at1 Capabilities)]);
  ("/v1/companies/{company_id}/contacts", [(GET, at0 ListContacts)]);
  ("/v1/companies/{company_id}/contacts/by-phone/{phone_e164}", [(GET, at1 GetContactByPhone)]);
  ("/v1/companies/{company_id}/contacts/{contact_id}", [(GET, at1 GetContact)]);
  ("/v1/companies/{company_id}/contacts/{contact_id}/media", [(GET, at1 ContactMedia)]);
  ("/v1/companies/{company_id}/contacts/{contact_id}/conversations", [(GET, at1 ContactConversations)]);
  ("/v1/companies/{company_id}/conversations", [(GET, at0 ListConversations)]);
  ("/v1/companies/{company_id}/conversations/{conversation_id}", [(GET, at1 GetConversation); (PATCH, at1 PatchConversation)]);
  ("/v1/companies/{company_id}/conversations/{conversation_id}/messages", [(GET, at1 ListMessages); (POST, at1 SendMessage)]);
  ("/v1/companies/{company_id}/conversations/{conversation_id}/search", [(GET, at1 SearchMessages)]);
  ("/v1/companies/{company_id}/conversations/{conversation_id}/media", [(GET, at1 ConversationMedia)]);
  ("/v1/companies/{company_id}/conversations/{conversation_id}/starred", [(GET, at1 ConversationStarred)]);
  ("/v1/companies/{company_id}/conversations/{conversation_id}/mark-read", [(POST, at1 MarkRead)]);
  ("/v1/companies/{company_id}/conversations/{conversation_id}/typing", [(POST, at1 Typing)]);
  ("/v1/companies/{company_id}/messages/{message_id}", [(GET, at1 GetMessage)]);
  ("/v1/companies/{company_id}/messages/{message_id}/react", [(POST, at1 ReactMessage); (DELETE, at1 DeleteReactMessage)]);
  ("/v1/companies/{company_id}/messages/{message_id}/pin", [(POST, at1 PinMessage); (DELETE, at1 UnpinMessage)]);
  ("/v1/companies/{company_id}/messages/{message_id}/star", [(POST, at1 StarMessage); (DELETE, at1 UnstarMessage)]);
  ("/v1/companies/{company_id}/media/upload-outbound", [(POST, at0 UploadOutbound)]);
  ("/v1/companies/{company_id}/media/{media_id}", [(GET, at1 GetMedia); (DELETE, at1 DeleteMedia)]);
  ("/v1/companies/{company_id}/media/{media_id}/download-url", [(GET, at1 DownloadUrl)]);
  ("/v1/companies/{company_id}/media/{media_id}/save", [(POST, at1 SaveMedia)]);
  ("/v1/companies/{company_id}/messages/{message_id}/transcript", [(GET, at1 GetTranscript)]);
  ("/v1/companies/{company_id}/messages/{message_id}/transcribe", [(POST, at1 TranscribeMessage)]);
  ("/v1/companies/{company_id}/groups", [(GET, at0 ListGroups)]);
  ("/v1/companies/{company_id}/groups/{group_id}", [(GET, at1 GetGroup)]);
  ("/v1/companies/{company_id}/groups/{group_id}/members", [(GET, at1 GroupMembers); (POST, at1 AddGroupMember)]);
  ("/v1/companies/{company_id}/groups/{group_id}/media", [(GET, at1 GroupMedia)]);
  ("/v1/companies/{company_id}/groups/{group_id}/starred", [(GET, at1 GroupStarred)]);
  ("/v1/companies/{company_id}/groups/{group_id}/search", [(GET, at1 GroupSearch)]);
  ("/v1/companies/{company_id}/groups/{group_id}/exit", [(POST, at1 GroupExit)]);
  ("/v1/companies/{company_id}/groups/{group_id}/members/{contact_id}", [(DELETE, at2 RemoveGroupMember)]);
  ("/v1/companies/{company_id}/groups/{group_id}/members/{contact_id}/promote", [(POST, at2 PromoteGroupMember)]);
  ("/v1/companies/{company_id}/groups/{group_id}/members/{contact_id}/demote", [(POST, at2 DemoteGroupMember)]);
  ("/v1/companies/{company_id}/groups/{group_id}/join-requests/{request_id}/accept", [(POST, at2 AcceptJoinRequest)]);
  ("/v1/companies/{company_id}/groups/{group_id}/join-requests/{request_id}/reject", [(POST, at2 RejectJoinRequest)]);
  ("/v1/companies/{company_id}/dirty-conversations", [(GET, at0 ListDirty)]);
  ("/v1/companies/{company_id}/dirty-conversations/{conversation_id}/ack", [(POST, at1 AckDirty)]);
  ("/v1/companies/{company_id}/consumer-callbacks", [(GET, at0 ListCallbacks); (POST, at0 CreateCallback)]);
  ("/v1/companies/{company_id}/consumer-callbacks/{callback_id}", [(PATCH, at1 UpdateCallback); (DELETE, at1 DeleteCallback)]);
  ("/v1/companies/{company_id}/privacy/contacts/{contact_id}/export", [(POST, at1 PrivacyExport)]);
  ("/v1/companies/{company_id}/privacy/contacts/{contact_id}", [(DELETE, at1 PrivacyDelete)]);
  ("/v1/companies/{company_id}/privacy/contacts/{contact_id}/anonymize", [(POST, at1 PrivacyAnonymize)]);
  ("/v1/dev/companies/{company_id}/simulate/inbound-text", [(POST, at0 DevInboundText)]);
  ("/v1/dev/companies/{company_id}/simulate/inbound-audio", [(POST, at0 DevInboundAudio)]);
  ("/v1/dev/companies/{company_id}/simulate/inbound-image", [(POST, at0 DevInboundImage)]);
  ("/v1/dev/companies/{company_id}/simulate/receipt", [(POST, at0 DevReceipt)]);
  ("/v1/dev/companies/{company_id}/simulate/qr-rotate", [(POST, at0 DevQrRotate)]);
  ("/v1/dev/companies/{company_id}/simulate/group-event", [(POST, at0 DevGroupEvent)]);
  ("/v1/dev/companies/{company_id}/simulate/reset", [(POST, at0 DevReset)])]%string.

(** The identifiers of a path that matches; an identifier is not empty. *)
Fixpoint match_path (pat : list Segment) (path : list string) : option (list string) :=
  match pat, path with
  | [], [] => Some []
  | Lit s :: pat, x :: path => if String.eqb s x then match_path pat path else None
  | Par :: pat, x :: path =>
    if String.eqb x "" then None else (λ ids, x :: ids) <$> match_path pat path
  | _, _ => None
  end.

Inductive Routed := Found (endpoint : Endpoint) | MethodNotAllowed | NoRoute.

Definition methods_of {A} (table : list (Method * A)) (m : Method) : option A :=
  snd <$> find (λ e, bool_decide (e.1 = m)) table.
(** The first template that matches decides: of two that match one path the
    table lists the more specific one, which the router prefers, first. *)
Fixpoint route_in (table : list (string * list (Method * (list string → option Endpoint))))
    (m : Method) (path : list string) : Routed :=
  match table with
  | [] => NoRoute
  | (t, methods) :: table =>
    match match_path (template t) path with
    | None => route_in table m path
    | Some ids =>
      match methods_of methods m with
      | None => MethodNotAllowed
      | Some endpoint => match endpoint ids with Some e => Found e | None => NoRoute end
      end
    end
  end.
Definition route : Method → list string → Routed := route_in routes.

(** ** The handler of an endpoint *)
(** What the extractors of the handlers read from a request; a handler looks at
    the parts its signature names. *)
Record Request : Type := mkRequest {
  rq_query : PageQuery;
  rq_json : Value;
  rq_company : CompanyRequest;
  rq_channel : ChannelAccountRequest;
  rq_send : SendMessageRequest;
  rq_ack : DirtyAckRequest;
  rq_text : SimulateInboundTextRequest;
  rq_media : SimulateInboundMediaRequest;
  rq_receipt : ReceiptRequest;
  rq_fields : list (result Field string);
  rq_utf8_error : string → string
}.

Section handle.
Context `{Env} `{Crypto} `{Lowercase}.
Context (sv : Server) (headers : string → option string) (rq : Request).

Definition handle_at (path : ProjectCompanyPath) (endpoint : CompanyEndpoint) : Handler :=
  match endpoint with
  | GetCompany => Routes.get_company headers path
  | CreateChannelAccount => Routes.create_channel_account headers path (rq_channel rq)
  | ConnectChannel channel_id => Routes.connect_channel sv headers path channel_id
  | DisconnectChannel channel_id => Routes.disconnect_channel headers path channel_id
  | GetChannel channel_id => Routes.get_channel headers path channel_id
  | GetQr channel_id => Routes.get_qr headers path channel_id
  | PairCode channel_id => Routes.pair_code headers path channel_id
  | Capabilities channel_id => Routes.capabilities headers path channel_id
  | ListContacts => Routes.list_contacts headers path (rq_query rq)
  | GetContactByPhone phone_e164 => Routes.get_contact_by_phone headers path phone_e164
  | GetContact contact_id => Routes.get_contact sv headers path contact_id
  | ContactMedia contact_id => Routes.contact_media headers path contact_id (rq_query rq)
  | ContactConversations contact_id => Routes.contact_conversations headers path contact_id (rq_query rq)
  | ListConversations => Routes.list_conversations headers path (rq_query rq)
  | GetConversation conversation_id => Routes.get_conversation headers path conversation_id
  | PatchConversation conversation_id => Routes.patch_conversation headers path conversation_id (rq_json rq)
  | ListMessages conversation_id => Routes.list_messages headers path conversation_id (rq_query rq)
  | SendMessage conversation_id => Routes.send_message sv headers path conversation_id (rq_send rq)
  | SearchMessages conversation_id => Routes.search_messages headers path conversation_id (rq_query rq)
  | ConversationMedia conversation_id => Routes.conversation_media headers path conversation_id (rq_query rq)
  | ConversationStarred conversation_id => Routes.conversation_starred headers path conversation_id (rq_query rq)
  | MarkRead conversation_id => Routes.mark_read headers path conversation_id
  | Typing conversation_id => Routes.typing headers path conversation_id
  | GetMessage message_id => Routes.get_message headers path message_id
  | ReactMessage message_id => Routes.react_message sv headers path message_id (rq_json rq)
  | DeleteReactMessage message_id => Routes.delete_react_message sv headers path message_id
  | PinMessage message_id => Routes.pin_message headers path message_id
  | UnpinMessage message_id => Routes.unpin_message headers path message_id
  | StarMessage message_id => Routes.star_message headers path message_id
  | UnstarMessage message_id => Routes.unstar_message headers path message_id
  | UploadOutbound => Routes.upload_outbound sv headers path (rq_utf8_error rq) (rq_fields rq)
  | GetMedia media_id => Routes.get_media sv headers path media_id
  | DeleteMedia media_id => Routes.delete_media sv headers path media_id
  | DownloadUrl media_id => Routes.download_url sv headers path media_id
  | SaveMedia media_id => Routes.save_media sv headers path media_id (rq_json rq)
  | GetTranscript message_id => Routes.get_transcript headers path message_id
  | TranscribeMessage message_id => Routes.transcribe_message sv headers path message_id
  | ListGroups => Routes.list_groups headers path (rq_query rq)
  | GetGroup group_id => Routes.get_group sv headers path group_id
  | GroupMembers group_id => Routes.group_members headers path group_id (rq_query rq)
  | AddGroupMember group_id => Routes.add_group_member sv headers path group_id
  | GroupMedia group_id => Routes.group_media headers path group_id (rq_query rq)
  | GroupStarred group_id => Routes.group_starred headers path group_id (rq_query rq)
  | GroupSearch group_id => Routes.group_search headers path group_id (rq_query rq)
  | GroupExit group_id => Routes.group_exit sv headers path group_id
  | RemoveGroupMember group_id contact_id => Routes.remove_group_member sv headers path group_id contact_id
  | PromoteGroupMember group_id contact_id => Routes.promote_group_member sv headers path group_id contact_id
  | DemoteGroupMember group_id contact_id => Routes.demote_group_member sv headers path group_id contact_id
  | AcceptJoinRequest group_id request_id => Routes.accept_join_request sv headers path group_id request_id
  | RejectJoinRequest group_id request_id => Routes.reject_join_request sv headers path group_id request_id
  | ListDirty => Routes.list_dirty headers path (rq_query rq)
  | AckDirty conversation_id => Routes.ack_dirty headers path conversation_id (rq_ack rq)
  | ListCallbacks => Routes.list_callbacks sv headers path
  | CreateCallback => Routes.create_callback sv headers path (rq_json rq)
  | UpdateCallback callback_id => Routes.update_callback sv headers path callback_id (rq_json rq)
  | DeleteCallback callback_id => Routes.delete_callback sv headers path callback_id
  | PrivacyExport contact_id => Routes.privacy_export sv headers path contact_id
  | PrivacyDelete contact_id => Routes.privacy_delete sv headers path contact_id
  | PrivacyAnonymize contact_id => Routes.privacy_anonymize sv headers path contact_id
  | DevInboundText => Routes.dev_inbound_text headers path (rq_text rq)
  | DevInboundAudio => Routes.dev_inbound_audio sv headers path (rq_media rq)
  | DevInboundImage => Routes.dev_inbound_image sv headers path (rq_media rq)
  | DevReceipt => Routes.dev_receipt headers path (rq_receipt rq)
  | DevQrRotate => Routes.dev_qr_rotate headers path
  | DevGroupEvent => Routes.dev_group_event headers path (rq_json rq)
  | DevReset => Routes.dev_reset headers path
  end.
Definition handle (company_id : string) (endpoint : CompanyEndpoint) : Handler :=
  handle_at (company_path company_id) endpoint.
End handle.
