(* ===== verification/RouterSpec.v ===== *)
(** * What the router promises

    Each endpoint is reached by its method and path, and by nothing else. *)
From S2P Require Import Prelude Text Routes Router.

(** The documented address of an endpoint: its method, the template of its
    path, and the identifiers after the company's. *)
Definition signature (e : CompanyEndpoint) : Method * string * list string :=
  match e with
  | GetCompany => (GET, "/v1/companies/{company_id}", [])
  | CreateChannelAccount => (POST, "/v1/companies/{company_id}/channels/whatsapp/accounts", [])
  | ConnectChannel channel_id => (POST, "/v1/companies/{company_id}/channels/whatsapp/accounts/{channel_id}/connect", [channel_id])
  | DisconnectChannel channel_id => (POST, "/v1/companies/{company_id}/channels/whatsapp/accounts/{channel_id}/disconnect", [channel_id])
  | GetChannel channel_id => (GET, "/v1/companies/{company_id}/channels/whatsapp/accounts/{channel_id}", [channel_id])
  | GetQr channel_id => (GET, "/v1/companies/{company_id}/channels/whatsapp/accounts/{channel_id}/qr", [channel_id])
  | PairCode channel_id => (POST, "/v1/companies/{company_id}/channels/whatsapp/accounts/{channel_id}/pair-code", [channel_id])
  | Capabilities channel_id => (GET, "/v1/companies/{company_id}/channels/whatsapp/accounts/{channel_id}/capabilities", [channel_id])
  | ListContacts => (GET, "/v1/companies/{company_id}/contacts", [])
  | GetContactByPhone phone_e164 => (GET, "/v1/companies/{company_id}/contacts/by-phone/{phone_e164}", [phone_e164])
  | GetContact contact_id => (GET, "/v1/companies/{company_id}/contacts/{contact_id}", [contact_id])
  | ContactMedia contact_id => (GET, "/v1/companies/{company_id}/contacts/{contact_id}/media", [contact_id])
  | ContactConversations contact_id => (GET, "/v1/companies/{company_id}/contacts/{contact_id}/conversations", [contact_id])
  | ListConversations => (GET, "/v1/companies/{company_id}/conversations", [])
  | GetConversation conversation_id => (GET, "/v1/companies/{company_id}/conversations/{conversation_id}", [conversation_id])
  | PatchConversation conversation_id => (PATCH, "/v1/companies/{company_id}/conversations/{conversation_id}", [conversation_id])
  | ListMessages conversation_id => (GET, "/v1/companies/{company_id}/conversations/{conversation_id}/messages", [conversation_id])
  | SendMessage conversation_id => (POST, "/v1/companies/{company_id}/conversations/{conversation_id}/messages", [conversation_id])
  | SearchMessages conversation_id => (GET, "/v1/companies/{company_id}/conversations/{conversation_id}/search", [conversation_id])
  | ConversationMedia conversation_id => (GET, "/v1/companies/{company_id}/conversations/{conversation_id}/media", [conversation_id])
  | ConversationStarred conversation_id => (GET, "/v1/companies/{company_id}/conversations/{conversation_id}/starred", [conversation_id])
  | MarkRead conversation_id => (POST, "/v1/companies/{company_id}/conversations/{conversation_id}/mark-read", [conversation_id])
  | Typing conversation_id => (POST, "/v1/companies/{company_id}/conversations/{conversation_id}/typing", [conversation_id])
  | GetMessage message_id => (GET, "/v1/companies/{company_id}/messages/{message_id}", [message_id])
  | ReactMessage message_id => (POST, "/v1/companies/{company_id}/messages/{message_id}/react", [message_id])
  | DeleteReactMessage message_id => (DELETE, "/v1/companies/{company_id}/messages/{message_id}/react", [message_id])
  | PinMessage message_id => (POST, "/v1/companies/{company_id}/messages/{message_id}/pin", [message_id])
  | UnpinMessage message_id => (DELETE, "/v1/companies/{company_id}/messages/{message_id}/pin", [message_id])
  | StarMessage message_id => (POST, "/v1/companies/{company_id}/messages/{message_id}/star", [message_id])
  | UnstarMessage message_id => (DELETE, "/v1/companies/{company_id}/messages/{message_id}/star", [message_id])
  | UploadOutbound => (POST, "/v1/companies/{company_id}/media/upload-outbound", [])
  | GetMedia media_id => (GET, "/v1/companies/{company_id}/media/{media_id}", [media_id])
  | DeleteMedia media_id => (DELETE, "/v1/companies/{company_id}/media/{media_id}", [media_id])
  | DownloadUrl media_id => (GET, "/v1/companies/{company_id}/media/{media_id}/download-url", [media_id])
  | SaveMedia media_id => (POST, "/v1/companies/{company_id}/media/{media_id}/save", [media_id])
  | GetTranscript message_id => (GET, "/v1/companies/{company_id}/messages/{message_id}/transcript", [message_id])
  | TranscribeMessage message_id => (POST, "/v1/companies/{company_id}/messages/{message_id}/transcribe", [message_id])
  | ListGroups => (GET, "/v1/companies/{company_id}/groups", [])
  | GetGroup group_id => (GET, "/v1/companies/{company_id}/groups/{group_id}", [group_id])
  | GroupMembers group_id => (GET, "/v1/companies/{company_id}/groups/{group_id}/members", [group_id])
  | AddGroupMember group_id => (POST, "/v1/companies/{company_id}/groups/{group_id}/members", [group_id])
  | GroupMedia group_id => (GET, "/v1/companies/{company_id}/groups/{group_id}/media", [group_id])
  | GroupStarred group_id => (GET, "/v1/companies/{company_id}/groups/{group_id}/starred", [group_id])
  | GroupSearch group_id => (GET, "/v1/companies/{company_id}/groups/{group_id}/search", [group_id])
  | GroupExit group_id => (POST, "/v1/companies/{company_id}/groups/{group_id}/exit", [group_id])
  | RemoveGroupMember group_id contact_id => (DELETE, "/v1/companies/{company_id}/groups/{group_id}/members/{contact_id}", [group_id; contact_id])
  | PromoteGroupMember group_id contact_id => (POST, "/v1/companies/{company_id}/groups/{group_id}/members/{contact_id}/promote", [group_id; contact_id])
  | DemoteGroupMember group_id contact_id => (POST, "/v1/companies/{company_id}/groups/{group_id}/members/{contact_id}/demote", [group_id; contact_id])
  | AcceptJoinRequest group_id request_id => (POST, "/v1/companies/{company_id}/groups/{group_id}/join-requests/{request_id}/accept", [group_id; request_id])
  | RejectJoinRequest group_id request_id => (POST, "/v1/companies/{company_id}/groups/{group_id}/join-requests/{request_id}/reject", [group_id; request_id])
  | ListDirty => (GET, "/v1/companies/{company_id}/dirty-conversations", [])
  | AckDirty conversation_id => (POST, "/v1/companies/{company_id}/dirty-conversations/{conversation_id}/ack", [conversation_id])
  | ListCallbacks => (GET, "/v1/companies/{company_id}/consumer-callbacks", [])
  | CreateCallback => (POST, "/v1/companies/{company_id}/consumer-callbacks", [])
  | UpdateCallback callback_id => (PATCH, "/v1/companies/{company_id}/consumer-callbacks/{callback_id}", [callback_id])
  | DeleteCallback callback_id => (DELETE, "/v1/companies/{company_id}/consumer-callbacks/{callback_id}", [callback_id])
  | PrivacyExport contact_id => (POST, "/v1/companies/{company_id}/privacy/contacts/{contact_id}/export", [contact_id])
  | PrivacyDelete contact_id => (DELETE, "/v1/companies/{company_id}/privacy/contacts/{contact_id}", [contact_id])
  | PrivacyAnonymize contact_id => (POST, "/v1/companies/{company_id}/privacy/contacts/{contact_id}/anonymize", [contact_id])
  | DevInboundText => (POST, "/v1/dev/companies/{company_id}/simulate/inbound-text", [])
  | DevInboundAudio => (POST, "/v1/dev/companies/{company_id}/simulate/inbound-audio", [])
  | DevInboundImage => (POST, "/v1/dev/companies/{company_id}/simulate/inbound-image", [])
  | DevReceipt => (POST, "/v1/dev/companies/{company_id}/simulate/receipt", [])
  | DevQrRotate => (POST, "/v1/dev/companies/{company_id}/simulate/qr-rotate", [])
  | DevGroupEvent => (POST, "/v1/dev/companies/{company_id}/simulate/group-event", [])
  | DevReset => (POST, "/v1/dev/companies/{company_id}/simulate/reset", [])
  end%string.

Fixpoint fill (pat : list Segment) (ids : list string) : list string :=
  match pat, ids with
  | Lit s :: pat, _ => s :: fill pat ids
  | Par :: pat, x :: ids => x :: fill pat ids
  | _, _ => []
  end.
Definition method_of (e : CompanyEndpoint) : Method := (signature e).1.1.
Definition ids_of (e : CompanyEndpoint) : list string := (signature e).2.
Definition path_of (company_id : string) (e : CompanyEndpoint) : list string :=
  fill (template (signature e).1.2) (company_id :: ids_of e).

(** The addresses another template takes: "by-phone" is no contact whose media
    or conversations can be listed, and "upload-outbound" no media object. *)
Definition shadowed (e : CompanyEndpoint) : Prop :=
  match e with
  | ContactMedia id | ContactConversations id => id = "by-phone"%string
  | GetMedia id | DeleteMedia id => id = "upload-outbound"%string
  | _ => False
  end.
Definition nonempty (id : string) : Prop := id ≠ ""%string.

Lemma match_path_fill pat path ids :
  match_path pat path = Some ids → path = fill pat ids ∧ Forall nonempty ids.
Proof.
  revert path ids. induction pat as [|[s|] pat IH]; intros [|x path] ids; simpl; try done.
  - by intros [= <-].
  - destruct (String.eqb_spec s x) as [<-|]; [|done]. intros Hm.
    destruct (IH _ _ Hm) as [-> ?]. done.
  - destruct (String.eqb_spec x ""); [done|]. intros (l & Hm & ->)%fmap_Some.
    destruct (IH _ _ Hm) as [-> ?]. split; [done|]. by constructor.
Qed.

Lemma route_in_found table m path e :
  route_in table m path = Found e →
  ∃ t methods f ids, (t, methods) ∈ table ∧ (m, f) ∈ methods
    ∧ f ids = Some e ∧ path = fill (template t) ids ∧ Forall nonempty ids.
Proof.
  induction table as [|[t methods] table IH]; simpl; [done|].
  destruct (match_path (template t) path) as [ids|] eqn:Hp.
  - unfold methods_of. destruct (find _ methods) as [[m' f]|] eqn:Hf; simpl; [|done].
    destruct (f ids) as [e'|] eqn:He; [|done]. intros [= ->].
    destruct (match_path_fill _ _ _ Hp) as [Hfill Hids].
    apply find_Some in Hf as [Hin Hm%bool_decide_eq_true]. simpl in Hm. subst m'.
    exists t, methods, f, ids. by repeat (split; [solve [left|done]|]).
  - intros (t' & ms & f & ids & Hin & Hrest)%IH. exists t', ms, f, ids. split; [by right|done].
Qed.

(** Each entry of the table is the address of its endpoint. *)
Definition addresses (entry : string * list (Method * (list string → option Endpoint))) : Prop :=
  ∀ m f ids c e, (m, f) ∈ entry.2 → f ids = Some (Company c e) →
    m = method_of e ∧ template entry.1 = template (signature e).1.2 ∧ ids = c :: ids_of e.
Ltac address_tac :=
  intros m f ids c e; cbn [fst snd]; rewrite ?elem_of_cons; intros Hin Hf;
  repeat destruct Hin as [[= -> ->]|Hin]; try (by apply elem_of_nil in Hin);
  unfold pub0, pub1, at0, at1, at2 in Hf; repeat case_match; by simplify_eq.
Lemma routes_addresses : Forall addresses routes.
Proof.
  unfold routes. repeat (apply List.Forall_cons; [address_tac|]). apply List.Forall_nil.
Qed.

Lemma route_sound m path c e :
  route m path = Found (Company c e) →
  m = method_of e ∧ path = path_of c e ∧ Forall nonempty (c :: ids_of e).
Proof.
  intros (t & methods & f & ids & Hin & Hm & Hf & -> & Hids)%route_in_found.
  pose proof routes_addresses as Hall. rewrite Forall_forall in Hall.
  destruct (Hall _ Hin m f ids c e Hm Hf) as (-> & Ht & ->). simpl in Ht.
  unfold path_of. by rewrite Ht.
Qed.

(** The comparisons of an identifier with a segment of another template. *)
Ltac compared lit x :=
  let E := fresh in
  destruct (String.eqb_spec lit x) as [E|E];
  [first [congruence | rewrite <- E; vm_compute; reflexivity]
  |apply String.eqb_neq in E; vm_compute in E; vm_compute; by rewrite E].

Lemma route_complete c e :
  Forall nonempty (c :: ids_of e) → ¬ shadowed e →
  route (method_of e) (path_of c e) = Found (Company c e).
Proof.
  intros Hids Hs. inversion Hids as [|? ? Hc Hi]; subst. destruct c as [|a c]; [done|].
  destruct e; cbn in Hi;
    repeat match goal with
    | H : Forall nonempty (?x :: _) |- _ =>
      inversion H; subst; clear H; destruct x; [done|]
    end; cbn in Hs; try solve [vm_compute; reflexivity].
  all: lazymatch goal with
    | |- context [GetContact ?x] => compared "by-phone"%string x
    | |- context [ContactMedia ?x] => compared "by-phone"%string x
    | |- context [ContactConversations ?x] => compared "by-phone"%string x
    | |- context [GetMedia ?x] => compared "upload-outbound"%string x
    | |- context [DeleteMedia ?x] => compared "upload-outbound"%string x
    | |- context [DownloadUrl ?x] => compared "upload-outbound"%string x
    | |- context [SaveMedia ?x] => compared "upload-outbound"%string x
    end.
Qed.

Lemma route_shadowed c e :
  shadowed e → Forall nonempty (c :: ids_of e) →
  route (method_of e) (path_of c e) ≠ Found (Company c e).
Proof.
  intros Hs Hids Hr. inversion Hids as [|? ? Hc Hi]; subst. destruct c as [|a c]; [done|].
  destruct e; try done; cbn in Hs; subst; vm_compute in Hr; discriminate.
Qed.

(** C14. The router answers an endpoint of a company exactly at its address, unless
    an identifier is empty or another template takes the address. *)
Theorem route_addresses m path c e :
  route m path = Found (Company c e) ↔
  m = method_of e ∧ path = path_of c e ∧ Forall nonempty (c :: ids_of e) ∧ ¬ shadowed e.
Proof.
  split; [|intros (-> & -> & Hids & Hs); by apply route_complete].
  intros Hr. destruct (route_sound _ _ _ _ Hr) as (-> & -> & Hids).
  split_and!; [done..|]. intros Hs. by apply (route_shadowed c e Hs Hids).
Qed.
