(* ===== verification/Openapi.v ===== *)
(** * The documents of the interface (src/routes.rs, [openapi_json] and
    [asyncapi_json])

    The OpenAPI document is built as the code builds it: a literal, the paths
    added to it, the schemas, and the responses every operation gets.  A handler
    of the document reads nothing. *)
From S2P Require Import Prelude Text Json.

#[local] Open Scope string_scope.
#[local] Open Scope Z_scope.
#[local] Open Scope list_scope.

(** ** Parts of the documents *)
Definition path_parameter (name : string) : Value :=
  json! {
    "name" ~> name,
    "in" ~> "path",
    "required" ~> true,
    "schema" ~> json! { "type" ~> "string" } }.
Definition query_parameter (name kind : string) (required : bool) (description : string) : Value :=
  json! {
    "name" ~> name,
    "in" ~> "query",
    "required" ~> required,
    "description" ~> description,
    "schema" ~> json! { "type" ~> kind } }.
Definition idempotency_header_parameter : Value :=
  json! {
    "name" ~> "Idempotency-Key",
    "in" ~> "header",
    "required" ~> true,
    "description" ~> "Stable command key. Replays with the same JSON body return the same command result; a different body returns 409.",
    "schema" ~> json! { "type" ~> "string" } }.
Definition json_request_body (schema_ref : string) : Value :=
  json! {
    "required" ~> true,
    "content" ~> json! {
      "application/json" ~> json! { "schema" ~> json! { "$ref" ~> schema_ref } } } }.
Definition ok_response (description : string) (schema_ref : option string) : Value :=
  match schema_ref with
  | Some schema_ref => json! {
      "description" ~> description,
      "content" ~> json! {
        "application/json" ~> json! { "schema" ~> json! { "$ref" ~> schema_ref } } } }
  | None => json! { "description" ~> description }
  end.
Definition error_response (description : string) : Value :=
  json! {
    "description" ~> description,
    "content" ~> json! {
      "application/json" ~> json! {
        "schema" ~> json! { "$ref" ~> "#/components/schemas/ErrorEnvelope" } } } }.
Definition common_event_properties : Value :=
  json! {
    "event_id" ~> json! { "type" ~> "string" },
    "event_type" ~> json! { "type" ~> "string" },
    "project_id" ~> json! { "type" ~> "string" },
    "company_id" ~> json! { "type" ~> "string" },
    "channel_id" ~> json! { "type" ~> ["string"; "null"] },
    "conversation_id" ~> json! { "type" ~> ["string"; "null"] },
    "message_id" ~> json! { "type" ~> ["string"; "null"] },
    "conversation_seq" ~> json! { "type" ~> ["integer"; "null"], "format" ~> "int64" },
    "trace_id" ~> json! { "type" ~> "string" },
    "causation_id" ~> json! { "type" ~> ["string"; "null"] },
    "correlation_id" ~> json! { "type" ~> "string" },
    "occurred_at" ~> json! { "type" ~> "string", "format" ~> "date-time" },
    "produced_at" ~> json! { "type" ~> "string", "format" ~> "date-time" },
    "payload" ~> json! {
      "type" ~> "object",
      "description" ~> "Compact event-specific metadata. Raw media bytes, full transcripts, and full message history are not allowed." } }.

(** ** The OpenAPI document *)
(** The literal: its schemas and its paths. *)
Definition initial_schemas : Value :=
  json! {
    "ErrorEnvelope" ~> json! {
      "type" ~> "object",
      "required" ~> ["error"],
      "properties" ~> json! {
        "error" ~> json! {
          "type" ~> "object",
          "required" ~> ["code"; "message"; "details"; "request_id"],
          "properties" ~> json! {
            "code" ~> json! { "type" ~> "string" },
            "message" ~> json! { "type" ~> "string" },
            "details" ~> json! { "type" ~> "object" },
            "request_id" ~> json! { "type" ~> "string" } } } } },
    "PaginatedResponse" ~> json! {
      "type" ~> "object",
      "properties" ~> json! {
        "items" ~> json! { "type" ~> "array", "items" ~> json! {} },
        "next_cursor" ~> json! { "type" ~> ["string"; "null"] },
        "has_more" ~> json! { "type" ~> "boolean" },
        "total" ~> json! { "type" ~> "integer" } } } }.
Definition initial_paths : list (string * Value) := [
  ("/health", json! { "get" ~> json! { "summary" ~> "Liveness" } });
  ("/ready", json! { "get" ~> json! { "summary" ~> "Readiness" } });
  ("/ws/v1", json! { "get" ~> json! { "summary" ~> "WebSocket events" } });
  ("/v1/companies/{company_id}/contacts", json! {
    "get" ~> json! {
      "summary" ~> "List contacts",
      "parameters" ~> [json! { "name" ~> "limit", "in" ~> "query" };
       json! { "name" ~> "cursor", "in" ~> "query" }] } });
  ("/v1/companies/{company_id}/contacts/{contact_id}",
   json! { "get" ~> json! { "summary" ~> "Inspect contact" } });
  ("/v1/companies/{company_id}/contacts/{contact_id}/media", json! {
    "get" ~> json! {
      "summary" ~> "List contact media",
      "parameters" ~> [json! { "name" ~> "limit", "in" ~> "query" };
       json! { "name" ~> "cursor", "in" ~> "query" }] } });
  ("/v1/companies/{company_id}/contacts/{contact_id}/conversations", json! {
    "get" ~> json! {
      "summary" ~> "List contact conversations",
      "parameters" ~> [json! { "name" ~> "limit", "in" ~> "query" };
       json! { "name" ~> "cursor", "in" ~> "query" }] } });
  ("/v1/companies/{company_id}/conversations", json! {
    "get" ~> json! {
      "summary" ~> "List conversations",
      "parameters" ~> [json! { "name" ~> "limit", "in" ~> "query" };
       json! { "name" ~> "cursor", "in" ~> "query" }] } });
  ("/v1/companies/{company_id}/conversations/{conversation_id}/messages", json! {
    "get" ~> json! { "summary" ~> "Read messages by cursor" },
    "post" ~> json! { "summary" ~> "Send idempotent message" } });
  ("/v1/companies/{company_id}/conversations/{conversation_id}/search", json! {
    "get" ~> json! {
      "summary" ~> "Search conversation messages",
      "parameters" ~> [json! { "name" ~> "q", "in" ~> "query" };
       json! { "name" ~> "limit", "in" ~> "query" };
       json! { "name" ~> "cursor", "in" ~> "query" }] } });
  ("/v1/companies/{company_id}/conversations/{conversation_id}/media", json! {
    "get" ~> json! {
      "summary" ~> "List conversation media",
      "parameters" ~> [json! { "name" ~> "limit", "in" ~> "query" };
       json! { "name" ~> "cursor", "in" ~> "query" }] } });
  ("/v1/companies/{company_id}/conversations/{conversation_id}/starred", json! {
    "get" ~> json! {
      "summary" ~> "List starred conversation messages",
      "parameters" ~> [json! { "name" ~> "limit", "in" ~> "query" };
       json! { "name" ~> "cursor", "in" ~> "query" }] } });
  ("/v1/companies/{company_id}/groups", json! {
    "get" ~> json! {
      "summary" ~> "List groups",
      "parameters" ~> [json! { "name" ~> "limit", "in" ~> "query" };
       json! { "name" ~> "cursor", "in" ~> "query" }] } });
  ("/v1/companies/{company_id}/groups/{group_id}",
   json! { "get" ~> json! { "summary" ~> "Inspect group" } });
  ("/v1/companies/{company_id}/groups/{group_id}/members", json! {
    "get" ~> json! {
      "summary" ~> "List group members",
      "parameters" ~> [json! { "name" ~> "limit", "in" ~> "query" };
       json! { "name" ~> "cursor", "in" ~> "query" }] } });
  ("/v1/companies/{company_id}/groups/{group_id}/media", json! {
    "get" ~> json! {
      "summary" ~> "List group media",
      "parameters" ~> [json! { "name" ~> "limit", "in" ~> "query" };
       json! { "name" ~> "cursor", "in" ~> "query" }] } });
  ("/v1/companies/{company_id}/groups/{group_id}/starred", json! {
    "get" ~> json! {
      "summary" ~> "List starred group messages",
      "parameters" ~> [json! { "name" ~> "limit", "in" ~> "query" };
       json! { "name" ~> "cursor", "in" ~> "query" }] } });
  ("/v1/companies/{company_id}/groups/{group_id}/search", json! {
    "get" ~> json! {
      "summary" ~> "Search group messages",
      "parameters" ~> [json! { "name" ~> "q", "in" ~> "query" };
       json! { "name" ~> "limit", "in" ~> "query" };
       json! { "name" ~> "cursor", "in" ~> "query" }] } });
  ("/v1/companies/{company_id}/dirty-conversations",
   json! { "get" ~> json! { "summary" ~> "List compact dirty signals" } });
  ("/v1/companies/{company_id}/consumer-callbacks", json! {
    "get" ~> json! { "summary" ~> "List persisted callbacks" },
    "post" ~> json! { "summary" ~> "Create persisted callback" } });
  ("/v1/companies/{company_id}/privacy/contacts/{contact_id}/export",
   json! { "post" ~> json! { "summary" ~> "Export contact privacy data" } });
  ("/v1/companies/{company_id}/privacy/contacts/{contact_id}", json! {
    "delete" ~> json! { "summary" ~> "Delete and redact contact privacy data" } });
  ("/v1/companies/{company_id}/privacy/contacts/{contact_id}/anonymize",
   json! { "post" ~> json! { "summary" ~> "Anonymize contact privacy data" } })].
Definition initial_spec : Value := json! {
  "openapi" ~> "3.1.0",
  "info" ~> json! { "title" ~> "RustZap", "version" ~> "0.1.0" },
  "components" ~> json! { "schemas" ~> initial_schemas },
  "paths" ~> obj_of initial_paths }.

(** [map.entry(k).or_insert(v)] *)
Definition or_insert (k : string) (v : Value) (o : list (string * Value))
  : list (string * Value) :=
  match obj_get k o with Some _ => o | None => obj_insert k v o end.
(** [if let Some(o) = v.get_mut(k).and_then(Value::as_object_mut)] *)
Definition update_object (k : string) (f : list (string * Value) → list (string * Value))
    (v : Value) : Value :=
  match v, get v k ≫= as_object with
  | VObject o, Some child => VObject (obj_insert k (VObject (f child)) o)
  | _, _ => v
  end.
Definition update_entry (k : string) (f : list (string * Value) → list (string * Value))
    (o : list (string * Value)) : list (string * Value) :=
  match obj_get k o ≫= as_object with
  | Some child => obj_insert k (VObject (f child)) o
  | None => o
  end.
(** [v.get_mut(k).and_then(f)] *)
Definition update_object_at (k : string) (f : Value → Value) (v : Value) : Value :=
  match v, get v k with
  | VObject o, Some child => VObject (obj_insert k (f child) o)
  | _, _ => v
  end.
(** [values_mut().filter_map(Value::as_object_mut)] *)
Definition on_objects (f : list (string * Value) → list (string * Value))
    (o : list (string * Value)) : list (string * Value) :=
  (λ kv, (kv.1, match kv.2 with VObject child => VObject (f child) | v => v end)) <$> o.

(** The paths added to those of the literal, unless it has them. *)
Definition added_paths : list (string * Value) := [
  ("/metrics", json! { "get" ~> json! { "summary" ~> "Prometheus metrics" } });
  ("/docs", json! { "get" ~> json! { "summary" ~> "API docs" } });
  ("/debug/kafka", json! { "get" ~> json! { "summary" ~> "Kafka debug" } });
  ("/debug/kafka/deadletters",
   json! { "get" ~> json! { "summary" ~> "List Kafka deadletters" } });
  ("/debug/kafka/deadletters/{deadletter_id}/replay",
   json! { "post" ~> json! { "summary" ~> "Replay Kafka deadletter" } });
  ("/debug/dirty", json! { "get" ~> json! { "summary" ~> "Debug dirty events" } });
  ("/debug/channels", json! { "get" ~> json! { "summary" ~> "Debug channels" } });
  ("/dev-media/{media_id}",
   json! { "get" ~> json! { "summary" ~> "Development media preview" } });
  ("/v1/companies", json! { "post" ~> json! { "summary" ~> "Create company" } });
  ("/v1/companies/{company_id}", json! { "get" ~> json! { "summary" ~> "Get company" } });
  ("/v1/companies/{company_id}/channels/whatsapp/accounts",
   json! { "post" ~> json! { "summary" ~> "Create WhatsApp account" } });
  ("/v1/companies/{company_id}/channels/whatsapp/accounts/{channel_id}",
   json! { "get" ~> json! { "summary" ~> "Get WhatsApp account" } });
  ("/v1/companies/{company_id}/channels/whatsapp/accounts/{channel_id}/connect",
   json! { "post" ~> json! { "summary" ~> "Connect WhatsApp account" } });
  ("/v1/companies/{company_id}/channels/whatsapp/accounts/{channel_id}/disconnect",
   json! { "post" ~> json! { "summary" ~> "Disconnect WhatsApp account" } });
  ("/v1/companies/{company_id}/channels/whatsapp/accounts/{channel_id}/qr",
   json! { "get" ~> json! { "summary" ~> "Get WhatsApp QR" } });
  ("/v1/companies/{company_id}/channels/whatsapp/accounts/{channel_id}/pair-code",
   json! { "post" ~> json! { "summary" ~> "Request pair code" } });
  ("/v1/companies/{company_id}/channels/whatsapp/accounts/{channel_id}/capabilities",
   json! { "get" ~> json! { "summary" ~> "Get channel capabilities" } });
  ("/v1/companies/{company_id}/contacts/by-phone/{phone_e164}",
   json! { "get" ~> json! { "summary" ~> "Get contact by phone" } });
  ("/v1/companies/{company_id}/conversations/{conversation_id}", json! {
    "get" ~> json! { "summary" ~> "Get conversation" },
    "patch" ~> json! { "summary" ~> "Patch conversation" } });
  ("/v1/companies/{company_id}/conversations/{conversation_id}/mark-read",
   json! { "post" ~> json! { "summary" ~> "Mark conversation read" } });
  ("/v1/companies/{company_id}/conversations/{conversation_id}/typing",
   json! { "post" ~> json! { "summary" ~> "Send typing state" } });
  ("/v1/companies/{company_id}/messages/{message_id}",
   json! { "get" ~> json! { "summary" ~> "Get message" } });
  ("/v1/companies/{company_id}/messages/{message_id}/react", json! {
    "post" ~> json! { "summary" ~> "React to message" },
    "delete" ~> json! { "summary" ~> "Delete reaction" } });
  ("/v1/companies/{company_id}/messages/{message_id}/pin", json! {
    "post" ~> json! { "summary" ~> "Pin message" },
    "delete" ~> json! { "summary" ~> "Unpin message" } });
  ("/v1/companies/{company_id}/messages/{message_id}/star", json! {
    "post" ~> json! { "summary" ~> "Star message" },
    "delete" ~> json! { "summary" ~> "Unstar message" } });
  ("/v1/companies/{company_id}/media/upload-outbound",
   json! { "post" ~> json! { "summary" ~> "Upload outbound media" } });
  ("/v1/companies/{company_id}/media/{media_id}", json! {
    "get" ~> json! { "summary" ~> "Get media" },
    "delete" ~> json! { "summary" ~> "Delete media" } });
  ("/v1/companies/{company_id}/media/{media_id}/download-url",
   json! { "get" ~> json! { "summary" ~> "Get media download URL" } });
  ("/v1/companies/{company_id}/media/{media_id}/save",
   json! { "post" ~> json! { "summary" ~> "Save media permanently" } });
  ("/v1/companies/{company_id}/messages/{message_id}/transcript",
   json! { "get" ~> json! { "summary" ~> "Get transcript" } });
  ("/v1/companies/{company_id}/messages/{message_id}/transcribe",
   json! { "post" ~> json! { "summary" ~> "Request transcription" } });
  ("/v1/companies/{company_id}/groups/{group_id}/exit",
   json! { "post" ~> json! { "summary" ~> "Exit group" } });
  ("/v1/companies/{company_id}/groups/{group_id}/members/{contact_id}",
   json! { "delete" ~> json! { "summary" ~> "Remove group member" } });
  ("/v1/companies/{company_id}/groups/{group_id}/members/{contact_id}/promote",
   json! { "post" ~> json! { "summary" ~> "Promote group member" } });
  ("/v1/companies/{company_id}/groups/{group_id}/members/{contact_id}/demote",
   json! { "post" ~> json! { "summary" ~> "Demote group member" } });
  ("/v1/companies/{company_id}/groups/{group_id}/join-requests/{request_id}/accept",
   json! { "post" ~> json! { "summary" ~> "Accept join request" } });
  ("/v1/companies/{company_id}/groups/{group_id}/join-requests/{request_id}/reject",
   json! { "post" ~> json! { "summary" ~> "Reject join request" } });
  ("/v1/companies/{company_id}/dirty-conversations/{conversation_id}/ack",
   json! { "post" ~> json! { "summary" ~> "Ack dirty conversation" } });
  ("/v1/companies/{company_id}/consumer-callbacks/{callback_id}", json! {
    "patch" ~> json! { "summary" ~> "Update callback" },
    "delete" ~> json! { "summary" ~> "Delete callback" } });
  ("/v1/dev/companies/{company_id}/simulate/inbound-text",
   json! { "post" ~> json! { "summary" ~> "Simulate inbound text" } });
  ("/v1/dev/companies/{company_id}/simulate/inbound-audio",
   json! { "post" ~> json! { "summary" ~> "Simulate inbound audio" } });
  ("/v1/dev/companies/{company_id}/simulate/inbound-image",
   json! { "post" ~> json! { "summary" ~> "Simulate inbound image" } });
  ("/v1/dev/companies/{company_id}/simulate/receipt",
   json! { "post" ~> json! { "summary" ~> "Simulate receipt" } });
  ("/v1/dev/companies/{company_id}/simulate/qr-rotate",
   json! { "post" ~> json! { "summary" ~> "Rotate dev QR" } });
  ("/v1/dev/companies/{company_id}/simulate/group-event",
   json! { "post" ~> json! { "summary" ~> "Simulate group event" } });
  ("/v1/dev/companies/{company_id}/simulate/reset",
   json! { "post" ~> json! { "summary" ~> "Reset dev state" } })].
Definition add_openapi_paths (paths : list (string * Value)) : list (string * Value) :=
  foldl (λ paths e, or_insert e.1 e.2 paths) paths added_paths.

Definition added_schemas : list (string * Value) := [
  ("CommonEvent", json! {
    "type" ~> "object",
    "required" ~> ["event_id"; "event_type"; "project_id"; "company_id"; "trace_id";
     "correlation_id"; "occurred_at"; "payload"],
    "properties" ~> common_event_properties });
  ("DirtyAckRequest", json! {
    "type" ~> "object",
    "required" ~> ["consumer_id"; "processed_until_seq"; "lease_token"],
    "properties" ~> json! {
      "consumer_id" ~> json! { "type" ~> "string" },
      "processed_until_seq" ~> json! { "type" ~> "integer", "format" ~> "int64" },
      "lease_token" ~> json! { "type" ~> "string" } } });
  ("DirtyConversationItem", json! {
    "type" ~> "object",
    "required" ~> ["conversation_id"; "max_seq"; "reason"; "priority"; "available_at";
     "lease_token"; "locked_until"],
    "properties" ~> json! {
      "conversation_id" ~> json! { "type" ~> "string" },
      "max_seq" ~> json! { "type" ~> "integer", "format" ~> "int64" },
      "reason" ~> json! { "type" ~> "string" },
      "priority" ~> json! { "type" ~> "integer" },
      "available_at" ~> json! { "type" ~> "string", "format" ~> "date-time" },
      "lease_token" ~> json! { "type" ~> "string" },
      "locked_until" ~> json! { "type" ~> "string", "format" ~> "date-time" } } });
  ("DirtyListResponse", json! {
    "type" ~> "object",
    "required" ~> ["items"],
    "properties" ~> json! {
      "items" ~> json! {
        "type" ~> "array",
        "items" ~> json! { "$ref" ~> "#/components/schemas/DirtyConversationItem" } } } });
  ("Message", json! {
    "type" ~> "object",
    "required" ~> ["id"; "conversation_id"; "conversation_seq"; "direction";
     "message_type"; "status"; "delivery_state"],
    "properties" ~> json! {
      "id" ~> json! { "type" ~> "string" },
      "conversation_id" ~> json! { "type" ~> "string" },
      "conversation_seq" ~> json! { "type" ~> "integer", "format" ~> "int64" },
      "direction" ~> json! { "type" ~> "string" },
      "message_type" ~> json! { "type" ~> "string" },
      "text" ~> json! { "type" ~> ["string"; "null"] },
      "media_id" ~> json! { "type" ~> ["string"; "null"] },
      "status" ~> json! { "type" ~> "string" },
      "delivery_state" ~> json! {
        "type" ~> "string",
        "enum" ~> ["not_applicable"; "pending"; "sent"; "delivered"; "read"; "failed"] } } });
  ("MessagesPage", json! {
    "type" ~> "object",
    "required" ~> ["conversation_id"; "has_more"; "messages"],
    "properties" ~> json! {
      "conversation_id" ~> json! { "type" ~> "string" },
      "from_seq" ~> json! { "type" ~> ["integer"; "null"], "format" ~> "int64" },
      "to_seq" ~> json! { "type" ~> ["integer"; "null"], "format" ~> "int64" },
      "has_more" ~> json! { "type" ~> "boolean" },
      "messages" ~> json! {
        "type" ~> "array",
        "items" ~> json! { "$ref" ~> "#/components/schemas/Message" } } } });
  ("SendMessageRequest", json! {
    "type" ~> "object",
    "required" ~> ["type"],
    "properties" ~> json! {
      "type" ~> json! { "type" ~> "string", "examples" ~> ["text"] },
      "text" ~> json! { "type" ~> ["string"; "null"] },
      "media_id" ~> json! { "type" ~> ["string"; "null"] },
      "caption" ~> json! { "type" ~> ["string"; "null"] },
      "filename" ~> json! { "type" ~> ["string"; "null"] },
      "quoted_message_id" ~> json! { "type" ~> ["string"; "null"] },
      "metadata" ~> json! { "type" ~> ["object"; "null"] } } })].
Definition add_openapi_schemas (spec : Value) : Value :=
  update_object_at "components" (update_object "schemas" (λ schemas,
    foldl (λ schemas e, obj_insert e.1 e.2 schemas) schemas added_schemas)) spec.

(** The responses every operation has. *)
Definition decorate_operation (operation : list (string * Value)) : list (string * Value) :=
  update_entry "responses" (or_insert "default" (error_response "Standard error envelope"))
    (or_insert "responses" (json! { "200" ~> ok_response "OK" None }) operation).

(** The operations that are described in full. *)
Definition read_messages_operation : Value :=
  json! {
    "summary" ~> "Read messages by conversation cursor",
    "parameters" ~> [(path_parameter "company_id");
     (path_parameter "conversation_id");
     (query_parameter "after_seq" "integer" false
        "Return messages after this conversation_seq");
     (query_parameter "before_seq" "integer" false
        "Return messages before this conversation_seq");
     (query_parameter "limit" "integer" false
        "Maximum number of messages to return")],
    "responses" ~> json! {
      "200" ~> (ok_response "Messages page" (Some "#/components/schemas/MessagesPage")),
      "default" ~> (error_response "Standard error envelope") } }.
Definition send_message_operation : Value :=
  json! {
    "summary" ~> "Send an idempotent message command",
    "parameters" ~> [(path_parameter "company_id");
     (path_parameter "conversation_id");
     idempotency_header_parameter],
    "requestBody" ~> (json_request_body "#/components/schemas/SendMessageRequest"),
    "responses" ~> json! {
      "202" ~> (ok_response "Command accepted" None),
      "409" ~> (error_response "Idempotency conflict"),
      "default" ~> (error_response "Standard error envelope") } }.
Definition upload_operation : Value :=
  json! {
    "summary" ~> "Upload outbound media idempotently",
    "parameters" ~> [(path_parameter "company_id"); idempotency_header_parameter],
    "requestBody" ~> json! {
      "required" ~> true,
      "content" ~> json! {
        "multipart/form-data" ~> json! {
          "schema" ~> json! {
            "type" ~> "object",
            "required" ~> ["conversation_id"; "file"],
            "properties" ~> json! {
              "conversation_id" ~> json! { "type" ~> "string" },
              "media_type" ~> json! { "type" ~> "string" },
              "type" ~> json! { "type" ~> "string" },
              "mime_type" ~> json! { "type" ~> "string" },
              "filename" ~> json! { "type" ~> "string" },
              "caption" ~> json! { "type" ~> "string" },
              "file" ~> json! { "type" ~> "string", "format" ~> "binary" } } } } } },
    "responses" ~> json! {
      "200" ~> (ok_response "Uploaded media" None),
      "409" ~> (error_response "Idempotency conflict"),
      "413" ~> (error_response "Payload too large"),
      "default" ~> (error_response "Standard error envelope") } }.
Definition list_dirty_operation : Value :=
  json! {
    "summary" ~> "List compact dirty conversation signals for one consumer",
    "parameters" ~> [(path_parameter "company_id");
     (query_parameter "consumer_id" "string" true
        "Stable backend consumer identifier");
     (query_parameter "limit" "integer" false
        "Maximum number of dirty conversations to lease")],
    "responses" ~> json! {
      "200" ~> (ok_response "Dirty conversation leases"
         (Some "#/components/schemas/DirtyListResponse")),
      "default" ~> (error_response "Standard error envelope") } }.
Definition ack_dirty_operation : Value :=
  json! {
    "summary" ~> "Acknowledge a leased dirty conversation cursor",
    "parameters" ~> [(path_parameter "company_id"); (path_parameter "conversation_id")],
    "requestBody" ~> (json_request_body "#/components/schemas/DirtyAckRequest"),
    "responses" ~> json! {
      "200" ~> (ok_response "Dirty ACK result" None),
      "409" ~> (error_response "Lease conflict"),
      "default" ~> (error_response "Standard error envelope") } }.
Definition asyncapi_path : Value :=
  json! {
    "get" ~> json! {
      "summary" ~> "AsyncAPI event contract",
      "responses" ~> json! {
        "200" ~> (ok_response "AsyncAPI document" None),
        "default" ~> (error_response "Standard error envelope") } } }.

Definition describe_operations (paths : list (string * Value)) : list (string * Value) :=
  let paths := update_entry "/v1/companies/{company_id}/conversations/{conversation_id}/messages"
    (λ messages, obj_insert "post" send_message_operation
                   (obj_insert "get" read_messages_operation messages)) paths in
  let paths := update_entry "/v1/companies/{company_id}/media/upload-outbound"
    (obj_insert "post" upload_operation) paths in
  let paths := update_entry "/v1/companies/{company_id}/dirty-conversations"
    (obj_insert "get" list_dirty_operation) paths in
  let paths := update_entry "/v1/companies/{company_id}/dirty-conversations/{conversation_id}/ack"
    (obj_insert "post" ack_dirty_operation) paths in
  or_insert "/asyncapi.json" asyncapi_path paths.
Definition decorate_openapi_contract (spec : Value) : Value :=
  update_object "paths" (λ paths, describe_operations (on_objects (on_objects decorate_operation) paths))
    (add_openapi_schemas spec).

Definition openapi_json : Value :=
  decorate_openapi_contract (update_object "paths" add_openapi_paths initial_spec).

(** ** The AsyncAPI document *)
Definition asyncapi_message (name : string) (payload_example : Value) : Value :=
  json! {
    "name" ~> name,
    "payload" ~> json! { "$ref" ~> "#/components/schemas/CommonEvent" },
    "examples" ~> [json! {
       "name" ~> (name +:+ " example"),
       "payload" ~> json! {
         "event_id" ~> "evt_00000000000000000000000000",
         "event_type" ~> name,
         "project_id" ~> "rustzap_internal",
         "company_id" ~> "company_123",
         "channel_id" ~> "channel_123",
         "conversation_id" ~> "5511999999999",
         "message_id" ~> "msg_123",
         "conversation_seq" ~> 42,
         "trace_id" ~> "trace_00000000000000000000000000",
         "causation_id" ~> VNull,
         "correlation_id" ~> "corr_00000000000000000000000000",
         "occurred_at" ~> "2026-05-02T00:00:00Z",
         "produced_at" ~> "2026-05-02T00:00:00Z",
         "payload" ~> payload_example } }] }.
Definition asyncapi_channels : Value :=
  json! {
    "conversationDirty" ~> json! {
      "address" ~> "{topic_prefix}.conversation.dirty",
      "messages" ~> json! {
        "conversation.dirty" ~> json! { "$ref" ~> "#/components/messages/conversation.dirty" } } },
    "messageReceipt" ~> json! {
      "address" ~> "{topic_prefix}.delivery.receipt",
      "messages" ~> json! {
        "message.receipt" ~> json! { "$ref" ~> "#/components/messages/message.receipt" } } },
    "channelStatus" ~> json! {
      "address" ~> "{topic_prefix}.channel.status",
      "messages" ~> json! {
        "channel.status" ~> json! { "$ref" ~> "#/components/messages/channel.status" },
        "channel.qr" ~> json! { "$ref" ~> "#/components/messages/channel.qr" } } },
    "groupEvent" ~> json! {
      "address" ~> "{topic_prefix}.group.event",
      "messages" ~> json! {
        "group.updated" ~> json! { "$ref" ~> "#/components/messages/group.updated" } } },
    "mediaStored" ~> json! {
      "address" ~> "{topic_prefix}.media.stored",
      "messages" ~> json! {
        "media.stored" ~> json! { "$ref" ~> "#/components/messages/media.stored" } } },
    "transcriptCompleted" ~> json! {
      "address" ~> "{topic_prefix}.audio.transcribed",
      "messages" ~> json! {
        "transcript.completed" ~> json! { "$ref" ~> "#/components/messages/transcript.completed" } } } }.
Definition asyncapi_operations : Value :=
  json! {
    "consumeConversationDirty" ~> json! {
      "action" ~> "receive",
      "channel" ~> json! { "$ref" ~> "#/channels/conversationDirty" } },
    "consumeMessageReceipt" ~> json! {
      "action" ~> "receive",
      "channel" ~> json! { "$ref" ~> "#/channels/messageReceipt" } },
    "consumeChannelStatus" ~> json! {
      "action" ~> "receive",
      "channel" ~> json! { "$ref" ~> "#/channels/channelStatus" } },
    "consumeGroupEvent" ~> json! {
      "action" ~> "receive",
      "channel" ~> json! { "$ref" ~> "#/channels/groupEvent" } },
    "consumeMediaStored" ~> json! {
      "action" ~> "receive",
      "channel" ~> json! { "$ref" ~> "#/channels/mediaStored" } },
    "consumeTranscriptCompleted" ~> json! {
      "action" ~> "receive",
      "channel" ~> json! { "$ref" ~> "#/channels/transcriptCompleted" } } }.
Definition asyncapi_components : Value :=
  json! {
    "x-partition-keys" ~> json! {
      "conversation" ~> "{project_id}:{company_id}:{conversation_id}",
      "channel" ~> "{project_id}:{company_id}:{channel_id}" },
    "schemas" ~> json! {
      "CommonEvent" ~> json! {
        "type" ~> "object",
        "required" ~> ["event_id"; "event_type"; "project_id"; "company_id"; "trace_id";
         "correlation_id"; "occurred_at"; "payload"],
        "properties" ~> common_event_properties } },
    "messages" ~> json! {
      "conversation.dirty" ~> (asyncapi_message "conversation.dirty"
         json! { "to_seq" ~> 42, "reason" ~> "new_message", "priority" ~> 100 }),
      "message.receipt" ~> (asyncapi_message "message.receipt"
         json! { "message_id" ~> "msg_123", "receipt_type" ~> "delivered", "delivery_state" ~> "delivered" }),
      "channel.status" ~> (asyncapi_message "channel.status"
         json! { "status" ~> "connected", "connected_at" ~> "2026-05-02T00:00:00Z" }),
      "channel.qr" ~> (asyncapi_message "channel.qr" json! { "status" ~> "waiting_qr" }),
      "group.updated" ~> (asyncapi_message "group.updated"
         json! { "group_id" ~> "120363000000000000@g.us" }),
      "media.stored" ~> (asyncapi_message "media.stored"
         json! { "message_id" ~> "msg_123", "media_id" ~> "media_123", "storage_status" ~> "temporary" }),
      "transcript.completed" ~> (asyncapi_message "transcript.completed"
         json! { "message_id" ~> "msg_123", "media_id" ~> "media_123", "transcript_id" ~> "tr_123" }) } }.
Definition asyncapi_json : Value := json! {
  "asyncapi" ~> "3.0.0",
  "info" ~> json! {
    "title" ~> "RustZap M2M Events",
    "version" ~> "0.1.0",
    "description" ~> "Compact Kafka/Redpanda and internal WebSocket notification contract. REST cursor reads remain the source of truth." },
  "servers" ~> json! {
    "redpanda" ~> json! {
      "host" ~> "{brokers}",
      "protocol" ~> "kafka",
      "description" ~> "RustZap to backend-consumer durable signal bus" },
    "internalWebSocket" ~> json! {
      "host" ~> "{rustzap_host}",
      "pathname" ~> "/ws/v1",
      "protocol" ~> "wss",
      "description" ~> "Development/internal diagnostics only; production browsers should use the consumer backend WebSocket." } },
  "channels" ~> asyncapi_channels,
  "operations" ~> asyncapi_operations,
  "components" ~> asyncapi_components }.

Definition quote : string := String (ascii_of_nat 34) "".
(** The page that links to both. *)
Definition docs : string :=
  "<!doctype html><title>RustZap API</title><h1>RustZap API</h1><a href=" +:+ quote
  +:+ "/openapi.json" +:+ quote +:+ ">OpenAPI JSON</a><br><a href=" +:+ quote
  +:+ "/asyncapi.json" +:+ quote +:+ ">AsyncAPI JSON</a>".
