(* ===== verification/OpenapiSpec.v ===== *)
(** * What the documents of the interface say of the program

    The OpenAPI document lists the routes; the JSON the program writes conforms
    to the schemas it publishes; the AsyncAPI document names the topics events
    are published to. *)
From S2P Require Import Prelude Text Json Errors Env Models EventBus Codec Records Wire Paging Routes Router.
From S2P Require Import Openapi Demo.

#[local] Open Scope string_scope.
#[local] Open Scope Z_scope.
#[local] Open Scope list_scope.

(** ** The routes of the document *)
Definition keys_of (v : Value) : list string :=
  match v with VObject o => o.*1 | _ => [] end.
Definition documented : list (string * string) :=
  keys_of (index openapi_json "paths") ≫= λ path,
    (λ m, (m, path)) <$> keys_of (index (index openapi_json "paths") path).

Definition method_name (m : Method) : string :=
  match m with GET => "get" | POST => "post" | PATCH => "patch" | DELETE => "delete" end.
Definition routed : list (string * string) :=
  routes ≫= λ route, (λ e, (method_name e.1, route.1)) <$> route.2.

(** What the document leaves out. *)
Definition undocumented : list (string * string) :=
  [("get", "/openapi.json"); ("post", "/v1/companies/{company_id}/groups/{group_id}/members")].

(** C20. Every operation the document lists is a route, and every route is listed
    but two: the document itself, and the addition of a member to a group. *)
Theorem openapi_lists_routes method path :
  (method, path) ∈ documented ↔ (method, path) ∈ routed ∧ (method, path) ∉ undocumented.
Proof.
  assert (Hd : Forall (λ x, x ∈ routed ∧ x ∉ undocumented) documented)
    by (apply (bool_decide_unpack _); vm_compute; exact I).
  assert (Hr : Forall (λ x, x ∈ undocumented ∨ x ∈ documented) routed)
    by (apply (bool_decide_unpack _); vm_compute; exact I).
  rewrite Forall_forall in Hd, Hr. split; [apply Hd|].
  intros [Hin Hout]. destruct (Hr _ Hin) as [Hu|Hd']; [case (Hout Hu)|exact Hd'].
Qed.

(** ** Conformance to a schema *)
(** The part of JSON Schema the document uses. *)
Definition has_type (t : string) (v : Value) : bool :=
  match v with
  | VNull => bool_decide (t = "null")
  | VBool _ => bool_decide (t = "boolean")
  | VNumber (Float _) => bool_decide (t = "number")
  | VNumber _ => bool_decide (t = "integer" ∨ t = "number")
  | VString _ => bool_decide (t = "string")
  | VArray _ => bool_decide (t = "array")
  | VObject _ => bool_decide (t = "object")
  end.
Definition type_ok (schema v : Value) : bool :=
  match get schema "type" with
  | Some (VString t) => has_type t v
  | Some (VArray ts) => existsb (λ t, match t with VString t => has_type t v | _ => false end) ts
  | _ => true
  end.
Definition required_ok (schema v : Value) : bool :=
  forallb (λ k, match k with VString k => bool_decide (is_Some (get v k)) | _ => false end)
    (default [] (get schema "required" ≫= as_array)).
Definition enum_ok (schema v : Value) : bool :=
  match get schema "enum" ≫= as_array, v with
  | Some l, VString s =>
    existsb (λ x, match x with VString x => String.eqb x s | _ => false end) l
  | Some _, _ => false
  | None, _ => true
  end.

(** [schemas]: the schemas a reference can name; a reference deeper than [n]
    does not conform. *)
Fixpoint conforms (n : nat) (schemas : list (string * Value)) (schema v : Value) : bool :=
  match n with
  | O => false
  | S n =>
    match get_str schema "$ref" with
    | Some r =>
      match find (λ e, String.eqb ("#/components/schemas/" +:+ e.1) r) schemas with
      | Some e => conforms n schemas e.2 v
      | None => false
      end
    | None =>
      type_ok schema v && required_ok schema v && enum_ok schema v
      && forallb (λ e, match get v e.1 with Some x => conforms n schemas e.2 x | None => true end)
           (default [] (get schema "properties" ≫= as_object))
      && match get schema "items", v with
         | Some s, VArray l => forallb (conforms n schemas s) l
         | _, _ => true
         end
    end
  end.

Definition schemas : list (string * Value) := Eval vm_compute in
  default [] (get (index openapi_json "components") "schemas" ≫= as_object).
Definition ref (name : string) : Value := json! { "$ref" ~> ("#/components/schemas/" +:+ name) }.
Definition depth : nat := 7.
Definition conforms_to (name : string) : Value → bool := conforms depth schemas (ref name).

(** ** What the program writes *)
Definition list_of (name : string) : Value := json! { "items" ~> ref name, "type" ~> "array" }.

Lemma json_integer (z : Z) : ∃ n, json z = VNumber n ∧ ∀ b, n ≠ Float b.
Proof.
  unfold json, json_Z. eexists. split; [done|]. intros b. by destruct (bool_decide _).
Qed.
Ltac integer z :=
  let n := fresh "n" in let b := fresh "b" in let Hn := fresh "Hn" in
  destruct (json_integer z) as (n & -> & Hn); destruct n as [?|?|b]; [| |by destruct (Hn b)];
  clear Hn.

(** An optional text. *)
Lemma optional_conforms n (o : option string) :
  conforms (S n) schemas (json! { "type" ~> ["string"; "null"] }) (json o) = true.
Proof. by destruct o. Qed.
Ltac optional o :=
  let E := fresh "E" in let v := fresh "v" in
  pose proof (λ n, optional_conforms n o) as E; revert E; generalize (json o); intros v E;
  specialize (E O); vm_compute in E.
Ltac by_fields := vm_compute; repeat match goal with E : _ = true |- _ => rewrite ?E; clear E end;
  reflexivity.

Section written.
Context `{Env}.

Lemma message_conforms n (m : Message) :
  conforms (S (S (S n))) schemas (ref "Message") (json m) = true.
Proof.
  change (json m) with (json_Message m). unfold json_Message.
  optional (msg_text m). optional (msg_media_id m).
  integer (msg_conversation_seq m); destruct (delivery_state m); by_fields.
Qed.
Lemma dirty_item_conforms n (d : DirtyConversationItem) :
  conforms (S (S (S n))) schemas (ref "DirtyConversationItem") (json d) = true.
Proof.
  change (json d) with (json_DirtyConversationItem d). unfold json_DirtyConversationItem.
  integer (ditem_max_seq d); integer (ditem_priority d); vm_compute; reflexivity.
Qed.

(** An array conforms when its items do. *)
Lemma list_conforms {A} `{ToJson A} name (l : list A) :
  (∀ a, conforms 3 schemas (ref name) (json a) = true) →
  conforms 4 schemas (list_of name) (json l) = true.
Proof.
  intros Ha. change (conforms 4 schemas (list_of name) (json l))
    with (forallb (conforms 3 schemas (ref name)) (json <$> l)).
  apply forallb_forall. intros v Hv. apply list_elem_of_In, list_elem_of_fmap in Hv as (a & -> & _).
  apply Ha.
Qed.
Lemma page_conforms (p : MessagesPage) : conforms_to "MessagesPage" (json p) = true.
Proof.
  change (json p) with (json_MessagesPage p). unfold json_MessagesPage.
  pose proof (list_conforms "Message" (page_messages p) (message_conforms O)) as E.
  revert E. generalize (json (page_messages p)). intros v E. vm_compute in E.
  destruct (page_from_seq p) as [a|], (page_to_seq p) as [b|];
    try change (json (Some a)) with (json a); try change (json (Some b)) with (json b);
    try integer a; try integer b; vm_compute; by rewrite E.
Qed.
Lemma dirty_list_conforms (items : list DirtyConversationItem) :
  conforms_to "DirtyListResponse" (json! { "items" ~> items }) = true.
Proof.
  pose proof (list_conforms "DirtyConversationItem" items (dirty_item_conforms O)) as E.
  revert E. generalize (json items). intros v E. vm_compute in E. vm_compute. by rewrite E.
Qed.
Lemma paginated_conforms (p : Page) : conforms_to "PaginatedResponse" (json p) = true.
Proof.
  assert (E : conforms 4 schemas (json! { "items" ~> json! {}, "type" ~> "array" })
                (json (pg_items p)) = true).
  { change (forallb (conforms 3 schemas (json! {})) (json <$> pg_items p) = true).
    apply forallb_forall. intros v _. vm_compute. reflexivity. }
  change (json p) with (json_Page p). unfold json_Page. revert E.
  generalize (json (pg_items p)). intros v E. vm_compute in E.
  destruct (pg_next_cursor p), (pg_has_more p); vm_compute; by rewrite E.
Qed.
Lemma error_conforms request_id (e : ApiError) :
  conforms_to "ErrorEnvelope" (into_response request_id e).2 = true.
Proof. destruct e; vm_compute; reflexivity. Qed.
Lemma event_conforms (e : CommonEvent) :
  is_Some (as_object (ev_payload e)) → conforms_to "CommonEvent" (json e) = true.
Proof.
  intros Hp. change (json e) with (event_to_value e). unfold event_to_value.
  destruct (ev_payload e) as [| | | | |o]; try by destruct Hp.
  optional (ev_channel_id e). optional (ev_conversation_id e). optional (ev_message_id e).
  optional (ev_causation_id e).
  destruct (ev_conversation_seq e) as [q|];
    [change (json (Some q)) with (json q); integer q|]; by_fields.
Qed.
End written.

(** C21. The documents the handlers and the event stream send conform to the schemas
    the OpenAPI document publishes for them: messages, pages of messages, lists
    of dirty conversations, pages of anything, error envelopes, and events whose
    payload is an object. *)
Theorem documents_conform `{Env} :
  (∀ m : Message, conforms_to "Message" (json m) = true)
  ∧ (∀ p : MessagesPage, conforms_to "MessagesPage" (json p) = true)
  ∧ (∀ items : list DirtyConversationItem,
       conforms_to "DirtyListResponse" (json! { "items" ~> items }) = true)
  ∧ (∀ p : Page, conforms_to "PaginatedResponse" (json p) = true)
  ∧ (∀ request_id e, conforms_to "ErrorEnvelope" (into_response request_id e).2 = true)
  ∧ (∀ e : CommonEvent, is_Some (as_object (ev_payload e)) →
       conforms_to "CommonEvent" (json e) = true).
Proof.
  split_and!; [apply message_conforms|apply page_conforms|apply dirty_list_conforms
              |apply paginated_conforms|apply error_conforms|apply event_conforms].
Qed.

(** ** Topics *)
(** The address and the message names of each channel of the document. *)
Definition channels : list (string * list string) :=
  (λ e, (unwrap_or (get_str e.2 "address") "", keys_of (index e.2 "messages")))
    <$> default [] (get asyncapi_json "channels" ≫= as_object).

(** The AsyncAPI document gives each event it describes the topic the event is
    published to, but for one: no topic is made for an event of the type
    channel.status, which goes where unknown types go. *)
Theorem asyncapi_names_topics address names name :
  (address, names) ∈ channels → name ∈ names →
  address = "{topic_prefix}." +:+ topic_suffix name
  ∨ name = "channel.status" ∧ topic_suffix name = "raw.inbound".
Proof.
  assert (Hc : Forall (λ c, Forall (λ name, c.1 = "{topic_prefix}." +:+ topic_suffix name
      ∨ name = "channel.status" ∧ topic_suffix name = "raw.inbound") c.2) channels)
    by (apply (bool_decide_unpack _); vm_compute; exact I).
  intros Hin Hname. rewrite Forall_forall in Hc. specialize (Hc _ Hin).
  rewrite Forall_forall in Hc. by apply Hc.
Qed.

Lemma documents_conform_witness :
  let event := mkCommonEvent "e" "conversation.dirty" "p" "c" None None None None "t" None "r" 0 0
                 (json! { "dirty_reason" ~> "new_message" }) in
  conforms_to "CommonEvent" (@event_to_value demo_env event) = true.
Proof. pose proof (@documents_conform demo_env) as (_ & _ & _ & _ & _ & H). apply H. by eexists. Defined.

Lemma asyncapi_names_topics_witness :
  "{topic_prefix}.delivery.receipt" = "{topic_prefix}." +:+ topic_suffix "message.receipt"
  ∨ "message.receipt" = "channel.status" ∧ topic_suffix "message.receipt" = "raw.inbound".
Proof.
  apply (asyncapi_names_topics _ ["message.receipt"]); [|by left].
  apply (bool_decide_unpack _). vm_compute. exact I.
Defined.
