(* ===== verification/Websocket.v ===== *)
(** * The event stream (src/routes.rs, [websocket_session])

    A connection holds the tenant it subscribed to and a receiver of the
    broadcast channel.  Each turn of its loop takes a message of the client or
    an event of the channel; other activity of the process comes in between. *)
From S2P Require Import Prelude Text Json Errors Env Config Security Models Jid Records.
From S2P Require Import EventBus Whatsapp Store Codec Wire Queries Demo.

(** [enforce_principal_tenant]: the principal is trusted for every tenant. *)
Definition enforce_principal_tenant (principal : Principal) (project_id : string)
    (company_id : option string) : result unit ApiError := Ok tt.

Definition event_matches_tenant (event : CommonEvent) (project_id company_id : string) : bool :=
  bool_decide (ev_project_id event = project_id) && bool_decide (ev_company_id event = company_id).
Definition principal_authorizes_event (principal : Principal) (event : CommonEvent) : bool :=
  is_ok (enforce_principal_tenant principal (ev_project_id event) (Some (ev_company_id event))).

(** ** Frames *)
Inductive Frame :=
| FrSubscribed (sub : SubscribeRequest) (events : list CommonEvent)
| FrEvent (event : CommonEvent)
| FrLagged (skipped : nat)
| FrError (code message : string).

Definition websocket_error (err : ApiError) : Frame := FrError (code err) (error_message err).

(** The text of a frame. *)
Definition frame_value `{Env} (f : Frame) : Value :=
  match f with
  | FrSubscribed sub events => json! {
      "type" ~> "subscribed"%string,
      "project_id" ~> sub_project_id sub,
      "company_id" ~> sub_company_id sub,
      "topics" ~> sub_topics sub,
      "events" ~> events }
  | FrEvent event => json! { "type" ~> ev_event_type event, "event" ~> event }
  | FrLagged skipped => json! { "type" ~> "events.lagged"%string, "skipped" ~> skipped }
  | FrError code message => json! {
      "type" ~> "error"%string,
      "error" ~> json! { "code" ~> code, "message" ~> message } }
  end.

(** ** A connection *)
(** [ws_next]: the position of the receiver in the log of the channel;
    [ws_missed]: the events it had to skip; [ws_frames]: what the client was
    sent. *)
Record Session : Type := mkSession {
  ws_next : nat;
  ws_missed : nat;
  ws_tenant : option (string * string);
  ws_frames : list Frame;
  ws_open : bool
}.
#[export] Instance eta_Session : Eta Session := λ r,
  mkSession (ws_next r) (ws_missed r) (ws_tenant r) (ws_frames r) (ws_open r).

(** The capacity the channel is created with (src/state.rs). *)
Definition CHANNEL_CAPACITY : nat := Z.to_nat 1024.

(** [Receiver::recv], when there is something to receive: a receiver left more
    than the capacity behind skips to the oldest value the channel holds. *)
Inductive Received :=
| RcEvent (event : CommonEvent)
| RcLagged (skipped : nat).
Definition recv (log : list CommonEvent) (next : nat) : option (Received * nat) :=
  let oldest := (length log - CHANNEL_CAPACITY)%nat in
  if decide (next < oldest)%nat then Some (RcLagged (oldest - next), oldest)
  else (λ event, (RcEvent event, S next)) <$> log !! next.

(** A message of the client, its text parsed as a [SubscribeRequest]. *)
Inductive ClientMessage :=
| WsText (parsed : result SubscribeRequest string)
| WsClose
| WsOther
| WsEnd.

(** The upgrade of a request to a connection. *)
Definition websocket_handler `{Env} (headers : string → option string)
  : result Principal ApiError := authorize headers "websocket:connect".

Section session.
Context `{Env} (principal : Principal).

(** [state.subscribe_events()], when the socket is upgraded. *)
Definition open_session : M Session := gets (λ s,
  mkSession (length (app_events_tx s)) 0 None [] true).

(** [socket.send(..)]: a frame that cannot be sent ends the loop. *)
Definition send_frame (delivered : bool) (f : Frame) (w : Session) : Session :=
  if delivered then w <| ws_frames ::= λ l, l ++ [f] |> else w <| ws_open := false |>.

Definition record_websocket_subscription_metric : M unit := modify (λ s,
  s <| app_metrics ::= (λ m, m <| rm_websocket_subscriptions_total ::= λ n, wrap_u64 (n + 1) |>) |>).

(** The reply to a text message, and the tenant of the connection after it. *)
Definition on_text (parsed : result SubscribeRequest string) (w : Session)
  : M (Frame * Session) :=
  let! config := get_config in
  match parsed with
  | Err err => ret (FrError "bad_request" err, w)
  | Ok sub =>
    if negb (bool_decide (sub_kind sub = "subscribe"))
       || bool_decide (rl_ws_subscriptions_per_connection (cfg_rate_limits config)
                       < Z.of_nat (length (sub_topics sub)))
    then ret (FrError "bad_request" "invalid subscribe request", w)
    else
      match enforce_principal_tenant principal (sub_project_id sub)
              (Some (sub_company_id sub)) with
      | Err err => ret (websocket_error err, w)
      | Ok _ =>
        record_websocket_subscription_metric;;;
        let! inner := get_inner in
        ret (FrSubscribed sub
               (retain_list (λ event,
                  event_matches_tenant event (sub_project_id sub) (sub_company_id sub)
                  && principal_authorizes_event principal event) (events inner)),
             w <| ws_tenant := Some (sub_project_id sub, sub_company_id sub) |>)
      end
  end.

Definition on_client (message : ClientMessage) (delivered : bool) (w : Session) : M Session :=
  match message with
  | WsText parsed =>
    let! r := on_text parsed w in ret (send_frame delivered r.1 r.2)
  | WsClose | WsEnd => ret (w <| ws_open := false |>)
  | WsOther => ret w
  end.

(** An event is only taken once there is a tenant; a failed notice of a lag is
    ignored. *)
Definition on_bus (delivered : bool) (w : Session) : M Session := gets (λ s,
  match ws_tenant w with
  | None => w
  | Some (project_id, company_id) =>
    match recv (app_events_tx s) (ws_next w) with
    | None => w
    | Some (RcEvent event, next) =>
      let w := w <| ws_next := next |> in
      if negb (event_matches_tenant event project_id company_id)
         || negb (principal_authorizes_event principal event)
      then w
      else send_frame delivered (FrEvent event) w
    | Some (RcLagged skipped, next) =>
      let w := w <| ws_next := next |> <| ws_missed ::= λ n, (n + skipped)%nat |> in
      if delivered then w <| ws_frames ::= λ l, l ++ [FrLagged skipped] |> else w
    end
  end).

(** ** The loop, among the other activity of the process *)
Inductive Turn :=
| FromClient (message : ClientMessage) (delivered : bool)
| FromBus (delivered : bool).

Definition websocket_turn (turn : Turn) (w : Session) : M Session :=
  if negb (ws_open w) then ret w else
  match turn with
  | FromClient message delivered => on_client message delivered w
  | FromBus delivered => on_bus delivered w
  end.

(** Other activity only adds to the log of the channel. *)
Inductive stream_step : Session * AppState → Session * AppState → Prop :=
| step_turn w s turn :
    stream_step (w, s) (websocket_turn turn w s)
| step_others w s s' :
    app_events_tx s `prefix_of` app_events_tx s' → stream_step (w, s) (w, s').

Definition streams : Session * AppState → Session * AppState → Prop := rtc stream_step.
End session.
