(* ===== verification/Operator.v ===== *)
(** * The endpoints of the operator and the whole server (src/routes.rs, src/state.rs)

    Health, readiness, metrics and the [/debug] endpoints, over a deployment;
    the preview of development media; and the server: the middleware that
    identifies a request, the router, and the answer as it is sent. *)
From S2P Require Import Prelude Text Json Errors Env Secrets Config Models Security Records.
From S2P Require Import EventBus Codec Tables Database Whatsapp Store Conversations Bytes.
From S2P Require Import Transcripts Callbacks Sending WhatsappEvents Outbox Wire Paging Queries.
From S2P Require Import Routes Router Openapi Websocket.

(** What the outside answers to the probes: whether the session directory can
    be made, the byte store, and the topics the broker lists. *)
Record Probes : Type := mkProbes {
  pb_session_dir : bool;
  pb_io : ByteIo;
  pb_existing_topics : result (list string) EventBusError
}.

(** ** The documents of the operator *)
Record ReadyCheck : Type := mkReadyCheck {
  rc_name : string;
  rc_ok : bool;
  rc_detail : string
}.
#[export] Instance json_ReadyCheck : ToJson ReadyCheck := λ c, json! {
  "name" ~> rc_name c, "ok" ~> rc_ok c, "detail" ~> rc_detail c
}.
Record ReadyResponse : Type := mkReadyResponse {
  rr_ok : bool;
  rr_checks : list ReadyCheck
}.
#[export] Instance json_ReadyResponse : ToJson ReadyResponse := λ r, json! {
  "ok" ~> rr_ok r, "checks" ~> rr_checks r
}.

#[export] Instance json_KafkaDeadLetterRecord : ToJson KafkaDeadLetterRecord := λ r,
  let row := kdr_row r in
  json! {
    "id" ~> kdr_id r,
    "event_id" ~> kd_event_id row,
    "event_type" ~> kd_event_type row,
    "source_topic" ~> kd_source_topic row,
    "original_topic" ~> kd_original_topic row,
    "original_partition" ~> kd_original_partition row,
    "original_offset" ~> kd_original_offset row,
    "partition_key" ~> kd_partition_key row,
    "retry_count" ~> kd_retry_count row,
    "error_code" ~> kd_error_code row,
    "payload_json" ~> kd_payload_json row,
    "first_failed_at" ~> kdr_first_failed_at r,
    "last_failed_at" ~> kdr_last_failed_at r,
    "replayed_at" ~> kdr_replayed_at r,
    "replayed_by" ~> kd_replayed_by row,
    "resolved_at" ~> kdr_resolved_at r,
    "created_at" ~> kdr_created_at r
  }.

Section documents.
Context `{Env}.

#[export] Instance json_DeadLetterEnvelope : ToJson DeadLetterEnvelope := λ d, json! {
  "event" ~> event_to_value (dl_event d),
  "retry_count" ~> dl_retry_count d,
  "first_failed_at" ~> dl_first_failed_at d,
  "last_failed_at" ~> dl_last_failed_at d,
  "error_code" ~> dl_error_code d
}.
#[export] Instance json_EventBusRuntimeSnapshot : ToJson EventBusRuntimeSnapshot := λ s,
  let m := ebs_metrics s in
  json! {
    "mode" ~> ebs_mode s,
    "kafka_required" ~> ebs_kafka_required s,
    "brokers_configured" ~> ebs_brokers_configured s,
    "required_topics" ~> ebs_required_topics s,
    "publish_attempts" ~> bm_publish_attempts m,
    "publish_successes" ~> bm_publish_successes m,
    "publish_failures" ~> bm_publish_failures m,
    "deadletter_attempts" ~> bm_deadletter_attempts m,
    "deadletter_successes" ~> bm_deadletter_successes m,
    "last_topic" ~> bm_last_topic m,
    "last_error" ~> bm_last_error m,
    "recent_deadletters" ~> bm_recent_deadletters m,
    "durable_outbox" ~> ebs_durable_outbox s,
    "outbox_enqueue_observed" ~> bm_outbox_enqueue_observed m
  }.
End documents.

Section operator.
Context `{Env} `{Serde} `{Postgres}.
Context (pb : Probes).

(** ** What [AppState] tells the operator *)
(** [from_config] keeps the pool in the Postgres mode only. *)
Definition metadata_db_handle (config : AppConfig) : bool :=
  bool_decide (cfg_metadata_db config = DbPostgres).
Definition operator_config : W AppConfig := on_app get_config.

Definition metadata_ready : W (result unit string) :=
  let! config := operator_config in
  if metadata_db_handle config then on_db check_ready else ret (Ok tt).

(** [from_config] gives a handle of the Kafka mode its client. *)
Definition event_bus_ready : W EventBusHealth := on_app (gets (λ s,
  let bus := app_event_bus s in
  bus_health (pb_existing_topics pb) bus (bool_decide (bus_mode bus = BusKafka)))).

Definition storage_ready : W ReadyCheck :=
  let! config := operator_config in
  let! r := on_app (ready_check (pb_io pb) (cfg_r2_ready_write_check config)) in
  ret match r with
      | Ok detail => mkReadyCheck "media_storage" true detail
      | Err err => mkReadyCheck "media_storage" false err
      end.

Definition webhook_secret_ready (config : AppConfig) : ReadyCheck :=
  let required := webhook_delivery_enabled (cfg_webhook config) && webhook_signal_enabled config in
  let has_key := bool_decide (is_Some (cfg_secret_master_key config)) in
  {| rc_name := "webhook_secret_key";
     rc_ok := negb required || (has_key && bool_decide (cfg_secret_master_key_error config = None));
     rc_detail :=
       if negb required then "webhook delivery disabled"
       else match cfg_secret_master_key_error config with
            | Some error => error
            | None => if has_key then "secret master key configured"
                      else "RUSTZAP_SECRET_MASTER_KEY missing"
            end |}.

Definition event_bus_snapshot : W EventBusRuntimeSnapshot :=
  on_app (gets (λ s, bus_snapshot (app_event_bus s))).
Definition runtime_metrics_snapshot : W RuntimeMetrics := on_app (gets app_metrics).

(** [err.to_string()] of a database error, as an internal error. *)
Definition internal {A} (r : result A string) : result A ApiError :=
  match r with Ok a => Ok a | Err err => Err (Internal err) end.

(** [limit as i64], [offset as i64] *)
Definition kafka_deadletters (limit offset : Z)
  : W (result (list KafkaDeadLetterRecord) ApiError) :=
  let! config := operator_config in
  if negb (metadata_db_handle config) then ret (Ok [])
  else
    let! r := on_db (list_kafka_deadletters (wrap_i64 limit) (wrap_i64 offset)) in
    ret (internal r).

Definition kafka_outbox_backlog : W (result (option Z) ApiError) :=
  let! config := operator_config in
  if negb (metadata_db_handle config) then ret (Ok None)
  else let! r := on_db outbox_backlog_count in ret (map_result Some (internal r)).

Definition replay_deadletter (deadletter_id replayed_by : string) : W (result string ApiError) :=
  let! config := operator_config in
  if negb (metadata_db_handle config) then
    ret (Err (NotSupported "Kafka deadletter replay requires RUSTZAP_METADATA_DB=postgres"))
  else
    let! r := on_db (replay_kafka_deadletter (cfg_kafka config) deadletter_id replayed_by) in
    ret (let? replayed := internal r in
         ok_or replayed (NotFound "deadletter not found or already replayed")).
(** ** The handlers *)
Section handlers.
Context (headers : string → option string).

Definition health : Reply := JsonReply 200 (json! { "ok" ~> true, "service" ~> "rustzap" }).

Definition metadata_detail (config : AppConfig) (metadata_check : result unit string) : string :=
  match cfg_metadata_db config with
  | DbInMemory => "in-memory dev store"
  | DbPostgres =>
    match cfg_database_url config with
    | None => "DATABASE_URL missing"
    | Some _ =>
      match metadata_check with
      | Ok _ => "postgres ready"
      | Err err => "postgres not ready: " +:+ err
      end
    end
  end.

Definition ready : W ReadyResponse :=
  let! config := operator_config in
  let session_dir_ok := pb_session_dir pb in
  let! metadata_check := metadata_ready in
  let! event_bus_check := event_bus_ready in
  let! storage_check := storage_ready in
  let webhook_secret_check := webhook_secret_ready config in
  let metadata_ok :=
    match cfg_metadata_db config with
    | DbInMemory => true
    | DbPostgres => bool_decide (is_Some (cfg_database_url config)) && is_ok metadata_check
    end in
  ret {| rr_ok := metadata_ok && session_dir_ok && health_ok event_bus_check
                  && rc_ok storage_check && rc_ok webhook_secret_check;
         rr_checks :=
           [mkReadyCheck "metadata_db" metadata_ok (metadata_detail config metadata_check);
            mkReadyCheck "event_bus" (health_ok event_bus_check) (health_detail event_bus_check);
            mkReadyCheck "wa_session_dir" session_dir_ok (cfg_wa_session_sqlite_dir config);
            storage_check; webhook_secret_check] |}.

Definition metric (name : string) (value : Z) : string :=
  name +:+ " " +:+ fmt_Z value +:+ newline.
Definition metrics : W Reply :=
  let! event_bus := event_bus_snapshot in
  let! runtime := runtime_metrics_snapshot in
  let m := ebs_metrics event_bus in
  ret (RawReply 200 "text/plain; charset=utf-8"
    (metric "rustzap_up" 1
     +:+ metric "rustzap_eventbus_publish_attempts" (bm_publish_attempts m)
     +:+ metric "rustzap_eventbus_publish_successes" (bm_publish_successes m)
     +:+ metric "rustzap_eventbus_publish_failures" (bm_publish_failures m)
     +:+ metric "rustzap_eventbus_deadletter_attempts" (bm_deadletter_attempts m)
     +:+ metric "rustzap_eventbus_deadletter_successes" (bm_deadletter_successes m)
     +:+ metric "rustzap_rate_limited_total" (rm_rate_limited_total runtime)
     +:+ metric "rustzap_webhook_delivery_attempts_total"
           (rm_webhook_delivery_attempts_total runtime)
     +:+ metric "rustzap_webhook_delivery_successes_total"
           (rm_webhook_delivery_successes_total runtime)
     +:+ metric "rustzap_stt_requests_total" (rm_stt_requests_total runtime)
     +:+ metric "rustzap_websocket_subscriptions_total"
           (rm_websocket_subscriptions_total runtime))).

Abbreviation Answer := (W (result Reply ApiError)).

(** [authorize(&state.config, &headers, "admin:*")?] *)
Definition operator_only (k : Principal → Answer) : Answer :=
  try! principal := ret (authorize headers "admin:*") in k principal.

Definition debug_kafka : Answer :=
  operator_only (λ _,
    let! config := operator_config in
    let kafka := cfg_kafka config in
    let! sample := on_app (dirty_signal "project" "company" "channel" "conversation" 1 "debug" 1) in
    let! health := event_bus_ready in
    let! runtime := event_bus_snapshot in
    try! outbox_backlog := kafka_outbox_backlog in
    ret (Ok (JsonReply 200 (json! {
      "event_bus" ~> mode_debug (cfg_event_bus config),
      "brokers_configured" ~> bool_decide (is_Some (kafka_brokers kafka)),
      "topic_prefix" ~> kafka_topic_prefix kafka,
      "retry_topic" ~> retry_topic kafka,
      "deadletter_topic" ~> deadletter_topic kafka,
      "required_topics" ~> ebs_required_topics runtime,
      "runtime" ~> runtime,
      "outbox_backlog" ~> outbox_backlog,
      "sample_topic" ~> topic_for_event kafka (ev_event_type sample),
      "sample_partition_key" ~> partition_key sample,
      "raw_media_bytes" ~> event_has_raw_media_bytes sample,
      "health" ~> json! { "ok" ~> health_ok health, "detail" ~> health_detail health },
      "kafka_required" ~> bool_decide (cfg_event_bus config = BusKafka) })))).

(** Without dead letters in the database the list is that of the process. *)
Definition debug_kafka_deadletters (query : PageQuery) : Answer :=
  operator_only (λ _,
    try! offset := ret (page_offset query) in
    try! deadletters := kafka_deadletters (page_limit query) (Z.of_nat offset) in
    if negb (bool_decide (deadletters = [])) then
      ret (Ok (JsonReply 200 (json! {
        "count" ~> length deadletters, "deadletters" ~> deadletters, "source" ~> "postgres" })))
    else
      let! runtime := event_bus_snapshot in
      let recent := bm_recent_deadletters (ebs_metrics runtime) in
      ret (Ok (JsonReply 200 (json! {
        "count" ~> length recent, "deadletters" ~> recent, "source" ~> "runtime" })))).

Definition replay_kafka_deadletter_handler (deadletter_id : string) : Answer :=
  operator_only (λ principal,
    try! event_id := replay_deadletter deadletter_id (prin_api_key_id principal) in
    ret (Ok (JsonReply 200 (json! {
      "replayed" ~> true, "deadletter_id" ~> deadletter_id, "event_id" ~> (event_id : string) })))).

Definition debug_dirty : Answer :=
  operator_only (λ _, on_app (gets (λ s,
    Ok (JsonReply 200 (json! { "events" ~> events (app_inner s) }))))).
Definition debug_channels : Answer :=
  operator_only (λ _, on_app (gets (λ s,
    Ok (JsonReply 200 (json! { "status" ~> "debug-ready",
      "session_dir" ~> cfg_wa_session_sqlite_dir (app_config s) }))))).
End handlers.

(** ** The preview of development media *)
(** The message shown for an object without one. *)
Definition preview_message (m : MediaObject) : Message := {|
  msg_id := "preview";
  msg_project_id := media_project_id m;
  msg_company_id := media_company_id m;
  msg_conversation_id := media_conversation_id m;
  msg_channel_account_id := "channel_dev";
  msg_conversation_seq := 0;
  msg_wa_message_id := None;
  msg_direction := "inbound";
  msg_sender_contact_id := None;
  msg_sender_display_name := None;
  msg_message_type := media_media_type m;
  msg_text := None;
  msg_media_id := Some (media_id m);
  msg_media_url := media_public_url m;
  msg_thumbnail_url := media_thumbnail_url m;
  msg_mime_type := Some (media_mime_type m);
  msg_file_name := media_original_filename m;
  msg_quoted_message_id := None;
  msg_status := media_storage_status m;
  msg_error_message := None;
  msg_is_starred := false;
  msg_is_pinned := false;
  msg_reaction := None;
  msg_sent_by_source := None;
  msg_sent_by_external_user_id := None;
  msg_created_at_wa := media_created_at m;
  msg_created_at := media_created_at m;
  msg_updated_at := media_updated_at m
|}.

Definition text_reply (status : Z) (text : string) : Reply :=
  RawReply status "text/plain; charset=utf-8" text.
Definition dev_media_preview (media_id : string) : M Reply :=
  let! config := get_config in
  if negb (cfg_dev_mode config) then ret (text_reply 403 "dev media preview disabled")
  else
    let! inner := get_inner in
    match media inner media_id with
    | Err _ => ret (text_reply 404 "media not found")
    | Ok m =>
      let shown := unwrap_or (media_message_id m ≫= λ message_id,
                     match message inner message_id with Ok m => Some m | Err _ => None end)
                     (preview_message m) in
      let! blob := media_blob (pb_io pb) media_id in
      ret match blob with
          | Ok (Some (m, bytes)) => RawReply 200 (media_mime_type m) bytes
          | _ => RawReply 200 "image/svg+xml; charset=utf-8" (dev_preview_svg m shown)
          end
    end.
End operator.

(** ** The server *)
(** What axum answers by itself: to a path without a route, to a method a route
    does not have, to the upgrade of a connection, and to a handler whose
    content type is no header value; and the header values it accepts. *)
Record Axum : Type := mkAxum {
  ax_not_found : Reply;
  ax_method_not_allowed : Reply;
  ax_upgrade : Reply;
  ax_bad_header : string → Reply;
  ax_header_value : string → bool
}.

(** [rs_request_id]: the value of [X-Request-Id] and of [X-Correlation-Id]. *)
Record Response : Type := mkResponse {
  rs_reply : Reply;
  rs_request_id : option string
}.

Section server.
Context `{Env} `{Crypto} `{Lowercase} `{Serde} `{Postgres}.
Context (ax : Axum) (pb : Probes) (sv : Server).
Context (headers : string → option string) (rq : Request).

Definition public (endpoint : PublicEndpoint) : W (result Reply ApiError) :=
  match endpoint with
  | Health => ret (Ok health)
  | Ready => let! r := ready pb in ret (Ok (ok_json r))
  | Metrics => let! r := metrics in ret (Ok r)
  | OpenapiJson => ret (Ok (JsonReply 200 openapi_json))
  | AsyncapiJson => ret (Ok (JsonReply 200 asyncapi_json))
  | Docs => ret (Ok (RawReply 200 "text/html; charset=utf-8" docs))
  | DebugKafka => debug_kafka pb headers
  | DebugKafkaDeadletters => debug_kafka_deadletters headers (rq_query rq)
  | ReplayKafkaDeadletter deadletter_id => replay_kafka_deadletter_handler headers deadletter_id
  | DebugDirty => debug_dirty headers
  | DebugChannels => debug_channels headers
  | DevMediaPreview media_id =>
    let! r := on_app (dev_media_preview pb media_id) in ret (Ok r)
  | WebsocketHandler => ret (let? _ := websocket_handler headers in Ok (ax_upgrade ax))
  | CreateCompany => on_app (Routes.create_company headers (rq_company rq))
  end.

Definition dispatch (m : Method) (path : list string) : W (result Reply ApiError) :=
  match route m path with
  | NoRoute => ret (Ok (ax_not_found ax))
  | MethodNotAllowed => ret (Ok (ax_method_not_allowed ax))
  | Found (Public endpoint) => public endpoint
  | Found (Company company_id endpoint) => on_app (Router.handle sv headers rq company_id endpoint)
  end.

(** [IntoResponse], in the scope of a request. *)
Definition respond_with (request_id : string) (r : result Reply ApiError) : Reply :=
  match r with
  | Err e => let '(status, body) := into_response request_id e in JsonReply status body
  | Ok (RawReply status content_type body) =>
    if ax_header_value ax content_type then RawReply status content_type body
    else ax_bad_header ax content_type
  | Ok reply => reply
  end.

Definition given_request_id : option string :=
  opt_filter (λ v, negb (bool_decide (v = ""))) (trim <$> headers "X-Request-Id"%string).
Definition new_request_id : M string := fresh_id "req_".

Definition request_id_middleware (next : W (result Reply ApiError)) : W Response :=
  let! request_id := match given_request_id with
                     | Some id => ret id
                     | None => on_app new_request_id
                     end in
  let! r := next in
  ret (mkResponse (respond_with request_id r)
         (if ax_header_value ax request_id then Some request_id else None)).

Definition serve (m : Method) (path : list string) : W Response :=
  request_id_middleware (dispatch m path).
End server.
