(* ===== verification/WebsocketSpec.v ===== *)
(** * What a connection to the event stream is sent

    Every event it is sent belongs to the tenant it last subscribed to; and as
    long as the receiver keeps up, it is sent every event of the tenant, once
    and in order. *)
From S2P Require Import Prelude Text Json Errors Env Config Security Models Jid Records.
From S2P Require Import EventBus Whatsapp Store Codec Wire Queries Websocket Demo.

(** The tenant a client subscribed to with the frames it got. *)
Definition subscription (f : Frame) : option (string * string) :=
  match f with FrSubscribed sub _ => Some (sub_project_id sub, sub_company_id sub) | _ => None end.
Definition tenant_after (t : option (string * string)) (l : list Frame)
  : option (string * string) := foldl (λ t f, opt_or (subscription f) t) t l.

Definition of_tenant (t : string * string) (event : CommonEvent) : bool :=
  event_matches_tenant event t.1 t.2.

(** What a frame may hold for a client of tenant [t]. *)
Definition frame_ok (t : option (string * string)) (f : Frame) : Prop :=
  match f with
  | FrSubscribed sub events =>
    Forall (λ e, of_tenant (sub_project_id sub, sub_company_id sub) e = true) events
  | FrEvent event => ∃ t', t = Some t' ∧ of_tenant t' event = true
  | FrLagged _ | FrError _ _ => True
  end.
Fixpoint stream_ok (t : option (string * string)) (l : list Frame) : Prop :=
  match l with
  | [] => True
  | f :: l => frame_ok t f ∧ stream_ok (opt_or (subscription f) t) l
  end.

Lemma stream_ok_snoc t l f :
  stream_ok t (l ++ [f]) ↔ stream_ok t l ∧ frame_ok (tenant_after t l) f.
Proof.
  revert t. induction l as [|g l IH]; intros t; simpl; [naive_solver|].
  rewrite IH. unfold tenant_after. simpl. tauto.
Qed.
Lemma tenant_after_snoc t l f :
  tenant_after t (l ++ [f]) = opt_or (subscription f) (tenant_after t l).
Proof. unfold tenant_after. by rewrite foldl_app. Qed.

(** The events a client was sent one by one. *)
Definition pushed (l : list Frame) : list CommonEvent :=
  omap (λ f, match f with FrEvent e => Some e | _ => None end) l.

(** Every subscription was to [t]. *)
Definition subscribed_only (t : string * string) (l : list Frame) : Prop :=
  Forall (λ f, ∀ t', subscription f = Some t' → t' = t) l.

Section spec.
Context `{Env} (principal : Principal).

(** ** What one turn does *)
Inductive effect (log : list CommonEvent) (w : Session) : Session → Prop :=
| eff_none : effect log w w
| eff_close w' :
    ws_frames w' = ws_frames w → ws_open w' = false →
    (ws_next w ≤ length log → ws_next w' ≤ length log)%nat → effect log w w'
| eff_error code message :
    effect log w (w <| ws_frames ::= λ l, l ++ [FrError code message] |>)
| eff_subscribe sub events :
    Forall (λ e, of_tenant (sub_project_id sub, sub_company_id sub) e = true) events →
    effect log w (w <| ws_tenant := Some (sub_project_id sub, sub_company_id sub) |>
                    <| ws_frames ::= λ l, l ++ [FrSubscribed sub events] |>)
| eff_pass t e :
    ws_tenant w = Some t → log !! ws_next w = Some e → of_tenant t e = false →
    effect log w (w <| ws_next ::= S |>)
| eff_push t e :
    ws_tenant w = Some t → log !! ws_next w = Some e → of_tenant t e = true →
    effect log w (w <| ws_next ::= S |> <| ws_frames ::= λ l, l ++ [FrEvent e] |>)
| eff_lag skipped (frames : list Frame) :
    (0 < skipped)%nat →
    frames = [] ∨ frames = [FrLagged skipped] →
    effect log w (w <| ws_next := (length log - CHANNEL_CAPACITY)%nat |>
                    <| ws_missed ::= λ n, (n + skipped)%nat |>
                    <| ws_frames ::= λ l, l ++ frames |>).

Lemma text_effect parsed delivered w s log :
  effect log w (value_of (on_client principal (WsText parsed) delivered w) s).
Proof.
  unfold on_client. rewrite value_of_bind. unfold on_text. rewrite value_of_bind.
  assert (Hsend : ∀ code message, effect log w (send_frame delivered (FrError code message) w)).
  { intros. destruct delivered; [apply eff_error|by apply eff_close]. }
  change (value_of get_config s) with (app_config s).
  destruct parsed as [sub|err]; [|apply Hsend].
  case_match; [apply Hsend|]. simpl.
  destruct delivered; [|by apply eff_close].
  apply eff_subscribe, Forall_forall. intros e He. apply elem_of_retain_list in He as [_ He].
  by rewrite andb_true_r in He.
Qed.

Lemma bus_effect delivered w s :
  (ws_next w ≤ length (app_events_tx s))%nat →
  effect (app_events_tx s) w (value_of (on_bus principal delivered w) s).
Proof.
  intros Hn. unfold on_bus, value_of, gets. cbn [fst].
  destruct (ws_tenant w) as [[p c]|] eqn:Ht; [|apply eff_none].
  unfold recv. case_decide as Hlag.
  - set (k := (length (app_events_tx s) - CHANNEL_CAPACITY)%nat) in *.
    pose proof (eff_lag (app_events_tx s) w (k - ws_next w)) as Hl. fold k in Hl.
    destruct delivered.
    + apply (Hl [FrLagged (k - ws_next w)]); [lia|by right].
    + specialize (Hl []). destruct w. simpl in *. rewrite app_nil_r in Hl.
      apply Hl; [lia|by left].
  - destruct (app_events_tx s !! ws_next w) as [e|] eqn:He; simpl; [|apply eff_none].
    rewrite orb_false_r. destruct (event_matches_tenant e p c) eqn:Hm; simpl.
    + destruct delivered; [by apply (eff_push _ _ (p, c) e)|]. apply eff_close; [done..|].
      simpl. apply lookup_lt_Some in He. lia.
    + by apply (eff_pass _ _ (p, c) e).
Qed.

Lemma turn_effect turn w s :
  (ws_next w ≤ length (app_events_tx s))%nat →
  effect (app_events_tx s) w (value_of (websocket_turn principal turn w) s).
Proof.
  intros Hn. unfold websocket_turn. destruct (ws_open w) eqn:Ho; [|apply eff_none]. simpl.
  destruct turn as [[parsed| | |] delivered|delivered];
    [apply text_effect|by apply eff_close|apply eff_none|by apply eff_close|by apply bus_effect].
Qed.

Lemma turn_log turn w : frame app_events_tx (websocket_turn principal turn w).
Proof.
  unfold websocket_turn, on_client, on_text, record_websocket_subscription_metric, on_bus.
  destruct turn as [[parsed| | |] delivered|delivered]; case_match; frame_tac; intros []; frame_tac.
Qed.

(** ** The invariant of a connection *)
(** What it was sent is the part of the log it went through, filtered. *)
Definition caught_up (start : nat) (log : list CommonEvent) (w : Session) : Prop :=
  ∀ t, ws_open w = true → ws_missed w = 0%nat → subscribed_only t (ws_frames w) →
    (start ≤ ws_next w)%nat
    ∧ pushed (ws_frames w)
      = retain_list (of_tenant t) (take (ws_next w - start) (drop start log)).

Record stream_inv (start : nat) (log : list CommonEvent) (w : Session) : Prop := {
  inv_next : (ws_next w ≤ length log)%nat;
  inv_frames : stream_ok None (ws_frames w);
  inv_tenant : ws_open w = true → ws_tenant w = tenant_after None (ws_frames w);
  inv_pushed : caught_up start log w
}.

Lemma subscribed_only_snoc t l f :
  subscribed_only t (l ++ [f]) ↔
  subscribed_only t l ∧ ∀ t', subscription f = Some t' → t' = t.
Proof. unfold subscribed_only. rewrite Forall_app, Forall_singleton. done. Qed.

Lemma subscribed_tenant t l t' :
  subscribed_only t l → tenant_after None l = Some t' → t' = t.
Proof.
  induction l as [|f l IH] using rev_ind; [done|].
  rewrite subscribed_only_snoc, tenant_after_snoc. intros [Hl Hf].
  destruct (subscription f) eqn:E; simpl; [|by auto]. intros [= <-]. by apply Hf.
Qed.

Lemma pushed_app l k : pushed (l ++ k) = pushed l ++ pushed k.
Proof. unfold pushed. by rewrite omap_app. Qed.
Lemma pushed_events l : pushed (FrEvent <$> l) = l.
Proof. induction l as [|e l IH]; [done|].
  change (pushed (FrEvent <$> e :: l)) with (e :: pushed (FrEvent <$> l)). by rewrite IH. Qed.

(** One more event of the log. *)
Lemma slice_snoc {A} start next (log : list A) e :
  (start ≤ next)%nat → log !! next = Some e →
  take (S next - start) (drop start log) = take (next - start) (drop start log) ++ [e].
Proof.
  intros Hn He. replace (S next - start)%nat with (S (next - start)) by lia.
  apply take_S_r. rewrite lookup_drop. by replace (start + (next - start))%nat with next by lia.
Qed.

(** A turn that takes one event of the log. *)
Lemma caught_up_next start log w e (frames : list Frame) :
  caught_up start log w → log !! ws_next w = Some e →
  (∀ t, subscribed_only t (ws_frames w) → pushed frames = retain_list (of_tenant t) [e]) →
  Forall (λ f, subscription f = None) frames →
  caught_up start log (w <| ws_next ::= S |> <| ws_frames ::= λ l, l ++ frames |>).
Proof.
  intros Hc He Hf Hs t. simpl. intros Ho Hm Hsub.
  assert (Hw : subscribed_only t (ws_frames w)) by (by apply Forall_app in Hsub as [? _]).
  destruct (Hc t Ho Hm Hw) as [Hn Hp]. split; [lia|].
  rewrite (slice_snoc _ _ _ e) by done. by rewrite retain_list_app, <- Hp, <- (Hf t Hw), pushed_app.
Qed.

(** A frame that is not an event. *)
Lemma caught_up_frame start log w w' f :
  caught_up start log w → ws_next w' = ws_next w → ws_missed w' = ws_missed w →
  ws_open w' = ws_open w → ws_frames w' = ws_frames w ++ [f] → pushed [f] = [] →
  caught_up start log w'.
Proof.
  intros Hc En Em Eo Ef Hf t. rewrite En, Em, Eo, Ef. intros Ho Hm [Hs _]%subscribed_only_snoc.
  rewrite pushed_app, Hf, app_nil_r. by apply Hc.
Qed.

Lemma effect_inv start log w w' :
  stream_inv start log w → ws_open w = true → effect log w w' → stream_inv start log w'.
Proof.
  intros [Hn Hf Ht Hp] Ho. specialize (Ht Ho).
  assert (Htake : ∀ t e, ws_tenant w = Some t → ∀ t', subscribed_only t' (ws_frames w) →
    retain_list (of_tenant t') [e] = if of_tenant t e then [e] else []).
  { intros t e Hw t' Hs. rewrite (subscribed_tenant t' _ t Hs) by congruence.
    rewrite retain_list_cons. by destruct (of_tenant t' e). }
  intros [|w1 Efr Hop Hnx|code message|sub events He|t e Hw He Hm|t e Hw He Hm|skipped frames Hpos Hfr].
  - done.
  - constructor; [auto|by rewrite Efr|by rewrite Hop|]. intros t. by rewrite Hop.
  - constructor; simpl; [done|by apply stream_ok_snoc|intros _; by rewrite tenant_after_snoc|].
    by eapply caught_up_frame.
  - constructor; simpl; [done|by apply stream_ok_snoc|intros _; by rewrite tenant_after_snoc|].
    by eapply caught_up_frame.
  - pose proof (lookup_lt_Some _ _ _ He). constructor; simpl; [lia|done..|].
    pose proof (caught_up_next start log w e [] Hp He) as Hc. destruct w. simpl in *.
    rewrite app_nil_r in Hc. apply Hc; [|constructor]. intros t' Hs.
    by rewrite (Htake t e), Hm.
  - pose proof (lookup_lt_Some _ _ _ He).
    constructor; simpl; [lia| |intros _; by rewrite tenant_after_snoc|].
    + apply stream_ok_snoc. split; [done|]. exists t. by rewrite <- Ht.
    + apply (caught_up_next start log w e [FrEvent e]); [done|done| |by repeat constructor].
      intros t' Hs. by rewrite (Htake t e), Hm.
  - constructor; simpl; [lia| | |intros t _ Hm; simpl in Hm; lia].
    + destruct Hfr as [->| ->]; [by rewrite app_nil_r|by apply stream_ok_snoc].
    + intros _. rewrite Ht. destruct Hfr as [->| ->]; [by rewrite app_nil_r|].
      by rewrite tenant_after_snoc.
Qed.

Lemma stream_inv_log start log log' w :
  stream_inv start log w → log `prefix_of` log' → stream_inv start log' w.
Proof.
  intros [Hn Hf Ht Hp] [k ->]. constructor; [rewrite length_app; lia|done..|].
  intros t Ho Hm Hs. destruct (Hp t Ho Hm Hs) as [Hle ->]. split; [done|].
  rewrite drop_app_le by lia. rewrite take_app_le; [done|]. rewrite length_drop. lia.
Qed.

Lemma streams_inv start w s w' s' :
  stream_inv start (app_events_tx s) w → streams principal (w, s) (w', s') →
  stream_inv start (app_events_tx s') w'.
Proof.
  intros Hi Hr. remember (w, s) as a eqn:Ea. remember (w', s') as b eqn:Eb.
  revert w s w' s' Ea Eb Hi. induction Hr as [a|a b c Hstep Hr IH]; intros w s w' s' Ea Eb Hi.
  { congruence. }
  subst a. inversion Hstep as [w0 s0 turn|w0 s0 s1 Hpre]; subst.
  - eapply IH; [apply surjective_pairing|done|].
    change ((websocket_turn principal turn w s).2)
      with (state_of (websocket_turn principal turn w) s).
    rewrite turn_log. destruct (ws_open w) eqn:Ho.
    + eapply effect_inv; [done|done|]. apply turn_effect, Hi.
    + unfold websocket_turn. by rewrite Ho.
  - eapply IH; [done|done|]. by eapply stream_inv_log.
Qed.

Lemma open_inv s : stream_inv (length (app_events_tx s)) (app_events_tx s) (value_of open_session s).
Proof.
  constructor; simpl; [done|done|done|]. intros t _ _ _. simpl. split; [done|].
  by rewrite Nat.sub_diag.
Qed.

(** C17. Whatever the client sends and whatever the process does meanwhile, each
    event a connection is sent belongs to the tenant the client subscribed to
    last, and each subscription is answered with events of its tenant only. *)
Theorem websocket_isolated s w s' :
  streams principal (open_session s) (w, s') → stream_ok None (ws_frames w).
Proof.
  intros Hr. rewrite (surjective_pairing (open_session s)) in Hr.
  eapply inv_frames, streams_inv, Hr. apply open_inv.
Qed.

(** ** Delivery *)
(** [n] turns of the loop that find an event and can send it. *)
Fixpoint drain (n : nat) (w : Session) : M Session :=
  match n with
  | O => ret w
  | S n => let! w := websocket_turn principal (FromBus true) w in drain n w
  end.

Lemma drain_log n w : frame app_events_tx (drain n w).
Proof.
  revert w. induction n as [|n IH]; intros w; simpl; [apply frame_ret|].
  apply frame_bind; [apply turn_log|apply IH].
Qed.

Lemma drain_run t n w s :
  ws_open w = true → ws_tenant w = Some t → length (app_events_tx s) = (ws_next w + n)%nat →
  (n ≤ CHANNEL_CAPACITY)%nat →
  let w' := value_of (drain n w) s in
  ws_next w' = length (app_events_tx s)
  ∧ ws_frames w' = ws_frames w
      ++ (FrEvent <$> retain_list (of_tenant t) (drop (ws_next w) (app_events_tx s))).
Proof.
  revert w. induction n as [|n IH]; intros w Ho Ht Hl Hc; cbn [drain].
  { change (value_of (ret w) s) with w. rewrite drop_ge by lia. split; [lia|].
    by rewrite app_nil_r. }
  destruct (lookup_lt_is_Some_2 (app_events_tx s) (ws_next w)) as [e He]; [lia|].
  rewrite value_of_bind. rewrite (drop_S _ e) by done. destruct t as [p c].
  set (w1 := if of_tenant (p, c) e
             then w <| ws_next ::= S |> <| ws_frames ::= λ l, l ++ [FrEvent e] |>
             else w <| ws_next ::= S |>).
  assert (Hrun : websocket_turn principal (FromBus true) w s = (w1, s)).
  { unfold websocket_turn. rewrite Ho. simpl. unfold on_bus, gets. rewrite Ht. unfold recv.
    rewrite decide_False by lia. rewrite He. simpl. rewrite orb_false_r.
    unfold w1, of_tenant. simpl. rewrite Ht. by destruct (event_matches_tenant e p c). }
  unfold value_of at 2 4, state_of. rewrite Hrun. cbn [fst snd].
  destruct (IH w1) as [-> ->]; [unfold w1; by destruct (of_tenant _ e)..
                               |unfold w1; destruct (of_tenant _ e); simpl; lia|lia|].
  split; [done|]. rewrite retain_list_cons. unfold w1.
  destruct (of_tenant (p, c) e); simpl; [|done]. by rewrite <- app_assoc.
Qed.

(** C18. A connection that never fell behind the channel was sent, once and in
    order, the events of its tenant in the part of the log it went through; and
    as many turns as events wait bring it to the end of the log: then it was
    sent every event of the tenant broadcast since it was opened. *)
Theorem websocket_delivers s w s' t :
  streams principal (open_session s) (w, s') →
  ws_open w = true → ws_missed w = 0%nat → subscribed_only t (ws_frames w) →
  let start := length (app_events_tx s) in
  let log := app_events_tx s' in
  let waiting := (length log - ws_next w)%nat in
  pushed (ws_frames w) = retain_list (of_tenant t) (take (ws_next w - start) (drop start log))
  ∧ (ws_tenant w = Some t → (waiting ≤ CHANNEL_CAPACITY)%nat →
     pushed (ws_frames (value_of (drain waiting w) s'))
     = retain_list (of_tenant t) (drop start log)).
Proof.
  intros Hr Ho Hm Hs. cbv zeta. rewrite (surjective_pairing (open_session s)) in Hr.
  pose proof (streams_inv _ _ _ _ _ (open_inv s) Hr) as Hi.
  destruct (inv_pushed _ _ _ Hi t Ho Hm Hs) as [Hle Hp]. split; [done|]. intros Ht Hw.
  pose proof (inv_next _ _ _ Hi).
  destruct (drain_run t (length (app_events_tx s') - ws_next w) w s' Ho Ht) as [_ ->]; [lia|done|].
  rewrite pushed_app, pushed_events, Hp, <- retain_list_app. f_equal.
  rewrite <- (take_drop (ws_next w - length (app_events_tx s))
                (drop (length (app_events_tx s)) (app_events_tx s'))) at 2.
  f_equal. rewrite drop_drop. f_equal. lia.
Qed.
End spec.

(** ** A connection, concretely *)
Definition demo_subscribe : SubscribeRequest :=
  mkSubscribeRequest "subscribe" "p" "c" ["message.*"]%string.
Definition event_for (company_id id : string) : CommonEvent :=
  new_event 0 id "t" "c" "message.created" "p" company_id None None None None (json! {}).

Definition demo_principal : Principal := @trusted_internal_principal demo_env (λ _, None).

(** Two companies receive an event each; the client of one is connected. *)
Definition demo_subscribed : Session * AppState :=
  websocket_turn demo_principal
    (FromClient (WsText (Ok demo_subscribe)) true) (value_of open_session demo_state) demo_state.
Definition demo_busy : AppState :=
  state_of (push_event_inner (event_for "other" "e2"))
    (state_of (push_event_inner (event_for "c" "e1")) demo_subscribed.2).
Definition demo_streamed : Session * AppState :=
  drain demo_principal 2 demo_subscribed.1 demo_busy.

Lemma demo_streams :
  streams demo_principal (open_session demo_state) demo_streamed.
Proof.
  apply (rtc_l _ _ demo_subscribed);
    [apply (step_turn demo_principal _ _ (FromClient (WsText (Ok demo_subscribe)) true))|].
  apply (rtc_l _ _ (demo_subscribed.1, demo_busy)).
  { rewrite (surjective_pairing demo_subscribed) at 1. apply step_others.
    exists [event_for "c" "e1"; event_for "other" "e2"]. vm_compute. reflexivity. }
  apply (rtc_l _ _ (websocket_turn demo_principal (FromBus true) demo_subscribed.1 demo_busy));
    [apply step_turn|].
  apply rtc_once.
  rewrite (surjective_pairing (websocket_turn _ _ demo_subscribed.1 _)) at 1.
  assert (Hd : demo_streamed = websocket_turn demo_principal (FromBus true)
    (websocket_turn demo_principal (FromBus true) demo_subscribed.1 demo_busy).1
    (websocket_turn demo_principal (FromBus true) demo_subscribed.1 demo_busy).2).
  { unfold demo_streamed. cbn [drain]. rewrite !bind_run. unfold value_of, state_of, ret.
    by rewrite <- surjective_pairing. }
  rewrite Hd. apply step_turn.
Qed.

Lemma websocket_isolated_witness :
  stream_ok None (ws_frames demo_streamed.1)
  ∧ ev_event_id <$> pushed (ws_frames demo_streamed.1) = ["evt_e1"]%string.
Proof.
  split; [|vm_compute; reflexivity].
  apply (@websocket_isolated demo_principal demo_state _ demo_streamed.2).
  rewrite <- surjective_pairing. apply demo_streams.
Defined.

Lemma websocket_delivers_witness :
  ws_tenant demo_subscribed.1 = Some ("p", "c")%string
  ∧ pushed (ws_frames (value_of (drain demo_principal 2 demo_subscribed.1) demo_busy))
    = retain_list (of_tenant ("p", "c")%string)
        (drop (length (app_events_tx demo_state)) (app_events_tx demo_busy)).
Proof.
  split; [vm_compute; reflexivity|].
  refine (proj2 (@websocket_delivers demo_principal demo_state demo_subscribed.1 demo_busy
    ("p", "c")%string _ _ _ _) _ _); [|vm_compute; reflexivity|vm_compute; reflexivity| |vm_compute; reflexivity|].
  - apply (rtc_l _ _ demo_subscribed).
    { apply (step_turn demo_principal _ _ (FromClient (WsText (Ok demo_subscribe)) true)). }
    apply rtc_once. rewrite (surjective_pairing demo_subscribed) at 1. apply step_others.
    exists [event_for "c" "e1"; event_for "other" "e2"]. vm_compute. reflexivity.
  - apply Forall_singleton. intros t'. vm_compute. by intros [= <-].
  - vm_compute. lia.
Defined.
