(* ===== verification/QuerySpec.v ===== *)
(** * What a search promises

    Following the cursor of a search reads its first matches, as many as the
    search window holds, once and in order, and the reading ends. *)
From S2P Require Import Prelude Text Json Errors Env Secrets Config Models Jid Records.
From S2P Require Import Store Contacts Groups Conversations Messages MessageLog Wire Paging Queries.
From S2P Require Import Routes Demo.

Lemma sublist_StronglySorted {A} (R : A → A → Prop) l k :
  l `sublist_of` k → StronglySorted R k → StronglySorted R l.
Proof.
  intros Hs. induction Hs as [|x l k Hs IH|x l k Hs IH]; intros Hk; [done| |].
  - apply StronglySorted_inv in Hk as [Hk Hx]. constructor; [by apply IH|].
    rewrite Forall_forall in Hx |- *. intros y Hy. apply Hx.
    by eapply elem_of_submseteq; [|apply sublist_submseteq].
  - apply StronglySorted_inv in Hk as [Hk _]. by apply IH.
Qed.

(** Not to be computed as a unary number. *)
#[local] Opaque MAX_SEARCH_WINDOW.
Lemma search_window : Z.of_nat MAX_SEARCH_WINDOW = 5000.
Proof. done. Qed.

Section search.
Context `{Env} `{Lowercase} (inner : StoreInner) (project_id company_id id : string).

(** The page a request for [query] is answered with. *)
Definition search_page (query : PageQuery) : result Page ApiError :=
  let? limit := bounded_search_limit query in
  let? items := search_messages_for_project_conversation inner project_id company_id id
                  (unwrap_or (pq_q query) "") limit in
  paginated_items items query.

(** A client that follows the cursor as long as there is one: what it has read
    when no cursor is left, the error of a page that was refused, or nothing when
    it is still reading after [fuel] requests. *)
Fixpoint read_search (fuel : nat) (query : PageQuery) : option (result (list Value) ApiError) :=
  match fuel with
  | O => None
  | S fuel =>
    match search_page query with
    | Ok page =>
      match pg_next_cursor page with
      | Some cursor =>
        map_result (app (pg_items page)) <$> read_search fuel (query <| pq_cursor := Some cursor |>)
      | None => Some (Ok (pg_items page))
      end
    | Err err => Some (Err err)
    end
  end.

(** The messages of the conversation that match, as the caller sees them. *)
Definition matching (c : Conversation) (q : string) : list Message :=
  publish_under (public_conversation_id c)
    <$> retain_list (matches_text (to_lowercase (trim q)))
          (conversation_messages inner (conv_id c)).

Lemma search_prefix c q limit :
  log_ok inner →
  search_messages_for_conversation inner (conv_id c) q limit
  = take limit (retain_list (matches_text (to_lowercase (trim q)))
                  (conversation_messages inner (conv_id c))).
Proof.
  intros Hok. unfold search_messages_for_conversation. apply sorted_by_seq.
  eapply sublist_StronglySorted, ms_sorted, Hok.
  apply fmap_sublist. etrans; [apply sublist_take|apply sublist_filter].
Qed.

Lemma read_search_rest c fuel query offset :
  log_ok inner → conversation inner project_id company_id id = Ok c →
  page_offset query = Ok offset → (offset < MAX_SEARCH_WINDOW)%nat →
  (MAX_SEARCH_WINDOW - offset < fuel)%nat →
  read_search fuel query
  = Some (Ok (json <$> drop offset
                (take MAX_SEARCH_WINDOW (matching c (unwrap_or (pq_q query) ""))))).
Proof.
  intros Hok Hc. revert query offset. induction fuel as [|fuel IH]; intros query offset Ho Hw Hf; [lia|].
  cbn [read_search]. unfold search_page, bounded_search_limit. rewrite Ho. cbn zeta.
  rewrite decide_False by lia. unfold search_messages_for_project_conversation. rewrite Hc.
  rewrite search_prefix by done. rewrite fmap_take. fold (matching c (unwrap_or (pq_q query) "")).
  set (l := matching c (unwrap_or (pq_q query) "")).
  pose proof (page_limit_range query) as Hl. set (n := Z.to_nat (page_limit query)).
  assert (1 ≤ n)%nat by (unfold n; lia).
  unfold paginated_items. fold n. rewrite Ho. cbn zeta. cbn [pg_items pg_next_cursor].
  assert (Hpage : take n (drop offset (take (min (offset + n + 1) MAX_SEARCH_WINDOW) l))
                  = take n (drop offset (take MAX_SEARCH_WINDOW l))).
  { rewrite !take_drop_commute, !take_take. do 2 f_equal. lia. }
  rewrite Hpage, length_take, length_drop, !length_take.
  case_bool_decide as Hm; simpl.
  - assert (Hlen : (min n (min MAX_SEARCH_WINDOW (length l) - offset) = n)%nat) by lia.
    rewrite Hlen in *. rewrite (IH _ (offset + n)%nat).
    + simpl. rewrite <- fmap_app. do 3 f_equal. unfold l. cbn [pq_q set_field].
      rewrite <- drop_drop. apply take_drop.
    + apply page_offset_fmt. pose proof search_window. unfold u64_max. lia.
    + lia.
    + lia.
  - rewrite take_ge; [done|]. rewrite length_drop, length_take. lia.
Qed.

(** C19. Following [next_cursor] from the first page of a search comes to an end
    within 5001 requests, none of which is refused, and has then read, in a
    well-formed log, the first matches of the conversation in the order of their
    sequence numbers, up to the search window, each once. *)
Theorem search_reads_all c fuel query :
  log_ok inner → conversation inner project_id company_id id = Ok c →
  pq_cursor query = None → (MAX_SEARCH_WINDOW < fuel)%nat →
  read_search fuel query
  = Some (Ok (json <$> take MAX_SEARCH_WINDOW (matching c (unwrap_or (pq_q query) "")))).
Proof.
  intros Hok Hc Hq Hf. rewrite (read_search_rest c fuel query 0); [done..| | |].
  - unfold page_offset. by rewrite Hq.
  - pose proof search_window. lia.
  - lia.
Qed.
End search.

(** ** A search, concretely *)
(** [to_lowercase] on ASCII text. *)
Definition ascii_lowercase : Lowercase := {| to_lowercase := to_ascii_lowercase |}.
Definition search_query (q : string) : PageQuery :=
  mkPageQuery (Some 1) None (Some q) None None None None None None.

Lemma search_reads_all_witness :
  ∃ c, @conversation demo_env (app_inner demo_state) "p" "c" demo_customer = Ok c
  ∧ msg_text <$> @matching ascii_lowercase (app_inner demo_state) c "HELL"
    = [Some "hello"%string]
  ∧ @read_search demo_env ascii_lowercase (app_inner demo_state) "p" "c" demo_customer
      (S MAX_SEARCH_WINDOW) (search_query "HELL")
    = Some (Ok ((@json _ (@json_Message demo_env)) <$> take MAX_SEARCH_WINDOW
        (@matching ascii_lowercase (app_inner demo_state) c "HELL"))).
Proof.
  eexists. split; [vm_compute; reflexivity|]. split; [vm_compute; reflexivity|].
  apply (@search_reads_all demo_env ascii_lowercase (app_inner demo_state) "p" "c" demo_customer).
  - apply demo_state_wf. vm_compute. discriminate.
  - vm_compute. reflexivity.
  - reflexivity.
  - lia.
Defined.

(** The messages of a conversation are found by its identifier alone: what a
    second company exchanges with the same number is read by the first, and the
    second does not find its own conversation. *)
Example shared_conversation_read :
  let s := state_of (@receive_inbound_text demo_env "p" "other" (demo_inbound "hi"))
             demo_state in
  let search := λ company, map_result (fmap (M:=list) msg_company_id)
    (@search_messages_for_project_conversation demo_env ascii_lowercase (app_inner s)
       "p" company demo_customer "" 10) in
  search "c"%string = Ok ["c"; "c"; "other"]%string
  ∧ search "other"%string = Err (NotFound "conversation not found").
Proof. vm_compute. split; reflexivity. Qed.
