(* ===== verification/RoutesSpec.v ===== *)
(** * What the handlers promise

    An identifier of another company is refused; what the adapter cannot do is
    never answered with success; the simulation is closed outside development;
    a search is read page by page like a list; a form is bounded. *)
From S2P Require Import Prelude Text Json Errors Env Secrets Config Security Models Jid Records.
From S2P Require Import Media RateLimit EventBus Whatsapp WhatsappClient Store Contacts Groups.
From S2P Require Import Conversations Messages Inbox Channels Bytes Transcripts MediaOps Dirty.
From S2P Require Import MessageLog MessageSpec Callbacks Sending SendingSpec Uploads InboundMedia.
From S2P Require Import WhatsappEvents EventSpec Privacy Wire Paging Queries QuerySpec Routes Router.
From S2P Require Import Demo.

(** What a request can change that others see. *)
Definition visible (s : AppState)
  : StoreInner * gmap string string * list CommonEvent * option PersistedStore * WhatsappManager :=
  (app_inner s, app_media_bytes s, app_events_tx s, app_persisted s, app_whatsapp s).

(** A handler that answers an error and changes nothing. *)
Definition refused (m : Handler) (s : AppState) : Prop :=
  (∃ err, value_of m s = Err err) ∧ visible (state_of m s) = visible s.

Lemma refused_err err s : refused (ret (Err err)) s.
Proof. split; [by exists err|done]. Qed.

Lemma refused_bindR {A} (m : M (result A ApiError)) (k : A → Handler) s :
  frame visible m →
  (∀ a, value_of m s = Ok a → refused (k a) (state_of m s)) →
  refused (bindR m k) s.
Proof.
  intros Hm Hk. unfold refused, bindR. rewrite value_of_bind, state_of_bind.
  destruct (value_of m s) as [a|err] eqn:Hv.
  - destruct (Hk a eq_refl) as [He Hs]. split; [done|]. by rewrite Hs.
  - split; [by exists err|]. apply Hm.
Qed.
Lemma refused_bind {A} (m : M A) (k : A → Handler) s :
  frame visible m → refused (k (value_of m s)) (state_of m s) → refused (bind m k) s.
Proof.
  intros Hm [He Hs]. unfold refused. rewrite value_of_bind, state_of_bind.
  split; [done|]. by rewrite Hs.
Qed.

Lemma visible_enforce sv headers path n principal family resource max :
  frame visible (enforce sv headers path n principal family resource max).
Proof.
  intros s. unfold enforce, enforce_rate_limit, state_of, visible.
  by destruct (check _ _ _ _) as [[] ?].
Qed.
Lemma visible_now `{Env} : frame visible now_utc.
Proof. by intros s. Qed.
Lemma visible_fresh `{Env} prefix : frame visible (fresh_id prefix).
Proof. by intros s. Qed.
#[export] Hint Resolve visible_enforce visible_now visible_fresh : frame.

Section refusals.
Context `{Env} `{Crypto} `{Lowercase}.
Context (sv : Server) (headers : string → option string) (rq : Request) (company_id : string).
Abbreviation run := (handle sv headers rq company_id).
Abbreviation project_id := INTERNAL_PROJECT_ID.

(** ** Identifiers of another company *)
Definition foreign_message (inner : StoreInner) (id : string) : bool :=
  is_none_or (st_messages_by_id inner !! id)
    (λ m, negb (message_of_tenant m project_id company_id)).
Definition foreign_media (inner : StoreInner) (id : string) : bool :=
  is_none_or (st_media inner !! id) (λ m, negb (media_of_tenant m project_id company_id)).
Definition foreign_callback (inner : StoreInner) (id : string) : bool :=
  is_some_and (st_callbacks inner !! id)
    (λ c, negb (callback_belongs_to_company c project_id company_id)).

(** The endpoints that take the identifier of a message, of a media object or
    of a callback. *)
Definition foreign (inner : StoreInner) (e : CompanyEndpoint) : bool :=
  match e with
  | GetMessage id | ReactMessage id | DeleteReactMessage id | PinMessage id | UnpinMessage id
  | StarMessage id | UnstarMessage id | GetTranscript id | TranscribeMessage id =>
    foreign_message inner id
  | GetMedia id | DeleteMedia id | DownloadUrl id | SaveMedia id => foreign_media inner id
  | UpdateCallback id | DeleteCallback id => foreign_callback inner id
  | _ => false
  end.

Lemma foreign_message_err inner id :
  foreign_message inner id = true →
  message_for_company inner project_id company_id id
  = Err (NotFound ("message " +:+ id +:+ " not found")).
Proof.
  unfold foreign_message, message_for_company. destruct (st_messages_by_id inner !! id) as [m|];
    simpl; [|done]. by destruct (message_of_tenant _ _ _).
Qed.
Lemma foreign_media_err inner id :
  foreign_media inner id = true →
  media_for_company inner project_id company_id id = Err (media_not_found id).
Proof.
  unfold foreign_media, media_for_company. destruct (st_media inner !! id) as [m|];
    simpl; [|done]. by destruct (media_of_tenant _ _ _).
Qed.

Lemma refused_gets {A} (f : AppState → result A ApiError) (k : A → Handler) s err :
  f s = Err err → refused (bindR (gets f) k) s.
Proof.
  intros Hf. apply refused_bindR; [apply frame_gets|]. intros a Ha.
  change (value_of (gets f) s) with (f s) in Ha. congruence.
Qed.
Lemma refused_reads {A} `{ToJson A} (f : StoreInner → result A ApiError) s err :
  f (app_inner s) = Err err → refused (reads f) s.
Proof. intros Hf. split; [|done]. exists err. unfold reads, answer, gets, value_of. simpl. by rewrite Hf. Qed.

(** The check of the limiter, then a refusal. *)
Lemma refused_enforce n principal family resource max (k : unit → Handler) s :
  (∀ s', visible s' = visible s → refused (k tt) s') →
  refused (bindR (enforce sv headers (company_path company_id) n principal family resource max) k) s.
Proof.
  intros Hk. apply refused_bindR; [apply visible_enforce|]. intros [] _.
  apply Hk, visible_enforce.
Qed.
Lemma visible_inner s s' : visible s' = visible s → app_inner s' = app_inner s.
Proof. by intros [= -> _]. Qed.

Lemma refused_react id emoji s :
  foreign_message (app_inner s) id = true →
  refused (react sv (company_path company_id) id emoji) s.
Proof.
  intros Hf. apply foreign_message_err in Hf.
  unfold refused, value_of, state_of, react, react_to_message_for_company, bindR, bind, gets.
  cbn. rewrite Hf. by split; [eexists|].
Qed.

Lemma refused_callback id body s :
  foreign_callback (app_inner s) id = true →
  refused (let! r := upsert_callback (ow_parse_url (sv_outside sv)) (sv_nonce sv) project_id
             company_id (Some id) body in ret (answer r)) s.
Proof.
  unfold foreign_callback. intros Hf.
  assert (Hrun : ∃ t, upsert_callback (ow_parse_url (sv_outside sv)) (sv_nonce sv) project_id
    company_id (Some id) body s = (Err (callback_not_found id), t) ∧ visible t = visible s).
  { destruct (st_callbacks (app_inner s) !! id) as [c|] eqn:Hc; [|done]. simpl in Hf.
    unfold upsert_callback, bind, ret, now_utc, get_inner, get_config, gets. cbn.
    rewrite Hc. cbn. rewrite Hf. cbn. by eexists. }
  destruct Hrun as (t & Hrun & Ht). unfold refused, value_of, state_of, bind. rewrite Hrun.
  by split; [exists (callback_not_found id)|].
Qed.

Lemma refused_authorized scope (k : Principal → Handler) s :
  (∀ principal, refused (k principal) s) →
  refused (authorized headers (company_path company_id) scope k) s.
Proof. intros Hk. exact (Hk (trusted_internal_principal headers)). Qed.
Lemma refused_limits (k : RateLimitConfig → Handler) s :
  (∀ l, refused (k l) s) → refused (bind limits k) s.
Proof. intros Hk. exact (Hk (cfg_rate_limits (app_config s))). Qed.
Lemma refused_administered k s :
  (∀ s', visible s' = visible s → refused k s') →
  refused (administered sv headers (company_path company_id) k) s.
Proof.
  intros Hk. apply refused_authorized. intros P. apply refused_bindR; [|intros [] _; apply Hk].
  - apply frame_bind; [apply frame_gets|]. intros l. apply visible_enforce.
  - unfold enforce_admin_rate_limit. rewrite state_of_bind. apply visible_enforce.
Qed.

Lemma refused_delete_callback id s :
  foreign_callback (app_inner s) id = true →
  refused (let! r := Callbacks.delete_callback project_id company_id id in ret (answer r)) s.
Proof.
  unfold foreign_callback. intros Hf. destruct (st_callbacks (app_inner s) !! id) as [c|] eqn:Hc;
    [|done]. simpl in Hf.
  unfold refused, value_of, state_of, Callbacks.delete_callback, bind, get_inner, gets. cbn.
  rewrite Hc. cbn. destruct (callback_belongs_to_company c _ _); [done|]. by split; [eexists|].
Qed.

(** C12. One of the fifteen requests whose path names a message (read, react, take
    the reaction back, pin, unpin, star, unstar, read the transcript,
    transcribe), a media object (read, delete, link, save) or a callback (change,
    delete) is refused when it is another company's, and when there is no such
    message or media object: the answer is an error, and the store, the stored
    bytes, the event stream, the snapshot and the WhatsApp clients are as before.
    An identifier in a body is not covered: the simulated receipt
    ([receipt_crosses_companies]) and the quotation of a send look theirs up for
    no company. *)
Theorem foreign_refused e s : foreign (app_inner s) e = true → refused (run e) s.
Proof.
  assert (Hin : ∀ s', visible s' = visible s → app_inner s' = app_inner s) by apply visible_inner.
  destruct e; intros Hf; try discriminate Hf; simpl in Hf; unfold handle, handle_at;
    first [apply refused_administered | apply refused_authorized; intros P];
    try (apply refused_limits; intros l; apply refused_enforce);
    try (intros s' E%Hin; rewrite <- E in Hf);
    first [by apply refused_react | by apply refused_callback | by apply refused_delete_callback
          | eapply refused_reads; by rewrite ?foreign_message_err, ?foreign_media_err
          | eapply refused_gets; by first [apply foreign_message_err | apply foreign_media_err]].
Qed.
(** ** What must hold before a handler does anything *)
Definition simulation (e : CompanyEndpoint) : bool :=
  match e with
  | DevInboundText | DevInboundAudio | DevInboundImage | DevReceipt | DevQrRotate
  | DevGroupEvent | DevReset => true
  | _ => false
  end.
Definition keyed (e : CompanyEndpoint) : bool :=
  match e with SendMessage _ | UploadOutbound => true | _ => false end.

(** The budgets a request counts against, in the order of the checks: the
    family, the resource and the requests a minute. *)
Abbreviation Budget := (string * option string * Z)%type.
Definition budgets (limits : RateLimitConfig) (e : CompanyEndpoint) : list Budget :=
  match e with
  | SendMessage id =>
    [("messages:send"%string, Some id, rl_send_message_per_minute_per_conversation limits);
     ("messages:send:tenant"%string, None, rl_send_message_per_minute_per_channel limits)]
  | UploadOutbound =>
    [("media:upload"%string, None, rl_media_downloads_per_minute_per_channel limits)]
  | GetMedia id =>
    [("media:download"%string, Some id, rl_media_downloads_per_minute_per_channel limits)]
  | TranscribeMessage id => [("stt"%string, Some id, rl_stt_per_minute_per_project limits)]
  | ListCallbacks | CreateCallback | UpdateCallback _ | DeleteCallback _
  | PrivacyExport _ | PrivacyDelete _ | PrivacyAnonymize _ =>
    [("admin"%string, None, rl_admin_requests_per_minute limits)]
  | _ => []
  end.

Definition budget_keys (b : Budget) : list string :=
  rate_limit_keys headers
    (mkRateLimitScope (prin_api_key_id (trusted_internal_principal headers))
       (Some project_id) (Some company_id) b.1.1 b.1.2 b.2).
(** A key of the request has used up the budget in the minute of the [n]-th check. *)
Definition used_up (n : nat) (b : Budget) (s : AppState) : Prop :=
  ∃ key, key ∈ budget_keys b
    ∧ 0 ≤ b.2 ≤ used (current_window_minute (sv_unix_seconds sv n)) key (app_rate_limiter s).
(** The state after the [n]-th check. *)
Definition after_check (n : nat) (b : Budget) (s : AppState) : AppState :=
  state_of (enforce sv headers (company_path company_id) n (trusted_internal_principal headers)
              b.1.1 b.1.2 b.2) s.
(** One of the budgets is used up when its turn comes. *)
Fixpoint exhausted (n : nat) (bs : list Budget) (s : AppState) : Prop :=
  match bs with
  | [] => False
  | b :: bs => used_up n b s ∨ exhausted (S n) bs (after_check n b s)
  end.

Lemma used_up_refused n family resource max (k : unit → Handler) s :
  used_up n (family, resource, max) s →
  refused (bindR (enforce sv headers (company_path company_id) n
                    (trusted_internal_principal headers) family resource max) k) s.
Proof.
  intros (key & Hkey & Hmax & Hused). cbn [fst snd] in *.
  apply refused_bindR; [apply visible_enforce|]. intros a Ha. exfalso. revert Ha.
  unfold enforce, enforce_rate_limit, value_of. cbn [scope_max_per_minute].
  destruct (check _ _ _ _) as [[u|d] bs] eqn:Hc; [|done]. intros _.
  destruct u. exact (check_exhausted _ _ _ _ _ bs Hkey Hmax Hused Hc).
Qed.
Lemma refused_exhausted n family resource max bs (k : unit → Handler) s :
  let b := (family, resource, max) in
  exhausted n (b :: bs) s →
  (exhausted (S n) bs (after_check n b s) → refused (k tt) (after_check n b s)) →
  refused (bindR (enforce sv headers (company_path company_id) n
                    (trusted_internal_principal headers) family resource max) k) s.
Proof.
  intros b. intros [Hu|He] Hk; [by apply used_up_refused|].
  apply refused_bindR; [apply visible_enforce|]. intros [] _. by apply Hk.
Qed.
Lemma refused_no_key (k : string → Handler) s err :
  idempotency_key headers = Err err → refused (bindR (ret (idempotency_key headers)) k) s.
Proof. intros ->. by split; [exists err|]. Qed.
Lemma refused_simulated k s :
  cfg_dev_mode (app_config s) && cfg_dev_simulation_enabled (app_config s) = false →
  refused (simulated headers (company_path company_id) k) s.
Proof. intros Hd. unfold simulated, ensure_dev. eapply refused_gets. by rewrite Hd. Qed.

(** C13. A request is refused, and changes nothing others can see, when it asks for
    the simulation outside development, when it sends or uploads without an
    idempotency key, and when one of the budgets it counts against (a send has
    two, of its conversation and of its company) is used up for the minute when
    the check is made. *)
Theorem gates_refuse e s :
  (simulation e = true
     ∧ cfg_dev_mode (app_config s) && cfg_dev_simulation_enabled (app_config s) = false)
  ∨ (keyed e = true ∧ ∃ err, idempotency_key headers = Err err)
  ∨ exhausted 0 (budgets (cfg_rate_limits (app_config s)) e) s →
  refused (run e) s.
Proof.
  intros [[He Hd]|[[He [err Hk]]|Ho]].
  - destruct e; try discriminate He; by apply refused_simulated.
  - destruct e; try discriminate He; apply refused_authorized; intros P; apply refused_limits;
      intros l; apply refused_enforce; intros s' _.
    + apply refused_enforce. intros s'' _. by apply (refused_no_key _ _ err).
    + by apply (refused_no_key _ _ err).
  - destruct e; try done; eapply refused_exhausted; try exact Ho; try by intros [].
    intros Ho2. eapply refused_exhausted; [exact Ho2|]. by intros [].
Qed.

(** ** What the adapter cannot do *)
Definition unsupported (e : CompanyEndpoint) : bool :=
  match e with
  | PairCode _ | Typing _ | PinMessage _ | UnpinMessage _ | StarMessage _ | UnstarMessage _
  | GroupExit _ | AddGroupMember _ | RemoveGroupMember _ _ | PromoteGroupMember _ _
  | DemoteGroupMember _ _ | AcceptJoinRequest _ _ | RejectJoinRequest _ _ => true
  | _ => false
  end.
Definition no_success (r : result Reply ApiError) : Prop :=
  ∃ message, r = Err (NotSupported message) ∨ r = Err (NotFound message).

Lemma no_success_gets {A} (f : AppState → result A ApiError) (k : A → Handler) s :
  (∀ err, f s = Err err → ∃ message, err = NotFound message) →
  (∀ a, no_success (value_of (k a) s)) → no_success (value_of (bindR (gets f) k) s).
Proof.
  intros Hf Hk. unfold bindR. rewrite value_of_bind. change (value_of (gets f) s) with (f s).
  destruct (f s) as [a|err] eqn:E; [apply Hk|].
  destruct (Hf err eq_refl) as [message ->]. exists message. by right.
Qed.
Lemma not_found_message inner id err :
  message_for_company inner project_id company_id id = Err err → ∃ message, err = NotFound message.
Proof. unfold message_for_company. destruct (opt_filter _ _); [done|]. intros [= <-]. eauto. Qed.
Lemma not_found_conversation inner id err :
  conversation inner project_id company_id id = Err err → ∃ message, err = NotFound message.
Proof.
  unfold conversation, conversation_for_inner. destruct (opt_filter _ _); [done|].
  intros [= <-]. unfold conversation_not_found. eauto.
Qed.

Lemma not_found_group inner id err :
  group inner project_id company_id id = Err err → ∃ message, err = NotFound message.
Proof. unfold group. destruct (opt_filter _ _); [done|]. intros [= <-]. eauto. Qed.
Lemma not_found_inspect o id s err :
  value_of (inspect_group o project_id company_id id) s = Err err →
  ∃ message, err = NotFound message.
Proof.
  unfold inspect_group, bindR. rewrite value_of_bind.
  change (value_of (gets ?f) s) with (f s). cbn beta. unfold group_refresh_channel.
  destruct (opt_filter _ _) as [c|]; simpl; [|intros [= <-]; eauto].
  rewrite value_of_bind. case_match; [apply not_found_group|].
  rewrite value_of_bind. apply not_found_group.
Qed.
Lemma unsupported_group_err what id s :
  no_success (value_of (unsupported_group sv headers (company_path company_id) what id) s).
Proof.
  unfold unsupported_group, authorized, bindR. rewrite !value_of_bind. simpl.
  rewrite value_of_bind.
  destruct (value_of (inspect_group _ _ _ _) _) as [v|err] eqn:E.
  - eexists. by left.
  - destruct (not_found_inspect _ _ _ _ E) as [message ->]. exists message. by right.
Qed.

Lemma unsupported_message_err what id s :
  no_success (value_of (unsupported_message headers (company_path company_id) what id) s).
Proof.
  refine (no_success_gets (λ s, message_for_company (app_inner s) project_id company_id id) _ s _ _).
  - apply not_found_message.
  - intros m. eexists. by left.
Qed.
Lemma no_success_typing id s :
  no_success (value_of (typing headers (company_path company_id) id) s).
Proof.
  refine (no_success_gets (λ s, conversation (app_inner s) project_id company_id id) _ s _ _).
  - apply not_found_conversation.
  - intros c. eexists. by left.
Qed.

(** What the adapter cannot do is never answered with success: pairing codes,
    typing, pins, stars and the administration of groups are not supported, or
    what they name is not found. *)
Theorem unsupported_refused e s : unsupported e = true → no_success (value_of (run e) s).
Proof.
  destruct e; intros He; try discriminate He; unfold handle, handle_at;
    first [apply unsupported_group_err | apply no_success_typing | apply unsupported_message_err
          | eexists; by left].
Qed.
(** ** A message that is sent again *)
Abbreviation prepare cv key r actor :=
  (prepare_send_message_with_actor project_id company_id cv key r actor).

(** The key stands for the message [id] and the digest of its request. *)
Definition claimed (key hash id : string) (inner : StoreInner) : Prop :=
  st_idempotency inner !! (project_id, company_id, key) = Some (mkIdempotencyRecord hash id).

Lemma prepare_claims cv key r actor s o :
  value_of (prepare cv key r actor) s = Ok o →
  let s' := state_of (prepare cv key r actor) s in
  ∃ hash id, sha256_json r = Ok hash ∧ claimed key hash id (app_inner s')
             ∧ st_messages_by_id (app_inner s') !! id = Some (out_message o).
Proof.
  unfold value_of, state_of.
  destruct (st_idempotency (app_inner s) !! (project_id, company_id, key)) as [[hash id]|] eqn:Hk.
  - rewrite (prepare_replay _ _ _ _ _ _ _ _ Hk). destruct (sha256_json r) as [hash'|]; [|done].
    unfold replay. simpl. case_decide as Hh; [|done].
    destruct (st_messages_by_id (app_inner s) !! id) as [m|] eqn:Hm; [|done]. intros [= <-].
    exists hash', id. split; [done|]. unfold claimed. by rewrite Hk, Hh.
  - pose proof (prepare_new project_id company_id cv key r actor s Hk) as Hn.
    destruct (prepare_send_message_with_actor _ _ _ _ _ _ _) as [res s']. simpl. intros ->.
    destruct Hn as (hash & Hh & _ & Hs & Hi). exists hash. eexists. split; [done|].
    split; [exact Hi|exact Hs].
Qed.

(** What a claimed key is answered: the message as it is now, if it still is. *)
Definition claim_answer (hash id : string) (r : SendMessageRequest) (inner : StoreInner)
  : result Message ApiError :=
  match sha256_json r with
  | Ok hash' =>
    if decide (hash = hash')
    then ok_or (st_messages_by_id inner !! id)
           (Internal ("cached idempotency message " +:+ id +:+ " missing"))
    else Err conflict
  | Err e => Err e
  end.
Lemma prepare_again cv key r actor s hash id :
  claimed key hash id (app_inner s) →
  prepare cv key r actor s =
    (map_result (λ m, mkSendMessageOutcome m false) (claim_answer hash id r (app_inner s)), s).
Proof.
  intros Hk. rewrite (prepare_replay _ _ _ _ _ _ _ _ Hk). unfold claim_answer, replay. simpl.
  destruct (sha256_json r) as [hash'|]; [|done]. case_decide; [|done].
  by destruct (st_messages_by_id (app_inner s) !! id).
Qed.

Definition limited {A} (r : result A ApiError) : Prop := ∃ message, r = Err (RateLimited message).

(** A check of the limiter, and what follows. *)
Lemma enforce_then h n P f r max (k : unit → Handler) s :
  let m := bindR (enforce sv h (company_path company_id) n P f r max) k in
  ∃ s1, visible s1 = visible s
        ∧ (limited (value_of m s) ∧ state_of m s = s1 ∨ m s = k tt s1).
Proof.
  unfold bindR, bind, value_of, state_of. cbv zeta.
  unfold enforce, enforce_rate_limit. destruct (check _ _ _ _) as [[[]|d] b]; simpl.
  - eexists. split; [|by right]. done.
  - eexists. split; [|left; split; [by eexists|done]]. done.
Qed.
(** A request to send is stopped by the limiter, or prepared. *)
Definition prepared h rq' cv : Handler :=
  try! key := ret (idempotency_key h) in
  try! outcome := prepare cv key (rq_send rq') (actor_id h) in
  gets (λ s, Ok (accepted_message (company_path company_id) (app_inner s) (out_message outcome))).
Lemma send_run h rq' cv s :
  let m := handle sv h rq' company_id (SendMessage cv) in
  ∃ s1, visible s1 = visible s
        ∧ (limited (value_of m s) ∧ state_of m s = s1 ∨ m s = prepared h rq' cv s1).
Proof.
  cbv zeta. set (L := cfg_rate_limits (app_config s)). set (P := trusted_internal_principal h).
  set (second := λ _ : unit, bindR (enforce sv h (company_path company_id) 1 P
    "messages:send:tenant" None (rl_send_message_per_minute_per_channel L))
    (λ _, prepared h rq' cv)).
  assert (Hrun : handle sv h rq' company_id (SendMessage cv) s
    = bindR (enforce sv h (company_path company_id) 0 P "messages:send" (Some cv)
        (rl_send_message_per_minute_per_conversation L)) second s) by reflexivity.
  unfold value_of, state_of. rewrite Hrun.
  destruct (enforce_then h 0 P "messages:send" (Some cv)
    (rl_send_message_per_minute_per_conversation L) second s) as (s1 & Hv1 & [Hl|E1]);
    [by exists s1; split; [|left]|].
  destruct (enforce_then h 1 P "messages:send:tenant" None
    (rl_send_message_per_minute_per_channel L) (λ _, prepared h rq' cv) s1)
    as (s2 & Hv2 & Hs2).
  exists s2. split; [by rewrite Hv2|]. rewrite E1. exact Hs2.
Qed.

Lemma prepared_again h rq' cv key hash id s :
  idempotency_key h = Ok key → claimed key hash id (app_inner s) →
  prepared h rq' cv s
  = (map_result (accepted_message (company_path company_id) (app_inner s))
       (claim_answer hash id (rq_send rq') (app_inner s)), s).
Proof.
  intros Hk Hc. unfold prepared. rewrite Hk, bindR_ret. unfold bindR.
  rewrite bind_run. unfold value_of, state_of. rewrite (prepare_again _ _ _ _ _ _ _ Hc).
  by destruct (claim_answer _ _ _ _).
Qed.

Lemma prepared_ok h rq' cv s reply :
  value_of (prepared h rq' cv) s = Ok reply →
  let s' := state_of (prepared h rq' cv) s in
  ∃ key hash id m, idempotency_key h = Ok key ∧ sha256_json (rq_send rq') = Ok hash
    ∧ claimed key hash id (app_inner s') ∧ st_messages_by_id (app_inner s') !! id = Some m
    ∧ reply = accepted_message (company_path company_id) (app_inner s') m.
Proof.
  unfold prepared, value_of, state_of. rewrite bindR_ret.
  destruct (idempotency_key h) as [key|err]; [|done]. unfold bindR. rewrite bind_run.
  destruct (value_of (prepare cv key (rq_send rq') (actor_id h)) s) as [o|err] eqn:Ho; [|done].
  destruct (prepare_claims _ _ _ _ _ _ Ho) as (hash & id & Hh & Hc & Hm). intros [= <-].
  by exists key, hash, id, (out_message o).
Qed.

(** C11. A request to send that was accepted claims its idempotency key for one
    message of the log and answers with it. Sent again, to any conversation and in
    any later state that still holds the claim (after a dispatch, retention,
    other requests or a restart), a request under that key is never a second
    message: nothing changes that others can see. When its body has the same
    digest it is answered with that message as it then is, with an internal error
    when the message was deleted meanwhile, or by the limiter; otherwise with an
    error. *)
Theorem send_retried cv s reply :
  let m := run (SendMessage cv) in
  value_of m s = Ok reply →
  ∃ key hash id message,
    idempotency_key headers = Ok key ∧ sha256_json (rq_send rq) = Ok hash
    ∧ claimed key hash id (app_inner (state_of m s))
    ∧ st_messages_by_id (app_inner (state_of m s)) !! id = Some message
    ∧ reply = accepted_message (company_path company_id) (app_inner (state_of m s)) message
    ∧ ∀ headers' rq' cv' s',
        claimed key hash id (app_inner s') → idempotency_key headers' = Ok key →
        let again := handle sv headers' rq' company_id (SendMessage cv') in
        visible (state_of again s') = visible s'
        ∧ (limited (value_of again s')
           ∨ value_of again s' =
             match sha256_json (rq_send rq') with
             | Ok hash' =>
               if decide (hash' = hash) then
                 match st_messages_by_id (app_inner s') !! id with
                 | Some now =>
                   Ok (accepted_message (company_path company_id) (app_inner s') now)
                 | None => Err (Internal ("cached idempotency message " +:+ id +:+ " missing"))
                 end
               else Err conflict
             | Err err => Err err
             end).
Proof.
  intros m Hr. destruct (send_run headers rq cv s) as (s1 & _ & [[[e Hl] _]|Hrun]);
    [subst m; congruence|].
  unfold m, value_of in Hr. unfold m, state_of. rewrite Hrun in Hr |- *.
  destruct (prepared_ok _ _ _ _ _ Hr) as (key & hash & id & msg & Hkey & Hh & Hc & Hm & Hreply).
  exists key, hash, id, msg. do 5 (split; [done|]). intros h' rq' cv' s' Hc' Hkey'.
  destruct (send_run h' rq' cv' s') as (s2 & Hv & [[Hl Hst]|Hagain]).
  - fold (state_of (handle sv h' rq' company_id (SendMessage cv')) s'). rewrite Hst.
    split; [done|]. by left.
  - pose proof (visible_inner _ _ Hv) as Hi. rewrite <- Hi in Hc'. unfold state_of, value_of.
    rewrite Hagain, (prepared_again h' rq' cv' key hash id s2 Hkey' Hc'). split; [done|].
    right. rewrite Hi. unfold claim_answer. cbn [fst].
    destruct (sha256_json (rq_send rq')) as [hash'|]; [|done].
    destruct (decide (hash = hash')), (decide (hash' = hash)); try done; try congruence.
    by destruct (st_messages_by_id (app_inner s') !! id).
Qed.
End refusals.

(** ** Requests, concretely *)
(** A body without anything in it; the form of an upload has no field. *)
Definition demo_request : Request :=
  mkRequest (mkPageQuery None None None None None None None None None) (json! {})
    (mkCompanyRequest None None "Acme") (mkChannelAccountRequest None None None)
    (mkSendMessageRequest "text" (Some "hello") None None None None None)
    (mkDirtyAckRequest "reader" 0 "") (demo_inbound "hi")
    (mkSimulateInboundMediaRequest None None None None None None None None None None)
    (mkReceiptRequest "" "read") [] (λ bytes, bytes).
Definition demo_server : Server :=
  mkServer demo_outside None None (λ _ _ _, Err "offline"%string) (λ _, 60).
Abbreviation demo_handle := (@handle demo_env toy_crypto ascii_lowercase demo_server).

(** Company [a] received a message. *)
Definition demo_tenant : AppState :=
  state_of (@receive_inbound_text demo_env INTERNAL_PROJECT_ID "a" (demo_inbound "hi")) demo_start.
Definition demo_message_id : string :=
  unwrap_or (head (map_to_list (st_messages_by_id (app_inner demo_tenant))).*1) "".

Lemma foreign_refused_witness :
  (∃ m, value_of (demo_handle (λ _, None) demo_request "a" (GetMessage demo_message_id)) demo_tenant
        = Ok m)
  ∧ refused (demo_handle (λ _, None) demo_request "b" (GetMessage demo_message_id)) demo_tenant.
Proof.
  split; [vm_compute; eexists; reflexivity|].
  apply (@foreign_refused demo_env toy_crypto ascii_lowercase demo_server (λ _, None) demo_request
    "b" (GetMessage demo_message_id) demo_tenant). vm_compute. reflexivity.
Defined.

Lemma gates_refuse_witness :
  refused (demo_handle (λ _, None) demo_request "a" (SendMessage demo_customer)) demo_tenant.
Proof.
  apply (@gates_refuse demo_env toy_crypto ascii_lowercase demo_server (λ _, None) demo_request
    "a" (SendMessage demo_customer) demo_tenant).
  right. left. split; [reflexivity|]. eexists. vm_compute. reflexivity.
Defined.

Lemma unsupported_refused_witness :
  no_success (value_of (demo_handle (λ _, None) demo_request "a" (StarMessage demo_message_id))
                demo_tenant).
Proof.
  apply (@unsupported_refused demo_env toy_crypto ascii_lowercase demo_server (λ _, None)
    demo_request "a" (StarMessage demo_message_id) demo_tenant). reflexivity.
Defined.

(** The request carries a key: it is accepted, and again. *)
Definition keyed_headers (name : string) : option string :=
  if decide (name = "Idempotency-Key"%string) then Some "key-1"%string else None.
Definition demo_sent : result Reply ApiError * AppState :=
  demo_handle keyed_headers demo_request "a" (SendMessage demo_customer) demo_tenant.

(** The message failed meanwhile; the retry shows it. *)
Definition demo_failed : AppState :=
  state_of (@update_outbound_after_dispatch demo_env
    (idem_message_id (default (mkIdempotencyRecord "" "")
       (st_idempotency (app_inner demo_sent.2) !! (INTERNAL_PROJECT_ID, "a", "key-1"))))
    None "failed" (Some "offline"%string)) demo_sent.2.

Lemma send_retried_witness :
  ∃ reply hash id message,
    demo_sent.1 = Ok reply
    ∧ claimed "a" "key-1" hash id (app_inner demo_failed)
    ∧ reply = @accepted_message demo_env (company_path "a") (app_inner demo_sent.2) message
    ∧ value_of (demo_handle keyed_headers demo_request "a" (SendMessage demo_customer)) demo_failed
      ≠ Ok reply
    ∧ visible (state_of (demo_handle keyed_headers demo_request "a" (SendMessage demo_customer))
                 demo_failed) = visible demo_failed.
Proof.
  destruct demo_sent.1 as [reply|err] eqn:Hr; [|exfalso; vm_compute in Hr; discriminate Hr].
  destruct (@send_retried demo_env toy_crypto ascii_lowercase demo_server keyed_headers
    demo_request "a" demo_customer demo_tenant reply Hr)
    as (key & hash & id & m & Hkey & Hh & Hc & Hm & Hreply & Hagain).
  vm_compute in Hkey. injection Hkey as <-.
  assert (Hc' : claimed "a" "key-1" hash id (app_inner demo_failed)).
  { unfold claimed in *. rewrite <- Hc. vm_compute. reflexivity. }
  exists reply, hash, id, m. do 3 (split; [done|]).
  split; [|apply (Hagain keyed_headers demo_request demo_customer demo_failed Hc' eq_refl)].
  intros E. rewrite <- Hr in E. vm_compute in E. discriminate E.
Defined.

(** In development, a receipt simulated for another company changes the message. *)
Definition demo_development : AppState :=
  demo_tenant <| app_config ::= λ c, c <| cfg_dev_mode := true |>
                                      <| cfg_dev_simulation_enabled := true |> |>.
Example receipt_crosses_companies :
  let body := {| rreq_message_id := demo_message_id; rreq_receipt_type := "read" |} in
  let receipt := @dev_receipt demo_env (λ _, None) (company_path "b") body in
  let message s := st_messages_by_id (app_inner s) !! demo_message_id in
  (∃ reply, value_of receipt demo_development = Ok reply)
  ∧ msg_company_id <$> message demo_development = Some "a"%string
  ∧ msg_status <$> message (state_of receipt demo_development) = Some "read"%string.
Proof. split; [vm_compute; eexists; reflexivity|]. by vm_compute. Qed.
