(* ===== verification/System.v ===== *)
(** * The system: its operations and its reachable states

    Every operation of [AppState] that changes the state is a transition; the
    answers of the outside (WhatsApp, the byte store, the speech-to-text
    service, the HTTP client) are arguments of the transition, so that a run is
    any interleaving of operations with any answers.  The invariant of the
    message log holds in every reachable state, and the records are filed under
    their identifiers. *)
From S2P Require Import Wire Queries Routes Router Websocket QuerySpec RoutesSpec Prelude Text.
From S2P Require Import Json Errors Env Config Models Jid Media Net Secrets Records Snapshot.
From S2P Require Import RateLimit EventBus Whatsapp Store Contacts Groups Conversations Messages.
From S2P Require Import Inbox MessageLog Channels Bytes Transcripts MediaOps Dirty Callbacks.
From S2P Require Import Sending Uploads UploadSpec InboundMedia WhatsappClient WhatsappEvents.
From S2P Require Import EventSpec Privacy Security Codec Restart Startup Keeps Demo.
From S2P Require Import RelationalSpec.

(** ** The handlers keep the invariant *)
Section requests.
Context `{Env} {EL : EnvLaws} `{Crypto} `{Lowercase}.
Context (sv : Server) (headers : string → option string) (path : ProjectCompanyPath).

Lemma keeps_upload_loop io sg p c k h u n : keeps (upload_loop io sg p c k h u n).
Proof. induction n as [|n IH]; simpl; keeps_tac. Qed.
Hint Resolve keeps_upload_loop : keeps.
Lemma keeps_upload_idempotent io sg p c k u :
  keeps (upload_outbound_media_idempotent io sg p c k u).
Proof. unfold upload_outbound_media_idempotent. keeps_tac. Qed.
Hint Resolve keeps_upload_idempotent : keeps.

Lemma keeps_picture o p c ch t e tg u : keeps (picture_or_keep o p c ch t e tg u).
Proof. unfold picture_or_keep. keeps_tac. Qed.
Hint Resolve keeps_picture : keeps.
Lemma keeps_refresh_contact o p c id ch ctx : keeps (refresh_contact o p c id ch ctx).
Proof. unfold refresh_contact. keeps_tac. Qed.
Lemma keeps_refresh_group o p c id ch : keeps (refresh_group o p c id ch).
Proof. unfold refresh_group. keeps_tac. Qed.
Hint Resolve keeps_refresh_contact keeps_refresh_group : keeps.
Lemma keeps_inspect_contact o p c id : keeps (inspect_contact o p c id).
Proof. unfold inspect_contact. keeps_tac. Qed.
Lemma keeps_inspect_group o p c id : keeps (inspect_group o p c id).
Proof. unfold inspect_group. keeps_tac. Qed.
Lemma keeps_react_company send p c id e : keeps (react_to_message_for_company send p c id e).
Proof. unfold react_to_message_for_company. keeps_tac. Qed.
Hint Resolve keeps_inspect_contact keeps_inspect_group keeps_react_company : keeps.

Lemma keeps_authorized scope k :
  (∀ principal, keeps (k principal)) → keeps (authorized headers path scope k).
Proof. intros Hk. unfold authorized. keeps_tac. Qed.
Lemma keeps_enforce_at n P f r m : keeps (enforce sv headers path n P f r m).
Proof. unfold enforce. keeps_tac. Qed.
Lemma keeps_reads {A} `{ToJson A} (f : StoreInner → result A ApiError) : keeps (reads f).
Proof. unfold reads. keeps_tac. Qed.
Lemma keeps_paginated {A} `{ToJson A} query (f : StoreInner → result (list A) ApiError) :
  keeps (paginated query f).
Proof. apply keeps_reads. Qed.
Hint Resolve keeps_enforce_at keeps_reads keeps_paginated : keeps.
Lemma keeps_limits : keeps limits.
Proof. unfold limits. keeps_tac. Qed.
Hint Resolve keeps_limits : keeps.
Lemma keeps_administered k : keeps k → keeps (administered sv headers path k).
Proof.
  intros Hk. apply keeps_authorized. intros P. unfold enforce_admin_rate_limit. keeps_tac.
Qed.
Lemma keeps_simulated k : keeps k → keeps (simulated headers path k).
Proof.
  intros Hk. unfold simulated, ensure_dev. apply keeps_bindR; [keeps_tac|]. intros _.
  apply keeps_authorized. auto.
Qed.
Lemma keeps_delete_bytes_at k : keeps (delete_bytes_at sv k).
Proof. unfold delete_bytes_at. keeps_tac. Qed.
Lemma keeps_inbound_media req : keeps (inbound_media sv path req).
Proof. unfold inbound_media. keeps_tac. Qed.
Hint Resolve keeps_delete_bytes_at keeps_inbound_media : keeps.

Lemma keeps_handle_at rq e : keeps (handle_at sv headers rq path e).
Proof.
  destruct e; unfold handle_at;
    first [apply keeps_administered | apply keeps_simulated | apply keeps_authorized; intros P];
    unfold react, get_config; keeps_tac.
Qed.
End requests.

(** ** Operations and runs *)
Section system.
Context `{Env} `{Crypto} `{RawCodec} `{Lowercase}.
Context (parse_url : string → result Url string).

(** What the client library and the speech service answer in a work event. *)
Record Answers := mkAnswers {
  ans_send_media : string → string → OutboundMediaMessage → option (result string string);
  ans_send_text : string → string → string → option (result string string);
  ans_respond : string → string → string → result GroqTranscription string
}.

Inductive Operation :=
(* administration and channels *)
| OpUpsertProject (id name : string)
| OpUpsertCompany (project_id company_id name : string)
| OpStoreApiKey (project_id : string) (company_id : option string) (key_id key_hash : string)
    (scopes : list string) (name : string)
| OpCreateChannel (project_id company_id : string) (id label phone : option string)
| OpConnect (outcome : result bool string) (project_id company_id channel_id : string)
| OpDisconnect (project_id company_id channel_id : string)
| OpChannel (channel_id : string)
| OpSetChannelStatus (channel_id status : string) (connected_at : option time)
| OpSetQr (channel_id status : string) (text : option string) (expires_at : time)
| OpRotateQr (channel_id status : string)
| OpQr (project_id company_id channel_id : string)
| OpRateLimit (headers : string → option string) (unix_seconds : Z) (scope : RateLimitScope)
(* messages *)
| OpSend (project_id company_id conversation_id key : string) (request : SendMessageRequest)
    (actor : option string)
| OpDispatch (io : ByteIo) (answers : Answers) (outcome : SendMessageOutcome)
    (text : option string)
| OpInboundText (project_id company_id : string) (request : SimulateInboundTextRequest)
| OpInboundMedia (io : ByteIo) (project_id company_id : string)
    (request : SimulateInboundMediaRequest)
| OpWhatsappMessage (input : WhatsappMessageInput)
| OpReceipt (message_id receipt_type : string) (at_ : option time)
| OpReceiptByWaId (wa_message_id receipt_type : string) (at_ : option time)
| OpFlag (project_id company_id message_id flag : string) (value : bool)
| OpReact (answer : option (result string string)) (message_id : string) (emoji : option string)
| OpEnsureConversation (project_id company_id conversation_id channel_id mode : string)
| OpMarkRead (project_id company_id conversation_id : string)
| OpPatchConversation (project_id company_id conversation_id : string) (body : Value)
(* contacts and groups *)
| OpReserveContactRefresh (project_id company_id contact_id : string) (force : bool)
| OpContactLookupFailure (project_id company_id contact_id : string)
| OpContactProfile (project_id company_id channel_id conversation_id contact_id : string)
    (push_name : option string) (profile : ContactProfile) (succeeded : bool)
| OpReserveGroupRefresh (runtime : ChannelRuntime) (group_id : string) (force : bool)
| OpGroupSubject (project_id company_id channel_id group_id subject : string) (at_ : time)
| OpGroupProfile (to_time : Z → option time)
    (project_id company_id channel_id group_id : string) (profile : GroupProfile)
(* media, transcripts, retention, privacy *)
| OpSaveMedia (project_id company_id media_id entity_type entity_id : string)
| OpDeleteMedia (project_id company_id media_id : string)
| OpCleanupMedia (io : ByteIo)
| OpRetention (io : ByteIo)
| OpCreateTranscript (project_id company_id message_id : string)
| OpRequestTranscript (project_id company_id message_id : string)
| OpWorkEvent (io : ByteIo) (answers : Answers) (event : CommonEvent)
| OpAnonymize (project_id company_id contact_id : string) (delete_messages : bool)
| OpResetDev
(* consumers *)
| OpListDirty (project_id company_id consumer_id : string) (limit : nat)
| OpAckDirty (project_id company_id conversation_id : string) (request : DirtyAckRequest)
| OpUpsertCallback (nonce : option string) (project_id company_id : string)
    (callback_id : option string) (body : Value)
| OpDeleteCallback (project_id company_id callback_id : string)
| OpDeliverWebhooks (http : WebhookRequest → Response)
(* uploads, block by block, and the files they use *)
| OpUploadBlock (io : ByteIo) (sg : StagingIo) (req : UploadRequest) (ph : Phase)
| OpUploadCancel (req : UploadRequest) (ph : Phase)
| OpUploadDirect (io : ByteIo) (sg : StagingIo) (project_id company_id : string)
    (upload : OutboundMediaUpload)
| OpCleanupStaging (sg : StagingIo)
| OpCopyBytes (io : ByteIo) (source destination content_type : string)
| OpDeleteBytes (io : ByteIo) (object_key : string)
| OpReadyCheck (io : ByteIo) (write_check : bool)
(* what the WhatsApp client reports, and the tasks this spawns *)
| OpWhatsappEvent (o : Outside) (metadata_db : bool) (runtime : ChannelRuntime)
    (event : WhatsappEvent)
| OpRawEvent (o : Outside) (event : CommonEvent)
| OpTask (o : Outside) (task : Task)
(* HTTP requests and the turns of a WebSocket connection *)
| OpRequest (sv : Server) (headers : string → option string) (rq : Request)
    (company_id : string) (endpoint : CompanyEndpoint)
| OpCreateCompany (headers : string → option string) (req : CompanyRequest)
| OpWebsocket (principal : Principal) (turn : Turn) (session : Session)
(* the sessions found on disk when a process starts *)
| OpBootstrap (dirs : Directories) (outcome : string → result bool string)
(* what the WhatsApp client does by itself *)
| OpClient (change : WhatsappManager → WhatsappManager).

(** [discard m]: the state [m] leaves. *)
Definition discard {A} (m : M A) : M unit := let! _ := m in ret tt.

Definition exec (op : Operation) : M unit :=
  match op with
  | OpUpsertProject id name => discard (upsert_project id name)
  | OpUpsertCompany p c name => discard (upsert_company p c name)
  | OpStoreApiKey p c k h scopes name => discard (store_api_key_metadata p c k h scopes name)
  | OpCreateChannel p c id l ph => discard (create_channel p c id l ph)
  | OpConnect o p c id => discard (connect_channel o p c id)
  | OpDisconnect p c id => discard (disconnect_channel_for_company p c id)
  | OpChannel id => discard (channel id)
  | OpSetChannelStatus id st t => discard (set_channel_status id st t)
  | OpSetQr id st t e => discard (set_qr id st t e)
  | OpRotateQr id st => discard (rotate_qr id st)
  | OpQr p c id => discard (qr_for_company p c id)
  | OpRateLimit h t sc => discard (enforce_rate_limit h t sc)
  | OpSend p c cv k r a =>
    discard (prepare_send_message_with_actor p c cv k r a)
  | OpDispatch io ans o t =>
    discard (dispatch_prepared_message io (ans_send_media ans) (ans_send_text ans) o t)
  | OpInboundText p c r => discard (receive_inbound_text p c r)
  | OpInboundMedia io p c r => discard (try_receive_inbound_media io p c r)
  | OpWhatsappMessage i => discard (record_whatsapp_message i)
  | OpReceipt m t a => discard (update_receipt_with_context m t a)
  | OpReceiptByWaId m t a => discard (update_receipt_by_wa_id_with_context m t a)
  | OpFlag p c m f v => discard (set_message_flag_for_company p c m f v)
  | OpReact a m e => discard (react_to_message a m e)
  | OpEnsureConversation p c cv ch m => ensure_conversation_inner p c cv ch m
  | OpMarkRead p c cv => discard (mark_read p c cv)
  | OpPatchConversation p c cv b => discard (patch_conversation_metadata p c cv b)
  | OpReserveContactRefresh p c id f => discard (reserve_contact_profile_refresh p c id f)
  | OpContactLookupFailure p c id => record_contact_profile_lookup_failure p c id
  | OpContactProfile p c ch cv id n pr ok => apply_contact_profile p c ch cv id n pr ok
  | OpReserveGroupRefresh r g f => discard (reserve_group_profile_refresh r g f)
  | OpGroupSubject p c ch g sub t => apply_group_subject p c ch g sub t
  | OpGroupProfile tt_ p c ch g pr => apply_group_profile tt_ p c ch g pr
  | OpSaveMedia p c m t e => discard (save_media_for_company p c m t e)
  | OpDeleteMedia p c m => discard (delete_media_for_company p c m)
  | OpCleanupMedia io => discard (cleanup_expired_temp_media io)
  | OpRetention io => discard (apply_retention_once io)
  | OpCreateTranscript p c m => discard (create_transcript p c m)
  | OpRequestTranscript p c m => discard (request_transcript p c m)
  | OpWorkEvent io ans e =>
    process_internal_work_event io (ans_send_media ans) (ans_send_text ans) (ans_respond ans) e
  | OpAnonymize p c id del => discard (anonymize_contact p c id del)
  | OpResetDev => reset_dev
  | OpListDirty p c k n => discard (list_dirty p c k n)
  | OpAckDirty p c cv r => discard (ack_dirty p c cv r)
  | OpUpsertCallback n p c id b => discard (upsert_callback parse_url n p c id b)
  | OpDeleteCallback p c id => discard (delete_callback p c id)
  | OpDeliverWebhooks http => discard (deliver_pending_webhooks_once http)
  | OpUploadBlock io sg req ph => discard (advance io sg req ph)
  | OpUploadCancel req ph => discard (cancel req ph)
  | OpUploadDirect io sg p c u => discard (upload_outbound_media io sg p c u)
  | OpCleanupStaging sg => discard (cleanup_staging_files sg)
  | OpCopyBytes io a b t => discard (copy_media_bytes io a b t)
  | OpDeleteBytes io k => discard (delete_media_bytes io k)
  | OpReadyCheck io w => discard (ready_check io w)
  | OpWhatsappEvent o db r e => discard (handle_whatsapp_event o db r e)
  | OpRawEvent o e => discard (process_whatsapp_raw_event o e)
  | OpTask o t => run_task o t
  | OpRequest sv h rq c e => discard (handle sv h rq c e)
  | OpCreateCompany h req => discard (create_company h req)
  | OpWebsocket p turn w => discard (websocket_turn p turn w)
  | OpBootstrap dirs outcome => discard (@bootstrap_existing_sessions _ dirs outcome)
  | OpClient change => modify_whatsapp change
  end.

(** The operations that give the state up in the middle, block by block. *)
Inductive Waiting :=
| Dispatching (io : ByteIo) (answers : Answers) (outcome : SendMessageOutcome)
    (text : option string)
| Retaining (io : ByteIo)
| Cleaning (io : ByteIo).
Definition blocks_of (op : Waiting) : M unit → Prop :=
  match op with
  | Dispatching io ans o t =>
    block_of (dispatch_blocks io (ans_send_media ans) (ans_send_text ans) o t)
  | Retaining io => block_of (apply_retention_blocks io)
  | Cleaning io => block_of (cleanup_expired_temp_media_blocks io)
  end.

(** One step of the system, and the states a new process can reach.  A block
    runs in whatever state the others left, with any answers of the blocks
    before it: every interleaving of such operations is a run. *)
Inductive step : AppState → AppState → Prop :=
| step_exec op s : step s (state_of (exec op) s)
| step_block op m s : blocks_of op m → step s (state_of m s).

(** A process starts: the state is built, then the legacy secrets upgraded. *)
Definition started (new : AppState) (nonce : string → option string) : AppState :=
  state_of (upgrade_legacy_callback_secrets nonce) new.

(** A process can stop in any state; the next one, of any configuration, starts
    from one of the snapshots given to the sink so far (a write can fail, and the
    last ones be lost), or from none. *)
Inductive reachable : AppState → Prop :=
| reachable_new config has_sink bus nonce :
    reachable (started (app_with config has_sink bus None) nonce)
| reachable_step s s' : reachable s → step s s' → reachable s'
| reachable_restart s config has_sink bus loaded nonce :
    reachable s → (∀ p, loaded = Some p → p ∈ app_snapshots s) →
    reachable (started (outlives s (app_with config has_sink bus loaded)) nonce).

Lemma keeps_create_company {EL : EnvLaws} h req : keeps (create_company h req).
Proof. unfold create_company. keeps_tac. Qed.
Lemma keeps_turn {EL : EnvLaws} P turn w : keeps (websocket_turn P turn w).
Proof.
  unfold websocket_turn, on_client, on_text, record_websocket_subscription_metric, on_bus, get_config.
  keeps_tac.
Qed.
Lemma keeps_restore_session {EL : EnvLaws} outcome x : keeps (restore_session outcome x).
Proof. destruct x as [[p c] ch]. unfold restore_session, channel_exists. keeps_tac. Qed.
Lemma keeps_bootstrap {EL : EnvLaws} (dirs : Directories) outcome :
  keeps (bootstrap_existing_sessions outcome).
Proof.
  unfold bootstrap_existing_sessions, get_config. apply keeps_bind; [keeps_tac|]. intros config.
  destruct (negb _); [keeps_tac|]. generalize (discover_session_channels
    (cfg_wa_session_sqlite_dir config)) 0%nat. intros l. induction l as [|x l IH]; intros n;
    simpl; [keeps_tac|]. apply keeps_bindR; [apply keeps_restore_session|]. intros connected. apply IH.
Qed.
Lemma keeps_exec {EL : EnvLaws} op : keeps (exec op).
Proof.
  destruct op; simpl; unfold discard; keeps_tac; eauto using keeps_handle_at,
    keeps_create_company, keeps_turn, keeps_bootstrap.
Qed.

Lemma keeps_blocks {EL : EnvLaws} op m : blocks_of op m → keeps m.
Proof.
  destruct op; apply keeps_block.
  - apply keeps_dispatch_blocks.
  - apply keeps_retention_blocks.
  - apply keeps_cleanup_blocks.
Qed.

Lemma started_wf {EL : EnvLaws} new nonce : WF new → WF (started new nonce).
Proof. apply keeps_wf, keeps_upgrade. Qed.
Lemma restart_wf s config has_sink bus loaded :
  WF s → (∀ p, loaded = Some p → p ∈ app_snapshots s) →
  WF (outlives s (app_with config has_sink bus loaded)).
Proof.
  intros Hs Hl Hb. destruct (Hs Hb) as [_ [Hw _]]. split; [|by split].
  destruct loaded as [p|]; [|apply empty_log_wf]. simpl in Hw. rewrite Forall_forall in Hw. destruct (Hw p (Hl p eq_refl)) as (i & Hi & ->).
  exact (restored_wf _ i Hi).
Qed.

Lemma reachable_wf {EL : EnvLaws} s : reachable s → WF s.
Proof.
  induction 1 as [| s s' _ IH Hstep|].
  - apply started_wf. intros _. split; [apply empty_log_wf|by split].
  - destruct Hstep as [op s|op m s Hm]; [exact (keeps_wf _ s (keeps_exec op) IH)|].
    exact (keeps_wf _ s (keeps_blocks op m Hm) IH).
  - by apply started_wf, restart_wf.
Qed.

(** C1. In every state the service can reach, by any interleaving of its
    operations, the dispatches and the retention passes block by block, with any
    answers of WhatsApp, the byte store, the speech-to-text service and the HTTP
    client, and across restarts from any snapshot it gave to its sink, the message
    log is well formed: the two copies of every message agree, identifiers are not reused, and the
    messages of a conversation carry distinct sequence numbers no greater than
    the conversation's [last_message_seq], in order. *)
Theorem reachable_log_ok {EL : EnvLaws} s :
  reachable s → Z.of_nat (app_uuids s) ≤ i64_max → log_ok (app_inner s).
Proof. intros Hr Hb. by apply (reachable_wf s Hr). Qed.
End system.

(** ** A reachable state *)
Definition demo_operation : Operation :=
  OpInboundText "p" "c" (demo_inbound "hi").
Definition demo_bus : EventBusHandle :=
  local_handle (cfg_event_bus default_config) (cfg_kafka default_config).
Definition demo_started : AppState :=
  @started demo_env toy_crypto (@app_with demo_env default_config true demo_bus None) (λ _, None).
Definition demo_reached : AppState :=
  state_of (@exec demo_env toy_crypto no_raw_events ascii_lowercase (λ _, Err ""%string) demo_operation)
    demo_started.
(** The message is recorded, and the process restarted from its last snapshot. *)
Definition demo_restarted : AppState :=
  @started demo_env toy_crypto
    (outlives demo_reached
       (@app_with demo_env default_config true demo_bus (head (app_snapshots demo_reached))))
    (λ _, None).

Lemma reachable_log_ok_witness :
  size (st_messages_by_id (app_inner demo_restarted)) = 1%nat ∧ log_ok (app_inner demo_restarted).
Proof.
  split; [vm_compute; reflexivity|].
  apply (@reachable_log_ok demo_env toy_crypto no_raw_events ascii_lowercase (λ _, Err ""%string) demo_env_laws).
  - apply reachable_restart; [|intros p Hp; by apply head_Some_elem_of].
    eapply reachable_step; [apply reachable_new|]. apply step_exec.
  - vm_compute. discriminate.
Defined.

(** ** Records under their identifiers *)
(** Values told apart by [f] are listed once. *)
Lemma hm_values_NoDup `{HashOrder} {K V B} `{Countable K} (f : V → B) (m : gmap K V) :
  (∀ k k' v v', m !! k = Some v → m !! k' = Some v' → f v = f v' → k = k') →
  NoDup (f <$> hm_values m).
Proof.
  intros Hf. unfold hm_values. rewrite <- list_fmap_compose. apply NoDup_fmap_2_strong.
  - intros [k v] [k' v'] Hk%elem_of_hm_iter Hk'%elem_of_hm_iter E. simpl in E.
    pose proof (Hf _ _ _ _ Hk Hk' E). subst k'. congruence.
  - eapply NoDup_fmap_1, hm_iter_NoDup.
Qed.

Section filed.
Context `{Env} {EL : EnvLaws}.

(** The conversations that stand for the media of no conversation. *)
Definition conversations_filed (store : PersistedStore) : Prop :=
  map_Forall (λ id c, conv_id c = id) (ps_conversations store).
Lemma placeholder_filed store m :
  conversations_filed store → conversations_filed (add_placeholder store m).
Proof.
  intros Hf. unfold add_placeholder. case_match; [done|]. unfold conversations_filed. simpl.
  by apply map_Forall_insert_2.
Qed.
Lemma placeholders_keep store :
  let store' := ensure_media_conversation_placeholders store in
  (conversations_filed store → conversations_filed store')
  ∧ ps_messages_by_id store' = ps_messages_by_id store ∧ ps_media store' = ps_media store
  ∧ ps_transcripts store' = ps_transcripts store.
Proof.
  unfold ensure_media_conversation_placeholders.
  generalize (retain_list (λ media, negb (is_blank (media_conversation_id media))
    && bool_decide (ps_conversations store !! media_conversation_id media = None))
    (hm_values (ps_media store))). intros l. simpl.
  revert store. induction l as [|m l IH]; intros store; [done|]. simpl.
  destruct (IH (add_placeholder store m)) as (Hc & -> & -> & ->).
  split; [intros Hf; by apply Hc, placeholder_filed|].
  unfold add_placeholder. by case_match.
Qed.

Lemma retain_filed {V} (key : V → string) (p : string → V → bool) (m : gmap string V) :
  map_Forall (λ id v, key v = id) m → map_Forall (λ id v, key v = id) (retain p m).
Proof. intros Hm id v [Hv _]%lookup_retain_Some. by apply Hm. Qed.

Lemma from_inner_filed n i : log_wf n i → filed (from_inner i).
Proof.
  intros [HL [_ _ [R1 R2 R3]]]. unfold from_inner, sanitize_updates_surfaces.
  match goal with |- context [ensure_media_conversation_placeholders ?s] =>
    destruct (placeholders_keep s) as (Hc & Hm & Hd & Ht) end.
  constructor.
  - apply Hc. apply retain_filed. intros id c Hid. by apply (log_conversations _ HL).
  - rewrite Hm. apply retain_filed. intros id m Hid. by apply (log_listed _ HL).
  - rewrite Hd. by apply retain_filed.
  - rewrite Ht. apply hm_values_NoDup.
    intros k k' t t' [Hk _]%lookup_retain_Some [Hk' _]%lookup_retain_Some. by apply R3.
Qed.

(** C5. In every reachable state each media object is filed under its identifier
    and each transcript under its message, no two transcripts share an
    identifier, and so the snapshot of the state is filed: each conversation,
    message and media object under its identifier, each transcript named
    once. *)
Theorem reachable_records_filed `{Crypto} `{RawCodec} `{Lowercase} parse_url s :
  reachable parse_url s → Z.of_nat (app_uuids s) ≤ i64_max →
  map_Forall (λ id m, media_id m = id) (st_media (app_inner s))
  ∧ map_Forall (λ id t, tr_message_id t = id) (st_transcripts (app_inner s))
  ∧ filed (from_inner (app_inner s)).
Proof.
  intros Hr Hb. pose proof (wf_log _ (reachable_wf _ _ Hr) Hb) as Hwf.
  destruct (fresh_filed _ _ (proj2 Hwf)) as [R1 R2 _]. split_and!.
  - exact R1.
  - intros id t Ht. by apply R2.
  - by eapply from_inner_filed.
Qed.
End filed.

(** ** A reachable state with a media object and its transcript *)
Definition demo_audio : SimulateInboundMediaRequest :=
  mkSimulateInboundMediaRequest (Some demo_customer) (Some "channel_dev"%string) None None
    (Some "audio"%string) (Some "audio/ogg"%string) None None None None.
Definition demo_recorded : AppState :=
  state_of (@exec demo_env toy_crypto no_raw_events ascii_lowercase (λ _, Err ""%string)
              (OpInboundMedia reliable_io "p" "c" demo_audio))
    demo_started.

Lemma reachable_records_filed_witness :
  size (st_media (app_inner demo_recorded)) = 1%nat
  ∧ size (st_transcripts (app_inner demo_recorded)) = 1%nat
  ∧ @filed demo_env (@from_inner demo_env (app_inner demo_recorded)).
Proof.
  split; [vm_compute; reflexivity|]. split; [vm_compute; reflexivity|].
  refine (proj2 (proj2 (@reachable_records_filed demo_env demo_env_laws toy_crypto no_raw_events
    ascii_lowercase (λ _, Err ""%string) demo_recorded _ _))).
  - eapply reachable_step; [apply reachable_new|]. apply step_exec.
  - vm_compute. discriminate.
Defined.
