(* ===== verification/Deployment.v ===== *)
(** * What the tasks of a deployment keep

    The process runs requests and background tasks over its database and its
    broker.  Each of them keeps the invariant of the application, and leaves the
    row of the snapshot to the persistence task. *)
From S2P Require Import Prelude Text Json Errors Env Secrets Config Models Security Records.
From S2P Require Import EventBus Codec Tables Database DatabaseSpec Whatsapp Store Conversations Bytes.
From S2P Require Import MessageLog Transcripts Callbacks Sending WhatsappEvents Outbox Workers Wire.
From S2P Require Import Paging Queries Routes Router Openapi Websocket Operator Keeps System.

(** A request as it comes in. *)
Record Incoming : Type := mkIncoming {
  in_headers : string → option string;
  in_request : Request;
  in_method : Method;
  in_path : list string
}.
Definition serve_one `{Env} `{Crypto} `{Lowercase} `{Serde} `{Postgres}
    (ax : Axum) (pb : Probes) (sv : Server) (r : Incoming) : W Response :=
  serve ax pb sv (in_headers r) (in_request r) (in_method r) (in_path r).

Section deployment.
Context `{Env} {EL : EnvLaws} `{Crypto} `{RawCodec} `{Lowercase} `{Serde} `{Postgres} `{KafkaClient}.

(** As [keeps], over a deployment; and the snapshots of the database stay. *)
Definition tends {A} (m : W A) : Prop :=
  ∀ b rows, preserves (λ w, since b (w_app w) ∧ db_snapshots (w_db w) = rows) m.

Lemma tends_ret {A} (a : A) : tends (ret a).
Proof. intros b rows. apply preserves_ret. Qed.
Lemma tends_gets {A} (f : World → A) : tends (gets f).
Proof. intros b rows. apply preserves_gets. Qed.
Lemma tends_bind {A B} (m : W A) (k : A → W B) : tends m → (∀ a, tends (k a)) → tends (bind m k).
Proof. intros Hm Hk b rows. apply preserves_bind; [done|]. intros a. apply Hk. Qed.
Lemma tends_bindR {A B E} (m : W (result A E)) (k : A → W (result B E)) :
  tends m → (∀ a, tends (k a)) → tends (bindR m k).
Proof. intros Hm Hk b rows. apply preserves_bindR; [done|]. intros a. apply Hk. Qed.
Lemma tends_for_each {A} (f : A → W unit) l : (∀ a, tends (f a)) → tends (for_each f l).
Proof. intros Hf b rows. apply preserves_for_each. intros a. apply Hf. Qed.
(** A program all of whose blocks do. *)
Definition all_tend {A} (p : Async World A) : Prop := every (λ X, tends (A:=X)) p.
Lemma tends_run {A} (p : Async World A) : all_tend p → tends (run_async p).
Proof.
  unfold all_tend. induction p as [a|X block resume IH]; simpl; [intros _; apply tends_ret|].
  intros [Hb Hk]. apply tends_bind; auto.
Qed.
Lemma tends_block {A} (p : Async World A) m : all_tend p → block_of p m → tends m.
Proof.
  apply every_block. intros X block Hb. apply tends_bind; [done|]. intros a. apply tends_ret.
Qed.
Lemma all_tend_finish {A} (a : A) : all_tend (Finish a).
Proof. done. Qed.
Lemma all_tend_await {A X} (m : W X) (k : X → Async World A) :
  tends m → (∀ a, all_tend (k a)) → all_tend (Await m k).
Proof. by split. Qed.
Lemma all_tend_each {A} (f : A → Async World unit) l :
  (∀ a, all_tend (f a)) → all_tend (call_each f l).
Proof. apply every_call_each. Qed.
Lemma tends_app {A} (m : M A) : keeps m → tends (on_app m).
Proof. intros Hm b rows w [Hw Hd]. rewrite (proj1 (on_app_run m w)). split; [by apply Hm|done]. Qed.
Lemma tends_db {A} (m : D A) : frame db_snapshots m → tends (on_db m).
Proof. intros Hm b rows w [Hw Hd]. rewrite (proj1 (on_db_run m w)). split; [done|]. simpl. by rewrite Hm. Qed.

(** ** The statements *)
Lemma frame_rows {A} ctx (f : time → Db → option (A * Db)) :
  (∀ now d a d1, f now d = Some (a, d1) → db_snapshots d1 = db_snapshots d) →
  frame db_snapshots (statement ctx f).
Proof.
  intros Hf d. destruct (statement_cases ctx f d) as [(a & d1 & Ha & -> & _)|[-> _]]; [|done].
  by rewrite (Hf _ _ _ _ Ha).
Qed.
Lemma frame_update ctx id (f : time → OutboxRow → OutboxRow) :
  frame db_snapshots (statement ctx (λ now, update_outbox id (f now))).
Proof.
  apply frame_rows. intros now d a d1. unfold update_outbox.
  destruct (db_outbox d !! id); [case_decide; [done|]|]; by intros [= _ <-].
Qed.
Lemma frame_claim worker limit lock : frame db_snapshots (claim_event_outbox_batch worker limit lock).
Proof. apply frame_rows. by intros now d a d1 [= _ <-]. Qed.
Lemma frame_insert_deadletter envelope topic key :
  frame db_snapshots (insert_kafka_deadletter envelope topic key).
Proof.
  unfold insert_kafka_deadletter, pure_result.
  apply frame_bindR; [apply frame_ret|intros first]. apply frame_bindR; [apply frame_ret|intros last].
  apply frame_rows. intros now d a d1. destruct (_ !! _); [done|]. by intros [= _ <-].
Qed.
Lemma frame_event_inbox group event topic partition offset :
  frame db_snapshots (event_inbox_processed group event topic partition offset).
Proof. apply frame_rows. by intros now d a d1 [= _ <-]. Qed.
Lemma frame_mark_inbox group event topic partition offset :
  frame db_snapshots (mark_event_inbox_processed group event topic partition offset).
Proof. apply frame_rows. intros now d a d1. destruct (existsb _ _); [done|]. by intros [= _ <-]. Qed.
Lemma frame_reading {A} ctx (f : time → Db → option (A * Db)) :
  (∀ now d a d1, f now d = Some (a, d1) → d1 = d) → frame contents (statement ctx f).
Proof. intros Hf d. by apply statement_reads. Qed.

Lemma frame_check_contents : frame contents check_ready.
Proof.
  unfold check_ready. apply frame_bindR; [|intros ?; apply frame_bindR].
  - apply frame_reading. by intros ? ? ? ? [= _ <-].
  - apply frame_reading. by intros ? ? ? ? [= _ <-].
  - intros missing. case_decide; apply frame_ret.
Qed.

Lemma frame_check_ready : frame db_snapshots check_ready.
Proof. intros d. pose proof (frame_check_contents d) as Hc. unfold contents in Hc. by injection Hc. Qed.
Lemma frame_replay kafka u by_ : frame db_snapshots (replay_kafka_deadletter kafka u by_).
Proof.
  intros d. unfold replay_kafka_deadletter.
  match goal with |- context [transaction ?b ?c ?body] =>
    destruct (transaction_cases b c body d) as [(a & Hb & Hc & _)|[Hc _]] end;
    unfold contents in Hc; injection Hc as _ -> _ _ _; [|done].
  destruct (replay_body _ _ _ _ _) as [r d2] eqn:E. simpl in Hb |- *. subst r.
  apply replay_body_commit in E as (uuid & row & event & _ & _ & _ & _ & _ & _ & _ & Hi).
  by injection Hi as _ -> _.
Qed.

(** ** The broker and the counters *)
Lemma tends_metrics f : tends (with_metrics f).
Proof. apply tends_app, keeps_modify. intros s. split_and!; [done..|simpl; lia]. Qed.
Lemma tends_deadletter event n err : tends (make_deadletter event n err).
Proof. apply tends_bind; [apply tends_app, keeps_now|]. intros now. apply tends_ret. Qed.
Lemma tends_payload topic key payload : tends (publish_payload topic key payload).
Proof. intros b rows w Hw. unfold publish_payload, state_of. by destruct (kafka_send _). Qed.
Lemma tends_commit group source : tends (commit_message group source).
Proof. intros b rows w Hw. unfold commit_message, state_of. by destruct (kafka_commit _). Qed.
End deployment.

Create HintDb tends discriminated.
#[export] Hint Constants Opaque : tends.
#[export] Hint Resolve tends_ret tends_gets tends_metrics tends_deadletter tends_payload tends_commit
  frame_update frame_claim frame_insert_deadletter frame_event_inbox frame_mark_inbox
  frame_check_ready frame_replay : tends.

Ltac tends_step :=
  cbv beta zeta;
  lazymatch goal with
  | |- ∀ _, _ => intros ?
  | |- tends (match ?x with _ => _ end) => destruct x
  | |- tends (bind _ _) => apply tends_bind
  | |- tends (bindR _ _) => apply tends_bindR
  | |- tends (for_each _ _) => apply tends_for_each
  | |- tends (run_async _) => apply tends_run
  | |- all_tend (Finish _) => apply all_tend_finish
  | |- all_tend (Await _ _) => apply all_tend_await
  | |- all_tend (call_each _ _) => apply all_tend_each
  | |- all_tend (match ?x with _ => _ end) => destruct x
  | |- all_tend _ => solve [auto with tends]
  | |- tends (on_db (match ?x with _ => _ end)) => destruct x
  | |- tends (on_db _) =>
    apply tends_db; first [solve [auto with tends] | apply frame_rows; by intros ? ? ? ? [= _ <-]]
  | |- tends (on_app _) => apply tends_app; keeps_tac
  | |- tends _ => solve [auto with tends]
  end.
Ltac tends_tac := repeat tends_step.

(** ** The tasks *)
Section tasks.
Context `{Env} {EL : EnvLaws} `{Crypto} `{RawCodec} `{Lowercase} `{Serde} `{Postgres} `{KafkaClient}.

Lemma tends_public ax pb headers rq e : tends (public ax pb headers rq e).
Proof.
  destruct e; unfold public, ready, metrics, debug_kafka, debug_kafka_deadletters,
    replay_kafka_deadletter_handler, debug_dirty, debug_channels, operator_only, metadata_ready,
    storage_ready, event_bus_ready, event_bus_snapshot, runtime_metrics_snapshot,
    kafka_deadletters, kafka_outbox_backlog, list_kafka_deadletters, outbox_backlog_count,
    replay_deadletter, dev_media_preview, operator_config, get_config, get_inner, dirty_signal;
    tends_tac.
  apply keeps_create_company.
Qed.
Lemma tends_dispatch ax pb sv headers rq m path : tends (dispatch ax pb sv headers rq m path).
Proof.
  unfold dispatch, handle. destruct (route m path) as [[e|c e]| |]; try apply tends_ret.
  - apply tends_public.
  - apply tends_app, keeps_handle_at.
Qed.
Lemma tends_serve_one ax pb sv r : tends (serve_one ax pb sv r).
Proof.
  unfold serve_one, serve, request_id_middleware, new_request_id.
  apply tends_bind; [tends_tac|intros id]. apply tends_bind; [apply tends_dispatch|intros a]. tends_tac.
Qed.

Lemma tends_publish event : tends (publish event).
Proof. unfold publish, kafka_config. tends_tac. Qed.
Lemma tends_publish_deadletter envelope : tends (publish_deadletter envelope).
Proof. unfold publish_deadletter, kafka_config. tends_tac. Qed.
Hint Resolve tends_publish tends_publish_deadletter : tends.
Lemma tends_from_channel : tends spawn_kafka_publisher_step.
Proof.
  intros b rows w [Hw Hd]. unfold spawn_kafka_publisher_step, state_of.
  destruct (bus_tx _) as [[alive [|event rest]]|]; [by split..| |by split].
  match goal with |- context [publish_from_channel event ?w1] => set (w2 := w1) end.
  assert (Ht : tends (publish_from_channel event)) by (unfold publish_from_channel, kafka_config; tends_tac).
  apply (Ht b rows w2). split; [|done]. by apply (wf_frame b (w_app w)).
Qed.

Lemma tends_publish_failed record event err : all_tend (publish_failed record event err).
Proof.
  unfold publish_failed, kafka_config, mark_event_outbox_deadlettered, mark_event_outbox_failed. tends_tac.
Qed.
Hint Resolve tends_publish_failed : tends.
Lemma tends_publisher_blocks worker : all_tend (spawn_outbox_publisher_blocks worker).
Proof.
  unfold spawn_outbox_publisher_blocks, publish_outbox_blocks, kafka_config,
    mark_event_outbox_deadlettered, mark_event_outbox_failed, mark_event_outbox_published. tends_tac.
Qed.
Lemma tends_publisher worker : tends (spawn_outbox_publisher_step worker).
Proof. apply tends_run, tends_publisher_blocks. Qed.

(** What the outside answers the drainer and the workers. *)
Context (o : Outside) (io : ByteIo)
  (send_media : string → string → OutboundMediaMessage → option (result string string))
  (send_text : string → string → string → option (result string string))
  (respond : string → string → string → result GroqTranscription string).

Lemma tends_drainer worker :
  tends (spawn_postgres_event_drainer_step io send_media send_text respond worker).
Proof.
  unfold spawn_postgres_event_drainer_step, process_postgres_outbox_record, drain_failed,
    handle_internal_work_event, kafka_config, mark_event_outbox_deadlettered,
    mark_event_outbox_failed, mark_event_outbox_published. tends_tac.
Qed.

Lemma tends_handle_message message :
  tends (handle_message o io send_media send_text respond message).
Proof. unfold handle_message, work. tends_tac. Qed.
Hint Resolve tends_handle_message : tends.
Lemma tends_worker group message :
  tends (spawn_worker_step o io send_media send_text respond group message).
Proof. unfold spawn_worker_step, consume_one_message_with_inbox, consume_event. tends_tac. Qed.
End tasks.
