(* ===== verification/OperatorSpec.v ===== *)
(** * What the server answers *)
From S2P Require Import Prelude Text Json Errors Env Secrets Config Models Security Records.
From S2P Require Import EventBus Codec Tables Database DatabaseSpec Whatsapp Store Conversations.
From S2P Require Import Bytes MessageLog Transcripts Callbacks Sending WhatsappEvents Outbox Wire.
From S2P Require Import Paging Queries Routes Router Openapi Websocket QuerySpec RoutesSpec.
From S2P Require Import Operator Keeps System Deployment Demo OutboxSpec.

Section server.
Context `{Env} {EL : EnvLaws} `{Crypto} `{Lowercase} `{Serde} `{Postgres}.
Context (ax : Axum) (pb : Probes) (sv : Server).

(** ** The identifier of a request *)
Abbreviation serve_one := (serve_one ax pb sv).
(** The requests a process serves one after the other. *)
Fixpoint serve_all (l : list Incoming) : W (list Response) :=
  match l with
  | [] => ret []
  | r :: l => let! a := serve_one r in let! rest := serve_all l in ret (a :: rest)
  end.

(** The identifier of the next request. *)
Definition request_id_at (r : Incoming) (w : World) : string :=
  unwrap_or (given_request_id (in_headers r)) ("req_" +:+ uuid_simple (app_uuids (w_app w))).

(** The deployment the handler finds. *)
Definition entered (r : Incoming) (w : World) : World :=
  match given_request_id (in_headers r) with
  | Some _ => w
  | None => state_of (on_app new_request_id) w
  end.
Definition handled (r : Incoming) : W (result Reply ApiError) :=
  dispatch ax pb sv (in_headers r) (in_request r) (in_method r) (in_path r).

Lemma serve_one_run r w :
  state_of (serve_one r) w = state_of (handled r) (entered r w)
  ∧ value_of (serve_one r) w
    = mkResponse (respond_with ax (request_id_at r w) (value_of (handled r) (entered r w)))
        (if ax_header_value ax (request_id_at r w) then Some (request_id_at r w) else None).
Proof.
  unfold Deployment.serve_one, serve, request_id_middleware, request_id_at, entered, handled.
  rewrite !state_of_bind, !value_of_bind. by destruct (given_request_id _).
Qed.

(** The identifier of the response, if the server chose it. *)
Definition chosen_id (r : Incoming) (a : Response) : option string :=
  match given_request_id (in_headers r) with Some _ => None | None => rs_request_id a end.
Definition chosen_ids (l : list Incoming) (answers : list Response) : list string :=
  omap (λ ra, chosen_id ra.1 ra.2) (zip l answers).

(** A served request leaves the application well formed, and gives back no UUID
    it or an earlier one drew. *)
Lemma serve_one_wf r w :
  WF (w_app w) →
  let s' := w_app (state_of (serve_one r) w) in
  WF s' ∧ (app_uuids (w_app w) ≤ app_uuids s')%nat
  ∧ ∀ id, chosen_id r (value_of (serve_one r) w) = Some id →
      id = "req_" +:+ uuid_simple (app_uuids (w_app w)) ∧ (app_uuids (w_app w) < app_uuids s')%nat.
Proof.
  cbv zeta. intros Hw. destruct (serve_one_run r w) as [-> ->].
  assert (Hs : since (app_uuids (w_app (entered r w)), app_snapshots (w_app (entered r w)))
                 (w_app (entered r w))).
  { constructor; [done..|]. unfold entered. destruct (given_request_id _); [done|].
    rewrite (proj1 (on_app_run _ _)). by apply (keeps_wf new_request_id), Hw; apply keeps_id. }
  destruct (tends_dispatch ax pb sv (in_headers r) (in_request r) (in_method r) (in_path r) _ _
              (entered r w) (conj Hs eq_refl)) as [[Hu _ Hwf] _].
  fold (handled r) in Hu, Hwf. split; [done|].
  revert Hu. unfold chosen_id, request_id_at, entered. simpl.
  destruct (given_request_id _); simpl; intros Hu; (split; [lia|]); [done|].
  intros id. destruct (ax_header_value _ _); [|done]. intros [= <-]. by split; [|lia].
Qed.

Lemma chosen_later l w id :
  WF (w_app w) → id ∈ chosen_ids l (value_of (serve_all l) w) →
  ∃ n, (app_uuids (w_app w) ≤ n)%nat ∧ id = "req_" +:+ uuid_simple n.
Proof.
  revert w. induction l as [|r l IH]; intros w Hw; simpl; [by intros ?%elem_of_nil|].
  rewrite !value_of_bind. simpl. destruct (serve_one_wf r w Hw) as (Hw' & Hle & Hid).
  assert (Hrest : id ∈ chosen_ids l (value_of (serve_all l) (state_of (serve_one r) w)) →
    ∃ n, (app_uuids (w_app w) ≤ n)%nat ∧ id = "req_" +:+ uuid_simple n).
  { intros Hin. destruct (IH _ Hw' Hin) as (n & Hn & ->). exists n. by split; [lia|]. }
  unfold chosen_ids. simpl. destruct (chosen_id r _) as [id'|]; [|exact Hrest].
  intros [->|Hin]%elem_of_cons; [|by apply Hrest]. by eexists; split; [|apply Hid].
Qed.

(** C15. Every answer is sent under one identifier, the one its request brought or
    one the server chose: the headers carry it and so does the body of an error.
    No two of the requests a process serves are given one identifier by it. *)
Theorem responses_identified l w :
  WF (w_app w) →
  NoDup (chosen_ids l (value_of (serve_all l) w))
  ∧ ∀ r, let a := value_of (serve_one r) w in
      (ax_header_value ax (request_id_at r w) = true → rs_request_id a = Some (request_id_at r w))
      ∧ ∀ e, value_of (handled r) (entered r w) = Err e →
          ∃ body, rs_reply a = JsonReply (status_code e) body
            ∧ get_str (index body "error") "request_id" = Some (request_id_at r w).
Proof.
  intros Hw. split.
  - revert w Hw. induction l as [|r l IH]; intros w Hw; simpl; [constructor|].
    rewrite !value_of_bind. simpl. destruct (serve_one_wf r w Hw) as (Hw' & _ & Hid).
    unfold chosen_ids. simpl. destruct (chosen_id r _) as [id|]; [|by apply IH].
    destruct (Hid id eq_refl) as [-> Hlt]. constructor; [|by apply IH].
    intros (n & Hn & Heq)%chosen_later; [|done].
    apply (inj (String.append "req_")) in Heq. apply (inj uuid_simple) in Heq. lia.
  - intros r a. subst a. destruct (serve_one_run r w) as [_ ->]. simpl. split.
    + by intros ->.
    + intros e ->. by eexists.
Qed.

(** ** Readiness *)
Lemma retained_none {A} (p : A → bool) l x : retain_list p l = [] → x ∈ l → p x = false.
Proof.
  intros Hn Hx. destruct (p x) eqn:E; [|done]. exfalso.
  assert (Hin : x ∈ retain_list p l) by (by apply elem_of_retain_list).
  rewrite Hn in Hin. by apply elem_of_nil in Hin.
Qed.
Lemma retained_missing {A} (f : A → string) names l x :
  retain_list (λ x, negb (bool_decide (f x ∈ names))) l = [] → x ∈ l → f x ∈ (names : list string).
Proof.
  intros Hn Hx. apply (retained_none _ _ _ Hn), negb_false_iff in Hx. by apply bool_decide_eq_true in Hx.
Qed.

Lemma on_app_gets {A} (f : AppState → A) w : state_of (on_app (gets f)) w = w.
Proof. by destruct w. Qed.
Lemma operator_config_run w :
  state_of operator_config w = w ∧ value_of operator_config w = app_config (w_app w).
Proof. split; [apply on_app_gets|done]. Qed.

Lemma check_ready_ok d :
  is_ok (value_of check_ready d) = true → ∀ t, t ∈ critical_tables → t ∈ db_tables d.
Proof.
  unfold check_ready, bindR. rewrite value_of_bind.
  destruct (value_of (statement _ _) d) as [?|?] eqn:E; [|done].
  apply statement_ok in E. injection E as _ E. rewrite <- E. rewrite value_of_bind.
  destruct (value_of (statement _ _) (tick d)) as [missing|?] eqn:E'; [|done].
  apply statement_ok in E'. injection E' as Hm _. case_decide as Hn; [|done]. intros _ t Ht.
  rewrite Hn in Hm. by apply (retained_missing id) with (x := t) in Hm.
Qed.

Lemma bus_health_ok existing h :
  health_ok (bus_health existing h (bool_decide (bus_mode h = BusKafka))) = true →
  bus_mode h = BusKafka →
  ∃ topics, existing = Ok topics
    ∧ ∀ spec, spec ∈ required_topic_specs (bus_kafka_config h) → spec_name spec ∈ topics.
Proof.
  intros Hok Hm. revert Hok. unfold bus_health, kafka_health. rewrite bool_decide_eq_true_2 by done.
  destruct existing as [topics|]; [|done].
  pose proof (retained_missing spec_name topics (required_topic_specs (bus_kafka_config h))) as Hn.
  change (retain_list _ _) with (missing_specs (bus_kafka_config h) topics) in Hn.
  revert Hn. generalize (missing_specs (bus_kafka_config h) topics). intros missing Hn. simpl.
  case_decide; [|done]. intros _. exists topics. split; [done|]. intros spec. by apply Hn.
Qed.

Lemma ready_check_ok io flag s :
  is_ok (value_of (ready_check io flag) s) = true →
  cfg_storage_provider (app_config s) = R2 → can_upload (cfg_r2 (app_config s)) = true.
Proof.
  unfold ready_check, get_config. rewrite value_of_bind. change (value_of (gets app_config) s) with (app_config s).
  intros Hok Hp. revert Hok. rewrite Hp. by destruct (can_upload _).
Qed.

Lemma ready_run w :
  let config := app_config (w_app w) in
  let bus := app_event_bus (w_app w) in
  ∃ w1 metadata storage detail,
    w_app w1 = w_app w
    ∧ (metadata = true → cfg_metadata_db config = DbPostgres → is_ok (value_of check_ready (w_db w)) = true)
    ∧ storage = value_of (storage_ready pb) w1
    ∧ value_of (ready pb) w
      = let event_bus := bus_health (pb_existing_topics pb) bus (bool_decide (bus_mode bus = BusKafka)) in
        {| rr_ok := metadata && pb_session_dir pb && health_ok event_bus && rc_ok storage
                    && rc_ok (webhook_secret_ready config);
           rr_checks :=
             [mkReadyCheck "metadata_db" metadata detail;
              mkReadyCheck "event_bus" (health_ok event_bus) (health_detail event_bus);
              mkReadyCheck "wa_session_dir" (pb_session_dir pb) (cfg_wa_session_sqlite_dir config);
              storage; webhook_secret_ready config] |}.
Proof.
  cbv zeta. unfold ready. rewrite value_of_bind.
  destruct (operator_config_run w) as [-> ->]. rewrite value_of_bind.
  set (config := app_config (w_app w)).
  assert (Hm : w_app (state_of metadata_ready w) = w_app w
    ∧ (cfg_metadata_db config = DbPostgres →
       is_ok (value_of metadata_ready w) = is_ok (value_of check_ready (w_db w)))).
  { unfold metadata_ready. rewrite state_of_bind, value_of_bind.
    destruct (operator_config_run w) as [-> ->]. fold config.
    unfold metadata_db_handle. case_bool_decide; [|done].
    by rewrite (proj1 (on_db_run _ _)), (proj2 (on_db_run _ _)). }
  destruct Hm as [Hw Hm]. set (w1 := state_of metadata_ready w) in *. rewrite value_of_bind.
  assert (Hst : state_of (event_bus_ready pb) w1 = w1) by apply on_app_gets. rewrite Hst.
  assert (He : value_of (event_bus_ready pb) w1
    = let bus := app_event_bus (w_app w) in
      bus_health (pb_existing_topics pb) bus (bool_decide (bus_mode bus = BusKafka))) by (by rewrite <- Hw).
  rewrite He. cbv zeta. rewrite value_of_bind.
  exists w1, (match cfg_metadata_db config with
              | DbInMemory => true
              | DbPostgres => bool_decide (is_Some (cfg_database_url config))
                              && is_ok (value_of metadata_ready w)
              end), (value_of (storage_ready pb) w1), (metadata_detail config (value_of metadata_ready w)).
  split; [done|]. split; [|split; reflexivity].
  intros Hok Hp. rewrite Hp in Hok. rewrite <- Hm by done.
  by apply andb_prop in Hok as [_ Hok].
Qed.

(** C16. A process that reports ready has passed every check it lists: the session
    directory can be made; with a database, the tables the server needs exist;
    with Kafka, the broker has every topic; with the R2 store, it has its
    credentials; and where callbacks are delivered on a signal, a master key is
    configured and was parsed without error; whether the stored secrets were
    sealed under this key is not among the checks. A process that does not report
    ready names a check that failed. *)
Theorem ready_means w :
  let r := value_of (ready pb) w in
  let config := app_config (w_app w) in
  let bus := app_event_bus (w_app w) in
  rr_ok r = forallb rc_ok (rr_checks r)
  ∧ (rr_ok r = true →
      pb_session_dir pb = true
      ∧ (cfg_metadata_db config = DbPostgres → ∀ t, t ∈ critical_tables → t ∈ db_tables (w_db w))
      ∧ (bus_mode bus = BusKafka → ∃ topics, pb_existing_topics pb = Ok topics
          ∧ ∀ spec, spec ∈ required_topic_specs (bus_kafka_config bus) → spec_name spec ∈ topics)
      ∧ (cfg_storage_provider config = R2 → can_upload (cfg_r2 config) = true)
      ∧ (webhook_delivery_enabled (cfg_webhook config) = true → webhook_signal_enabled config = true →
          is_Some (cfg_secret_master_key config) ∧ cfg_secret_master_key_error config = None)).
Proof.
  cbv zeta. destruct (ready_run w) as (w1 & metadata & storage & detail & Hw & Hm & -> & ->).
  cbv zeta. cbn [rr_ok rr_checks forallb rc_ok]. split.
  { by destruct metadata, (pb_session_dir pb), (health_ok _), (rc_ok _), (rc_ok _). }
  rewrite !andb_true_iff. intros [[[[-> Hdir] Hb] Hs] Hk]. split_and!; [done|..].
  - intros Hp. apply check_ready_ok. by apply Hm.
  - by apply bus_health_ok.
  - intros Hp. rewrite <- Hw in Hp |- *. revert Hs. unfold storage_ready. rewrite value_of_bind.
    destruct (operator_config_run w1) as [-> ->]. rewrite value_of_bind, (proj2 (on_app_run _ _)).
    intros Hs. apply (ready_check_ok (pb_io pb) (cfg_r2_ready_write_check (app_config (w_app w1))));
      [|done]. revert Hs. by destruct (value_of (ready_check _ _) _).
  - intros Hd Hsig. revert Hk. unfold webhook_secret_ready. simpl. rewrite Hd, Hsig. simpl.
    rewrite andb_true_iff. intros [Hk He]. by rewrite !bool_decide_eq_true in Hk, He.
Qed.

(** ** The operator only looks *)
Definition records (w : World) := (app_inner (w_app w), contents (w_db w), w_kafka w).

Lemma looks_app {A} (m : M A) : frame app_inner m → frame records (on_app m).
Proof. intros Hm w. rewrite (proj1 (on_app_run m w)). unfold records. simpl. by rewrite Hm. Qed.
Lemma looks_db {A} (m : D A) : frame contents m → frame records (on_db m).
Proof. intros Hm w. rewrite (proj1 (on_db_run m w)). unfold records. simpl. by rewrite Hm. Qed.
Lemma frame_dirty_signal p c ch cv n r k : frame app_inner (dirty_signal p c ch cv n r k).
Proof. by intros s. Qed.
Lemma frame_ready_check io flag : frame app_inner (ready_check io flag).
Proof.
  unfold ready_check, get_config. repeat first
    [progress frame_step | by intros ?; unfold state_of, bytes_put, bytes_delete; repeat case_match].
Qed.
Lemma frame_preview id : frame app_inner (dev_media_preview pb id).
Proof.
  unfold dev_media_preview, media_blob, media_blob_blocks, get_config, get_inner. repeat first
    [progress frame_step | by intros ?; unfold state_of, bytes_get; repeat case_match].
Qed.

Ltac look_step :=
  cbv beta zeta;
  lazymatch goal with
  | |- ∀ _, _ => intros ?
  | |- frame records (ret _) => apply frame_ret
  | |- frame records (bind _ _) => apply frame_bind
  | |- frame records (bindR _ _) => apply frame_bindR
  | |- frame records (match ?x with _ => _ end) => destruct x
  | |- frame records (on_app (gets _)) => apply looks_app, frame_gets
  | |- frame records (on_app (dirty_signal _ _ _ _ _ _ _)) => apply looks_app, frame_dirty_signal
  | |- frame records (on_app (ready_check _ _)) => apply looks_app, frame_ready_check
  | |- frame records (on_app (dev_media_preview _ _)) => apply looks_app, frame_preview
  | |- frame records (on_db check_ready) => apply looks_db, frame_check_contents
  | |- frame records (on_db _) => apply looks_db, frame_reading; by intros ? ? ? ? [= _ <-]
  end.

(** The endpoints of the operator, the documents and the preview leave every
    record, every row of the database and the broker as they are; of the public
    endpoints only the creation of a company and the replay of a dead letter
    change any. *)
Theorem operator_looks headers rq e w :
  e ≠ CreateCompany → (∀ id, e ≠ ReplayKafkaDeadletter id) →
  let w' := state_of (public ax pb headers rq e) w in
  app_inner (w_app w') = app_inner (w_app w) ∧ contents (w_db w') = contents (w_db w)
  ∧ w_kafka w' = w_kafka w.
Proof.
  intros Hc Hr. assert (Hf : frame records (public ax pb headers rq e)).
  { destruct e; try done; try (by exfalso; eapply Hr);
      unfold public, ready, metrics, debug_kafka, debug_kafka_deadletters, debug_dirty,
        debug_channels, operator_only, metadata_ready, storage_ready, event_bus_ready,
        event_bus_snapshot, runtime_metrics_snapshot, kafka_deadletters, kafka_outbox_backlog,
        list_kafka_deadletters, outbox_backlog_count, operator_config, get_config;
      repeat look_step. }
  specialize (Hf w). by apply pair_eq in Hf as [[? ?]%pair_eq ?].
Qed.

(** ** Replaying a dead letter *)
Lemma replay_deadletter_run u by_ w :
  let config := app_config (w_app w) in
  let replay := replay_kafka_deadletter (cfg_kafka config) u by_ in
  (cfg_metadata_db config = DbPostgres
   ∧ state_of (replay_deadletter u by_) w = w <| w_db := state_of replay (w_db w) |>
   ∧ value_of (replay_deadletter u by_) w
     = (let? replayed := internal (value_of replay (w_db w)) in
        ok_or replayed (NotFound "deadletter not found or already replayed")))
  ∨ (cfg_metadata_db config ≠ DbPostgres
     ∧ state_of (replay_deadletter u by_) w = w ∧ is_ok (value_of (replay_deadletter u by_) w) = false).
Proof.
  cbv zeta. unfold replay_deadletter. rewrite state_of_bind, value_of_bind.
  destruct (operator_config_run w) as [-> ->]. unfold metadata_db_handle.
  case_bool_decide as Hp; [left|by right]. cbn [negb]. split; [done|].
  by rewrite state_of_bind, value_of_bind, (proj1 (on_db_run _ _)), (proj2 (on_db_run _ _)).
Qed.

Lemma replay_handler_run headers rq u w :
  let by_ := prin_api_key_id (trusted_internal_principal headers) in
  let m := public ax pb headers rq (ReplayKafkaDeadletter u) in
  state_of m w = state_of (replay_deadletter u by_) w
  ∧ value_of m w
    = (let? id := value_of (replay_deadletter u by_) w in
       Ok (JsonReply 200 (json! { "replayed" ~> true, "deadletter_id" ~> u, "event_id" ~> (id : string) }))).
Proof.
  cbv zeta. unfold public, replay_kafka_deadletter_handler, operator_only, authorize, state_of, value_of.
  rewrite bindR_ret. unfold bindR, bind. by destruct (replay_deadletter _ _ w) as [[id|e] w1].
Qed.

(** C27. The replay of a dead letter is answered with success once: it queues one
    event, free of any lease, and leaves everything else; while the dead letters
    are those it left, every further request for it is refused and changes
    nothing, with a 404 when the database answers. *)
Theorem replay_answered_once headers rq u w :
  let w' := state_of (public ax pb headers rq (ReplayKafkaDeadletter u)) w in
  is_ok (value_of (public ax pb headers rq (ReplayKafkaDeadletter u)) w) = true →
  (∃ id row, db_outbox (w_db w') !! id = Some row ∧ ob_status row = "queued"%string
     ∧ ob_locked_until row = None
     ∧ ∀ id', id' ≠ id → db_outbox (w_db w') !! id' = db_outbox (w_db w) !! id')
  ∧ w_app w' = w_app w ∧ w_kafka w' = w_kafka w
  ∧ ∀ headers' rq' w1,
      db_deadletters (w_db w1) = db_deadletters (w_db w') →
      let again := public ax pb headers' rq' (ReplayKafkaDeadletter u) in
      contents (w_db (state_of again w1)) = contents (w_db w1)
      ∧ is_ok (value_of again w1) = false
      ∧ (cfg_metadata_db (app_config (w_app w1)) = DbPostgres → (∀ n, pg_call n = PgDone) →
         value_of again w1 = Err (NotFound "deadletter not found or already replayed")).
Proof.
  cbv zeta. destruct (replay_handler_run headers rq u w) as [-> ->].
  set (by_ := prin_api_key_id _).
  destruct (replay_deadletter_run u by_ w) as [(Hp & -> & ->)|(_ & _ & Hno)].
  2: { intros Hok. exfalso. revert Hok Hno. by destruct (value_of (replay_deadletter _ _) w). }
  set (replay := replay_kafka_deadletter _ u by_).
  destruct (value_of replay (w_db w)) as [[id|]|err] eqn:E; [|done..]. intros _.
  destruct (replay_queues _ _ _ _ _ E) as ((row & Hrow & Hq & Hl) & Ho & Hs).
  split; [by exists id, row|]. split; [done|]. split; [done|]. intros headers' rq' w1 Hd.
  destruct (replay_handler_run headers' rq' u w1) as [-> ->]. set (by' := prin_api_key_id _).
  assert (Hs1 : spent u (w_db w1)) by (unfold spent in Hs |- *; by rewrite Hd).
  destruct (replay_deadletter_run u by' w1) as [(Hp1 & -> & ->)|(Hp1 & -> & Hno)].
  - destruct (spent_refused (cfg_kafka (app_config (w_app w1))) u by' _ Hs1) as (Hc & Hn & Hdone).
    split; [done|]. simpl. split; [|intros _ Hpg; by rewrite Hdone].
    destruct (value_of _ (w_db w1)) as [[id'|]|]; [by destruct (Hn id')|done..].
  - split; [done|]. split; [|done]. by destruct (value_of (replay_deadletter _ _) w1).
Qed.
End server.

(** ** A deployment over Postgres, with a dead letter *)
Definition demo_axum : Axum :=
  mkAxum (JsonReply 404 VNull) (JsonReply 405 VNull) (JsonReply 101 VNull) (λ _, JsonReply 500 VNull)
    (λ v, negb (bool_decide (v = ""%string))).
Definition demo_probes : Probes := mkProbes true reliable_io (Ok []).
Definition demo_deadlettered : World :=
  mkWorld
    (demo_start <| app_config ::= λ config,
       config <| cfg_metadata_db := DbPostgres |> <| cfg_database_url := Some "postgres://"%string |> |>)
    (state_of (@insert_kafka_deadletter demo_env demo_pg
      (@deadletter_envelope demo_env (seconds 1) (demo_catalog "evt_1") 8 "boom")
      (Some "rustzap.conversation.dirty"%string) "p:c:conv") demo_db)
    demo_broker.
Definition demo_public : PublicEndpoint → W (result Reply ApiError) :=
  @public demo_env demo_serde demo_pg demo_axum demo_probes (λ _, None) demo_request.

Lemma replay_answered_once_witness :
  is_ok (value_of (demo_public (ReplayKafkaDeadletter "1")) demo_deadlettered) = true
  ∧ value_of (demo_public (ReplayKafkaDeadletter "1"))
      (state_of (demo_public (ReplayKafkaDeadletter "1")) demo_deadlettered)
    = Err (NotFound "deadletter not found or already replayed").
Proof.
  assert (H : is_ok (value_of (demo_public (ReplayKafkaDeadletter "1")) demo_deadlettered) = true)
    by (vm_compute; reflexivity).
  split; [exact H|].
  destruct (@replay_answered_once demo_env demo_serde demo_pg demo_axum demo_probes
    (λ _, None) demo_request "1" demo_deadlettered H) as (_ & _ & _ & Hagain).
  apply (Hagain (λ _, None) demo_request
    (state_of (demo_public (ReplayKafkaDeadletter "1")) demo_deadlettered) eq_refl).
  - vm_compute. reflexivity.
  - reflexivity.
Defined.

Lemma operator_looks_witness :
  contents (w_db (state_of (demo_public DebugKafkaDeadletters) demo_deadlettered))
  = contents (w_db demo_deadlettered).
Proof.
  refine (proj1 (proj2 (@operator_looks demo_env demo_serde demo_pg demo_axum demo_probes
    (λ _, None) demo_request DebugKafkaDeadletters demo_deadlettered _ _))); discriminate.
Defined.

(** The tables of the deployment exist, since it reports ready. *)
Lemma ready_means_witness :
  "messages"%string ∈ db_tables (w_db demo_deadlettered).
Proof.
  refine (proj1 (proj2 (proj2 (@ready_means demo_env demo_pg demo_probes demo_deadlettered) _))
    _ "messages"%string _).
  - vm_compute. reflexivity.
  - reflexivity.
  - apply (bool_decide_unpack _). vm_compute. exact I.
Defined.

(** Two requests without an identifier. *)
Definition demo_incoming : Incoming := mkIncoming (λ _, None) demo_request GET ["health"%string].
Definition demo_served : World := demo_world <| w_app := demo_state |>.

Lemma responses_identified_witness :
  NoDup (chosen_ids [demo_incoming; demo_incoming]
    (value_of (@serve_all demo_env toy_crypto ascii_lowercase demo_serde demo_pg demo_axum
       demo_probes demo_server [demo_incoming; demo_incoming]) demo_served)).
Proof.
  exact (proj1 (@responses_identified demo_env demo_env_laws toy_crypto ascii_lowercase demo_serde
    demo_pg demo_axum demo_probes demo_server [demo_incoming; demo_incoming] demo_served
    demo_state_wf)).
Defined.
