(* ===== verification/StartupSpec.v ===== *)
(** * A restart finds what the process before persisted

    From a reported success of the persistence task to the state of the next
    process; a start of the program is a restart of the system; the sessions
    found on disk. *)
From S2P Require Import Prelude Text Json Errors Env Secrets Config Models Records Snapshot.
From S2P Require Import EventBus Codec Tables Database Relational DatabaseSpec Store Callbacks.
From S2P Require Import Channels Outbox Restart Demo OutboxSpec SnapshotSpec MessageLog Keeps.
From S2P Require Import Queries QuerySpec WhatsappEvents EventSpec Startup System Bytes Sending.
From S2P Require Import Routes Router Workers Operator Deployment.

Section startup.
Context `{Env} `{Crypto} `{Serde} `{Postgres}.

(** ** What is persisted *)
(** The row of the snapshot is written, or nothing is and an error reported. *)
Lemma persist_store_row kafka now store d :
  let d' := state_of (persist_store store kafka now) d in
  (db_snapshots d' = db_snapshots d ∧ ∃ e, value_of (persist_store store kafka now) d = Err e)
  ∨ ∃ v, store_to_value store = Ok v ∧ db_snapshots d' = <["main"%string := v]> (db_snapshots d).
Proof.
  cbv zeta. unfold persist_store, bindR. rewrite value_of_bind, state_of_bind.
  pose proof (persist_snapshot_atomic kafka store d) as Ha. cbv zeta in Ha.
  set (m := persist_snapshot_and_outbox kafka store) in *.
  assert (Hrel : db_snapshots (state_of (persist_relational store now) (state_of m d))
                 = db_snapshots (state_of m d)).
  { pose proof (frame_persist_relational store now (state_of m d)) as Hc.
    unfold contents in Hc. by injection Hc. }
  destruct Ha as [[Hc [e He]]|(v & Hv & Hsn & _)].
  - rewrite He. left. unfold contents in Hc. injection Hc as _ Hc _ _ _. split; [done|by exists e].
  - right. exists v. split; [done|]. destruct (value_of m d) as [[]|]; simpl; [by rewrite Hrel|done].
Qed.
Lemma persist_latest_row w store :
  let w' := state_of persist_latest_snapshot w in
  app_persisted (w_app w) = Some store →
  ((db_snapshots (w_db w') = db_snapshots (w_db w)
    ∧ ∃ e, value_of persist_latest_snapshot w = Err e)
   ∨ ∃ v, store_to_value store = Ok v
     ∧ db_snapshots (w_db w') = <["main"%string := v]> (db_snapshots (w_db w)))
  ∧ w_app w' = state_of now_utc (w_app w).
Proof.
  cbv zeta. intros Hp. set (task := let! now := on_app now_utc in
    on_db (persist_store store (cfg_kafka (app_config (w_app w))) now)).
  assert (E : persist_latest_snapshot w = task w) by (unfold persist_latest_snapshot; by rewrite Hp).
  assert (Es : state_of persist_latest_snapshot w = state_of task w) by (unfold state_of; by rewrite E).
  assert (Ev : value_of persist_latest_snapshot w = value_of task w) by (unfold value_of; by rewrite E).
  rewrite Es, Ev. unfold task.
  rewrite value_of_bind, state_of_bind, (proj2 (on_db_run _ _)), (proj1 (on_db_run _ _)).
  split; [apply persist_store_row|done].
Qed.

(** ** What a start reads *)
Lemma begin_process_run h new w :
  state_of (begin_process h new;;; ret (Ok tt : result unit string)) w
  = w <| w_app := state_of (upgrade_legacy_callback_secrets (host_nonce h))
                    (outlives (w_app w) new) |>.
Proof.
  rewrite state_of_bind. unfold begin_process, on_app, state_of. simpl.
  by destruct (upgrade_legacy_callback_secrets _ _).
Qed.

(** A start that fails leaves the process alone. *)
Lemma from_config_failed h config w e :
  value_of (from_config h config) w = Err e → w_app (state_of (from_config h config) w) = w_app w.
Proof.
  unfold from_config. case_decide.
  - destruct (bus_of h config false); [|done]. by rewrite value_of_bind.
  - destruct (connect h config); [|done]. unfold bindR at 1 3.
    rewrite value_of_bind, state_of_bind, (proj2 (on_db_run _ _)), (proj1 (on_db_run _ _)).
    destruct (value_of (host_migrate h) (w_db w)); [|done].
    destruct (bus_of h config true); [|done]. unfold bindR.
    rewrite value_of_bind, state_of_bind, (proj2 (on_db_run _ _)), (proj1 (on_db_run _ _)).
    destruct (value_of load_snapshot _); [|done]. by rewrite value_of_bind.
Qed.
(** A start leaves the row of the snapshot. *)
Lemma from_config_row h config w :
  (∀ d, db_snapshots (state_of (host_migrate h) d) = db_snapshots d) →
  db_snapshots (w_db (state_of (from_config h config) w)) = db_snapshots (w_db w).
Proof.
  intros Hm.
  assert (Hd : ∀ {A} (m : D A), (∀ d, db_snapshots (state_of m d) = db_snapshots d) →
    frame (λ w, db_snapshots (w_db w)) (on_db m)).
  { intros A m Hf x. rewrite (proj1 (on_db_run _ _)). apply Hf. }
  assert (Hl : ∀ d, db_snapshots (state_of load_snapshot d) = db_snapshots d).
  { intros d. pose proof (load_leaves d) as Hc. unfold contents in Hc. by injection Hc. }
  revert w. change (frame (λ w, db_snapshots (w_db w)) (from_config h config)).
  assert (Hbegin : ∀ new, frame (λ w, db_snapshots (w_db w))
    (begin_process h new;;; ret (Ok tt : result unit string))).
  { intros new x. by rewrite begin_process_run. }
  unfold from_config. case_decide.
  - destruct (bus_of h config false); [apply Hbegin|apply frame_ret].
  - destruct (connect h config); [|apply frame_ret].
    apply frame_bindR; [by apply Hd|]. intros _.
    destruct (bus_of h config true); [|apply frame_ret].
    apply frame_bindR; [by apply Hd|]. intros loaded. apply Hbegin.
Qed.

(** A start that succeeds: the process it begins, and the snapshot it loads. *)
Lemma from_config_run h config w :
  value_of (from_config h config) w = Ok tt →
  ∃ has_sink bus loaded,
    w_app (state_of (from_config h config) w)
      = state_of (upgrade_legacy_callback_secrets (host_nonce h))
          (outlives (w_app w) (app_with config has_sink bus loaded))
    ∧ if decide (cfg_metadata_db config = DbPostgres)
      then value_of load_snapshot (state_of (host_migrate h) (w_db w)) = Ok loaded
      else loaded = dev_state_path (host_var h) config ≫= load_dev_state h.
Proof.
  unfold from_config. destruct (decide (cfg_metadata_db config = DbPostgres)) as [Hm|Hm].
  - rewrite decide_False by tauto. destruct (connect h config); [|done].
    unfold bindR at 1 3. rewrite value_of_bind, state_of_bind, (proj2 (on_db_run _ _)), (proj1 (on_db_run _ _)).
    destruct (value_of (host_migrate h) (w_db w)); [|done].
    destruct (bus_of h config true) as [bus|]; [|done].
    unfold bindR. rewrite value_of_bind, state_of_bind, (proj2 (on_db_run _ _)), (proj1 (on_db_run _ _)).
    destruct (value_of load_snapshot _) as [loaded|] eqn:E; [|done]. intros _.
    exists true, bus, loaded. split; [by rewrite begin_process_run|done].
  - rewrite decide_True by done. destruct (bus_of h config false) as [bus|]; [|done]. intros _.
    exists (bool_decide (is_Some (dev_state_path (host_var h) config))), bus,
      (dev_state_path (host_var h) config ≫= load_dev_state h).
    split; [by rewrite begin_process_run|done].
Qed.

(** The upgrade of the legacy secrets changes the callbacks only. *)
Lemma frame_upgrade nonce :
  frame (λ s, app_inner s <| st_callbacks := ∅ |>) (upgrade_legacy_callback_secrets nonce).
Proof.
  unfold upgrade_legacy_callback_secrets, get_config, get_inner. frame_tac.
  intros x. by rewrite persist_locked_inner.
Qed.

(** C3. What the store of a process is after its snapshot has been persisted and a
    new process has read it: the same, but for the callbacks, whose legacy
    secrets are encrypted, the work in flight, which is forgotten, and the keys
    of the group refreshes, which are normalized.  The hypotheses: serde reads
    the snapshot back; the migrations, which ran before, leave the row; nothing
    in the store is of the kind the sanitizing pass drops. *)
Theorem restart_restores h config w w1 i :
  clean (unsanitized i) →
  app_persisted (w_app w) = Some (from_inner i) →
  value_of persist_latest_snapshot w = Ok tt →
  db_snapshots (w_db w1) = db_snapshots (w_db (state_of persist_latest_snapshot w)) →
  (∀ v, store_to_value (from_inner i) = Ok v → store_from_value v = Ok (from_inner i)) →
  (∀ d, db_snapshots (state_of (host_migrate h) d) = db_snapshots d) →
  cfg_metadata_db config = DbPostgres →
  value_of (from_config h config) w1 = Ok tt →
  app_inner (w_app (state_of (from_config h config) w1)) <| st_callbacks := ∅ |>
  = i <| st_callbacks := ∅ |>
      <| st_media_upload_idempotency_inflight := ∅ |> <| st_internal_processed_event_ids := ∅ |>
      <| st_group_profile_refreshes ::= normalize_group_profile_refreshes |>.
Proof.
  intros Hc Hp Hok Hsn Hserde Hmig Hcfg Hstart.
  destruct (proj1 (persist_latest_row w _ Hp)) as [[_ [e He]]|(v & Hv & Hmain)]; [congruence|].
  destruct (from_config_run h config w1 Hstart) as (sink & bus & loaded & -> & Hl).
  rewrite decide_True in Hl by done. apply load_reads in Hl.
  rewrite Hmig, Hsn, Hmain, lookup_insert_eq in Hl. destruct Hl as (store & Hs & ->).
  rewrite (Hserde v Hv) in Hs. injection Hs as <-.
  etrans; [apply frame_upgrade|].
  change (app_inner (outlives (w_app w1) (app_with config sink bus (Some (from_inner i)))))
    with (into_inner (from_inner i)). by rewrite (roundtrip_store i Hc).
Qed.
End startup.

(** ** Deployments

    The process, the database and the broker together, across restarts of the
    process.  Between operations anything may happen to the broker and to the
    tables but the row of the snapshot, which the persistence task alone writes. *)
Section deployment.
Context `{Env} {EL : EnvLaws} `{Crypto} `{RawCodec} `{Lowercase} `{Serde} `{Postgres} `{KafkaClient}.
Context (parse_url : string → result Callbacks.Url string).

(** The snapshot file holds what the process gave to it. *)
Definition files_persisted (h : Host) (w : World) : Prop :=
  ∀ path p, load_dev_state h path = Some p → p ∈ app_snapshots (w_app w).
(** Migrations leave the row of the snapshot. *)
Definition migrations_apart (h : Host) : Prop :=
  ∀ d, db_snapshots (state_of (host_migrate h) d) = db_snapshots d.

(** What runs over the database and the broker: requests from outside, the
    publishers, the drainer, the workers. *)
Inductive Activity :=
| Serve (ax : Axum) (pb : Probes) (sv : Server) (r : Incoming)
| PublishFromChannel
| PublishOutbox (worker_id : string)
| Drain (io : ByteIo) (answers : Answers) (worker_id : string)
| Consume (o : Outside) (io : ByteIo) (answers : Answers) (group_id : string)
    (message : result KafkaMessage string).
Definition perform (activity : Activity) : W unit :=
  match activity with
  | Serve ax pb sv r => let! _ := serve_one ax pb sv r in ret tt
  | PublishFromChannel => spawn_kafka_publisher_step
  | PublishOutbox worker_id => spawn_outbox_publisher_step worker_id
  | Drain io ans worker_id =>
    spawn_postgres_event_drainer_step io (ans_send_media ans) (ans_send_text ans) (ans_respond ans)
      worker_id
  | Consume o io ans group_id message =>
    spawn_worker_step o io (ans_send_media ans) (ans_send_text ans) (ans_respond ans)
      group_id message
  end.
Lemma tends_perform activity : tends (perform activity).
Proof.
  destruct activity; simpl.
  - apply tends_bind; [apply tends_serve_one|]. intros a. apply tends_ret.
  - apply tends_from_channel.
  - apply tends_publisher.
  - apply tends_drainer.
  - apply tends_worker.
Qed.

Inductive deployed : World → Prop :=
| deployed_new config has_sink bus nonce db kafka :
    db_snapshots db = ∅ →
    deployed (mkWorld (started (app_with config has_sink bus None) nonce) db kafka)
| deployed_exec op w :
    deployed w → deployed (state_of (on_app (exec parse_url op)) w)
| deployed_perform activity w :
    deployed w → deployed (state_of (perform activity) w)
| deployed_blocks op m w :
    deployed w → blocks_of op m → deployed (state_of (on_app m) w)
| deployed_publisher worker_id m w :
    deployed w → block_of (spawn_outbox_publisher_blocks worker_id) m → deployed (state_of m w)
| deployed_persist w :
    deployed w → deployed (state_of persist_latest_snapshot w)
| deployed_other w db kafka :
    deployed w → db_snapshots db = db_snapshots (w_db w) → deployed (mkWorld (w_app w) db kafka)
| deployed_start h config w :
    deployed w → files_persisted h w → migrations_apart h →
    deployed (state_of (from_config h config) w).

(** The row of the snapshot holds one of the snapshots of the process. *)
Definition row_persisted (w : World) : Prop :=
  ∀ v, db_snapshots (w_db w) !! "main"%string = Some v →
  ∃ p, store_to_value p = Ok v ∧ p ∈ app_snapshots (w_app w).

Lemma row_grows w w' :
  app_snapshots (w_app w) ⊆ app_snapshots (w_app w') →
  db_snapshots (w_db w') = db_snapshots (w_db w) → row_persisted w → row_persisted w'.
Proof.
  intros Hs Hd Hr v Hv. rewrite Hd in Hv. destruct (Hr v Hv) as (p & ? & ?). exists p.
  split; [done|by apply Hs].
Qed.

(** What a task that tends the deployment leaves. *)
Lemma tends_inv {A} (m : W A) w :
  tends m → WF (w_app w) ∧ (Z.of_nat (app_uuids (w_app w)) ≤ i64_max → row_persisted w) →
  WF (w_app (state_of m w))
  ∧ (Z.of_nat (app_uuids (w_app (state_of m w))) ≤ i64_max → row_persisted (state_of m w)).
Proof.
  intros Hm [Hw Hr]. destruct (Hm (app_uuids (w_app w), app_snapshots (w_app w))
    (db_snapshots (w_db w)) w) as [[Hu Hs Hw'] Hd]; [done|].
  split; [done|]. intros Hb. apply (row_grows w); [exact Hs|done|]. apply Hr. simpl in Hu. lia.
Qed.

(** Reading back a written row gives the snapshot that was written. *)
Hypothesis Hserde : ∀ p v p', store_to_value p = Ok v → store_from_value v = Ok p' → p' = p.

Lemma deployed_inv w :
  deployed w →
  WF (w_app w) ∧ (Z.of_nat (app_uuids (w_app w)) ≤ i64_max → row_persisted w).
Proof.
  induction 1 as [config sink bus nonce db kafka Hdb|op w _ [Hw Hr]|activity w _ [Hw Hr]
                 |op m w _ [Hw Hr] Hm|worker m w _ [Hw Hr] Hm|w _ [Hw Hr]
                 |w db kafka _ [Hw Hr] Hdb|h config w _ [Hw Hr] Hf Hm].
  - split; [by apply (reachable_wf parse_url), reachable_new|]. intros _ v. simpl. by rewrite Hdb.
  - rewrite (proj1 (on_app_run _ _)). simpl.
    destruct (keeps_since _ _ (keeps_exec parse_url op) Hw) as [Hu Hs Hw']. split; [done|].
    intros Hb. apply (row_grows w); [exact Hs|done|]. apply Hr. simpl in Hu. lia.
  - by apply (tends_inv _ w (tends_perform activity)).
  - by apply (tends_inv _ w (tends_app m (keeps_blocks op m Hm))).
  - by apply (tends_inv _ w (tends_block _ m (tends_publisher_blocks worker) Hm)).
  - destruct (app_persisted (w_app w)) as [p|] eqn:Hp.
    2: { unfold persist_latest_snapshot, state_of. by rewrite Hp. }
    destruct (persist_latest_row w p Hp) as [Hrow Ha]. rewrite Ha.
    split; [by apply keeps_wf; [apply keeps_now|]|]. intros Hb.
    destruct Hrow as [[Hsn _]|(v & Hv & Hsn)].
    + by apply (row_grows w); [rewrite Ha|done|apply Hr].
    + intros v' Hv'. rewrite Hsn, lookup_insert_eq in Hv'. injection Hv' as <-.
      exists p. split; [done|]. rewrite Ha. destruct Hw as [_ [_ Hin]]; [done|]. by apply Hin.
  - split; [done|]. intros Hb. by apply (row_grows w); [|done|apply Hr].
  - destruct (value_of (from_config h config) w) as [[]|e] eqn:Hv.
    + destruct (from_config_run h config w Hv) as (sink & bus & loaded & Ha & Hl). rewrite Ha.
      set (new := outlives (w_app w) (app_with config sink bus loaded)).
      assert (Hn : Z.of_nat (app_uuids (w_app w)) ≤ i64_max →
        ∀ p, loaded = Some p → p ∈ app_snapshots (w_app w)).
      { intros Hb p ->. case_decide.
        - apply load_reads in Hl. rewrite Hm in Hl.
          destruct (_ !! _) as [v|] eqn:E in Hl; [|done].
          destruct Hl as (p' & Hp' & [= <-]). destruct (Hr Hb v E) as (p0 & Hp0 & Hin).
          by rewrite (Hserde _ _ _ Hp0 Hp').
        - destruct (dev_state_path _ _) as [path|]; [|done]. by apply (Hf path). }
      assert (Hnew : WF new).
      { intros Hb. apply restart_wf; [done|by apply Hn|done]. }
      destruct (keeps_since _ _ (keeps_upgrade (host_nonce h)) Hnew) as [Hu Hs Hw'].
      split; [done|]. intros Hb.
      apply (row_grows w); [by rewrite Ha|by apply from_config_row|apply Hr]. simpl in Hu. lia.
    + rewrite (from_config_failed _ _ _ _ Hv). split; [done|]. intros Hb.
      apply (row_grows w); [by rewrite (from_config_failed _ _ _ _ Hv)|by apply from_config_row|by apply Hr].
Qed.

(** C2. Durability.  In every state of a deployment, in any interleaving of its
    operations, the requests it serves, its publishers (block by block), its
    drainer and its Kafka workers with the persistence task, with any failure of the database and of
    the broker and any restarts, the message log of the process is well formed,
    and so is the log a process that started now would read from the database. *)
Theorem deployment_log_ok w :
  deployed w → Z.of_nat (app_uuids (w_app w)) ≤ i64_max →
  log_ok (app_inner (w_app w))
  ∧ ∀ v p, db_snapshots (w_db w) !! "main"%string = Some v → store_from_value v = Ok p →
      log_ok (into_inner p).
Proof.
  intros Hd Hb. destruct (deployed_inv w Hd) as [Hw Hr]. destruct (Hw Hb) as [[Hl _] [Hs _]].
  split; [done|]. intros v p Hv Hp. destruct (Hr Hb v Hv) as (p0 & Hp0 & Hin).
  rewrite (Hserde _ _ _ Hp0 Hp). rewrite Forall_forall in Hs.
  destruct (Hs p0 Hin) as (i & Hi & ->). by apply (restored_wf _ i Hi).
Qed.
End deployment.

(** ** A deployment that is restarted *)
(** A server that can store one snapshot. *)
Definition demo_pg_for (p0 : PersistedStore) : Postgres := {|
  pg_call := λ _, PgDone;
  pg_now := λ n, seconds (2000 + Z.of_nat n);
  pg_error := λ _, "refused"%string;
  pg_uuid := λ n, pretty n;
  parse_uuid := Some;
  timestamptz := λ t, t;
  store_to_value := λ p, if decide (p = p0) then Ok VNull else Err "another snapshot"%string;
  store_from_value := λ v, if decide (v = VNull) then Ok p0 else Err "no snapshot"%string
|}.
Lemma demo_pg_for_reads p0 p v :
  @store_to_value (demo_pg_for p0) p = Ok v → @store_from_value (demo_pg_for p0) v = Ok p.
Proof. simpl. case_decide; [|done]. intros [= <-]. subst. by rewrite decide_True. Qed.
Definition demo_host : Host := {|
  host_var := λ _, None; host_read := λ _, None;
  host_parse_store := λ _, Err "no file"%string;
  host_connect := λ _, Ok tt; host_migrate := ret (Ok tt);
  host_existing_topics := Ok []; host_create_client := λ _, Ok tt;
  host_create_topics := λ _, Ok []; host_nonce := λ _, None
|}.
Definition postgres_config : AppConfig :=
  default_config <| cfg_metadata_db := DbPostgres |>
    <| cfg_database_url := Some "postgres://localhost/rustzap"%string |>.

(** The state of the concrete run, persisted; then a new process. *)
Definition demo_before : World :=
  mkWorld (demo_state <| app_persisted := Some (@from_inner demo_env (app_inner demo_state)) |>)
    demo_db demo_broker.
Definition demo_saved : Postgres := demo_pg_for (@from_inner demo_env (app_inner demo_state)).
Definition demo_after : World :=
  state_of (@persist_latest_snapshot demo_env demo_saved) demo_before.
Definition demo_again : World :=
  state_of (@from_config demo_env toy_crypto demo_saved demo_host postgres_config) demo_after.

Lemma restart_restores_witness :
  size (st_messages_by_id (app_inner (w_app demo_again))) = 2%nat
  ∧ app_inner (w_app demo_again) <| st_callbacks := ∅ |>
    = app_inner demo_state <| st_callbacks := ∅ |>
        <| st_media_upload_idempotency_inflight := ∅ |> <| st_internal_processed_event_ids := ∅ |>
        <| st_group_profile_refreshes ::= @normalize_group_profile_refreshes demo_env |>.
Proof.
  split; [vm_compute; reflexivity|].
  apply (@restart_restores demo_env toy_crypto demo_saved demo_host postgres_config
           demo_before demo_after (app_inner demo_state) demo_clean eq_refl).
  - vm_compute. reflexivity.
  - reflexivity.
  - intros v Hv. by apply demo_pg_for_reads.
  - done.
  - done.
  - vm_compute. reflexivity.
Defined.

(** A message is received and persisted; the process stops, another one starts. *)
Definition demo_last : PersistedStore :=
  match app_persisted demo_reached with Some p => p | None => demo_store end.
Definition demo_kept : Postgres := demo_pg_for demo_last.
Definition demo_deployment : World :=
  state_of (@from_config demo_env toy_crypto demo_kept demo_host postgres_config)
    (state_of (@persist_latest_snapshot demo_env demo_kept)
      (state_of (on_app (@exec demo_env toy_crypto no_raw_events ascii_lowercase (λ _, Err ""%string)
                           demo_operation)) (mkWorld demo_started demo_db demo_broker))).

Lemma deployment_log_ok_witness :
  size (st_messages_by_id (app_inner (w_app demo_deployment))) = 1%nat
  ∧ log_ok (app_inner (w_app demo_deployment)).
Proof.
  split; [vm_compute; reflexivity|].
  refine (proj1 (@deployment_log_ok demo_env demo_env_laws toy_crypto no_raw_events ascii_lowercase
    demo_serde demo_kept demo_kafka (λ _, Err ""%string) _ demo_deployment _ _)).
  - intros p v p' Hp Hp'. unfold demo_kept in *. apply demo_pg_for_reads in Hp.
    rewrite Hp in Hp'. by injection Hp'.
  - apply deployed_start; [|intros path p E; by vm_compute in E|intros d; reflexivity]. apply deployed_persist, deployed_exec, deployed_new. done.
  - vm_compute. discriminate.
Defined.
